(** * babylon_ros: the RobotScene controller

    A shallow embedding of [src/RobotScene.ts].  The source file holds two
    editions of the [RobotScene] class:

    - the _immersive_ edition (lines 21-1705): 3D GUI, [status3DText],
      [setupJointSelection], default camera angle [-Math.PI / 3];
    - the _desktop_ edition (lines 1727-3424): fullscreen 2D GUI, mesh-load
      progress tracking ([setLoadProgressCallback], [updateOverallProgress]),
      default camera angle [2 * Math.PI / 3].

    Both are modelled by one state record [RobotScene] whose field
    [edition] says which class the instance belongs to; the methods branch on
    it exactly where the two texts differ.

    Conventions.
    - A JavaScript [number] is modelled as a rational ([Q]); IEEE rounding is
      not modelled.  [NaN] is modelled as [None] where the code tests for it.
    - Object identity ([===] on objects) is modelled by unique identifiers.
    - [console.log], [console.error], [vscode.postMessage], the progress
      callback and [setTimeout] are modelled by append-only output fields of
      the state.
    - Code of the repository that is not part of the sources at hand
      ([urdf.ts], [Robot.ts]) is taken as a parameter, or modelled from the
      specification where a statement is about that code itself. *)

From Stdlib Require Import ZArith QArith Qround Qabs List String Ascii Bool Lia.
From Stdlib Require Import DecimalString DecimalNat FinFun.
Import ListNotations.

Set Implicit Arguments.

(** ** JavaScript built-ins *)

Module JS.

Definition Math_PI : Q := 884279719003555 # 281474976710656.

Definition Number_MAX_VALUE : Q := inject_Z (2 ^ 1024 - 2 ^ 971).

Definition ltb (a b : Q) : bool := negb (Qle_bool b a).

Definition gtb (a b : Q) : bool := ltb b a.

Definition eqb (a b : Q) : bool := Qeq_bool a b.

Definition Math_abs (a : Q) : Q := Qabs a.

Definition Math_max (a b : Q) : Q := if Qle_bool a b then b else a.

Definition Math_min (a b : Q) : Q := if Qle_bool a b then a else b.

(** [`${n}`] for a non-negative integer. *)
Definition decimal (n : nat) : string := NilEmpty.string_of_uint (Nat.to_uint n).

Fixpoint zeros (n : nat) : string :=
  match n with
  | O => EmptyString
  | S k => String "0" (zeros k)
  end.

(** [x.toFixed(digits)] for a number of magnitude below 10^21: the nearest
    multiple of [10^-digits], ties upward in magnitude, printed with exactly
    [digits] fractional digits.  From 10^21 on the source prints an exponent,
    which this does not; the coordinates and limits printed here are far
    below. *)
Definition toFixed (x : Q) (digits : nat) : string :=
  let scale := (10 ^ Z.of_nat digits)%Z in
  let n := Qfloor (Qabs x * inject_Z scale + (1 # 2)) in
  let whole := decimal (Z.to_nat (n / scale)) in
  let frac := decimal (Z.to_nat (n mod scale)) in
  let sign := if ltb x 0 then "-"%string else EmptyString in
  match digits with
  | O => (sign ++ whole)%string
  | _ => (sign ++ whole ++ "." ++ zeros (digits - String.length frac) ++ frac)%string
  end.

(** An insertion-ordered [Map<string, V>]. *)
Module Map.

Definition t (V : Type) : Type := list (string * V).

Definition empty {V : Type} : t V := [].

Fixpoint get {V : Type} (m : t V) (k : string) : option V :=
  match m with
  | [] => None
  | (k', v) :: rest => if String.eqb k' k then Some v else get rest k
  end.

(** [m.set(k, v)]: an existing key keeps its place, a new key goes last. *)
Fixpoint set {V : Type} (m : t V) (k : string) (v : V) : t V :=
  match m with
  | [] => [(k, v)]
  | (k', v') :: rest =>
      if String.eqb k' k then (k', v) :: rest else (k', v') :: set rest k v
  end.

Definition keys {V : Type} (m : t V) : list string := List.map fst m.

Definition values {V : Type} (m : t V) : list V := List.map snd m.

Definition size {V : Type} (m : t V) : nat := List.length m.

End Map.

End JS.

(** ** The rendering engine's data, as far as the controller reads it *)

Module BABYLON.

Record Vector3 : Type := mkVector3 { x : Q; y : Q; z : Q }.

Definition Vector3_Zero : Vector3 := mkVector3 0 0 0.

Definition Vector3_Minimize (a b : Vector3) : Vector3 :=
  mkVector3 (JS.Math_min (x a) (x b)) (JS.Math_min (y a) (y b)) (JS.Math_min (z a) (z b)).

Definition Vector3_Maximize (a b : Vector3) : Vector3 :=
  mkVector3 (JS.Math_max (x a) (x b)) (JS.Math_max (y a) (y b)) (JS.Math_max (z a) (z b)).

Definition Vector3_Center (a b : Vector3) : Vector3 :=
  mkVector3 ((x a + x b) * (1 # 2)) ((y a + y b) * (1 # 2)) ((z a + z b) * (1 # 2)).

Definition subtract (a b : Vector3) : Vector3 :=
  mkVector3 (x a - x b) (y a - y b) (z a - z b).

(** [Color3.Red()], [Color3.Green()], [Color3.Blue()]. *)
Inductive Color3 : Type := Red | Green | Blue.

Record TransformNode : Type := mkTransformNode {
  uniqueId : nat;
  position : Vector3;
  rotation : Vector3
}.

Record AbstractMesh : Type := mkAbstractMesh {
  meshUniqueId : nat;
  parent : option nat;
  minimumWorld : Vector3;
  maximumWorld : Vector3
}.

Record ArcRotateCamera : Type := mkArcRotateCamera {
  alpha : Q;
  beta : Q;
  radius : Q;
  target : Vector3
}.

(** [a.equals(b)] on vectors. *)
Definition Vector3_equals (a b : Vector3) : bool :=
  Qeq_bool (x a) (x b) && Qeq_bool (y a) (y b) && Qeq_bool (z a) (z b).

(** [camera.target = target] on an [ArcRotateCamera].  The setter is the
    library's [setTarget]: when the new target equals the one the camera has,
    it returns at once and alpha, beta and radius stay as they are; otherwise
    it replaces the target and rebuilds alpha, beta and radius from the
    position of the camera, which assignments to the angles do not move
    before the next frame.  [rebuilt] carries what they are rebuilt to. *)
Definition set_target (rebuilt : ArcRotateCamera) (target : Vector3)
  (camera : ArcRotateCamera) : ArcRotateCamera :=
  if Vector3_equals (BABYLON.target camera) target
  then mkArcRotateCamera (alpha camera) (beta camera) (radius camera) target
  else mkArcRotateCamera (alpha rebuilt) (beta rebuilt) (radius rebuilt) target.

Record ISceneLoaderProgressEvent : Type := mkProgressEvent {
  lengthComputable : bool;
  loaded : Q;
  total : Q
}.

End BABYLON.

(** ** The robot model ([Joint.ts], [Link.ts], [Visual.ts], [Geometry*.ts])

    Only the fields that [RobotScene] reads are kept. *)

Inductive JointType : Type :=
  | Fixed | Revolute | Continuous | Prismatic | Floating | Planar.

(** The string values of the [JointType] enum. *)
Definition JointType_value (t : JointType) : string :=
  match t with
  | Fixed => "fixed"
  | Revolute => "revolute"
  | Continuous => "continuous"
  | Prismatic => "prismatic"
  | Floating => "floating"
  | Planar => "planar"
  end.

Definition JointType_eqb (a b : JointType) : bool :=
  match a, b with
  | Fixed, Fixed | Revolute, Revolute | Continuous, Continuous
  | Prismatic, Prismatic | Floating, Floating | Planar, Planar => true
  | _, _ => false
  end.

(** The class of a geometry object; [Mesh] is the one loaded from a file. *)
Inductive GeometryClass : Type := Box | Sphere | Cylinder | Mesh.

Module Geometry.

Record t : Type := mk {
  class : GeometryClass;
  meshes : option (list BABYLON.AbstractMesh)
}.

(** [geometry instanceof Mesh] *)
Definition instanceofMesh (g : t) : bool :=
  match class g with
  | Mesh => true
  | _ => false
  end.

End Geometry.

Module Visual.

Record t : Type := mk {
  name : string;
  geometry : option Geometry.t
}.

End Visual.

Module Link.

Record t : Type := mk {
  name : string;
  visuals : list Visual.t
}.

End Link.

Module Joint.

(** [child] is the back-reference to the child [Link] object; the object is
    shared with [Robot.links], so the reference is kept as the link's key there.
    [lowerLimit] and [upperLimit] are [None] when they are [NaN]. *)
Record t : Type := mk {
  name : string;
  type : JointType;
  axis : BABYLON.Vector3;
  lowerLimit : option Q;
  upperLimit : option Q;
  transform : option BABYLON.TransformNode;
  child : option string
}.

End Joint.

Module Robot.

Record t : Type := mk {
  links : JS.Map.t Link.t;
  joints : JS.Map.t Joint.t
}.

End Robot.

(** A [Joint] object: the robot it was allocated with and its key in
    [Robot.joints].  Two references are the same object iff they are equal. *)
Definition JointRef : Type := (nat * string)%type.

Definition JointRef_eqb (a b : JointRef) : bool :=
  Nat.eqb (fst a) (fst b) && String.eqb (snd a) (snd b).

(** ** The exercise gizmos ([JointRotationGizmo.ts], [JointPositionGizmo.ts])

    Only the constructor arguments and the properties that [RobotScene]
    assigns are kept. *)

Module JointRotationGizmo.

Record t : Type := mk {
  associatedJoint : JointRef;
  color : BABYLON.Color3;
  scaleRatio : Q;
  attachedNode : option nat;
  enableLimits : bool;
  dragObservers : nat
}.

(** [new JointRotationGizmo(joint, color, layer)] *)
Definition new (joint : JointRef) (c : BABYLON.Color3) : t :=
  mk joint c 1 None true 0.

End JointRotationGizmo.

Module JointPositionGizmo.

Record t : Type := mk {
  associatedJoint : JointRef;
  color : BABYLON.Color3;
  scaleRatio : Q;
  attachedNode : option nat
}.

(** [new JointPositionGizmo(joint, color, layer)] *)
Definition new (joint : JointRef) (c : BABYLON.Color3) : t :=
  mk joint c 1 None.

End JointPositionGizmo.

(** ** The state of a [RobotScene] *)

(** Which of the two [RobotScene] classes of the source an instance is. *)
Inductive Edition : Type := Immersive | Desktop.

(** One call of the progress callback: [(loaded, total, progress)]. *)
Record ProgressReport : Type := mkReport {
  reportLoaded : Z;
  reportTotal : Z;
  reportProgress : Q
}.

(** The fields up to [onProgressCallback] are fields of the class
    ([scene] records whether [this.scene] is defined, [onProgressCallback]
    whether a callback is registered).  The remaining fields record what the
    methods do to the outside:
    - [robotsAllocated]: how many [Robot] objects [applyURDF] has received;
    - [disposedRobots]: the robots on which [dispose()] was called;
    - [liveExerciseGizmos]: exercise gizmos constructed and not yet disposed;
    - [timers]: pending [setTimeout] callbacks that call [frameModel];
    - [framingsRequested]: how many such callbacks were ever scheduled;
    - [progressReports]: the calls of the progress callback, oldest first;
    - [console], [consoleErrors]: lines of [console.log], [console.error];
    - [posted]: [(command, text)] of each [vscode.postMessage]. *)
Record RobotScene : Type := mkRobotScene {
  edition : Edition;
  scene : bool;
  camera : option BABYLON.ArcRotateCamera;
  currentURDF : option string;
  currentRobot : option (nat * Robot.t);
  statusLabel : string;
  status3DText : option string;
  hoveredJoint : option JointRef;
  planeRotationGizmo : option JointRotationGizmo.t;
  planePositionGizmo : option JointPositionGizmo.t;
  hasBeenFramed : bool;
  pendingMeshLoads : Z;
  savedFramingTarget : BABYLON.Vector3;
  savedFramingRadius : Q;
  savedFramingAlpha : Q;
  savedFramingBeta : Q;
  totalMeshes : Z;
  loadedMeshes : Z;
  meshLoadProgress : JS.Map.t Q;
  onProgressCallback : bool;
  robotsAllocated : nat;
  disposedRobots : list nat;
  liveExerciseGizmos : nat;
  timers : nat;
  framingsRequested : nat;
  progressReports : list ProgressReport;
  console : list string;
  consoleErrors : list string;
  posted : list (string * string)
}.

Definition set_scene (v : bool) (s : RobotScene) : RobotScene :=
  mkRobotScene (edition s) v (camera s) (currentURDF s) (currentRobot s) (statusLabel s)
    (status3DText s) (hoveredJoint s) (planeRotationGizmo s) (planePositionGizmo s)
    (hasBeenFramed s) (pendingMeshLoads s) (savedFramingTarget s) (savedFramingRadius s)
    (savedFramingAlpha s) (savedFramingBeta s) (totalMeshes s) (loadedMeshes s)
    (meshLoadProgress s) (onProgressCallback s) (robotsAllocated s) (disposedRobots s)
    (liveExerciseGizmos s) (timers s) (framingsRequested s) (progressReports s)
    (console s) (consoleErrors s) (posted s).

Definition set_camera (v : option BABYLON.ArcRotateCamera) (s : RobotScene) : RobotScene :=
  mkRobotScene (edition s) (scene s) v (currentURDF s) (currentRobot s) (statusLabel s)
    (status3DText s) (hoveredJoint s) (planeRotationGizmo s) (planePositionGizmo s)
    (hasBeenFramed s) (pendingMeshLoads s) (savedFramingTarget s) (savedFramingRadius s)
    (savedFramingAlpha s) (savedFramingBeta s) (totalMeshes s) (loadedMeshes s)
    (meshLoadProgress s) (onProgressCallback s) (robotsAllocated s) (disposedRobots s)
    (liveExerciseGizmos s) (timers s) (framingsRequested s) (progressReports s)
    (console s) (consoleErrors s) (posted s).

Definition set_currentURDF (v : option string) (s : RobotScene) : RobotScene :=
  mkRobotScene (edition s) (scene s) (camera s) v (currentRobot s) (statusLabel s)
    (status3DText s) (hoveredJoint s) (planeRotationGizmo s) (planePositionGizmo s)
    (hasBeenFramed s) (pendingMeshLoads s) (savedFramingTarget s) (savedFramingRadius s)
    (savedFramingAlpha s) (savedFramingBeta s) (totalMeshes s) (loadedMeshes s)
    (meshLoadProgress s) (onProgressCallback s) (robotsAllocated s) (disposedRobots s)
    (liveExerciseGizmos s) (timers s) (framingsRequested s) (progressReports s)
    (console s) (consoleErrors s) (posted s).

Definition set_currentRobot (v : option (nat * Robot.t)) (s : RobotScene) : RobotScene :=
  mkRobotScene (edition s) (scene s) (camera s) (currentURDF s) v (statusLabel s)
    (status3DText s) (hoveredJoint s) (planeRotationGizmo s) (planePositionGizmo s)
    (hasBeenFramed s) (pendingMeshLoads s) (savedFramingTarget s) (savedFramingRadius s)
    (savedFramingAlpha s) (savedFramingBeta s) (totalMeshes s) (loadedMeshes s)
    (meshLoadProgress s) (onProgressCallback s) (robotsAllocated s) (disposedRobots s)
    (liveExerciseGizmos s) (timers s) (framingsRequested s) (progressReports s)
    (console s) (consoleErrors s) (posted s).

Definition set_statusLabel (v : string) (s : RobotScene) : RobotScene :=
  mkRobotScene (edition s) (scene s) (camera s) (currentURDF s) (currentRobot s) v
    (status3DText s) (hoveredJoint s) (planeRotationGizmo s) (planePositionGizmo s)
    (hasBeenFramed s) (pendingMeshLoads s) (savedFramingTarget s) (savedFramingRadius s)
    (savedFramingAlpha s) (savedFramingBeta s) (totalMeshes s) (loadedMeshes s)
    (meshLoadProgress s) (onProgressCallback s) (robotsAllocated s) (disposedRobots s)
    (liveExerciseGizmos s) (timers s) (framingsRequested s) (progressReports s)
    (console s) (consoleErrors s) (posted s).

Definition set_status3DText (v : option string) (s : RobotScene) : RobotScene :=
  mkRobotScene (edition s) (scene s) (camera s) (currentURDF s) (currentRobot s)
    (statusLabel s) v (hoveredJoint s) (planeRotationGizmo s) (planePositionGizmo s)
    (hasBeenFramed s) (pendingMeshLoads s) (savedFramingTarget s) (savedFramingRadius s)
    (savedFramingAlpha s) (savedFramingBeta s) (totalMeshes s) (loadedMeshes s)
    (meshLoadProgress s) (onProgressCallback s) (robotsAllocated s) (disposedRobots s)
    (liveExerciseGizmos s) (timers s) (framingsRequested s) (progressReports s)
    (console s) (consoleErrors s) (posted s).

Definition set_hoveredJoint (v : option JointRef) (s : RobotScene) : RobotScene :=
  mkRobotScene (edition s) (scene s) (camera s) (currentURDF s) (currentRobot s)
    (statusLabel s) (status3DText s) v (planeRotationGizmo s) (planePositionGizmo s)
    (hasBeenFramed s) (pendingMeshLoads s) (savedFramingTarget s) (savedFramingRadius s)
    (savedFramingAlpha s) (savedFramingBeta s) (totalMeshes s) (loadedMeshes s)
    (meshLoadProgress s) (onProgressCallback s) (robotsAllocated s) (disposedRobots s)
    (liveExerciseGizmos s) (timers s) (framingsRequested s) (progressReports s)
    (console s) (consoleErrors s) (posted s).

Definition set_planeRotationGizmo (v : option JointRotationGizmo.t) (s : RobotScene) : RobotScene :=
  mkRobotScene (edition s) (scene s) (camera s) (currentURDF s) (currentRobot s)
    (statusLabel s) (status3DText s) (hoveredJoint s) v (planePositionGizmo s)
    (hasBeenFramed s) (pendingMeshLoads s) (savedFramingTarget s) (savedFramingRadius s)
    (savedFramingAlpha s) (savedFramingBeta s) (totalMeshes s) (loadedMeshes s)
    (meshLoadProgress s) (onProgressCallback s) (robotsAllocated s) (disposedRobots s)
    (liveExerciseGizmos s) (timers s) (framingsRequested s) (progressReports s)
    (console s) (consoleErrors s) (posted s).

Definition set_planePositionGizmo (v : option JointPositionGizmo.t) (s : RobotScene) : RobotScene :=
  mkRobotScene (edition s) (scene s) (camera s) (currentURDF s) (currentRobot s)
    (statusLabel s) (status3DText s) (hoveredJoint s) (planeRotationGizmo s) v
    (hasBeenFramed s) (pendingMeshLoads s) (savedFramingTarget s) (savedFramingRadius s)
    (savedFramingAlpha s) (savedFramingBeta s) (totalMeshes s) (loadedMeshes s)
    (meshLoadProgress s) (onProgressCallback s) (robotsAllocated s) (disposedRobots s)
    (liveExerciseGizmos s) (timers s) (framingsRequested s) (progressReports s)
    (console s) (consoleErrors s) (posted s).

Definition set_hasBeenFramed (v : bool) (s : RobotScene) : RobotScene :=
  mkRobotScene (edition s) (scene s) (camera s) (currentURDF s) (currentRobot s)
    (statusLabel s) (status3DText s) (hoveredJoint s) (planeRotationGizmo s)
    (planePositionGizmo s) v (pendingMeshLoads s) (savedFramingTarget s)
    (savedFramingRadius s) (savedFramingAlpha s) (savedFramingBeta s) (totalMeshes s)
    (loadedMeshes s) (meshLoadProgress s) (onProgressCallback s) (robotsAllocated s)
    (disposedRobots s) (liveExerciseGizmos s) (timers s) (framingsRequested s)
    (progressReports s) (console s) (consoleErrors s) (posted s).

Definition set_pendingMeshLoads (v : Z) (s : RobotScene) : RobotScene :=
  mkRobotScene (edition s) (scene s) (camera s) (currentURDF s) (currentRobot s)
    (statusLabel s) (status3DText s) (hoveredJoint s) (planeRotationGizmo s)
    (planePositionGizmo s) (hasBeenFramed s) v (savedFramingTarget s)
    (savedFramingRadius s) (savedFramingAlpha s) (savedFramingBeta s) (totalMeshes s)
    (loadedMeshes s) (meshLoadProgress s) (onProgressCallback s) (robotsAllocated s)
    (disposedRobots s) (liveExerciseGizmos s) (timers s) (framingsRequested s)
    (progressReports s) (console s) (consoleErrors s) (posted s).

Definition set_savedFramingTarget (v : BABYLON.Vector3) (s : RobotScene) : RobotScene :=
  mkRobotScene (edition s) (scene s) (camera s) (currentURDF s) (currentRobot s)
    (statusLabel s) (status3DText s) (hoveredJoint s) (planeRotationGizmo s)
    (planePositionGizmo s) (hasBeenFramed s) (pendingMeshLoads s) v
    (savedFramingRadius s) (savedFramingAlpha s) (savedFramingBeta s) (totalMeshes s)
    (loadedMeshes s) (meshLoadProgress s) (onProgressCallback s) (robotsAllocated s)
    (disposedRobots s) (liveExerciseGizmos s) (timers s) (framingsRequested s)
    (progressReports s) (console s) (consoleErrors s) (posted s).

Definition set_savedFramingRadius (v : Q) (s : RobotScene) : RobotScene :=
  mkRobotScene (edition s) (scene s) (camera s) (currentURDF s) (currentRobot s)
    (statusLabel s) (status3DText s) (hoveredJoint s) (planeRotationGizmo s)
    (planePositionGizmo s) (hasBeenFramed s) (pendingMeshLoads s) (savedFramingTarget s)
    v (savedFramingAlpha s) (savedFramingBeta s) (totalMeshes s) (loadedMeshes s)
    (meshLoadProgress s) (onProgressCallback s) (robotsAllocated s) (disposedRobots s)
    (liveExerciseGizmos s) (timers s) (framingsRequested s) (progressReports s)
    (console s) (consoleErrors s) (posted s).

Definition set_savedFramingAlpha (v : Q) (s : RobotScene) : RobotScene :=
  mkRobotScene (edition s) (scene s) (camera s) (currentURDF s) (currentRobot s)
    (statusLabel s) (status3DText s) (hoveredJoint s) (planeRotationGizmo s)
    (planePositionGizmo s) (hasBeenFramed s) (pendingMeshLoads s) (savedFramingTarget s)
    (savedFramingRadius s) v (savedFramingBeta s) (totalMeshes s) (loadedMeshes s)
    (meshLoadProgress s) (onProgressCallback s) (robotsAllocated s) (disposedRobots s)
    (liveExerciseGizmos s) (timers s) (framingsRequested s) (progressReports s)
    (console s) (consoleErrors s) (posted s).

Definition set_savedFramingBeta (v : Q) (s : RobotScene) : RobotScene :=
  mkRobotScene (edition s) (scene s) (camera s) (currentURDF s) (currentRobot s)
    (statusLabel s) (status3DText s) (hoveredJoint s) (planeRotationGizmo s)
    (planePositionGizmo s) (hasBeenFramed s) (pendingMeshLoads s) (savedFramingTarget s)
    (savedFramingRadius s) (savedFramingAlpha s) v (totalMeshes s) (loadedMeshes s)
    (meshLoadProgress s) (onProgressCallback s) (robotsAllocated s) (disposedRobots s)
    (liveExerciseGizmos s) (timers s) (framingsRequested s) (progressReports s)
    (console s) (consoleErrors s) (posted s).

Definition set_totalMeshes (v : Z) (s : RobotScene) : RobotScene :=
  mkRobotScene (edition s) (scene s) (camera s) (currentURDF s) (currentRobot s)
    (statusLabel s) (status3DText s) (hoveredJoint s) (planeRotationGizmo s)
    (planePositionGizmo s) (hasBeenFramed s) (pendingMeshLoads s) (savedFramingTarget s)
    (savedFramingRadius s) (savedFramingAlpha s) (savedFramingBeta s) v (loadedMeshes s)
    (meshLoadProgress s) (onProgressCallback s) (robotsAllocated s) (disposedRobots s)
    (liveExerciseGizmos s) (timers s) (framingsRequested s) (progressReports s)
    (console s) (consoleErrors s) (posted s).

Definition set_loadedMeshes (v : Z) (s : RobotScene) : RobotScene :=
  mkRobotScene (edition s) (scene s) (camera s) (currentURDF s) (currentRobot s)
    (statusLabel s) (status3DText s) (hoveredJoint s) (planeRotationGizmo s)
    (planePositionGizmo s) (hasBeenFramed s) (pendingMeshLoads s) (savedFramingTarget s)
    (savedFramingRadius s) (savedFramingAlpha s) (savedFramingBeta s) (totalMeshes s) v
    (meshLoadProgress s) (onProgressCallback s) (robotsAllocated s) (disposedRobots s)
    (liveExerciseGizmos s) (timers s) (framingsRequested s) (progressReports s)
    (console s) (consoleErrors s) (posted s).

Definition set_meshLoadProgress (v : JS.Map.t Q) (s : RobotScene) : RobotScene :=
  mkRobotScene (edition s) (scene s) (camera s) (currentURDF s) (currentRobot s)
    (statusLabel s) (status3DText s) (hoveredJoint s) (planeRotationGizmo s)
    (planePositionGizmo s) (hasBeenFramed s) (pendingMeshLoads s) (savedFramingTarget s)
    (savedFramingRadius s) (savedFramingAlpha s) (savedFramingBeta s) (totalMeshes s)
    (loadedMeshes s) v (onProgressCallback s) (robotsAllocated s) (disposedRobots s)
    (liveExerciseGizmos s) (timers s) (framingsRequested s) (progressReports s)
    (console s) (consoleErrors s) (posted s).

Definition set_onProgressCallback (v : bool) (s : RobotScene) : RobotScene :=
  mkRobotScene (edition s) (scene s) (camera s) (currentURDF s) (currentRobot s)
    (statusLabel s) (status3DText s) (hoveredJoint s) (planeRotationGizmo s)
    (planePositionGizmo s) (hasBeenFramed s) (pendingMeshLoads s) (savedFramingTarget s)
    (savedFramingRadius s) (savedFramingAlpha s) (savedFramingBeta s) (totalMeshes s)
    (loadedMeshes s) (meshLoadProgress s) v (robotsAllocated s) (disposedRobots s)
    (liveExerciseGizmos s) (timers s) (framingsRequested s) (progressReports s)
    (console s) (consoleErrors s) (posted s).

Definition set_robotsAllocated (v : nat) (s : RobotScene) : RobotScene :=
  mkRobotScene (edition s) (scene s) (camera s) (currentURDF s) (currentRobot s)
    (statusLabel s) (status3DText s) (hoveredJoint s) (planeRotationGizmo s)
    (planePositionGizmo s) (hasBeenFramed s) (pendingMeshLoads s) (savedFramingTarget s)
    (savedFramingRadius s) (savedFramingAlpha s) (savedFramingBeta s) (totalMeshes s)
    (loadedMeshes s) (meshLoadProgress s) (onProgressCallback s) v (disposedRobots s)
    (liveExerciseGizmos s) (timers s) (framingsRequested s) (progressReports s)
    (console s) (consoleErrors s) (posted s).

Definition set_disposedRobots (v : list nat) (s : RobotScene) : RobotScene :=
  mkRobotScene (edition s) (scene s) (camera s) (currentURDF s) (currentRobot s)
    (statusLabel s) (status3DText s) (hoveredJoint s) (planeRotationGizmo s)
    (planePositionGizmo s) (hasBeenFramed s) (pendingMeshLoads s) (savedFramingTarget s)
    (savedFramingRadius s) (savedFramingAlpha s) (savedFramingBeta s) (totalMeshes s)
    (loadedMeshes s) (meshLoadProgress s) (onProgressCallback s) (robotsAllocated s) v
    (liveExerciseGizmos s) (timers s) (framingsRequested s) (progressReports s)
    (console s) (consoleErrors s) (posted s).

Definition set_liveExerciseGizmos (v : nat) (s : RobotScene) : RobotScene :=
  mkRobotScene (edition s) (scene s) (camera s) (currentURDF s) (currentRobot s)
    (statusLabel s) (status3DText s) (hoveredJoint s) (planeRotationGizmo s)
    (planePositionGizmo s) (hasBeenFramed s) (pendingMeshLoads s) (savedFramingTarget s)
    (savedFramingRadius s) (savedFramingAlpha s) (savedFramingBeta s) (totalMeshes s)
    (loadedMeshes s) (meshLoadProgress s) (onProgressCallback s) (robotsAllocated s)
    (disposedRobots s) v (timers s) (framingsRequested s) (progressReports s)
    (console s) (consoleErrors s) (posted s).

Definition set_timers (v : nat) (s : RobotScene) : RobotScene :=
  mkRobotScene (edition s) (scene s) (camera s) (currentURDF s) (currentRobot s)
    (statusLabel s) (status3DText s) (hoveredJoint s) (planeRotationGizmo s)
    (planePositionGizmo s) (hasBeenFramed s) (pendingMeshLoads s) (savedFramingTarget s)
    (savedFramingRadius s) (savedFramingAlpha s) (savedFramingBeta s) (totalMeshes s)
    (loadedMeshes s) (meshLoadProgress s) (onProgressCallback s) (robotsAllocated s)
    (disposedRobots s) (liveExerciseGizmos s) v (framingsRequested s)
    (progressReports s) (console s) (consoleErrors s) (posted s).

Definition set_framingsRequested (v : nat) (s : RobotScene) : RobotScene :=
  mkRobotScene (edition s) (scene s) (camera s) (currentURDF s) (currentRobot s)
    (statusLabel s) (status3DText s) (hoveredJoint s) (planeRotationGizmo s)
    (planePositionGizmo s) (hasBeenFramed s) (pendingMeshLoads s) (savedFramingTarget s)
    (savedFramingRadius s) (savedFramingAlpha s) (savedFramingBeta s) (totalMeshes s)
    (loadedMeshes s) (meshLoadProgress s) (onProgressCallback s) (robotsAllocated s)
    (disposedRobots s) (liveExerciseGizmos s) (timers s) v (progressReports s)
    (console s) (consoleErrors s) (posted s).

Definition set_progressReports (v : list ProgressReport) (s : RobotScene) : RobotScene :=
  mkRobotScene (edition s) (scene s) (camera s) (currentURDF s) (currentRobot s)
    (statusLabel s) (status3DText s) (hoveredJoint s) (planeRotationGizmo s)
    (planePositionGizmo s) (hasBeenFramed s) (pendingMeshLoads s) (savedFramingTarget s)
    (savedFramingRadius s) (savedFramingAlpha s) (savedFramingBeta s) (totalMeshes s)
    (loadedMeshes s) (meshLoadProgress s) (onProgressCallback s) (robotsAllocated s)
    (disposedRobots s) (liveExerciseGizmos s) (timers s) (framingsRequested s) v
    (console s) (consoleErrors s) (posted s).

Definition set_console (v : list string) (s : RobotScene) : RobotScene :=
  mkRobotScene (edition s) (scene s) (camera s) (currentURDF s) (currentRobot s)
    (statusLabel s) (status3DText s) (hoveredJoint s) (planeRotationGizmo s)
    (planePositionGizmo s) (hasBeenFramed s) (pendingMeshLoads s) (savedFramingTarget s)
    (savedFramingRadius s) (savedFramingAlpha s) (savedFramingBeta s) (totalMeshes s)
    (loadedMeshes s) (meshLoadProgress s) (onProgressCallback s) (robotsAllocated s)
    (disposedRobots s) (liveExerciseGizmos s) (timers s) (framingsRequested s)
    (progressReports s) v (consoleErrors s) (posted s).

Definition set_consoleErrors (v : list string) (s : RobotScene) : RobotScene :=
  mkRobotScene (edition s) (scene s) (camera s) (currentURDF s) (currentRobot s)
    (statusLabel s) (status3DText s) (hoveredJoint s) (planeRotationGizmo s)
    (planePositionGizmo s) (hasBeenFramed s) (pendingMeshLoads s) (savedFramingTarget s)
    (savedFramingRadius s) (savedFramingAlpha s) (savedFramingBeta s) (totalMeshes s)
    (loadedMeshes s) (meshLoadProgress s) (onProgressCallback s) (robotsAllocated s)
    (disposedRobots s) (liveExerciseGizmos s) (timers s) (framingsRequested s)
    (progressReports s) (console s) v (posted s).

Definition set_posted (v : list (string * string)) (s : RobotScene) : RobotScene :=
  mkRobotScene (edition s) (scene s) (camera s) (currentURDF s) (currentRobot s)
    (statusLabel s) (status3DText s) (hoveredJoint s) (planeRotationGizmo s)
    (planePositionGizmo s) (hasBeenFramed s) (pendingMeshLoads s) (savedFramingTarget s)
    (savedFramingRadius s) (savedFramingAlpha s) (savedFramingBeta s) (totalMeshes s)
    (loadedMeshes s) (meshLoadProgress s) (onProgressCallback s) (robotsAllocated s)
    (disposedRobots s) (liveExerciseGizmos s) (timers s) (framingsRequested s)
    (progressReports s) (console s) (consoleErrors s) v.

(** [new RobotScene()]: the field initialisers of the class. *)
Definition defaultAlpha (e : Edition) : Q :=
  match e with
  | Immersive => - JS.Math_PI / 3
  | Desktop => 2 * JS.Math_PI / 3
  end.

Definition defaultBeta : Q := 5 * JS.Math_PI / 12.

Definition newRobotScene (e : Edition) : RobotScene :=
  mkRobotScene e false None None None EmptyString None None None None
    false 0%Z BABYLON.Vector3_Zero 1 (defaultAlpha e) defaultBeta
    0%Z 0%Z JS.Map.empty false
    0 [] 0 0 0 [] [] [] [].

(** [createScene(canvas)], as far as the fields above go: the scene and the
    camera come into being. *)
Definition createScene (s : RobotScene) : RobotScene :=
  set_camera
    (Some (BABYLON.mkArcRotateCamera (defaultAlpha (edition s)) defaultBeta 1
             BABYLON.Vector3_Zero))
    (set_scene true s).

(** [create3DUI] (lines 938-985), as far as the fields above go: the 3D status
    text comes into being, empty. *)
Definition create3DUI (s : RobotScene) : RobotScene :=
  set_status3DText (Some EmptyString) s.

(** ** Output primitives *)

Definition console_log (line : string) (s : RobotScene) : RobotScene :=
  set_console (console s ++ [line]) s.

Definition console_error (line : string) (s : RobotScene) : RobotScene :=
  set_consoleErrors (consoleErrors s ++ [line]) s.

(** [vscode.postMessage({command, text})] *)
Definition postMessage (command text : string) (s : RobotScene) : RobotScene :=
  set_posted (posted s ++ [(command, text)]) s.

(** [this.onProgressCallback(loaded, total, progress)] *)
Definition callProgressCallback (r : ProgressReport) (s : RobotScene) : RobotScene :=
  set_progressReports (progressReports s ++ [r]) s.

(** [setTimeout(() => { this.frameModel(); ... }, 100)] *)
Definition setTimeout_frameModel (s : RobotScene) : RobotScene :=
  set_framingsRequested (S (framingsRequested s)) (set_timers (S (timers s)) s).

(** [gizmo?.dispose()] on an exercise gizmo. *)
Definition dispose_gizmo {G : Type} (g : option G) (s : RobotScene) : RobotScene :=
  match g with
  | Some _ => set_liveExerciseGizmos (Nat.pred (liveExerciseGizmos s)) s
  | None => s
  end.

(** What [new JointRotationGizmo(..)] / [new JointPositionGizmo(..)] does to
    the scene: one more live gizmo. *)
Definition construct_gizmo (s : RobotScene) : RobotScene :=
  set_liveExerciseGizmos (S (liveExerciseGizmos s)) s.

(** ** Status text and exercise gizmos *)

Definition newline : string := String (ascii_of_nat 10) EmptyString.

(** [clearStatus] (lines 79-83; 1785-1787). *)
Definition clearStatus (s : RobotScene) : RobotScene :=
  match edition s with
  | Immersive =>
      match status3DText s with
      | Some _ => set_status3DText (Some EmptyString) s
      | None => s
      end
  | Desktop => set_statusLabel EmptyString s
  end.

(** [clearJointExerciseGizmos] (lines 218-223; 1920-1925). *)
Definition clearJointExerciseGizmos (s : RobotScene) : RobotScene :=
  let s := dispose_gizmo (planeRotationGizmo s) s in
  let s := set_planeRotationGizmo None s in
  let s := dispose_gizmo (planePositionGizmo s) s in
  set_planePositionGizmo None s.

Definition isRevolving (t : JointType) : bool :=
  JointType_eqb t Revolute || JointType_eqb t Continuous.

(** The text built by [updateJointStatusLabel] (lines 328-354; 2018-2045). *)
Definition jointStatusText (joint : Joint.t) (node : BABYLON.TransformNode) : string :=
  let fixed3 (v : BABYLON.Vector3) : string :=
    (JS.toFixed (BABYLON.x v) 3 ++ "," ++ JS.toFixed (BABYLON.y v) 3 ++ ","
       ++ JS.toFixed (BABYLON.z v) 3)%string in
  let rotationText :=
    if isRevolving (Joint.type joint)
    then (newline ++ "Rotation: " ++ fixed3 (BABYLON.rotation node))%string
    else EmptyString in
  let limitsText :=
    if isRevolving (Joint.type joint) then
      match Joint.lowerLimit joint, Joint.upperLimit joint with
      | Some lo, Some hi =>
          if negb (JS.eqb lo hi) && negb (JointType_eqb (Joint.type joint) Continuous)
          then (newline ++ "Limits: " ++ JS.toFixed lo 2 ++ " to " ++ JS.toFixed hi 2)%string
          else EmptyString
      | _, _ => EmptyString
      end
    else EmptyString in
  let positionText :=
    if JointType_eqb (Joint.type joint) Prismatic
    then (newline ++ "Position: " ++ fixed3 (BABYLON.position node))%string
    else EmptyString in
  (Joint.name joint ++ newline ++ "Type: " ++ JointType_value (Joint.type joint)
     ++ limitsText ++ rotationText ++ positionText)%string.

(** [updateJointStatusLabel] (lines 328-360; 2018-2048).  The placement of the
    label ([updateStatusPosition], [linkWithMesh]) is left to the renderer. *)
Definition updateJointStatusLabel (joint : Joint.t) (s : RobotScene) : RobotScene :=
  match Joint.transform joint with
  | None => s
  | Some node =>
      match edition s with
      | Immersive =>
          match status3DText s with
          | Some _ => set_status3DText (Some (jointStatusText joint node)) s
          | None => s
          end
      | Desktop => set_statusLabel (jointStatusText joint node) s
      end
  end.

(** The branch taken on [joint.axis]: [Math.abs(axis.y) > 0.5] first, then
    [Math.abs(axis.z) > 0.5], otherwise the x branch. *)
Inductive AxisBranch : Type := BranchY | BranchZ | BranchX.

Definition axisBranch (axis : BABYLON.Vector3) : AxisBranch :=
  if JS.gtb (JS.Math_abs (BABYLON.y axis)) (1 # 2) then BranchY
  else if JS.gtb (JS.Math_abs (BABYLON.z axis)) (1 # 2) then BranchZ
  else BranchX.

Definition rotationColor (b : AxisBranch) : BABYLON.Color3 :=
  match b with
  | BranchY => BABYLON.Green
  | BranchZ => BABYLON.Blue
  | BranchX => BABYLON.Red
  end.

Definition positionColor (b : AxisBranch) : BABYLON.Color3 :=
  match b with
  | BranchY => BABYLON.Blue
  | BranchZ => BABYLON.Red
  | BranchX => BABYLON.Green
  end.

Definition rotationNotice (joint : Joint.t) (b : AxisBranch) : string :=
  match b with
  | BranchY => ("Joint " ++ Joint.name joint ++ " is primarily rotating around y-axis")%string
  | BranchZ => ("Joint " ++ Joint.name joint ++ " is primarily rotating around z-axis")%string
  | BranchX => ("Joint " ++ Joint.name joint ++ " rotating around x-axis")%string
  end.

Definition unsupportedNotice (joint : Joint.t) (kind : string) : string :=
  ("Joint " ++ Joint.name joint ++ " is using a " ++ kind
     ++ " joint, which is not yet supported for exercise gizmos. If you would like to see this, please open an issue on the GitHub repository.")%string.

(** [addExerciseGizmoToJoint(joint, scene, layer)] (lines 237-326; 1927-2016).
    [ref] is the identity of the [joint] object, [joint] its contents. *)
Definition addExerciseGizmoToJoint (ref : JointRef) (joint : Joint.t) (s : RobotScene)
  : RobotScene :=
  match Joint.transform joint with
  | None => console_log ("No transform for joint: " ++ Joint.name joint) s
  | Some node =>
      let s := console_log ("Creating gizmo for joint: " ++ Joint.name joint ++ ", type: "
                              ++ JointType_value (Joint.type joint)) s in
      if JointType_eqb (Joint.type joint) Fixed then s
      else
        match Joint.type joint with
        | Continuous | Revolute =>
            let b := axisBranch (Joint.axis joint) in
            let s := console_log (rotationNotice joint b) s in
            let s := construct_gizmo s in
            let g := JointRotationGizmo.new ref (rotationColor b) in
            let g := JointRotationGizmo.mk
                       (JointRotationGizmo.associatedJoint g) (JointRotationGizmo.color g)
                       (3 # 4) (Some (BABYLON.uniqueId node))
                       (negb (JointType_eqb (Joint.type joint) Continuous))
                       (S (JointRotationGizmo.dragObservers g)) in
            set_planeRotationGizmo (Some g) s
        | Prismatic =>
            let s := set_planePositionGizmo None s in
            let b := axisBranch (Joint.axis joint) in
            let s := construct_gizmo s in
            let g := JointPositionGizmo.new ref (positionColor b) in
            let g := JointPositionGizmo.mk
                       (JointPositionGizmo.associatedJoint g) (JointPositionGizmo.color g)
                       (3 # 4) (Some (BABYLON.uniqueId node)) in
            set_planePositionGizmo (Some g) s
        | Planar => console_log (unsupportedNotice joint "planar") s
        | Floating => console_log (unsupportedNotice joint "floating") s
        | Fixed => s
        end
  end.

(** ** Camera *)

(** [resetCamera] (lines 397-413; 2085-2101).  With the latch set,
    [camera.setTarget] is followed by assignments to [radius], [alpha] and
    [beta], so the resulting pose is the saved one whatever [setTarget] does
    to the angles.  Otherwise [alpha] and [beta] are assigned first, then
    [target] (through its setter, [BABYLON.set_target]), then [radius]. *)
Definition resetCamera (rebuilt : BABYLON.ArcRotateCamera) (s : RobotScene) : RobotScene :=
  match camera s with
  | None => s
  | Some cam =>
      if hasBeenFramed s
      then set_camera
             (Some (BABYLON.mkArcRotateCamera (savedFramingAlpha s) (savedFramingBeta s)
                      (savedFramingRadius s) (savedFramingTarget s))) s
      else
        let cam :=
          BABYLON.mkArcRotateCamera (defaultAlpha (edition s)) defaultBeta
            (BABYLON.radius cam) (BABYLON.target cam) in
        let cam := BABYLON.set_target rebuilt (BABYLON.mkVector3 0 0 0) cam in
        set_camera
          (Some (BABYLON.mkArcRotateCamera (BABYLON.alpha cam) (BABYLON.beta cam) 1
                   (BABYLON.target cam))) s
  end.

(** The meshes collected by [frameModel] from the links of the robot. *)
Definition visualMeshes (visual : Visual.t) : list BABYLON.AbstractMesh :=
  match Visual.geometry visual with
  | Some g =>
      match Geometry.meshes g with
      | Some ms => ms
      | None => []
      end
  | None => []
  end.

Definition robotMeshes (robot : Robot.t) : list BABYLON.AbstractMesh :=
  flat_map (fun link => flat_map visualMeshes (Link.visuals link))
    (JS.Map.values (Robot.links robot)).

Definition boundingBox (ms : list BABYLON.AbstractMesh) : BABYLON.Vector3 * BABYLON.Vector3 :=
  fold_left
    (fun (acc : BABYLON.Vector3 * BABYLON.Vector3) mesh =>
       (BABYLON.Vector3_Minimize (fst acc) (BABYLON.minimumWorld mesh),
        BABYLON.Vector3_Maximize (snd acc) (BABYLON.maximumWorld mesh)))
    ms
    (BABYLON.mkVector3 JS.Number_MAX_VALUE JS.Number_MAX_VALUE JS.Number_MAX_VALUE,
     BABYLON.mkVector3 (- JS.Number_MAX_VALUE) (- JS.Number_MAX_VALUE) (- JS.Number_MAX_VALUE)).

(** The pose [frameModel] gives the camera for a non-empty list of meshes. *)
Definition framedCamera (e : Edition) (ms : list BABYLON.AbstractMesh)
  : BABYLON.ArcRotateCamera :=
  let (min, max) := boundingBox ms in
  let center := BABYLON.Vector3_Center min max in
  let size := BABYLON.subtract max min in
  let maxDimension :=
    JS.Math_max (JS.Math_max (BABYLON.x size) (BABYLON.y size)) (BABYLON.z size) in
  let distance := maxDimension * (3 # 2) in
  BABYLON.mkArcRotateCamera (defaultAlpha e) defaultBeta (JS.Math_max distance 1) center.

(** [frameModel] (lines 1371-1430; 3058-3117). *)
Definition frameModel (s : RobotScene) : RobotScene :=
  if negb (scene s) then s
  else
    match camera s, currentRobot s with
    | Some _, Some (_, robot) =>
        match robotMeshes robot with
        | [] => s
        | ms =>
            let cam := framedCamera (edition s) ms in
            let s := set_camera (Some cam) s in
            let s := set_savedFramingTarget (BABYLON.target cam) s in
            let s := set_savedFramingRadius (BABYLON.radius cam) s in
            let s := set_savedFramingAlpha (BABYLON.alpha cam) s in
            let s := set_savedFramingBeta (BABYLON.beta cam) s in
            set_hasBeenFramed true s
        end
    | _, _ => s
    end.

(** A timer set by [setTimeout_frameModel] fires. *)
Definition timerFires (s : RobotScene) : RobotScene :=
  match timers s with
  | O => s
  | S n => frameModel (set_timers n s)
  end.

(** ** Mesh-load progress (desktop edition) *)

(** [setLoadProgressCallback] (lines 2125-2127). *)
Definition setLoadProgressCallback (s : RobotScene) : RobotScene :=
  match edition s with
  | Immersive => s
  | Desktop => set_onProgressCallback true s
  end.

Definition sumProgress (m : JS.Map.t Q) : Q :=
  fold_left (fun totalProgress progress => totalProgress + progress) (JS.Map.values m) 0.

(** [updateOverallProgress] (lines 2839-2855). *)
Definition updateOverallProgress (s : RobotScene) : RobotScene :=
  if negb (onProgressCallback s) || (totalMeshes s =? 0)%Z then s
  else
    let averageProgress := sumProgress (meshLoadProgress s) / inject_Z (totalMeshes s) in
    callProgressCallback (mkReport (loadedMeshes s) (totalMeshes s) averageProgress) s.

Definition meshId (meshIndex : nat) : string := ("mesh_" ++ JS.decimal meshIndex)%string.

Definition meshProgress (event : BABYLON.ISceneLoaderProgressEvent) : Q :=
  if BABYLON.lengthComputable event && JS.gtb (BABYLON.total event) 0
  then BABYLON.loaded event / BABYLON.total event * 100
  else 0.

(** The closure given to [setLoadProgressCallback] of one mesh geometry
    (lines 2918-2927); [id] is the [meshId] it captured. *)
Definition onMeshLoadProgress (id : string) (event : BABYLON.ISceneLoaderProgressEvent)
  (s : RobotScene) : RobotScene :=
  updateOverallProgress
    (set_meshLoadProgress (JS.Map.set (meshLoadProgress s) id (meshProgress event)) s).

(** The closure given to [setLoadCompleteCallback] of one mesh geometry
    (lines 1249-1262; 2930-2949); [id] is the [meshId] it captured (unused by
    the immersive edition). *)
Definition onMeshLoadComplete (id : string) (s : RobotScene) : RobotScene :=
  let s := set_pendingMeshLoads (pendingMeshLoads s - 1)%Z s in
  let s :=
    match edition s with
    | Immersive => s
    | Desktop =>
        let s := set_loadedMeshes (loadedMeshes s + 1)%Z s in
        let s := set_meshLoadProgress (JS.Map.set (meshLoadProgress s) id 100) s in
        updateOverallProgress s
    end in
  if (pendingMeshLoads s =? 0)%Z && negb (hasBeenFramed s)
  then setTimeout_frameModel s
  else s.

(** ** Joint selection *)

Definition visualHasMesh (picked : BABYLON.AbstractMesh) (visual : Visual.t) : bool :=
  existsb (fun mesh => Nat.eqb (BABYLON.meshUniqueId mesh) (BABYLON.meshUniqueId picked))
    (visualMeshes visual).

(** Does the picked mesh belong to a visual of the link a joint's [child]
    refers to? *)
Definition childHasMesh (robot : Robot.t) (picked : BABYLON.AbstractMesh) (child : string)
  : bool :=
  match JS.Map.get (Robot.links robot) child with
  | Some link => existsb (visualHasMesh picked) (Link.visuals link)
  | None => false
  end.

Definition parentIs (picked : BABYLON.AbstractMesh) (node : BABYLON.TransformNode) : bool :=
  match BABYLON.parent picked with
  | Some p => Nat.eqb p (BABYLON.uniqueId node)
  | None => false
  end.

(** One round of the [forEach] over [currentRobot.joints] in the pointer
    handler (lines 1009-1036; 2759-2786): the accumulator is [foundJoint]
    together with the lines logged so far. *)
Definition searchJoint (robot : Robot.t) (picked : BABYLON.AbstractMesh)
  (acc : option (string * Joint.t) * list string) (entry : string * Joint.t)
  : option (string * Joint.t) * list string :=
  let (foundJoint, lines) := acc in
  let j := snd entry in
  if JointType_eqb (Joint.type j) Fixed then acc
  else
    match Joint.transform j with
    | None => acc
    | Some node =>
        if parentIs picked node
        then (Some entry,
              lines ++ [("Found joint (direct parent): " ++ Joint.name j)%string])
        else
          match Joint.child j, foundJoint with
          | Some child, None =>
              if childHasMesh robot picked child
              then (Some entry,
                    lines ++ [("Found joint (child link visual): " ++ Joint.name j)%string])
              else acc
          | _, _ => acc
          end
    end.

Definition findJoint (robot : Robot.t) (picked : BABYLON.AbstractMesh)
  : option (string * Joint.t) * list string :=
  fold_left (searchJoint robot picked) (Robot.joints robot) (None, []).

Definition sameJoint (found : JointRef) (hovered : option JointRef) : bool :=
  match hovered with
  | Some h => JointRef_eqb found h
  | None => false
  end.

(** The pointer-down handler [castRay] (lines 991-1062; 2741-2832).  [hit] is
    [hit?.pickedMesh] of the ray cast.  [selectedVisual] is never assigned a
    visual anywhere in the class, so its branch is not modelled. *)
Definition castRay (hit : option BABYLON.AbstractMesh) (s : RobotScene) : RobotScene :=
  match scene s, camera s with
  | true, Some _ =>
      let s := clearStatus s in
      match hit, currentRobot s with
      | Some picked, Some (robotId, robot) =>
          let (foundJoint, lines) := findJoint robot picked in
          let s := set_console (console s ++ lines) s in
          match foundJoint with
          | Some (key, joint) =>
              let s := console_log ("Creating gizmo for joint: " ++ Joint.name joint) s in
              if negb (sameJoint (robotId, key) (hoveredJoint s)) then
                let s := clearJointExerciseGizmos s in
                let s := set_hoveredJoint (Some (robotId, key)) s in
                let s := addExerciseGizmoToJoint (robotId, key) joint s in
                match Joint.transform joint with
                | Some _ => updateJointStatusLabel joint s
                | None => s
                end
              else s
          | None =>
              let s := set_hoveredJoint None s in
              let s := clearJointExerciseGizmos s in
              clearStatus s
          end
      | _, _ => s
      end
  | _, _ => s
  end.

(** ** Loading a URDF *)

(** The outcome of [await urdf.deserializeUrdfToRobot(urdfText)]: the promise
    resolves with a robot or rejects with an [Error] carrying a message. *)
Inductive Deserialized : Type :=
  | Resolved (robot : Robot.t)
  | Rejected (message : string).

Definition isMeshVisual (visual : Visual.t) : bool :=
  match Visual.geometry visual with
  | Some g => Geometry.instanceofMesh g
  | None => false
  end.

(** The visuals on which the two passes of [applyURDF] act, in the order of
    [links.forEach] and [visuals.forEach]. *)
Definition meshVisuals (robot : Robot.t) : list Visual.t :=
  flat_map (fun link => filter isMeshVisual (Link.visuals link))
    (JS.Map.values (Robot.links robot)).

(** First pass (lines 2893-2899): [this.totalMeshes++]. *)
Definition countMesh (s : RobotScene) (visual : Visual.t) : RobotScene :=
  set_totalMeshes (totalMeshes s + 1)%Z s.

(** Second pass (lines 1244-1267; 2907-2954): one more pending load, and in the
    desktop edition a fresh [meshId] with progress 0.  The closures registered
    here are [onMeshLoadProgress] and [onMeshLoadComplete]. *)
Definition trackMesh (acc : RobotScene * nat) (visual : Visual.t) : RobotScene * nat :=
  let (s, meshIndex) := acc in
  let s := set_pendingMeshLoads (pendingMeshLoads s + 1)%Z s in
  match edition s with
  | Immersive => (s, meshIndex)
  | Desktop =>
      (set_meshLoadProgress (JS.Map.set (meshLoadProgress s) (meshId meshIndex) 0) s,
       S meshIndex)
  end.

(** [tempR.dispose()] on the robot with identity [robotId]. *)
Definition dispose_robot (robotId : nat) (s : RobotScene) : RobotScene :=
  set_disposedRobots (disposedRobots s ++ [robotId]) s.

(** [applyURDF], up to the [try] (lines 1212-1229; 2858-2875).  The axis and
    rotation gizmo lists and the grid labels are not part of the model. *)
Definition applyURDF_begin (vscode : bool) (s : RobotScene) : RobotScene :=
  let s := clearJointExerciseGizmos s in
  let s := clearStatus s in
  let s :=
    match currentRobot s with
    | Some (robotId, _) => dispose_robot robotId (set_currentRobot None s)
    | None => s
    end in
  if vscode then postMessage "trace" "loading urdf" s else s.

(** The resets before the parse (lines 1234-1239; 2880-2888). *)
Definition applyURDF_reset (urdfText : string) (s : RobotScene) : RobotScene :=
  let s := set_currentURDF (Some urdfText) s in
  let s := set_pendingMeshLoads 0%Z s in
  let s := set_hasBeenFramed false s in
  match edition s with
  | Immersive => s
  | Desktop =>
      let s := set_totalMeshes 0%Z s in
      let s := set_loadedMeshes 0%Z s in
      set_meshLoadProgress JS.Map.empty s
  end.

(** The [catch] block (lines 1284-1296; 2971-2983). *)
Definition applyURDF_catch (vscode : bool) (message : string) (s : RobotScene) : RobotScene :=
  if vscode then postMessage "error" message s
  else console_error ("Error loading urdf: " ++ message) s.

(** [applyURDF], from the call to the [await] (lines 1212-1241; 2858-2890):
    the part that runs within the call.  On a scene the call is then
    suspended until the promise of the parse settles; without a scene there
    is no [await] and the call runs to its end. *)
Definition applyURDF_call (urdfText : string) (vscode : bool) (s : RobotScene)
  : RobotScene :=
  let s := applyURDF_begin vscode s in
  if scene s then applyURDF_reset urdfText s
  else if vscode then postMessage "trace" "loaded urdf" s else s.

Section Loading.

(** [urdf.deserializeUrdfToRobot] and [Robot.create] are not part of the
    sources at hand: [applyURDF] is modelled for any behaviour of theirs.
    [create] yields the robot as it stands once its transforms and the meshes
    of its primitive geometries exist. *)
Variable deserializeUrdfToRobot : string -> Deserialized.
Variable create : Robot.t -> Robot.t.

(** [applyURDF], from the resolution of the parse to the end (lines 1241-1303;
    2890-2990). *)
Definition applyURDF_resolved (vscode : bool) (robot : Robot.t) (s : RobotScene)
  : RobotScene :=
  let robotId := robotsAllocated s in
  let s := set_robotsAllocated (S robotId) s in
  let s := set_currentRobot (Some (robotId, robot)) s in
  let s :=
    match edition s with
    | Immersive => s
    | Desktop =>
        let s := fold_left countMesh (meshVisuals robot) s in
        if onProgressCallback s && (0 <? totalMeshes s)%Z
        then callProgressCallback (mkReport 0 (totalMeshes s) 0) s
        else s
    end in
  let s := fst (fold_left trackMesh (meshVisuals robot) (s, O)) in
  let s := set_currentRobot (Some (robotId, create robot)) s in
  let s :=
    if (pendingMeshLoads s =? 0)%Z && negb (hasBeenFramed s)
    then setTimeout_frameModel s
    else s in
  if vscode then postMessage "trace" "loaded urdf" s else s.

(** The continuation of [applyURDF] after the [await] (lines 1241-1303;
    2890-2990): it runs when the promise of the parse settles, on the scene
    as it is then. *)
Definition applyURDF_settled (urdfText : string) (vscode : bool) (s : RobotScene)
  : RobotScene :=
  match deserializeUrdfToRobot urdfText with
  | Resolved robot => applyURDF_resolved vscode robot s
  | Rejected message => applyURDF_catch vscode message s
  end.

(** [applyURDF(urdfText, vscode)] (lines 1211-1304; 2857-2991) when nothing
    comes between the call and its continuation: the promise settles before
    any other callback of the scene runs and before [applyURDF] is called
    again.  [vscode] says whether the second argument is given.  Calls that
    overlap are those of [taskStep] below. *)
Definition applyURDF (urdfText : string) (vscode : bool) (s : RobotScene) : RobotScene :=
  let s := applyURDF_begin vscode s in
  if scene s then applyURDF_settled urdfText vscode (applyURDF_reset urdfText s)
  else if vscode then postMessage "trace" "loaded urdf" s else s.

(** ** The scene as an event-driven system

    [ResetCamera] carries what the library's target setter would rebuild the
    angles and the radius of the camera to (see [BABYLON.set_target]). *)

Inductive Event : Type :=
  | ApplyURDF (urdfText : string) (vscode : bool)
  | PointerDown (hit : option BABYLON.AbstractMesh)
  | MeshLoadProgress (id : string) (event : BABYLON.ISceneLoaderProgressEvent)
  | MeshLoadComplete (id : string)
  | TimerFires
  | ResetCamera (rebuilt : BABYLON.ArcRotateCamera)
  | SetLoadProgressCallback
  | CameraMoved (pose : BABYLON.ArcRotateCamera).

(** The user orbits, pans or zooms: the pose changes if there is a camera. *)
Definition cameraMoved (pose : BABYLON.ArcRotateCamera) (s : RobotScene) : RobotScene :=
  match camera s with
  | Some _ => set_camera (Some pose) s
  | None => s
  end.

Definition step (s : RobotScene) (e : Event) : RobotScene :=
  match e with
  | ApplyURDF urdfText vscode => applyURDF urdfText vscode s
  | PointerDown hit => castRay hit s
  | MeshLoadProgress id event =>
      match edition s with
      | Immersive => s
      | Desktop => onMeshLoadProgress id event s
      end
  | MeshLoadComplete id => onMeshLoadComplete id s
  | TimerFires => timerFires s
  | ResetCamera rebuilt => resetCamera rebuilt s
  | SetLoadProgressCallback => setLoadProgressCallback s
  | CameraMoved pose => cameraMoved pose s
  end.

Definition run (s : RobotScene) (events : list Event) : RobotScene :=
  fold_left step events s.

(** The states a scene can be in: created, possibly given its 3D status text
    (immersive edition with an XR session), then driven by events, every
    call of [applyURDF] running its continuation before the next event. *)
Inductive reachable : RobotScene -> Prop :=
  | reachable_created (e : Edition) : reachable (createScene (newRobotScene e))
  | reachable_create3DUI (s : RobotScene) :
      reachable s -> edition s = Immersive -> reachable (create3DUI s)
  | reachable_step (s : RobotScene) (e : Event) :
      reachable s -> reachable (step s e).

(** ** Calls of [applyURDF] that overlap

    [applyURDF] is an [async] method: a call on a scene returns at the
    [await], and its continuation runs later.  Until then other events can be
    handled and [applyURDF] can be called again.  A state of the scene is
    paired with the calls that are suspended, each with its arguments. *)
Inductive Task : Type :=
  | Call (urdfText : string) (vscode : bool)
  | Settle (urdfText : string) (vscode : bool)
  | Happen (e : Event).

(** Take the first suspended call with these arguments off the list. *)
Fixpoint resume (urdfText : string) (vscode : bool) (suspended : list (string * bool))
  : option (list (string * bool)) :=
  match suspended with
  | [] => None
  | (urdfText', vscode') :: rest =>
      if String.eqb urdfText' urdfText && Bool.eqb vscode' vscode then Some rest
      else
        match resume urdfText vscode rest with
        | Some rest' => Some ((urdfText', vscode') :: rest')
        | None => None
        end
  end.

(** [Call]: [applyURDF] is called and runs up to its [await].  [Settle]: the
    promise of a suspended call settles and its continuation runs.
    [Happen]: another event is handled; an [ApplyURDF] there is a call whose
    promise settles at once. *)
Definition taskStep (state : RobotScene * list (string * bool)) (t : Task)
  : RobotScene * list (string * bool) :=
  let (s, suspended) := state in
  match t with
  | Call urdfText vscode =>
      (applyURDF_call urdfText vscode s,
       if scene s then suspended ++ [(urdfText, vscode)] else suspended)
  | Settle urdfText vscode =>
      match resume urdfText vscode suspended with
      | Some rest => (applyURDF_settled urdfText vscode s, rest)
      | None => state
      end
  | Happen e => (step s e, suspended)
  end.

Definition runTasks (state : RobotScene * list (string * bool)) (tasks : list Task)
  : RobotScene * list (string * bool) :=
  fold_left taskStep tasks state.

(** The states a scene can be in when calls may overlap. *)
Inductive interleaved : RobotScene * list (string * bool) -> Prop :=
  | interleaved_created (e : Edition) : interleaved (createScene (newRobotScene e), [])
  | interleaved_create3DUI (s : RobotScene) (suspended : list (string * bool)) :
      interleaved (s, suspended) -> edition s = Immersive ->
      interleaved (create3DUI s, suspended)
  | interleaved_step (state : RobotScene * list (string * bool)) (t : Task) :
      interleaved state -> interleaved (taskStep state t).

(** The states a scene can be in when every call is awaited: [applyURDF] is
    not called while a call is suspended.  Other events may still come
    between a call and its continuation. *)
Inductive awaited : RobotScene * list (string * bool) -> Prop :=
  | awaited_created (e : Edition) : awaited (createScene (newRobotScene e), [])
  | awaited_create3DUI (s : RobotScene) (suspended : list (string * bool)) :
      awaited (s, suspended) -> edition s = Immersive -> awaited (create3DUI s, suspended)
  | awaited_call (s : RobotScene) (urdfText : string) (vscode : bool) :
      awaited (s, []) -> awaited (taskStep (s, []) (Call urdfText vscode))
  | awaited_settle (s : RobotScene) (suspended : list (string * bool))
      (urdfText : string) (vscode : bool) :
      awaited (s, suspended) -> awaited (taskStep (s, suspended) (Settle urdfText vscode))
  | awaited_happen (s : RobotScene) (suspended : list (string * bool)) (e : Event) :
      awaited (s, suspended) ->
      match e with ApplyURDF _ _ => suspended = [] | _ => True end ->
      awaited (taskStep (s, suspended) (Happen e)).

End Loading.

(** ** A concrete environment, for worked examples

    Three small robots, already parsed, and a [create] that gives every
    primitive geometry a unit-cube mesh and every joint a transform node. *)

Module Demo.

Definition unitCube (id : nat) : BABYLON.AbstractMesh :=
  BABYLON.mkAbstractMesh id None
    (BABYLON.mkVector3 (- (1 # 2)) (- (1 # 2)) (- (1 # 2)))
    (BABYLON.mkVector3 (1 # 2) (1 # 2) (1 # 2)).

Definition boxVisual : Visual.t := Visual.mk "box" (Some (Geometry.mk Box None)).

Definition meshVisual : Visual.t := Visual.mk "shell" (Some (Geometry.mk Mesh None)).

Definition joint (name : string) (type : JointType) (axis : BABYLON.Vector3) (child : string)
  : string * Joint.t :=
  (name, Joint.mk name type axis (Some (- (1))) (Some 1) None (Some child)).

(** One link, one box. *)
Definition pedestal : Robot.t :=
  Robot.mk [("base_link"%string, Link.mk "base_link" [boxVisual])] [].

(** One link with a box and a mesh loaded from a file. *)
Definition shell : Robot.t :=
  Robot.mk [("base_link"%string, Link.mk "base_link" [boxVisual; meshVisual])] [].

(** Five links; a revolute, a prismatic, a planar and a fixed joint. *)
Definition arm : Robot.t :=
  Robot.mk
    [("base_link"%string, Link.mk "base_link" [boxVisual]);
     ("upper_arm"%string, Link.mk "upper_arm" [boxVisual]);
     ("slider"%string, Link.mk "slider" [boxVisual]);
     ("tray"%string, Link.mk "tray" [boxVisual]);
     ("sensor"%string, Link.mk "sensor" [boxVisual])]
    [joint "shoulder" Revolute (BABYLON.mkVector3 0 0 1) "upper_arm";
     joint "rail" Prismatic (BABYLON.mkVector3 1 0 0) "slider";
     joint "table" Planar (BABYLON.mkVector3 0 0 1) "tray";
     joint "mount" Fixed (BABYLON.mkVector3 0 0 0) "sensor"].

Definition deserializeUrdfToRobot (urdfText : string) : Deserialized :=
  if String.eqb urdfText "<robot name='pedestal'>" then Resolved pedestal
  else if String.eqb urdfText "<robot name='shell'>" then Resolved shell
  else if String.eqb urdfText "<robot name='arm'>" then Resolved arm
  else Rejected "No robot element found".

Definition createVisual (visual : Visual.t) : Visual.t :=
  match Visual.geometry visual with
  | Some (Geometry.mk Mesh _) => visual
  | Some (Geometry.mk c _) => Visual.mk (Visual.name visual) (Some (Geometry.mk c (Some [unitCube 100])))
  | None => visual
  end.

Fixpoint createJoints (next : nat) (joints : JS.Map.t Joint.t) : JS.Map.t Joint.t :=
  match joints with
  | [] => []
  | (key, j) :: rest =>
      (key,
       Joint.mk (Joint.name j) (Joint.type j) (Joint.axis j) (Joint.lowerLimit j)
         (Joint.upperLimit j)
         (Some (BABYLON.mkTransformNode next BABYLON.Vector3_Zero BABYLON.Vector3_Zero))
         (Joint.child j))
      :: createJoints (S next) rest
  end.

Definition create (robot : Robot.t) : Robot.t :=
  Robot.mk
    (List.map (fun entry => (fst entry,
                             Link.mk (Link.name (snd entry))
                               (List.map createVisual (Link.visuals (snd entry)))))
       (Robot.links robot))
    (createJoints 1 (Robot.joints robot)).

Definition apply (urdfText : string) : Event := ApplyURDF urdfText false.

Definition run (s : RobotScene) (events : list Event) : RobotScene :=
  run deserializeUrdfToRobot create s events.

(** The scene driven by calls, continuations and events, from no call
    suspended. *)
Definition runTasks (s : RobotScene) (tasks : list Task) : RobotScene * list (string * bool) :=
  runTasks deserializeUrdfToRobot create (s, []) tasks.

Definition desktop : RobotScene := createScene (newRobotScene Desktop).

Definition immersive : RobotScene := createScene (newRobotScene Immersive).

(** The scenes and inputs of the worked scenarios. *)

(** A picked mesh whose parent is the transform node [node]. *)
Definition meshUnder (node : nat) : BABYLON.AbstractMesh :=
  BABYLON.mkAbstractMesh 200 (Some node) BABYLON.Vector3_Zero BABYLON.Vector3_Zero.

(** A text the deserializer rejects. *)
Definition malformed : string := "<link name='base_link'/>".

(** The revolute joint of [arm], as [create] leaves it. *)
Definition shoulderNode : BABYLON.TransformNode :=
  BABYLON.mkTransformNode 1 BABYLON.Vector3_Zero BABYLON.Vector3_Zero.

Definition shoulder : Joint.t :=
  Joint.mk "shoulder" Revolute (BABYLON.mkVector3 0 0 1) (Some (- (1))) (Some 1)
    (Some shoulderNode) (Some "upper_arm"%string).

(** The prismatic and the planar joint of [arm]. *)
Definition rail : Joint.t :=
  Joint.mk "rail" Prismatic (BABYLON.mkVector3 1 0 0) (Some (- (1))) (Some 1)
    (Some (BABYLON.mkTransformNode 2 BABYLON.Vector3_Zero BABYLON.Vector3_Zero))
    (Some "slider"%string).

Definition table : Joint.t :=
  Joint.mk "table" Planar (BABYLON.mkVector3 0 0 1) (Some (- (1))) (Some 1)
    (Some (BABYLON.mkTransformNode 3 BABYLON.Vector3_Zero BABYLON.Vector3_Zero))
    (Some "tray"%string).

(** The fixed joint of [arm]. *)
Definition mount : Joint.t :=
  Joint.mk "mount" Fixed (BABYLON.mkVector3 0 0 0) (Some (- (1))) (Some 1)
    (Some (BABYLON.mkTransformNode 4 BABYLON.Vector3_Zero BABYLON.Vector3_Zero))
    (Some "sensor"%string).

(** The desktop scene after each of the robots has been applied. *)
Definition pedestalScene : RobotScene := run desktop [apply "<robot name='pedestal'>"].

Definition shellScene : RobotScene := run desktop [apply "<robot name='shell'>"].

Definition armScene : RobotScene := run desktop [apply "<robot name='arm'>"].

(** The desktop scene with a progress callback registered. *)
Definition listening : RobotScene := run desktop [SetLoadProgressCallback].

(** Where the user has orbited to. *)
Definition orbited : BABYLON.ArcRotateCamera :=
  BABYLON.mkArcRotateCamera 1 (1 # 2) 7 (BABYLON.mkVector3 1 2 3).

End Demo.

(** ** Vocabulary of the statements *)

(** The manipulation state of the joint-exercise subsystem:
    [Idle -> GizmoAttached(joint) -> Idle]. *)
Inductive Manipulation : Type :=
  | Idle
  | GizmoAttached (joint : JointRef).

Definition manipulation (s : RobotScene) : Manipulation :=
  match planeRotationGizmo s, planePositionGizmo s with
  | Some g, _ => GizmoAttached (JointRotationGizmo.associatedJoint g)
  | None, Some g => GizmoAttached (JointPositionGizmo.associatedJoint g)
  | None, None => Idle
  end.

Definition gizmoAttached (s : RobotScene) : bool :=
  match planeRotationGizmo s, planePositionGizmo s with
  | None, None => false
  | _, _ => true
  end.

(** The joint types for which [addExerciseGizmoToJoint] constructs a gizmo. *)
Definition movable (t : JointType) : bool :=
  match t with
  | Revolute | Continuous | Prismatic => true
  | Fixed | Floating | Planar => false
  end.

(** The status text is empty, as far as there is one. *)
Definition statusCleared (s : RobotScene) : Prop :=
  match edition s with
  | Immersive => status3DText s = None \/ status3DText s = Some EmptyString
  | Desktop => statusLabel s = EmptyString
  end.

(** The joint a pick resolves to in the current robot, if any. *)
Definition resolvedJoint (hit : option BABYLON.AbstractMesh) (s : RobotScene)
  : option (string * Joint.t) :=
  match hit, currentRobot s with
  | Some picked, Some (_, robot) => fst (findJoint robot picked)
  | _, _ => None
  end.

Definition isApplyURDF (e : Event) : bool :=
  match e with
  | ApplyURDF _ _ => true
  | _ => false
  end.

Definition isSetLoadProgressCallback (e : Event) : bool :=
  match e with
  | SetLoadProgressCallback => true
  | _ => false
  end.

(** The [meshId]s handed out by a load with [n] mesh visuals. *)
Definition meshIds (n : nat) : list string := List.map meshId (seq 0 n).

Definition mem (id : string) (ids : list string) : bool :=
  existsb (String.eqb id) ids.

(** A sequence of mesh-load events in which no mesh in [done] reports again:
    every mesh completes at most once, and reports no progress once it has
    completed. *)
Fixpoint orderly (done : list string) (events : list Event) : bool :=
  match events with
  | [] => true
  | MeshLoadProgress id _ :: rest => negb (mem id done) && orderly done rest
  | MeshLoadComplete id :: rest => negb (mem id done) && orderly (id :: done) rest
  | _ :: _ => false
  end.

(** The meshes whose completion callback fires in a sequence of events. *)
Fixpoint completions (events : list Event) : list string :=
  match events with
  | [] => []
  | MeshLoadComplete id :: rest => id :: completions rest
  | _ :: rest => completions rest
  end.

(** The exercise gizmos the scene holds in its two fields. *)
Definition heldGizmos (s : RobotScene) : nat :=
  (match planeRotationGizmo s with Some _ => 1 | None => 0 end
   + match planePositionGizmo s with Some _ => 1 | None => 0 end)%nat.

(** What the joint search may return for a robot: an entry of its joint
    table that is not fixed and has a transform. *)
Definition foundIn (robot : Robot.t) (found : option (string * Joint.t)) : Prop :=
  match found with
  | Some (key, j) =>
      In (key, j) (Robot.joints robot) /\ Joint.type j <> Fixed /\ Joint.transform j <> None
  | None => True
  end.

(** The fields the joint-selection subsystem lives in. *)
Definition selectionFields (s : RobotScene) :=
  (planeRotationGizmo s, planePositionGizmo s, liveExerciseGizmos s, currentRobot s,
   hoveredJoint s, robotsAllocated s).

(** What holds of the selection fields in every reachable state: the live
    exercise gizmos are the ones held in the two fields, at most one; robot
    identities are below the allocation counter; the joint table has unique
    keys; a gizmo is attached only to the hovered joint of the current robot,
    and exactly when that joint is movable. *)
Definition selectionInvariant (s : RobotScene) : Prop :=
  liveExerciseGizmos s = heldGizmos s
  /\ (heldGizmos s <= 1)%nat
  /\ (forall robotId robot,
        currentRobot s = Some (robotId, robot) ->
        (robotId < robotsAllocated s)%nat /\ NoDup (JS.Map.keys (Robot.joints robot)))
  /\ (forall robotId key,
        hoveredJoint s = Some (robotId, key) -> (robotId < robotsAllocated s)%nat)
  /\ (gizmoAttached s = true ->
      exists robotId robot key,
        currentRobot s = Some (robotId, robot) /\ hoveredJoint s = Some (robotId, key))
  /\ (forall robotId robot key j,
        currentRobot s = Some (robotId, robot) ->
        hoveredJoint s = Some (robotId, key) ->
        In (key, j) (Robot.joints robot) ->
        Joint.transform j <> None ->
        gizmoAttached s = movable (Joint.type j)).

(** The progress map after the second pass of [applyURDF] has gone over [n]
    mesh visuals, starting with index [i] on the map [m]. *)
Definition trackedProgress (m : JS.Map.t Q) (i n : nat) : JS.Map.t Q :=
  fold_left (fun m k => JS.Map.set m (meshId k) 0) (seq i n) m.

(** The robots disposed by one call of [applyURDF]. *)
Definition disposedByApply (s : RobotScene) : list nat :=
  match currentRobot s with
  | Some (robotId, _) => [robotId]
  | None => []
  end.

(** The fields the mesh-load aggregator and the framing latch live in. *)
Definition loadFields (s : RobotScene) :=
  (edition s, pendingMeshLoads s, hasBeenFramed s, timers s, framingsRequested s,
   onProgressCallback s, totalMeshes s, loadedMeshes s, meshLoadProgress s,
   progressReports s).


Definition noApplyURDF (events : list Event) : bool :=
  forallb (fun e => negb (isApplyURDF e)) events.

Definition noSetLoadProgressCallback (events : list Event) : bool :=
  forallb (fun e => negb (isSetLoadProgressCallback e)) events.

(** Mesh-load events of the meshes named in [ids] only. *)
Definition ownEvents (ids : list string) (events : list Event) : bool :=
  forallb
    (fun e =>
       match e with
       | MeshLoadProgress id _ => mem id ids
       | MeshLoadComplete id => mem id ids
       | _ => false
       end)
    events.

(** The aggregator in the middle of a load of the meshes [ids], of which the
    meshes in [done] have completed. *)
Definition aggregating (ids done : list string) (s : RobotScene) : Prop :=
  edition s = Desktop
  /\ onProgressCallback s = true
  /\ totalMeshes s = Z.of_nat (List.length ids)
  /\ JS.Map.keys (meshLoadProgress s) = ids
  /\ loadedMeshes s = Z.of_nat (List.length done)
  /\ (forall id, In id done -> JS.Map.get (meshLoadProgress s) id = Some 100).

(** ** The kinematic tree builder *)

Module Builder.

(** A URDF document, reduced to what the tree assembly reads. *)
Record JointElement : Type := mkJointElement {
  jointName : string;
  parentName : string;
  childName : string
}.

Record Document : Type := mkDocument {
  hasRobotElement : bool;
  linkElements : list string;
  jointElements : list JointElement
}.

Inductive TransformNode : Type :=
  | Root
  | LinkTransform (name : string)
  | JointTransform (name : string).

Definition TransformNode_eqb (a b : TransformNode) : bool :=
  match a, b with
  | Root, Root => true
  | LinkTransform n, LinkTransform m => String.eqb n m
  | JointTransform n, JointTransform m => String.eqb n m
  | _, _ => false
  end.

(** [node.parent], for every transform node of a robot. *)
Definition Hierarchy : Type := TransformNode -> option TransformNode.

Definition setParent (h : Hierarchy) (node parent : TransformNode) : Hierarchy :=
  fun n => if TransformNode_eqb n node then Some parent else h n.

Record Robot : Type := mkRobot {
  links : JS.Map.t unit;
  joints : JS.Map.t JointElement;
  rootTransform : TransformNode;
  parentOf : Hierarchy
}.

Inductive Error : Type := MalformedURDFError.

(** The link and joint tables: a later element of the same name overwrites an
    earlier one. *)
Definition linkTable (doc : Document) : JS.Map.t unit :=
  fold_left (fun m name => JS.Map.set m name tt) (linkElements doc) JS.Map.empty.

Definition jointTable (doc : Document) : JS.Map.t JointElement :=
  fold_left (fun m j => JS.Map.set m (jointName j) j) (jointElements doc) JS.Map.empty.

Definition resolves (links : JS.Map.t unit) (name : string) : bool :=
  match JS.Map.get links name with
  | Some _ => true
  | None => false
  end.

(** A link is an orphan when no joint carries it as its child: it is never
    named as a child, or only by joints whose parent link is absent. *)
Definition isOrphan (links : JS.Map.t unit) (joints : JS.Map.t JointElement) (name : string)
  : bool :=
  negb (existsb (fun j => String.eqb (childName j) name && resolves links (parentName j))
          (JS.Map.values joints)).

Definition parentOrphan (links : JS.Map.t unit) (joints : JS.Map.t JointElement)
  (h : Hierarchy) (name : string) : Hierarchy :=
  if isOrphan links joints name then setParent h (LinkTransform name) Root else h.

Definition wireJoint (links : JS.Map.t unit) (h : Hierarchy) (j : JointElement) : Hierarchy :=
  if resolves links (parentName j) then
    let h := setParent h (JointTransform (jointName j)) (LinkTransform (parentName j)) in
    if resolves links (childName j)
    then setParent h (LinkTransform (childName j)) (JointTransform (jointName j))
    else h
  else h.

(** Modelled from the spec: the deserializer ([urdf.ts]) and the tree assembly
    of [Robot.create] ([Robot.ts]) are not among the sources.  Following
    section 4.2 of the specification: the document is rejected when it has no
    [<robot>] element or no link; the links and joints are entered in their
    tables; the synthetic root transform is created; every orphan link is
    parented to the root; for every joint, the joint's transform is parented
    to the parent link's transform and the child link's transform to the
    joint's transform.  A joint whose parent link is absent wires nothing, and
    its child counts as an orphan. *)
Definition buildRobot (doc : Document) : Robot + Error :=
  if negb (hasRobotElement doc) then inr MalformedURDFError
  else
    match linkElements doc with
    | [] => inr MalformedURDFError
    | _ =>
        let links := linkTable doc in
        let joints := jointTable doc in
        let h : Hierarchy := fun _ => None in
        let h := fold_left (parentOrphan links joints) (JS.Map.keys links) h in
        let h := fold_left (wireJoint links) (JS.Map.values joints) h in
        inl (mkRobot links joints Root h)
    end.

(** A palm with a finger on a joint, and a camera link that no joint names. *)
Definition gripper : Document :=
  mkDocument true ["palm"; "finger"; "camera"]%string
    [mkJointElement "knuckle" "palm" "finger"].

End Builder.

From Stdlib Require Import Lqa.

(** * Further parts of the sources *)

(** ** The view cube ([ViewCubeGizmo], [RobotScene.ts] lines 3442-3804)

    The cube is rendered to a texture; a click on its image turns the camera
    to the face after the one it is closest to. *)

Module ViewCubeGizmo.

(** [FACE_ORIENTATIONS]: [[alpha, beta]] per face, in the order of the keys
    of the object literal. *)
Definition FACE_ORIENTATIONS : list (string * (Q * Q)) :=
  [("front"%string, (0, JS.Math_PI / 2));
   ("back"%string, (JS.Math_PI, JS.Math_PI / 2));
   ("right"%string, (JS.Math_PI / 2, JS.Math_PI / 2));
   ("left"%string, (- JS.Math_PI / 2, JS.Math_PI / 2));
   ("top"%string, (0, 0));
   ("bottom"%string, (0, JS.Math_PI))].

(** [FACE_ORIENTATIONS[face]]. *)
Fixpoint lookup {V : Type} (o : list (string * V)) (key : string) : option V :=
  match o with
  | [] => None
  | (k, v) :: rest => if String.eqb k key then Some v else lookup rest key
  end.

(** [easeInOutCubic(t)] (lines 3746-3750). *)
Definition easeInOutCubic (t : Q) : Q :=
  if JS.ltb t (1 # 2)
  then 4 * t * t * t
  else 1 - Qpower (- (2) * t + 2) 3 / 2.

(** The closure [animation] of [rotateCameraToFace]: the variables it has
    captured. *)
Record Animation : Type := mkAnimation {
  frame : Z;
  frameCount : Z;
  startAlpha : Q;
  startBeta : Q;
  targetAlpha : Q;
  targetBeta : Q
}.

(** One call of [animation] (lines 3730-3741) on the camera as it is then;
    the boolean says whether it has asked for another frame
    ([requestAnimationFrame(animation)]). *)
Definition animation (a : Animation) (camera : BABYLON.ArcRotateCamera)
  : Animation * BABYLON.ArcRotateCamera * bool :=
  let frame := (frame a + 1)%Z in
  let t := inject_Z frame / inject_Z (frameCount a) in
  let eased := easeInOutCubic t in
  let camera :=
    BABYLON.mkArcRotateCamera
      (startAlpha a + (targetAlpha a - startAlpha a) * eased)
      (startBeta a + (targetBeta a - startBeta a) * eased)
      (BABYLON.radius camera) (BABYLON.target camera) in
  (mkAnimation frame (frameCount a) (startAlpha a) (startBeta a) (targetAlpha a)
     (targetBeta a),
   camera, (frame <? frameCount a)%Z).

(** [rotateCameraToFace(face)] (lines 3720-3744): the first frame runs within
    the call.  Destructuring the orientation of an unknown face throws a
    [TypeError] ([None]). *)
Definition rotateCameraToFace (face : string) (camera : BABYLON.ArcRotateCamera)
  : option (Animation * BABYLON.ArcRotateCamera * bool) :=
  match lookup FACE_ORIENTATIONS face with
  | None => None
  | Some (targetAlpha, targetBeta) =>
      Some (animation
              (mkAnimation 0 30 (BABYLON.alpha camera) (BABYLON.beta camera) targetAlpha
                 targetBeta)
              camera)
  end.

(** The browser runs the frames that have been asked for, up to [n] of them;
    before each one the user may have moved the camera ([moves]). *)
Fixpoint requestAnimationFrames (n : nat)
  (moves : nat -> BABYLON.ArcRotateCamera -> BABYLON.ArcRotateCamera)
  (state : Animation * BABYLON.ArcRotateCamera * bool)
  : Animation * BABYLON.ArcRotateCamera * bool :=
  match n with
  | O => state
  | S k =>
      let '(a, camera, requested) := state in
      if requested
      then requestAnimationFrames k moves (animation a (moves k camera))
      else state
  end.

(** What holds of an animation and the camera after each of its frames. *)
Definition inFlight (a : Animation) (camera : BABYLON.ArcRotateCamera) : Prop :=
  frameCount a = 30%Z
  /\ (1 <= frame a <= 30)%Z
  /\ BABYLON.alpha camera
     == startAlpha a
        + (targetAlpha a - startAlpha a) * easeInOutCubic (inject_Z (frame a) / inject_Z 30)
  /\ BABYLON.beta camera
     == startBeta a
        + (targetBeta a - startBeta a) * easeInOutCubic (inject_Z (frame a) / inject_Z 30).

(** The loop of [handleCubeClick] over [Object.entries(FACE_ORIENTATIONS)]
    (lines 3700-3709): the accumulator is [(closestFace, minDiff)]. *)
Definition closer (currentAlpha currentBeta : Q) (acc : string * Q)
  (entry : string * (Q * Q)) : string * Q :=
  let '(face, (alpha, beta)) := entry in
  let diff := JS.Math_abs (alpha - currentAlpha) + JS.Math_abs (beta - currentBeta) in
  if JS.ltb diff (snd acc) then (face, diff) else acc.

Definition closestFace (currentAlpha currentBeta : Q) : string :=
  fst (fold_left (closer currentAlpha currentBeta) FACE_ORIENTATIONS
         ("front"%string, JS.Number_MAX_VALUE)).

(** [faceKeys.indexOf(face)]. *)
Fixpoint indexOf (keys : list string) (key : string) : Z :=
  match keys with
  | [] => -1
  | k :: rest =>
      if String.eqb k key then 0
      else
        let i := indexOf rest key in
        if (i <? 0)%Z then -1 else (i + 1)%Z
  end.

(** The face [handleCubeClick] turns to (lines 3711-3715); [faceKeys[i]] is
    [undefined] ([None]) out of range. *)
Definition nextFace (currentAlpha currentBeta : Q) : option string :=
  let faceKeys := List.map fst FACE_ORIENTATIONS in
  let currentIndex := indexOf faceKeys (closestFace currentAlpha currentBeta) in
  let nextIndex := Z.rem (currentIndex + 1) (Z.of_nat (List.length faceKeys)) in
  if (nextIndex <? 0)%Z then None else nth_error faceKeys (Z.to_nat nextIndex).

(** [handleCubeClick(eventData)] (lines 3680-3718); the position of the click
    is read and not used. *)
Definition handleCubeClick (x y : Q) (camera : BABYLON.ArcRotateCamera)
  : option (Animation * BABYLON.ArcRotateCamera * bool) :=
  match nextFace (BABYLON.alpha camera) (BABYLON.beta camera) with
  | Some face => rotateCameraToFace face camera
  | None => None
  end.

(** [updateCubeOrientation] (lines 3666-3678), on the cube's own camera. *)
Definition updateCubeOrientation (camera cubeCamera : BABYLON.ArcRotateCamera)
  : BABYLON.ArcRotateCamera :=
  BABYLON.mkArcRotateCamera (- BABYLON.alpha camera) (BABYLON.beta camera)
    (BABYLON.radius cubeCamera) (BABYLON.target cubeCamera).

End ViewCubeGizmo.

(** ** The view cube with face buttons ([ViewCubeGizmo], second source file)

    Six buttons in a grid, one per face; the button of the face the camera
    looks at is highlighted.  Decimal literals are read as the rationals they
    denote. *)

Module ViewCubeGrid.

(** [FACE_ORIENTATIONS] (lines 25-32). *)
Definition FACE_ORIENTATIONS : list (string * (Q * Q)) :=
  [("X+"%string, (0, JS.Math_PI / 2));
   ("X-"%string, (JS.Math_PI, JS.Math_PI / 2));
   ("Y+"%string, (JS.Math_PI / 2, JS.Math_PI / 2));
   ("Y-"%string, (- JS.Math_PI / 2, JS.Math_PI / 2));
   ("Z+"%string, (0, 1 # 10));
   ("Z-"%string, (0, JS.Math_PI - (1 # 10)))].

(** The order in which [createFaceButtons] enters the buttons in the
    [faceButtons] map (lines 105-118). *)
Definition layout : list string := ["Z+"; "Y-"; "X+"; "Y+"; "Z-"; "X-"]%string.

(** What [updateVisualState] sets of a face button. *)
Record Button : Type := mkButton {
  thickness : Z;
  shadowBlur : Z;
  shadowColor : option string
}.

(** [createFaceButton]: thickness 2, no shadow set. *)
Definition createFaceButtons : JS.Map.t Button :=
  List.map (fun face => (face, mkButton 2 0 None)) layout.

(** [while (angle > Math.PI) angle -= 2 * Math.PI], run for at most [fuel]
    rounds.  The numbers are exact.  The doubles of the source follow them up
    to rounding while the angle is of ordinary size; from a magnitude of
    about 1e17 on the subtraction no longer changes a double and the loop of
    the source does not end, nor does it for an infinite angle, and [NaN]
    comes back as it is.  What is stated of these loops is stated for angles
    of magnitude up to 1024. *)
Fixpoint whileAbove (fuel : nat) (angle : Q) : Q :=
  match fuel with
  | O => angle
  | S k =>
      if JS.gtb angle JS.Math_PI then whileAbove k (angle - 2 * JS.Math_PI) else angle
  end.

(** [while (angle < -Math.PI) angle += 2 * Math.PI], likewise. *)
Fixpoint whileBelow (fuel : nat) (angle : Q) : Q :=
  match fuel with
  | O => angle
  | S k =>
      if JS.ltb angle (- JS.Math_PI) then whileBelow k (angle + 2 * JS.Math_PI) else angle
  end.

(** A number of rounds that is enough for either loop on [angle]. *)
Definition turns (angle : Q) : nat :=
  S (Z.to_nat (Qceiling (Qabs angle / (2 * JS.Math_PI)))).

(** [normalizeAngle(angle)] (lines 213-217). *)
Definition normalizeAngle (angle : Q) : Q :=
  let angle := whileAbove (turns angle) angle in
  whileBelow (turns angle) angle.

(** The loop of [updateVisualState] over the faces (lines 186-198).  The
    comparisons are exact; the doubles of the source can decide otherwise
    where two numbers compared differ by less than their rounding, as at a
    distance of 0.5 within rounding. *)
Definition closer (currentAlpha currentBeta : Q) (acc : string * Q)
  (entry : string * (Q * Q)) : string * Q :=
  let '(face, (alpha, beta)) := entry in
  let alphaDiff := JS.Math_abs (normalizeAngle (alpha - currentAlpha)) in
  let betaDiff := JS.Math_abs (beta - currentBeta) in
  let diff := alphaDiff + betaDiff in
  if JS.ltb diff (snd acc) then (face, diff) else acc.

Definition closest (currentAlpha currentBeta : Q) : string * Q :=
  fold_left (closer currentAlpha currentBeta) FACE_ORIENTATIONS
    ("X+"%string, JS.Number_MAX_VALUE).

(** [diff] of that loop, for the orientation of one face. *)
Definition distance (currentAlpha currentBeta : Q) (orientation : Q * Q) : Q :=
  Qabs (normalizeAngle (fst orientation - currentAlpha))
  + Qabs (snd orientation - currentBeta).

(** [updateVisualState] (lines 181-211). *)
Definition updateVisualState (camera : BABYLON.ArcRotateCamera)
  (faceButtons : JS.Map.t Button) : JS.Map.t Button :=
  let (closestFace, minDiff) := closest (BABYLON.alpha camera) (BABYLON.beta camera) in
  List.map
    (fun entry : string * Button =>
       let (face, button) := entry in
       if String.eqb face closestFace && JS.ltb minDiff (1 # 2)
       then (face, mkButton 4 10 (Some "rgba(255, 255, 255, 0.8)"%string))
       else (face, mkButton 2 0 (shadowColor button)))
    faceButtons.

(** Whether [updateVisualState] has given the button the highlight. *)
Definition highlighted (button : Button) : bool := (thickness button =? 4)%Z.

(** [easeInOutCubic(t)] (lines 256-260). *)
Definition easeInOutCubic (t : Q) : Q :=
  if JS.ltb t (1 # 2)
  then 4 * t * t * t
  else 1 - Qpower (- (2) * t + 2) 3 / 2.

(** The closure [animation] of [rotateCameraToFace]. *)
Record Animation : Type := mkAnimation {
  frame : Z;
  frameCount : Z;
  startAlpha : Q;
  startBeta : Q;
  deltaAlpha : Q;
  targetBeta : Q
}.

(** One call of [animation] (lines 240-251). *)
Definition animation (a : Animation) (camera : BABYLON.ArcRotateCamera)
  : Animation * BABYLON.ArcRotateCamera * bool :=
  let frame := (frame a + 1)%Z in
  let t := inject_Z frame / inject_Z (frameCount a) in
  let eased := easeInOutCubic t in
  let camera :=
    BABYLON.mkArcRotateCamera
      (startAlpha a + deltaAlpha a * eased)
      (startBeta a + (targetBeta a - startBeta a) * eased)
      (BABYLON.radius camera) (BABYLON.target camera) in
  (mkAnimation frame (frameCount a) (startAlpha a) (startBeta a) (deltaAlpha a)
     (targetBeta a),
   camera, (frame <? frameCount a)%Z).

(** The properties every object literal inherits from [Object.prototype]:
    functions, and the prototype itself under [__proto__]. *)
Definition Object_prototype : list string :=
  ["constructor"; "__defineGetter__"; "__defineSetter__"; "hasOwnProperty";
   "__lookupGetter__"; "__lookupSetter__"; "isPrototypeOf"; "propertyIsEnumerable";
   "toString"; "valueOf"; "__proto__"; "toLocaleString"]%string.

Definition inherited (name : string) : bool := existsb (String.eqb name) Object_prototype.

(** What a call of [rotateCameraToFace] leaves: a warning on the console, a
    [TypeError] thrown, or the animation after its first frame. *)
Inductive Rotation : Type :=
  | Warned (message : string)
  | TypeError
  | Animating (state : Animation * BABYLON.ArcRotateCamera * bool).

(** [rotateCameraToFace(face)] (lines 219-254).  [FACE_ORIENTATIONS[face]]
    reads an object literal: a name it inherits is found, is not falsy and
    passes the guard, and the array pattern then throws on what is no
    iterable.  The two loops on [deltaAlpha] (lines 237-238) are those of
    [normalizeAngle]. *)
Definition rotateCameraToFace (face : string) (camera : BABYLON.ArcRotateCamera)
  : Rotation :=
  match ViewCubeGizmo.lookup FACE_ORIENTATIONS face with
  | None => if inherited face then TypeError else Warned ("Unknown face: " ++ face)
  | Some (targetAlpha, targetBeta) =>
      let startAlpha := BABYLON.alpha camera in
      let startBeta := BABYLON.beta camera in
      let deltaAlpha := targetAlpha - startAlpha in
      let deltaAlpha := whileAbove (turns deltaAlpha) deltaAlpha in
      let deltaAlpha := whileBelow (turns deltaAlpha) deltaAlpha in
      Animating (animation (mkAnimation 0 30 startAlpha startBeta deltaAlpha targetBeta)
                   camera)
  end.

(** The frames the browser runs, as for the other cube. *)
Fixpoint requestAnimationFrames (n : nat)
  (moves : nat -> BABYLON.ArcRotateCamera -> BABYLON.ArcRotateCamera)
  (state : Animation * BABYLON.ArcRotateCamera * bool)
  : Animation * BABYLON.ArcRotateCamera * bool :=
  match n with
  | O => state
  | S k =>
      let '(a, camera, requested) := state in
      if requested
      then requestAnimationFrames k moves (animation a (moves k camera))
      else state
  end.

(** What holds of an animation and the camera after each of its frames. *)
Definition inFlight (a : Animation) (camera : BABYLON.ArcRotateCamera) : Prop :=
  frameCount a = 30%Z
  /\ (1 <= frame a <= 30)%Z
  /\ BABYLON.alpha camera
     == startAlpha a + deltaAlpha a * easeInOutCubic (inject_Z (frame a) / inject_Z 30)
  /\ BABYLON.beta camera
     == startBeta a
        + (targetBeta a - startBeta a) * easeInOutCubic (inject_Z (frame a) / inject_Z 30).

End ViewCubeGrid.

(** ** Vocabulary for the further statements about [RobotScene] *)

(** [a] is at most [b] in every coordinate. *)
Definition Vector3_le (a b : BABYLON.Vector3) : Prop :=
  BABYLON.x a <= BABYLON.x b /\ BABYLON.y a <= BABYLON.y b /\ BABYLON.z a <= BABYLON.z b.

(** The two ways in which the search of the pointer handler takes a joint for
    the picked mesh: the joint's transform is the mesh's parent, or the mesh
    is one of a visual of the joint's child link. *)
Definition isDirectParent (picked : BABYLON.AbstractMesh) (entry : string * Joint.t) : bool :=
  negb (JointType_eqb (Joint.type (snd entry)) Fixed)
  && match Joint.transform (snd entry) with
     | Some node => parentIs picked node
     | None => false
     end.

Definition holdsMesh (robot : Robot.t) (picked : BABYLON.AbstractMesh)
  (entry : string * Joint.t) : bool :=
  negb (JointType_eqb (Joint.type (snd entry)) Fixed)
  && match Joint.transform (snd entry), Joint.child (snd entry) with
     | Some _, Some child => childHasMesh robot picked child
     | _, _ => false
     end.

(** What holds of the robots a scene has received, in every reachable state:
    [dispose()] has been called at most once on each, never on the current
    one, and every robot received is the current one or has been disposed. *)
Definition robotsInvariant (s : RobotScene) : Prop :=
  NoDup (disposedRobots s)
  /\ (forall robotId, In robotId (disposedRobots s) -> (robotId < robotsAllocated s)%nat)
  /\ (forall robotId robot,
         currentRobot s = Some (robotId, robot) ->
         (robotId < robotsAllocated s)%nat /\ ~ In robotId (disposedRobots s))
  /\ (forall robotId,
         (robotId < robotsAllocated s)%nat ->
         In robotId (disposedRobots s) \/ exists robot, currentRobot s = Some (robotId, robot)).

(** What holds when every call is awaited: the robots are as above, at most
    one call is suspended, and while one is, no robot is current. *)
Definition awaitedInvariant (state : RobotScene * list (string * bool)) : Prop :=
  let (s, suspended) := state in
  robotsInvariant s
  /\ (List.length suspended <= 1)%nat
  /\ (suspended <> [] -> currentRobot s = None).

(** A progress event of the loader that has loaded between nothing and all. *)
Definition wellFormed (e : Event) : bool :=
  match e with
  | MeshLoadProgress _ event =>
      Qle_bool 0 (BABYLON.loaded event)
      && Qle_bool (BABYLON.loaded event) (BABYLON.total event)
  | _ => true
  end.

(** A call of the progress callback for a load of [total] meshes that a
    progress bar can show. *)
Definition withinBounds (total : Z) (r : ProgressReport) : Prop :=
  reportTotal r = total
  /\ (0 <= reportLoaded r)%Z
  /\ 0 <= reportProgress r /\ reportProgress r <= 100.

(** The aggregator while the meshes [ids] load, as to the reports it has made
    since [base]. *)
Definition reporting (ids : list string) (base : list ProgressReport) (s : RobotScene)
  : Prop :=
  edition s = Desktop
  /\ onProgressCallback s = true
  /\ totalMeshes s = Z.of_nat (List.length ids)
  /\ JS.Map.keys (meshLoadProgress s) = ids
  /\ (forall v, In v (JS.Map.values (meshLoadProgress s)) -> 0 <= v /\ v <= 100)
  /\ (0 <= loadedMeshes s)%Z
  /\ exists new,
       progressReports s = base ++ new
       /\ Forall (withinBounds (Z.of_nat (List.length ids))) new.

(** ** Axis gizmos, rotation gizmos and grid units of a [RobotScene]

    The fields of the class that the menu toggles act on, kept beside the
    record [RobotScene]: the four gizmo lists and the grid-unit labels.
    [disposedGizmos] and [disposedLabels] record the objects on which
    [dispose()] was called. *)

Module Overlay.

(** A [PositionGizmo] or [RotationGizmo] made by [addAxisToTransform] or
    [addRotationToTransform]. *)
Record Gizmo : Type := mkGizmo {
  scaleRatio : Q;
  attachedNode : BABYLON.TransformNode
}.

(** A text plane made by [makeTextPlane] and placed by [createAxisLabels]. *)
Record Label : Type := mkLabel {
  text : string;
  color : string;
  size : Q;
  position : BABYLON.Vector3
}.

Record t : Type := mk {
  jointAxisList : list Gizmo;
  linkAxisList : list Gizmo;
  jointRotationGizmos : list Gizmo;
  linkRotationGizmos : list Gizmo;
  gridUnitsVisible : bool;
  currentGridUnit : string;
  gridUnitLabels : list Label;
  disposedGizmos : list Gizmo;
  disposedLabels : list Label
}.

(** The field initialisers of the class. *)
Definition new : t := mk [] [] [] [] false "1m" [] [] [].

(** [clearAxisGizmos] (lines 85-95; 1790-1800). *)
Definition clearAxisGizmos (o : t) : t :=
  mk [] [] (jointRotationGizmos o) (linkRotationGizmos o) (gridUnitsVisible o)
    (currentGridUnit o) (gridUnitLabels o)
    (disposedGizmos o ++ linkAxisList o ++ jointAxisList o) (disposedLabels o).

(** [clearRotationGizmos] (lines 150-159; 1854-1863). *)
Definition clearRotationGizmos (o : t) : t :=
  mk (jointAxisList o) (linkAxisList o) [] [] (gridUnitsVisible o) (currentGridUnit o)
    (gridUnitLabels o)
    (disposedGizmos o ++ jointRotationGizmos o ++ linkRotationGizmos o) (disposedLabels o).

(** [clearGridUnits] (lines 1072-1077; 2570-2575). *)
Definition clearGridUnits (o : t) : t :=
  mk (jointAxisList o) (linkAxisList o) (jointRotationGizmos o) (linkRotationGizmos o)
    (gridUnitsVisible o) (currentGridUnit o) []
    (disposedGizmos o) (disposedLabels o ++ gridUnitLabels o).

(** [addAxisToTransform] and [addRotationToTransform] (lines 97-121, 161-190;
    1802-1825, 1865-1892), as to the list: a gizmo of scale 0.5 on the
    transform, if there is one. *)
Definition addToTransform (gizmos : list Gizmo) (transform : option BABYLON.TransformNode)
  : list Gizmo :=
  match transform with
  | Some node => gizmos ++ [mkGizmo (1 # 2) node]
  | None => gizmos
  end.

(** [Math.round] and the template literal of an integer. *)
Definition Math_round (x : Q) : Z := Qfloor (x + (1 # 2)).

Definition integer (n : Z) : string :=
  if (n <? 0)%Z then ("-" ++ JS.decimal (Z.to_nat (- n)))%string
  else JS.decimal (Z.to_nat n).

Inductive Axis : Type := AxisX | AxisY | AxisZ.

(** The values of the loop variable of
    [for (let value = start; value <= end; value += increment)], for at most
    [fuel] rounds.  The numbers are exact: the doubles of the source differ
    from them by the rounding of [value += 0.1], which stays below 1e-14 in
    the loops [createGridUnits] runs and changes neither the number of their
    rounds nor the text of a label.  For other arguments the loop in doubles
    may run differently or, when [value + increment] rounds to [value], not
    end. *)
Fixpoint loopValues (fuel : nat) (value stop increment : Q) : list Q :=
  match fuel with
  | O => []
  | S k =>
      if Qle_bool value stop
      then value :: loopValues k (value + increment) stop increment
      else []
  end.

(** A number of rounds after which the loop over exact numbers has ended,
    for a positive increment. *)
Definition rounds (start stop increment : Q) : nat :=
  S (Z.to_nat (Qfloor ((stop - start) / increment) + 1)).

(** [getPosition] of [axisConfig] (lines 1088-1109; 2586-2605). *)
Definition getPosition (e : Edition) (axis : Axis) (value : Q) : BABYLON.Vector3 :=
  match e, axis with
  | Immersive, AxisX => BABYLON.mkVector3 0 0 value
  | Immersive, AxisY => BABYLON.mkVector3 (- value) 0 0
  | Desktop, AxisX => BABYLON.mkVector3 value 0 0
  | Desktop, AxisY => BABYLON.mkVector3 0 0 (- value)
  | _, AxisZ => BABYLON.mkVector3 0 value 0
  end.

(** [createAxisLabels] (lines 1079-1127; 2577-2624), on a scene. *)
Definition createAxisLabels (e : Edition) (axis : Axis) (range increment : Q)
  (unit : string) (labelSize : Q) (color : string) (labels : list Label) : list Label :=
  let start := match axis with AxisZ => increment | _ => - range end in
  let skipOrigin := match axis with AxisZ => false | _ => true end in
  fold_left
    (fun labels value =>
       if skipOrigin && JS.ltb (JS.Math_abs value) (1 # 1000) then labels
       else
         let labelText :=
           if String.eqb unit "10cm"
           then (integer (Math_round (value * 100)) ++ " cm")%string
           else (integer (Math_round value) ++ " m")%string in
         labels ++ [mkLabel labelText color labelSize (getPosition e axis value)])
    (loopValues (rounds start range increment) start range increment)
    labels.

(** [createGridUnits(unit)] (lines 1129-1161; 2626-2658). *)
Definition createGridUnits (unit : string) (s : RobotScene) (o : t) : t :=
  if negb (scene s) then o
  else
    let o := clearGridUnits o in
    let '(increment, range, labelSize) :=
      if String.eqb unit "10cm" then (1 # 10, 5, 1 # 10) else (1, 25, 3 # 10) in
    let labels := gridUnitLabels o in
    let labels :=
      createAxisLabels (edition s) AxisX range increment unit labelSize "#FFAAAA" labels in
    let labels :=
      createAxisLabels (edition s) AxisY range increment unit labelSize "#AAFFAA" labels in
    let labels :=
      createAxisLabels (edition s) AxisZ range increment unit labelSize "#AACCFF" labels in
    mk (jointAxisList o) (linkAxisList o) (jointRotationGizmos o) (linkRotationGizmos o)
      true unit labels (disposedGizmos o) (disposedLabels o).

(** [toggleGridUnits(unit)] (lines 1163-1172; 2660-2669). *)
Definition toggleGridUnits (unit : string) (s : RobotScene) (o : t) : t :=
  if gridUnitsVisible o && String.eqb (currentGridUnit o) unit
  then
    let o := clearGridUnits o in
    mk (jointAxisList o) (linkAxisList o) (jointRotationGizmos o) (linkRotationGizmos o)
      false (currentGridUnit o) (gridUnitLabels o) (disposedGizmos o) (disposedLabels o)
  else createGridUnits unit s o.

(** What [applyURDF] does to these fields, first of all (lines 1212-1215;
    2858-2861). *)
Definition applyURDF (o : t) : t :=
  clearGridUnits (clearRotationGizmos (clearAxisGizmos o)).

Section Toggles.

(** [visual.transform], which [Visual.t] does not carry. *)
Variable transform : Visual.t -> option BABYLON.TransformNode.

(** The transforms the toggles put a gizmo on: of the joints, or of the
    visuals of the links, in the order of the [forEach]. *)
Definition jointTransforms (robot : Robot.t) : list (option BABYLON.TransformNode) :=
  List.map (fun entry => Joint.transform (snd entry)) (Robot.joints robot).

Definition linkTransforms (robot : Robot.t) : list (option BABYLON.TransformNode) :=
  flat_map (fun entry => List.map transform (Link.visuals (snd entry))) (Robot.links robot).

(** [toggleAxisOnRobot(jointOrLink, scene, layer)] (lines 123-148;
    1827-1852); [sceneGiven] says whether the [scene] argument is defined. *)
Definition toggleAxisOnRobot (jointOrLink sceneGiven : bool) (s : RobotScene) (o : t)
  : RobotScene * t :=
  match currentRobot s, sceneGiven with
  | Some (_, robot), true =>
      let whichAxis := if jointOrLink then jointAxisList o else linkAxisList o in
      if (List.length whichAxis =? 0)%nat then
        if jointOrLink then
          (s,
           mk (fold_left addToTransform (jointTransforms robot) whichAxis) (linkAxisList o)
             (jointRotationGizmos o) (linkRotationGizmos o) (gridUnitsVisible o)
             (currentGridUnit o) (gridUnitLabels o) (disposedGizmos o) (disposedLabels o))
        else
          (s,
           mk (jointAxisList o) (fold_left addToTransform (linkTransforms robot) whichAxis)
             (jointRotationGizmos o) (linkRotationGizmos o) (gridUnitsVisible o)
             (currentGridUnit o) (gridUnitLabels o) (disposedGizmos o) (disposedLabels o))
      else (clearStatus s, clearAxisGizmos o)
  | _, _ => (s, o)
  end.


End Toggles.

End Overlay.

(** ** The scene with its overlay, driven by events and the menu *)

(** The transforms that are there. *)
Definition present {A : Type} (l : list (option A)) : list A :=
  flat_map (fun x => match x with Some a => [a] | None => [] end) l.

Section Menu.

Variable deserializeUrdfToRobot : string -> Deserialized.
Variable create : Robot.t -> Robot.t.
Variable transform : Visual.t -> option BABYLON.TransformNode.





End Menu.

(** ** Mirror reflections ([updateMirrorReflections], lines 1603-1650;
    3302-3349) *)

Module Mirror.

(** A mesh of [scene.meshes], as far as the filter reads it; [ancestors] is
    the chain [parent], [parent.parent], ... up to the root. *)
Record Mesh : Type := mkMesh {
  uniqueId : nat;
  name : string;
  isVisible : bool;
  ancestors : list nat
}.

(** [isChildOfWorldAxis(mesh)] (lines 1655-1666; 3354-3365). *)
Definition isChildOfWorldAxis (worldAxis : option nat) (mesh : Mesh) : bool :=
  match worldAxis with
  | None => false
  | Some axis => existsb (Nat.eqb axis) (ancestors mesh)
  end.

(** [name.startsWith(prefix)]. *)
Definition startsWith (name prefix : string) : bool := String.prefix prefix name.

(** The filter on [scene.meshes] (lines 3327-3340). *)
Definition reflected (worldAxis : option nat) (mesh : Mesh) : bool :=
  negb (String.eqb (name mesh) "ground")
  && negb (String.eqb (name mesh) "mirrorGround")
  && negb (String.eqb (name mesh) "edgeFade")
  && negb (String.eqb (name mesh) "backgroundSphere")
  && negb (String.eqb (name mesh) "axisX")
  && negb (String.eqb (name mesh) "axisY")
  && negb (String.eqb (name mesh) "axisZ")
  && negb (startsWith (name mesh) "TextPlane")
  && isVisible mesh
  && (match worldAxis with None => true | Some _ => false end
      || negb (isChildOfWorldAxis worldAxis mesh)).

(** [renderList.includes(mesh)], meshes being told apart by their identity. *)
Definition includes (renderList : list nat) (mesh : Mesh) : bool :=
  existsb (Nat.eqb (uniqueId mesh)) renderList.

(** [updateMirrorReflections]: [mirrorTexture] is the render list of the
    mirror texture, if there is a mirror texture; [meshes] is [scene.meshes]. *)
Definition updateMirrorReflections (s : RobotScene) (worldAxis : option nat)
  (meshes : list Mesh) (mirrorTexture : option (list nat)) : option (list nat) :=
  match scene s, currentRobot s, mirrorTexture with
  | true, Some (_, robot), Some _ =>
      let renderList := List.map BABYLON.meshUniqueId (robotMeshes robot) in
      let allMeshes := List.filter (reflected worldAxis) meshes in
      Some
        (fold_left
           (fun renderList mesh =>
              if negb (includes renderList mesh) then renderList ++ [uniqueId mesh]
              else renderList)
           allMeshes renderList)
  | _, _, _ => mirrorTexture
  end.

End Mirror.

(** ** Screenshots ([takeScreenshot], [takeScreenshotDataURL], lines
    1312-1366, 1438-1441; 2999-3053, 3125-3128) *)

Module Screenshot.

(** [a || b] on optional numbers: [undefined] and 0 give way. *)
Definition orElse (a b : option Q) : option Q :=
  match a with
  | Some x => if Qeq_bool x 0 then b else Some x
  | None => b
  end.

(** [width || canvas?.width || 1024]. *)
Definition targetSize (requested canvasSize : option Q) : Q :=
  match orElse (orElse requested canvasSize) (Some 1024) with
  | Some x => x
  | None => 0
  end.

(** [data.split(',')]. *)
Fixpoint split (data : string) : list string :=
  match data with
  | EmptyString => [EmptyString]
  | String c rest =>
      if Ascii.eqb c ","%char then EmptyString :: split rest
      else
        match split rest with
        | piece :: pieces => String c piece :: pieces
        | [] => [String c EmptyString]
        end
  end.

(** The template literal of a string that may be [undefined]. *)
Definition interpolate (s : option string) : string :=
  match s with
  | Some s => s
  | None => "undefined"
  end.

(** The visibility of the utility and gizmo layers, where they exist. *)
Record Layers : Type := mkLayers {
  utilLayer : option bool;
  gizmoLayer : option bool
}.

Inductive Outcome : Type :=
  | Throws (message : string)
  | Resolves (value : option string).

(** [takeScreenshot(width, height)]: [engine] says whether there is an
    engine, [canvas] is the size of the rendering canvas if there is one, and
    [render] is the data URL that
    [BABYLON.Tools.CreateScreenshotUsingRenderTarget] hands to its callback
    for the size asked for.  The layers are hidden in the [try] block and
    restored in the [finally] block, which runs when the promise is returned.
    The result is the outcome of the promise ([Throws]: rejected with that
    error) with the layers as the call leaves them. *)
Definition takeScreenshot (s : RobotScene) (engine : bool) (canvas : option (Q * Q))
  (render : Q -> Q -> string) (layers : Layers) (width height : option Q)
  : Outcome * Layers :=
  if negb (scene s) || negb engine || match camera s with Some _ => false | None => true end
  then (Throws "Scene, engine, or camera not initialized", layers)
  else
    let utilLayerWasVisible := match utilLayer layers with Some b => b | None => false end in
    let gizmoLayerWasVisible := match gizmoLayer layers with Some b => b | None => false end in
    let hidden :=
      mkLayers (match utilLayer layers with Some _ => Some false | None => None end)
        (match gizmoLayer layers with Some _ => Some false | None => None end) in
    let targetWidth := targetSize width (option_map fst canvas) in
    let targetHeight := targetSize height (option_map snd canvas) in
    let data := render targetWidth targetHeight in
    let restored :=
      mkLayers (match utilLayer hidden with Some _ => Some utilLayerWasVisible | None => None end)
        (match gizmoLayer hidden with
         | Some _ => Some gizmoLayerWasVisible
         | None => None
         end) in
    (Resolves (nth_error (split data) 1), restored).

(** [takeScreenshotDataURL(width, height)]. *)
Definition takeScreenshotDataURL (s : RobotScene) (engine : bool) (canvas : option (Q * Q))
  (render : Q -> Q -> string) (layers : Layers) (width height : option Q)
  : Outcome * Layers :=
  match takeScreenshot s engine canvas render layers width height with
  | (Resolves base64Data, layers) =>
      (Resolves (Some ("data:image/png;base64," ++ interpolate base64Data)%string), layers)
  | thrown => thrown
  end.

End Screenshot.

(** A string without a comma. *)
Definition noComma (s : string) : Prop := ~ In ","%char (list_ascii_of_string s).

(** * Properties *)

Unset Implicit Arguments.

(** Reduce projections applied to chains of field updates. *)
Ltac project :=
  cbv beta iota zeta delta
      [console_log console_error postMessage callProgressCallback
       setTimeout_frameModel construct_gizmo dispose_robot dispose_gizmo
       set_scene set_camera set_currentURDF set_currentRobot set_statusLabel
       set_status3DText set_hoveredJoint set_planeRotationGizmo set_planePositionGizmo
       set_hasBeenFramed set_pendingMeshLoads set_savedFramingTarget
       set_savedFramingRadius set_savedFramingAlpha set_savedFramingBeta
       set_totalMeshes set_loadedMeshes set_meshLoadProgress set_onProgressCallback
       set_robotsAllocated set_disposedRobots set_liveExerciseGizmos set_timers
       set_framingsRequested set_progressReports set_console set_consoleErrors
       set_posted
       edition scene camera currentURDF currentRobot statusLabel status3DText
       hoveredJoint planeRotationGizmo planePositionGizmo hasBeenFramed
       pendingMeshLoads savedFramingTarget savedFramingRadius savedFramingAlpha
       savedFramingBeta totalMeshes loadedMeshes meshLoadProgress onProgressCallback
       robotsAllocated disposedRobots liveExerciseGizmos timers framingsRequested
       progressReports console consoleErrors posted fst snd].

(** Unfold the methods of the model on a state whose fields are known. *)
Ltac run_model :=
  cbv beta iota zeta delta
      [clearStatus clearJointExerciseGizmos updateJointStatusLabel resetCamera
       frameModel timerFires setLoadProgressCallback updateOverallProgress
       onMeshLoadProgress onMeshLoadComplete castRay applyURDF_begin applyURDF_reset
       applyURDF_catch applyURDF_resolved applyURDF_settled applyURDF_call applyURDF
       cameraMoved step
       heldGizmos gizmoAttached manipulation selectionFields disposedByApply
       create3DUI createScene newRobotScene
       console_log console_error postMessage callProgressCallback
       setTimeout_frameModel construct_gizmo dispose_robot dispose_gizmo
       set_scene set_camera set_currentURDF set_currentRobot set_statusLabel
       set_status3DText set_hoveredJoint set_planeRotationGizmo set_planePositionGizmo
       set_hasBeenFramed set_pendingMeshLoads set_savedFramingTarget
       set_savedFramingRadius set_savedFramingAlpha set_savedFramingBeta
       set_totalMeshes set_loadedMeshes set_meshLoadProgress set_onProgressCallback
       set_robotsAllocated set_disposedRobots set_liveExerciseGizmos set_timers
       set_framingsRequested set_progressReports set_console set_consoleErrors
       set_posted
       edition scene camera currentURDF currentRobot statusLabel status3DText
       hoveredJoint planeRotationGizmo planePositionGizmo hasBeenFramed
       pendingMeshLoads savedFramingTarget savedFramingRadius savedFramingAlpha
       savedFramingBeta totalMeshes loadedMeshes meshLoadProgress onProgressCallback
       robotsAllocated disposedRobots liveExerciseGizmos timers framingsRequested
       progressReports console consoleErrors posted fst snd negb andb orb].

Ltac destruct_state s :=
  destruct s as [e sc cam urdf cur label text3 hov rot pos framed pending
                 tgt rad al be total loadedN progress cb alloc disposed live tm req
                 reports con errs post].

Ltac case_if :=
  match goal with
  | |- context [if ?c then _ else _] => destruct c
  end.

(** ** Arithmetic and map facts *)

Lemma gtb_true_iff (a b : Q) : JS.gtb a b = true <-> (b < a)%Q.
Proof.
  unfold JS.gtb, JS.ltb. rewrite negb_true_iff.
  split; intro H.
  - apply Qnot_le_lt. intro Hle. apply Qle_bool_iff in Hle. congruence.
  - destruct (Qle_bool a b) eqn:E; [|reflexivity].
    apply Qle_bool_iff in E. exfalso. exact (Qlt_not_le _ _ H E).
Qed.

Lemma gtb_false_iff (a b : Q) : JS.gtb a b = false <-> (a <= b)%Q.
Proof.
  unfold JS.gtb, JS.ltb. rewrite negb_false_iff. apply Qle_bool_iff.
Qed.

Lemma JointType_eqb_eq (a b : JointType) : JointType_eqb a b = true <-> a = b.
Proof. destruct a, b; simpl; split; intro H; try reflexivity; discriminate. Qed.

(** ** Dominant-axis selection *)

Lemma axisBranch_y (axis : BABYLON.Vector3) :
  (1 # 2 < Qabs (BABYLON.y axis))%Q -> axisBranch axis = BranchY.
Proof.
  intro H. unfold axisBranch, JS.Math_abs.
  apply gtb_true_iff in H. rewrite H. reflexivity.
Qed.

Lemma axisBranch_z (axis : BABYLON.Vector3) :
  (Qabs (BABYLON.y axis) <= 1 # 2)%Q -> (1 # 2 < Qabs (BABYLON.z axis))%Q ->
  axisBranch axis = BranchZ.
Proof.
  intros Hy Hz. unfold axisBranch, JS.Math_abs.
  apply gtb_false_iff in Hy. apply gtb_true_iff in Hz. rewrite Hy, Hz. reflexivity.
Qed.

Lemma axisBranch_x (axis : BABYLON.Vector3) :
  (Qabs (BABYLON.y axis) <= 1 # 2)%Q -> (Qabs (BABYLON.z axis) <= 1 # 2)%Q ->
  axisBranch axis = BranchX.
Proof.
  intros Hy Hz. unfold axisBranch, JS.Math_abs.
  apply gtb_false_iff in Hy. apply gtb_false_iff in Hz. rewrite Hy, Hz. reflexivity.
Qed.

(** C2.  A Revolute or Continuous joint (with a transform, as every selected
    joint has) gets one rotation gizmo, a Prismatic joint one position gizmo;
    which one is decided by testing [|axis.y| > 0.5] first, then
    [|axis.z| > 0.5], and taking the x branch otherwise.  The rotation gizmo is
    green for y, blue for z, red for x; the position gizmo is blue for y, red
    for z, green for x.  The axes (0,0.9,0.1), (0.1,0.1,0.9), (0.9,0.1,0.1) and
    (0.6,0.6,0.6) take the y, z, x and y branch. *)
Theorem dominant_axis_precedence :
  forall (ref : JointRef) (joint : Joint.t) (node : BABYLON.TransformNode) (s : RobotScene),
    Joint.transform joint = Some node ->
    let s' := addExerciseGizmoToJoint ref joint s in
    let b := axisBranch (Joint.axis joint) in
    let rotation :=
      match b with
      | BranchY => BABYLON.Green
      | BranchZ => BABYLON.Blue
      | BranchX => BABYLON.Red
      end in
    let position :=
      match b with
      | BranchY => BABYLON.Blue
      | BranchZ => BABYLON.Red
      | BranchX => BABYLON.Green
      end in
    (Joint.type joint = Revolute \/ Joint.type joint = Continuous ->
       planeRotationGizmo s'
       = Some (JointRotationGizmo.mk ref rotation (3 # 4)
                 (Some (BABYLON.uniqueId node))
                 (negb (JointType_eqb (Joint.type joint) Continuous)) 1)
       /\ planePositionGizmo s' = planePositionGizmo s
       /\ liveExerciseGizmos s' = S (liveExerciseGizmos s))
    /\ (Joint.type joint = Prismatic ->
          planePositionGizmo s'
          = Some (JointPositionGizmo.mk ref position (3 # 4)
                    (Some (BABYLON.uniqueId node)))
          /\ planeRotationGizmo s' = planeRotationGizmo s
          /\ liveExerciseGizmos s' = S (liveExerciseGizmos s))
    /\ ((1 # 2 < Qabs (BABYLON.y (Joint.axis joint)))%Q -> b = BranchY)
    /\ ((Qabs (BABYLON.y (Joint.axis joint)) <= 1 # 2)%Q ->
        (1 # 2 < Qabs (BABYLON.z (Joint.axis joint)))%Q -> b = BranchZ)
    /\ ((Qabs (BABYLON.y (Joint.axis joint)) <= 1 # 2)%Q ->
        (Qabs (BABYLON.z (Joint.axis joint)) <= 1 # 2)%Q -> b = BranchX)
    /\ axisBranch (BABYLON.mkVector3 0 (9 # 10) (1 # 10)) = BranchY
    /\ axisBranch (BABYLON.mkVector3 (1 # 10) (1 # 10) (9 # 10)) = BranchZ
    /\ axisBranch (BABYLON.mkVector3 (9 # 10) (1 # 10) (1 # 10)) = BranchX
    /\ axisBranch (BABYLON.mkVector3 (6 # 10) (6 # 10) (6 # 10)) = BranchY.
Proof.
  intros ref joint node s Ht s' b rotation position.
  assert (Hrotation : rotationColor b = rotation) by (subst rotation; destruct b; reflexivity).
  assert (Hposition : positionColor b = position) by (subst position; destruct b; reflexivity).
  clearbody rotation position.
  repeat split; try reflexivity.
  - subst s'. unfold addExerciseGizmoToJoint. rewrite Ht. fold b.
    destruct H as [H | H]; rewrite H; cbv zeta; fold b; rewrite <- Hrotation; reflexivity.
  - subst s'. unfold addExerciseGizmoToJoint. rewrite Ht.
    destruct H as [H | H]; rewrite H; reflexivity.
  - subst s'. unfold addExerciseGizmoToJoint. rewrite Ht.
    destruct H as [H | H]; rewrite H; reflexivity.
  - subst s'. unfold addExerciseGizmoToJoint. rewrite Ht, H. cbv zeta. fold b.
    rewrite <- Hposition. reflexivity.
  - subst s'. unfold addExerciseGizmoToJoint. rewrite Ht, H. reflexivity.
  - subst s'. unfold addExerciseGizmoToJoint. rewrite Ht, H. reflexivity.
  - apply axisBranch_y.
  - apply axisBranch_z.
  - apply axisBranch_x.
Qed.

(** ** Joint selection *)

Lemma searchJoint_sound (robot : Robot.t) (picked : BABYLON.AbstractMesh)
  (acc : option (string * Joint.t) * list string) (entry : string * Joint.t) :
  In entry (Robot.joints robot) -> foundIn robot (fst acc) ->
  foundIn robot (fst (searchJoint robot picked acc entry)).
Proof.
  intros Hin Hacc. destruct acc as [found lines]. destruct entry as [key j].
  unfold searchJoint. simpl snd.
  destruct (JointType_eqb (Joint.type j) Fixed) eqn:Efixed; [exact Hacc|].
  assert (Hnf : Joint.type j <> Fixed).
  { intro H. apply JointType_eqb_eq in H. congruence. }
  destruct (Joint.transform j) as [node|] eqn:Et; [|exact Hacc].
  assert (Hgood : foundIn robot (Some (key, j))).
  { simpl. repeat split; [exact Hin | exact Hnf | congruence]. }
  destruct (parentIs picked node); [exact Hgood|].
  destruct (Joint.child j) as [child|]; [|exact Hacc].
  destruct found; [exact Hacc|].
  destruct (childHasMesh robot picked child); [exact Hgood | exact Hacc].
Qed.

Lemma findJoint_sound (robot : Robot.t) (picked : BABYLON.AbstractMesh) :
  foundIn robot (fst (findJoint robot picked)).
Proof.
  unfold findJoint.
  assert (H : forall entries acc,
             incl entries (Robot.joints robot) -> foundIn robot (fst acc) ->
             foundIn robot (fst (fold_left (searchJoint robot picked) entries acc))).
  { induction entries as [|entry entries IH]; intros acc Hincl Hacc; simpl.
    - exact Hacc.
    - apply IH.
      + intros e He. apply Hincl. right. exact He.
      + apply searchJoint_sound; [apply Hincl; left; reflexivity | exact Hacc]. }
  apply H; [apply incl_refl | exact I].
Qed.

Lemma resolvedJoint_sound (hit : option BABYLON.AbstractMesh) (s : RobotScene)
  (key : string) (j : Joint.t) :
  resolvedJoint hit s = Some (key, j) ->
  Joint.type j <> Fixed /\ Joint.transform j <> None
  /\ exists robotId robot, currentRobot s = Some (robotId, robot)
                           /\ In (key, j) (Robot.joints robot).
Proof.
  unfold resolvedJoint. intro H.
  destruct hit as [picked|]; [|discriminate].
  destruct (currentRobot s) as [[robotId robot]|]; [|discriminate].
  pose proof (findJoint_sound robot picked) as Hs. rewrite H in Hs.
  destruct Hs as (Hin & Hnf & Ht).
  repeat split; try assumption. exists robotId, robot. split; [reflexivity | exact Hin].
Qed.

(** Fields that [clearStatus] leaves alone. *)
Lemma clearStatus_frame (s : RobotScene) :
  scene (clearStatus s) = scene s
  /\ camera (clearStatus s) = camera s
  /\ currentRobot (clearStatus s) = currentRobot s
  /\ hoveredJoint (clearStatus s) = hoveredJoint s
  /\ planeRotationGizmo (clearStatus s) = planeRotationGizmo s
  /\ planePositionGizmo (clearStatus s) = planePositionGizmo s
  /\ liveExerciseGizmos (clearStatus s) = liveExerciseGizmos s
  /\ robotsAllocated (clearStatus s) = robotsAllocated s
  /\ edition (clearStatus s) = edition s.
Proof.
  unfold clearStatus.
  destruct (edition s) eqn:Ee; [destruct (status3DText s)|];
    simpl; rewrite ?Ee; repeat split; reflexivity.
Qed.

Lemma clearStatus_cleared (s : RobotScene) : statusCleared (clearStatus s).
Proof.
  unfold statusCleared, clearStatus.
  destruct (edition s) eqn:Ee; [destruct (status3DText s) eqn:Es|]; simpl; rewrite ?Ee.
  - right. reflexivity.
  - left. exact Es.
  - reflexivity.
Qed.

(** What [addExerciseGizmoToJoint] does for a joint that has a transform. *)
Lemma addExerciseGizmoToJoint_gizmos (ref : JointRef) (joint : Joint.t) (s : RobotScene) :
  Joint.transform joint <> None ->
  planeRotationGizmo s = None -> planePositionGizmo s = None ->
  let s' := addExerciseGizmoToJoint ref joint s in
  gizmoAttached s' = movable (Joint.type joint)
  /\ (planeRotationGizmo s' = None \/ planePositionGizmo s' = None)
  /\ liveExerciseGizmos s' = ((if movable (Joint.type joint) then 1 else 0) + liveExerciseGizmos s)%nat
  /\ hoveredJoint s' = hoveredJoint s
  /\ currentRobot s' = currentRobot s
  /\ robotsAllocated s' = robotsAllocated s
  /\ edition s' = edition s.
Proof.
  intros Ht Hr Hp. unfold addExerciseGizmoToJoint.
  destruct (Joint.transform joint) as [node|]; [|congruence].
  unfold gizmoAttached.
  destruct (Joint.type joint); simpl; rewrite ?Hr, ?Hp; repeat split; auto.
Qed.

Lemma updateJointStatusLabel_frame (joint : Joint.t) (s : RobotScene) :
  let s' := updateJointStatusLabel joint s in
  planeRotationGizmo s' = planeRotationGizmo s
  /\ planePositionGizmo s' = planePositionGizmo s
  /\ liveExerciseGizmos s' = liveExerciseGizmos s
  /\ hoveredJoint s' = hoveredJoint s
  /\ currentRobot s' = currentRobot s
  /\ robotsAllocated s' = robotsAllocated s
  /\ edition s' = edition s.
Proof.
  unfold updateJointStatusLabel.
  destruct (Joint.transform joint); [|repeat split; reflexivity].
  destruct (edition s) eqn:Ee; [destruct (status3DText s)|];
    simpl; rewrite ?Ee; repeat split; reflexivity.
Qed.

Lemma clearJointExerciseGizmos_spec (s : RobotScene) :
  let s' := clearJointExerciseGizmos s in
  planeRotationGizmo s' = None
  /\ planePositionGizmo s' = None
  /\ liveExerciseGizmos s' = (liveExerciseGizmos s - heldGizmos s)%nat
  /\ hoveredJoint s' = hoveredJoint s
  /\ currentRobot s' = currentRobot s
  /\ robotsAllocated s' = robotsAllocated s
  /\ edition s' = edition s
  /\ statusLabel s' = statusLabel s
  /\ status3DText s' = status3DText s.
Proof.
  unfold clearJointExerciseGizmos, dispose_gizmo, heldGizmos.
  destruct (planeRotationGizmo s) eqn:Er; destruct (planePositionGizmo s) eqn:Ep;
    simpl; rewrite ?Ep; simpl; repeat split; try reflexivity; lia.
Qed.

Lemma manipulation_Idle (s : RobotScene) :
  manipulation s = Idle <-> planeRotationGizmo s = None /\ planePositionGizmo s = None.
Proof.
  unfold manipulation.
  destruct (planeRotationGizmo s), (planePositionGizmo s); split;
    intro H; try discriminate; try (destruct H; discriminate); auto.
Qed.

Lemma gizmoAttached_false (s : RobotScene) :
  gizmoAttached s = false <-> planeRotationGizmo s = None /\ planePositionGizmo s = None.
Proof.
  unfold gizmoAttached.
  destruct (planeRotationGizmo s), (planePositionGizmo s); split;
    intro H; try discriminate; try (destruct H; discriminate); auto.
Qed.

Lemma castRay_unresolved (hit : option BABYLON.AbstractMesh) (s : RobotScene)
  (picked : BABYLON.AbstractMesh) (robotId : nat) (robot : Robot.t)
  (cam : BABYLON.ArcRotateCamera) (lines : list string) :
  scene s = true -> camera s = Some cam -> hit = Some picked ->
  currentRobot s = Some (robotId, robot) ->
  findJoint robot picked = (None, lines) ->
  castRay hit s
  = clearStatus
      (clearJointExerciseGizmos
         (set_hoveredJoint None (set_console (console (clearStatus s) ++ lines) (clearStatus s)))).
Proof.
  intros Hs Hc Hh Hr Hf. unfold castRay. rewrite Hs, Hc, Hh.
  destruct (clearStatus_frame s) as (_ & _ & Hcr & _). rewrite Hcr, Hr, Hf. reflexivity.
Qed.

Lemma castRay_resolved (hit : option BABYLON.AbstractMesh) (s : RobotScene)
  (picked : BABYLON.AbstractMesh) (robotId : nat) (robot : Robot.t)
  (cam : BABYLON.ArcRotateCamera) (lines : list string) (key : string) (j : Joint.t) :
  scene s = true -> camera s = Some cam -> hit = Some picked ->
  currentRobot s = Some (robotId, robot) ->
  findJoint robot picked = (Some (key, j), lines) ->
  let s1 := console_log ("Creating gizmo for joint: " ++ Joint.name j)
              (set_console (console (clearStatus s) ++ lines) (clearStatus s)) in
  castRay hit s
  = if sameJoint (robotId, key) (hoveredJoint s) then s1
    else
      let s2 := addExerciseGizmoToJoint (robotId, key) j
                  (set_hoveredJoint (Some (robotId, key)) (clearJointExerciseGizmos s1)) in
      match Joint.transform j with
      | Some _ => updateJointStatusLabel j s2
      | None => s2
      end.
Proof.
  intros Hs Hc Hh Hr Hf. unfold castRay. rewrite Hs, Hc, Hh.
  destruct (clearStatus_frame s) as (_ & _ & Hcr & Hhj & _). rewrite Hcr, Hr, Hf.
  cbv zeta.
  replace (hoveredJoint
             (console_log ("Creating gizmo for joint: " ++ Joint.name j)
                (set_console (console (clearStatus s) ++ lines) (clearStatus s))))
    with (hoveredJoint s) by (simpl; symmetry; exact Hhj).
  destruct (sameJoint (robotId, key) (hoveredJoint s)); reflexivity.
Qed.

(** The pointer handler does nothing beyond clearing the status when there is
    no scene, no camera, no picked mesh or no robot. *)
Lemma castRay_idle (hit : option BABYLON.AbstractMesh) (s : RobotScene) :
  scene s = false \/ camera s = None \/ hit = None \/ currentRobot s = None ->
  castRay hit s = s \/ castRay hit s = clearStatus s.
Proof.
  intro H. unfold castRay.
  destruct (scene s) eqn:Hs; [|left; reflexivity].
  destruct (camera s) eqn:Hc; [|left; reflexivity].
  destruct (clearStatus_frame s) as (_ & _ & Hcr & _). rewrite Hcr.
  destruct hit as [picked|]; [|right; reflexivity].
  destruct (currentRobot s) as [[robotId robot]|]; [|right; reflexivity].
  destruct H as [H | [H | [H | H]]]; discriminate.
Qed.

(** From the Idle state, a pick that resolves to no joint or to a Planar or
    Floating joint leaves the state Idle and constructs no gizmo. *)
Lemma castRay_stays_idle (hit : option BABYLON.AbstractMesh) (s : RobotScene) :
  manipulation s = Idle ->
  (resolvedJoint hit s = None
   \/ exists key j, resolvedJoint hit s = Some (key, j)
                    /\ (Joint.type j = Planar \/ Joint.type j = Floating)) ->
  manipulation (castRay hit s) = Idle
  /\ liveExerciseGizmos (castRay hit s) = liveExerciseGizmos s.
Proof.
  intros Hidle Hres. apply manipulation_Idle in Hidle. destruct Hidle as [Hr Hp].
  assert (Hsound : forall key j, resolvedJoint hit s = Some (key, j) ->
                                  Joint.transform j <> None).
  { intros key j H. apply (resolvedJoint_sound hit s key j H). }
  destruct s as [e sc cam urdf robot label text3 hov rot pos framed pending
                 tgt rad al be total loadedN progress cb alloc disposed live tm req
                 reports con errs post].
  cbn in Hr, Hp. subst rot pos.
  unfold castRay, resolvedJoint, manipulation in *.
  destruct sc; [|cbn; auto].
  destruct cam as [cam|]; [|cbn; auto].
  destruct hit as [picked|]; [|destruct e, text3; cbn; auto].
  destruct robot as [[robotId robot]|]; [|destruct e, text3; cbn; auto].
  cbn in Hres, Hsound.
  assert (Hcr : currentRobot
                  (clearStatus
                     (mkRobotScene e true (Some cam) urdf (Some (robotId, robot)) label text3
                        hov None None framed pending tgt rad al be total loadedN progress cb
                        alloc disposed live tm req reports con errs post))
                = Some (robotId, robot)) by (destruct e, text3; reflexivity).
  cbn [scene camera]. rewrite Hcr.
  destruct (findJoint robot picked) as [found lines]. cbn in Hres, Hsound.
  destruct found as [[key j]|].
  + destruct Hres as [Hnone | (key' & j' & Hsome & Htype)]; [discriminate|].
    injection Hsome as <- <-.
    specialize (Hsound key j eq_refl).
    destruct (Joint.transform j) as [node|] eqn:Etr; [|congruence].
    unfold addExerciseGizmoToJoint, updateJointStatusLabel. rewrite Etr.
    destruct Htype as [Ht | Ht]; rewrite Ht;
      destruct e, text3; cbn;
      match goal with |- context [sameJoint ?a ?b] => destruct (sameJoint a b) end;
      cbn; auto.
  + destruct e, text3; cbn; auto.
Qed.

(** C8.  For a Fixed, Planar or Floating joint [addExerciseGizmoToJoint] only
    writes to the console: for a Fixed joint the line that every joint with a
    transform gets, for a Planar or Floating joint that line and the notice
    that the joint type is not supported.  The pointer handler never resolves
    a pick to a Fixed joint; from the Idle state, a pick that resolves to no
    joint (as every pick on a fixed joint's link does) or to a Planar or
    Floating joint leaves the manipulation state Idle and constructs no
    gizmo, and a pick that newly selects a Planar or Floating joint ends with
    the notice on the console. *)
Theorem no_gizmo_for_fixed_planar_floating :
  forall (ref : JointRef) (joint : Joint.t) (hit : option BABYLON.AbstractMesh)
         (s : RobotScene),
    let notice (name kind : string) :=
      ("Joint " ++ name ++ " is using a " ++ kind
         ++ " joint, which is not yet supported for exercise gizmos. If you would like to see this, please open an issue on the GitHub repository.")%string in
    let created (kind : string) :=
      ("Creating gizmo for joint: " ++ Joint.name joint ++ ", type: " ++ kind)%string in
    (Joint.transform joint = None ->
     addExerciseGizmoToJoint ref joint s
     = set_console (console s ++ [("No transform for joint: " ++ Joint.name joint)%string]) s)
    /\ (Joint.transform joint <> None ->
        (Joint.type joint = Fixed ->
         addExerciseGizmoToJoint ref joint s
         = set_console (console s ++ [created "fixed"%string]) s)
        /\ (Joint.type joint = Planar ->
            addExerciseGizmoToJoint ref joint s
            = set_console
                (console s ++ [created "planar"%string;
                               notice (Joint.name joint) "planar"%string]) s)
        /\ (Joint.type joint = Floating ->
            addExerciseGizmoToJoint ref joint s
            = set_console
                (console s ++ [created "floating"%string;
                               notice (Joint.name joint) "floating"%string]) s))
    /\ (forall key j, resolvedJoint hit s = Some (key, j) -> Joint.type j <> Fixed)
    /\ (manipulation s = Idle ->
        (resolvedJoint hit s = None
         \/ exists key j, resolvedJoint hit s = Some (key, j)
                          /\ (Joint.type j = Planar \/ Joint.type j = Floating)) ->
        manipulation (castRay hit s) = Idle
        /\ liveExerciseGizmos (castRay hit s) = liveExerciseGizmos s)
    /\ (forall robotId robot key j kind,
           scene s = true -> camera s <> None ->
           currentRobot s = Some (robotId, robot) ->
           resolvedJoint hit s = Some (key, j) ->
           hoveredJoint s <> Some (robotId, key) ->
           (Joint.type j = Planar /\ kind = "planar"%string)
           \/ (Joint.type j = Floating /\ kind = "floating"%string) ->
           exists earlier,
             console (castRay hit s) = console s ++ earlier ++ [notice (Joint.name j) kind]).
Proof.
  intros ref joint hit s notice created.
  split; [|split; [|split; [|split]]].
  - intro Ht. unfold addExerciseGizmoToJoint. rewrite Ht. reflexivity.
  - intro Ht. unfold addExerciseGizmoToJoint.
    destruct (Joint.transform joint) as [node|]; [|congruence].
    repeat split; intro H; rewrite H; unfold console_log; simpl;
      rewrite <- ?app_assoc; reflexivity.
  - intros key j H. apply (resolvedJoint_sound hit s key j H).
  - apply castRay_stays_idle.
  - intros robotId robot key j kind Hs Hc Hr Hres Hhov Hkind.
    assert (Htr : Joint.transform j <> None)
      by apply (resolvedJoint_sound hit s key j Hres).
    unfold resolvedJoint in Hres. rewrite Hr in Hres.
    destruct hit as [picked|]; [|discriminate].
    unfold castRay. rewrite Hs.
    destruct (camera s) as [cam|]; [|congruence].
    assert (Hcr : currentRobot (clearStatus s) = Some (robotId, robot))
      by (rewrite <- Hr; unfold clearStatus; destruct (edition s), (status3DText s);
          reflexivity).
    assert (Hh : hoveredJoint (clearStatus s) = hoveredJoint s)
      by (unfold clearStatus; destruct (edition s), (status3DText s); reflexivity).
    assert (Hcon : console (clearStatus s) = console s)
      by (unfold clearStatus; destruct (edition s), (status3DText s); reflexivity).
    rewrite Hcr.
    destruct (findJoint robot picked) as [found lines]. cbn [fst] in Hres. subst found.
    set (s1 := clearStatus s) in *. clearbody s1.
    assert (Hsame : sameJoint (robotId, key)
                      (hoveredJoint
                         (console_log ("Creating gizmo for joint: " ++ Joint.name j)
                            (set_console (console s1 ++ lines) s1))) = false).
    { unfold console_log. cbn [hoveredJoint set_console]. rewrite Hh.
      unfold sameJoint. destruct (hoveredJoint s) as [h|] eqn:Eh; [|reflexivity].
      destruct (JointRef_eqb (robotId, key) h) eqn:E; [|reflexivity].
      destruct h as [robotId' key']. unfold JointRef_eqb in E. cbn [fst snd] in E.
      apply andb_true_iff in E. destruct E as [E1 E2].
      apply Nat.eqb_eq in E1. apply String.eqb_eq in E2. subst robotId' key'.
      elim Hhov. reflexivity. }
    rewrite Hsame. cbn [negb].
    destruct (Joint.transform j) as [node|] eqn:Etr; [|congruence].
    exists (lines ++ [("Creating gizmo for joint: " ++ Joint.name j)%string;
                      ("Creating gizmo for joint: " ++ Joint.name j ++ ", type: " ++ kind)%string]).
    unfold addExerciseGizmoToJoint, updateJointStatusLabel. rewrite Etr.
    destruct Hkind as [[Ht ->] | [Ht ->]]; rewrite Ht;
      destruct s1 as [e sc cam' urdf cur label text3 hov rot pos framed pending
                     tgt rad al be total loadedN progress cb alloc disposed live tm req
                     reports con errs post];
      cbn in Hcon; subst con;
      destruct e, text3, rot, pos; cbn; rewrite <- ?app_assoc; reflexivity.
Qed.

(** ** The selection invariant *)

Lemma selectionInvariant_frame (s s' : RobotScene) :
  selectionFields s' = selectionFields s -> selectionInvariant s -> selectionInvariant s'.
Proof.
  unfold selectionFields, selectionInvariant, heldGizmos, gizmoAttached.
  intro E. injection E as E1 E2 E3 E4 E5 E6.
  rewrite E1, E2, E3, E4, E5, E6. exact (fun H => H).
Qed.

Lemma frameModel_selection (s : RobotScene) :
  selectionFields (frameModel s) = selectionFields s.
Proof.
  unfold frameModel.
  destruct (negb (scene s)); [reflexivity|].
  destruct (camera s); [|reflexivity].
  destruct (currentRobot s) as [[robotId robot]|]; [|reflexivity].
  destruct (robotMeshes robot); reflexivity.
Qed.

Lemma timerFires_selection (s : RobotScene) :
  selectionFields (timerFires s) = selectionFields s.
Proof.
  unfold timerFires. destruct (timers s); [reflexivity|].
  rewrite frameModel_selection. reflexivity.
Qed.

Lemma updateOverallProgress_selection (s : RobotScene) :
  selectionFields (updateOverallProgress s) = selectionFields s.
Proof.
  unfold updateOverallProgress.
  destruct (negb (onProgressCallback s) || (totalMeshes s =? 0)%Z); reflexivity.
Qed.

Lemma onMeshLoadProgress_selection (id : string) (event : BABYLON.ISceneLoaderProgressEvent)
  (s : RobotScene) :
  selectionFields (onMeshLoadProgress id event s) = selectionFields s.
Proof.
  unfold onMeshLoadProgress. rewrite updateOverallProgress_selection. reflexivity.
Qed.

Lemma onMeshLoadComplete_selection (id : string) (s : RobotScene) :
  selectionFields (onMeshLoadComplete id s) = selectionFields s.
Proof.
  destruct_state s. unfold onMeshLoadComplete, updateOverallProgress, selectionFields.
  destruct e; project; repeat (case_if; project); reflexivity.
Qed.

Lemma resetCamera_selection (rebuilt : BABYLON.ArcRotateCamera) (s : RobotScene) :
  selectionFields (resetCamera rebuilt s) = selectionFields s.
Proof.
  unfold resetCamera. destruct (camera s); [|reflexivity].
  destruct (hasBeenFramed s); reflexivity.
Qed.

Lemma setLoadProgressCallback_selection (s : RobotScene) :
  selectionFields (setLoadProgressCallback s) = selectionFields s.
Proof. unfold setLoadProgressCallback. destruct (edition s); reflexivity. Qed.

Lemma cameraMoved_selection (pose : BABYLON.ArcRotateCamera) (s : RobotScene) :
  selectionFields (cameraMoved pose s) = selectionFields s.
Proof. unfold cameraMoved. destruct (camera s); reflexivity. Qed.

(** ** The two passes of [applyURDF] *)

Lemma fold_countMesh (visuals : list Visual.t) (s : RobotScene) :
  fold_left countMesh visuals s
  = set_totalMeshes (totalMeshes s + Z.of_nat (List.length visuals))%Z s.
Proof.
  revert s. induction visuals as [|v visuals IH]; intro s.
  - destruct s. cbn. unfold set_totalMeshes. cbn. f_equal. lia.
  - cbn [fold_left]. rewrite IH. destruct s. unfold countMesh, set_totalMeshes. cbn.
    f_equal. lia.
Qed.

Lemma trackMesh_desktop (v : Visual.t) (s : RobotScene) (i : nat) :
  edition s = Desktop ->
  trackMesh (s, i) v
  = (set_meshLoadProgress (JS.Map.set (meshLoadProgress s) (meshId i) 0)
       (set_pendingMeshLoads (pendingMeshLoads s + 1)%Z s), S i).
Proof. intro He. destruct s. cbn in He. subst. reflexivity. Qed.

Lemma trackMesh_immersive (v : Visual.t) (s : RobotScene) (i : nat) :
  edition s = Immersive ->
  trackMesh (s, i) v = (set_pendingMeshLoads (pendingMeshLoads s + 1)%Z s, i).
Proof. intro He. destruct s. cbn in He. subst. reflexivity. Qed.

Lemma fold_trackMesh_desktop (visuals : list Visual.t) (s : RobotScene) (i : nat) :
  edition s = Desktop ->
  fold_left trackMesh visuals (s, i)
  = (set_meshLoadProgress (trackedProgress (meshLoadProgress s) i (List.length visuals))
       (set_pendingMeshLoads (pendingMeshLoads s + Z.of_nat (List.length visuals))%Z s),
     (i + List.length visuals)%nat).
Proof.
  revert s i. induction visuals as [|v visuals IH]; intros s i He.
  - destruct s. cbn. unfold set_meshLoadProgress, set_pendingMeshLoads, trackedProgress.
    cbn. f_equal; [f_equal; lia | lia].
  - cbn [fold_left]. rewrite (trackMesh_desktop v s i He).
    rewrite IH by (destruct s; exact He).
    destruct s. unfold trackedProgress, set_meshLoadProgress, set_pendingMeshLoads.
    project. cbn [List.length seq fold_left].
    f_equal; [f_equal; lia | lia].
Qed.

Lemma fold_trackMesh_immersive (visuals : list Visual.t) (s : RobotScene) (i : nat) :
  edition s = Immersive ->
  fold_left trackMesh visuals (s, i)
  = (set_pendingMeshLoads (pendingMeshLoads s + Z.of_nat (List.length visuals))%Z s, i).
Proof.
  revert s i. induction visuals as [|v visuals IH]; intros s i He.
  - destruct s. cbn. unfold set_pendingMeshLoads. cbn. f_equal. f_equal. lia.
  - cbn [fold_left]. rewrite (trackMesh_immersive v s i He).
    rewrite IH by (destruct s; exact He).
    destruct s. unfold set_pendingMeshLoads.
    project. cbn [List.length seq fold_left].
    f_equal. f_equal. lia.
Qed.

(** ** What one call of [applyURDF] does *)

Lemma applyURDF_begin_spec (vscode : bool) (s : RobotScene) :
  let s' := applyURDF_begin vscode s in
  currentRobot s' = None
  /\ disposedRobots s' = disposedRobots s ++ disposedByApply s
  /\ planeRotationGizmo s' = None
  /\ planePositionGizmo s' = None
  /\ liveExerciseGizmos s' = (liveExerciseGizmos s - heldGizmos s)%nat
  /\ hoveredJoint s' = hoveredJoint s
  /\ robotsAllocated s' = robotsAllocated s
  /\ edition s' = edition s
  /\ scene s' = scene s
  /\ camera s' = camera s
  /\ posted s' = posted s ++ (if vscode then [("trace", "loading urdf")] else [])%string
  /\ consoleErrors s' = consoleErrors s
  /\ progressReports s' = progressReports s
  /\ onProgressCallback s' = onProgressCallback s
  /\ timers s' = timers s
  /\ framingsRequested s' = framingsRequested s
  /\ hasBeenFramed s' = hasBeenFramed s
  /\ pendingMeshLoads s' = pendingMeshLoads s
  /\ totalMeshes s' = totalMeshes s
  /\ loadedMeshes s' = loadedMeshes s
  /\ meshLoadProgress s' = meshLoadProgress s.
Proof.
  destruct_state s.
  destruct e, text3, rot, pos, cur as [[robotId r]|], vscode; run_model;
    repeat split; rewrite ?app_nil_r; try reflexivity; lia.
Qed.

Section ApplyURDF.

Variable deserializeUrdfToRobot : string -> Deserialized.
Variable create : Robot.t -> Robot.t.

Let apply := applyURDF deserializeUrdfToRobot create.

(** The part of a successful load that follows [applyURDF_begin]. *)
Lemma applyURDF_tail_spec (urdfText : string) (vscode : bool) (robot : Robot.t)
  (s : RobotScene) :
  let s' := applyURDF_resolved create vscode robot (applyURDF_reset urdfText s) in
  let n := Z.of_nat (List.length (meshVisuals robot)) in
  currentRobot s' = Some (robotsAllocated s, create robot)
  /\ robotsAllocated s' = S (robotsAllocated s)
  /\ disposedRobots s' = disposedRobots s
  /\ planeRotationGizmo s' = planeRotationGizmo s
  /\ planePositionGizmo s' = planePositionGizmo s
  /\ liveExerciseGizmos s' = liveExerciseGizmos s
  /\ hoveredJoint s' = hoveredJoint s
  /\ edition s' = edition s
  /\ scene s' = scene s
  /\ camera s' = camera s
  /\ onProgressCallback s' = onProgressCallback s
  /\ hasBeenFramed s' = false
  /\ pendingMeshLoads s' = n
  /\ timers s' = (timers s + if (n =? 0)%Z then 1 else 0)%nat
  /\ framingsRequested s' = (framingsRequested s + if (n =? 0)%Z then 1 else 0)%nat
  /\ consoleErrors s' = consoleErrors s
  /\ posted s' = posted s ++ (if vscode then [("trace", "loaded urdf")] else [])%string
  /\ (edition s = Desktop ->
      totalMeshes s' = n
      /\ loadedMeshes s' = 0%Z
      /\ meshLoadProgress s' = trackedProgress JS.Map.empty 0 (List.length (meshVisuals robot))
      /\ progressReports s'
         = progressReports s
           ++ (if onProgressCallback s && (0 <? n)%Z then [mkReport 0 n 0] else []))
  /\ (edition s = Immersive -> progressReports s' = progressReports s).
Proof.
  unfold applyURDF_resolved, applyURDF_reset. simpl.
  destruct (edition s) eqn:He; simpl; rewrite ?He; simpl.
  - rewrite fold_trackMesh_immersive by exact He. simpl.
    destruct (Z.of_nat (List.length (meshVisuals robot)) =? 0)%Z; destruct vscode;
      simpl; repeat split; intros; rewrite ?app_nil_r; try reflexivity;
      try discriminate; try lia; try assumption.
  - rewrite !fold_countMesh. simpl.
    destruct (onProgressCallback s && (0 <? Z.of_nat (List.length (meshVisuals robot)))%Z);
      simpl; rewrite fold_trackMesh_desktop by exact He; simpl;
      destruct (Z.of_nat (List.length (meshVisuals robot)) =? 0)%Z; destruct vscode;
      simpl; repeat split; intros; rewrite ?app_nil_r; try reflexivity;
      try discriminate; try lia; try assumption.
Qed.

(** A successful load, seen through the fields of the state. *)
Lemma applyURDF_resolved_spec (urdfText : string) (vscode : bool) (robot : Robot.t)
  (s : RobotScene) :
  scene s = true ->
  deserializeUrdfToRobot urdfText = Resolved robot ->
  let s' := apply urdfText vscode s in
  let n := Z.of_nat (List.length (meshVisuals robot)) in
  currentRobot s' = Some (robotsAllocated s, create robot)
  /\ robotsAllocated s' = S (robotsAllocated s)
  /\ disposedRobots s' = disposedRobots s ++ disposedByApply s
  /\ planeRotationGizmo s' = None
  /\ planePositionGizmo s' = None
  /\ liveExerciseGizmos s' = (liveExerciseGizmos s - heldGizmos s)%nat
  /\ hoveredJoint s' = hoveredJoint s
  /\ edition s' = edition s
  /\ scene s' = true
  /\ camera s' = camera s
  /\ onProgressCallback s' = onProgressCallback s
  /\ hasBeenFramed s' = false
  /\ pendingMeshLoads s' = n
  /\ timers s' = (timers s + if (n =? 0)%Z then 1 else 0)%nat
  /\ framingsRequested s' = (framingsRequested s + if (n =? 0)%Z then 1 else 0)%nat
  /\ consoleErrors s' = consoleErrors s
  /\ posted s'
     = posted s ++ (if vscode then [("trace", "loading urdf"); ("trace", "loaded urdf")]
                    else [])%string
  /\ (edition s = Desktop ->
      totalMeshes s' = n
      /\ loadedMeshes s' = 0%Z
      /\ meshLoadProgress s' = trackedProgress JS.Map.empty 0 (List.length (meshVisuals robot))
      /\ progressReports s'
         = progressReports s
           ++ (if onProgressCallback s && (0 <? n)%Z then [mkReport 0 n 0] else []))
  /\ (edition s = Immersive -> progressReports s' = progressReports s).
Proof.
  intros Hs Hd. subst apply. cbv zeta. unfold applyURDF, applyURDF_settled. cbv zeta.
  destruct (applyURDF_begin_spec vscode s)
    as (Bcr & Bdis & Brot & Bpos & Blive & Bhov & Balloc & Bed & Bsc & Bcam & Bpost & Berr
        & Brep & Bcb & Btm & Breq & Bfr & Bpend & Btot & Bload & Bprog).
  cbv zeta in Bcr, Bdis, Brot, Bpos, Blive, Bhov, Balloc, Bed, Bsc, Bcam, Bpost, Berr,
              Brep, Bcb, Btm, Breq, Bfr, Bpend, Btot, Bload, Bprog.
  rewrite Bsc, Hs, Hd.
  destruct (applyURDF_tail_spec urdfText vscode robot (applyURDF_begin vscode s))
    as (T1 & T2 & T3 & T4 & T5 & T6 & T7 & T8 & T9 & T10 & T11 & T12 & T13 & T14 & T15
        & T16 & T17 & T18 & T19).
  cbv zeta in T1, T2, T3, T4, T5, T6, T7, T8, T9, T10, T11, T12, T13, T14, T15, T16, T17,
              T18, T19.
  rewrite T1, T2, T3, T4, T5, T6, T7, T8, T9, T10, T11, T12, T13, T14, T15, T16, T17.
  rewrite Balloc, Bdis, Brot, Bpos, Blive, Bhov, Bed, Bsc, Bcam, Bcb, Btm, Breq, Berr, Bpost.
  repeat match goal with |- _ /\ _ => split end; try reflexivity; try assumption.
  - destruct vscode; rewrite <- app_assoc; reflexivity.
  - intro H. rewrite Bed in T18. destruct (T18 H) as (E1 & E2 & E3 & E4).
    rewrite E1, E2, E3, E4, Brep, Bcb. repeat split; reflexivity.
  - intro H. rewrite Bed in T19. rewrite (T19 H). exact Brep.
Qed.

(** A failed parse, seen through the fields of the state. *)
Lemma applyURDF_rejected_spec (urdfText : string) (vscode : bool) (message : string)
  (s : RobotScene) :
  scene s = true ->
  deserializeUrdfToRobot urdfText = Rejected message ->
  let s' := apply urdfText vscode s in
  currentRobot s' = None
  /\ robotsAllocated s' = robotsAllocated s
  /\ disposedRobots s' = disposedRobots s ++ disposedByApply s
  /\ planeRotationGizmo s' = None
  /\ planePositionGizmo s' = None
  /\ liveExerciseGizmos s' = (liveExerciseGizmos s - heldGizmos s)%nat
  /\ hoveredJoint s' = hoveredJoint s
  /\ edition s' = edition s
  /\ onProgressCallback s' = onProgressCallback s
  /\ progressReports s' = progressReports s
  /\ timers s' = timers s
  /\ framingsRequested s' = framingsRequested s
  /\ consoleErrors s'
     = consoleErrors s
       ++ (if vscode then [] else [("Error loading urdf: " ++ message)%string])
  /\ posted s'
     = posted s ++ (if vscode then [("trace", "loading urdf"); ("error", message)]
                    else [])%string.
Proof.
  intros Hs Hd. subst apply. cbv zeta. unfold applyURDF, applyURDF_settled. cbv zeta.
  destruct (applyURDF_begin_spec vscode s)
    as (Bcr & Bdis & Brot & Bpos & Blive & Bhov & Balloc & Bed & Bsc & Bcam & Bpost & Berr
        & Brep & Bcb & Btm & Breq & Bfr & Bpend & Btot & Bload & Bprog).
  cbv zeta in Bcr, Bdis, Brot, Bpos, Blive, Bhov, Balloc, Bed, Bsc, Bcam, Bpost, Berr,
              Brep, Bcb, Btm, Breq, Bfr, Bpend, Btot, Bload, Bprog.
  rewrite Bsc, Hs, Hd.
  unfold applyURDF_catch, applyURDF_reset.
  set (s0 := applyURDF_begin vscode s) in *. clearbody s0.
  destruct (edition s0) eqn:Ee; destruct vscode; simpl;
    rewrite ?Ee; simpl;
    rewrite ?Bcr, ?Balloc, ?Bdis, ?Brot, ?Bpos, ?Blive, ?Bhov, ?Bed, ?Bcb, ?Brep, ?Btm,
      ?Breq, ?Berr, ?Bpost, <- ?app_assoc, ?app_nil_r;
    repeat split; try reflexivity; congruence.
Qed.

(** Without a scene nothing is parsed. *)
Lemma applyURDF_sceneless_spec (urdfText : string) (vscode : bool) (s : RobotScene) :
  scene s = false ->
  let s' := apply urdfText vscode s in
  currentRobot s' = None
  /\ robotsAllocated s' = robotsAllocated s
  /\ planeRotationGizmo s' = None
  /\ planePositionGizmo s' = None
  /\ liveExerciseGizmos s' = (liveExerciseGizmos s - heldGizmos s)%nat
  /\ hoveredJoint s' = hoveredJoint s
  /\ edition s' = edition s
  /\ onProgressCallback s' = onProgressCallback s
  /\ progressReports s' = progressReports s.
Proof.
  intros Hs. subst apply. cbv zeta. unfold applyURDF. cbv zeta.
  destruct (applyURDF_begin_spec vscode s)
    as (Bcr & Bdis & Brot & Bpos & Blive & Bhov & Balloc & Bed & Bsc & Bcam & Bpost & Berr
        & Brep & Bcb & Btm & Breq & Bfr & Bpend & Btot & Bload & Bprog).
  cbv zeta in Bcr, Bdis, Brot, Bpos, Blive, Bhov, Balloc, Bed, Bsc, Bcam, Bpost, Berr,
              Brep, Bcb, Btm, Breq, Bfr, Bpend, Btot, Bload, Bprog.
  rewrite Bsc, Hs.
  set (s0 := applyURDF_begin vscode s) in *. clearbody s0.
  destruct vscode; simpl;
    rewrite ?Bcr, ?Balloc, ?Brot, ?Bpos, ?Blive, ?Bhov, ?Bed, ?Bcb, ?Brep;
    repeat split; reflexivity.
Qed.

End ApplyURDF.

(** ** Calls and their continuations *)

Section Tasks.

Variable deserializeUrdfToRobot : string -> Deserialized.
Variable create : Robot.t -> Robot.t.

Lemma resume_last (urdfText : string) (vscode : bool) (suspended : list (string * bool)) :
  exists rest, resume urdfText vscode (suspended ++ [(urdfText, vscode)]) = Some rest.
Proof.
  induction suspended as [|[urdfText' vscode'] suspended IH]; cbn [app resume].
  - rewrite String.eqb_refl, Bool.eqb_reflx. eexists. reflexivity.
  - destruct (String.eqb urdfText' urdfText && Bool.eqb vscode' vscode);
      [eexists; reflexivity|].
    destruct IH as [rest ->]. eexists. reflexivity.
Qed.

Lemma applyURDF_call_scene (urdfText : string) (vscode : bool) (s : RobotScene) :
  scene s = true ->
  applyURDF_call urdfText vscode s = applyURDF_reset urdfText (applyURDF_begin vscode s).
Proof.
  intro Hs. unfold applyURDF_call.
  destruct (applyURDF_begin_spec vscode s) as (_ & _ & _ & _ & _ & _ & _ & _ & Bsc & _).
  cbv zeta in Bsc. rewrite Bsc, Hs. reflexivity.
Qed.

(** A call whose continuation runs before anything else is [applyURDF]. *)
Lemma applyURDF_call_settled (urdfText : string) (vscode : bool) (s : RobotScene) :
  scene s = true ->
  applyURDF_settled deserializeUrdfToRobot create urdfText vscode
    (applyURDF_call urdfText vscode s)
  = applyURDF deserializeUrdfToRobot create urdfText vscode s.
Proof.
  intro Hs. rewrite (applyURDF_call_scene urdfText vscode s Hs). unfold applyURDF.
  destruct (applyURDF_begin_spec vscode s) as (_ & _ & _ & _ & _ & _ & _ & _ & Bsc & _).
  cbv zeta in Bsc. cbv zeta. rewrite Bsc, Hs. reflexivity.
Qed.

Lemma runTasks_call_settle (urdfText : string) (vscode : bool) (s : RobotScene)
  (suspended : list (string * bool)) :
  scene s = true ->
  fst (runTasks deserializeUrdfToRobot create (s, suspended)
         [Call urdfText vscode; Settle urdfText vscode])
  = applyURDF deserializeUrdfToRobot create urdfText vscode s.
Proof.
  intro Hs. unfold runTasks. cbn [fold_left taskStep]. rewrite Hs.
  destruct (resume_last urdfText vscode suspended) as [rest ->]. cbn [fst].
  apply applyURDF_call_settled. exact Hs.
Qed.

Lemma runTasks_happen (events : list Event) (s : RobotScene)
  (suspended : list (string * bool)) :
  runTasks deserializeUrdfToRobot create (s, suspended) (List.map Happen events)
  = (run deserializeUrdfToRobot create s events, suspended).
Proof.
  unfold runTasks, run. revert s.
  induction events as [|e events IH]; intro s; [reflexivity|].
  cbn [List.map fold_left taskStep]. apply IH.
Qed.

Lemma runTasks_awaited (urdfText : string) (vscode : bool) (events : list Event)
  (s : RobotScene) (suspended : list (string * bool)) :
  scene s = true ->
  fst (runTasks deserializeUrdfToRobot create
         (runTasks deserializeUrdfToRobot create (s, suspended)
            [Call urdfText vscode; Settle urdfText vscode])
         (List.map Happen events))
  = run deserializeUrdfToRobot create
      (applyURDF deserializeUrdfToRobot create urdfText vscode s) events.
Proof.
  intro Hs.
  rewrite <- (runTasks_call_settle urdfText vscode s suspended Hs).
  destruct (runTasks deserializeUrdfToRobot create (s, suspended)
              [Call urdfText vscode; Settle urdfText vscode]) as [s1 suspended1].
  rewrite runTasks_happen. reflexivity.
Qed.

End Tasks.

(** ** The pointer handler and the selection invariant *)

Lemma JointRef_eqb_eq (a b : JointRef) : JointRef_eqb a b = true <-> a = b.
Proof.
  destruct a as [ra ka], b as [rb kb]. unfold JointRef_eqb. simpl.
  rewrite andb_true_iff, Nat.eqb_eq, String.eqb_eq.
  split; [intros [-> ->]; reflexivity | intro H; injection H; auto].
Qed.

Lemma sameJoint_true (found : JointRef) (hovered : option JointRef) :
  sameJoint found hovered = true <-> hovered = Some found.
Proof.
  unfold sameJoint. destruct hovered as [h|].
  - rewrite JointRef_eqb_eq. split; [intros ->; reflexivity | intro H; injection H; auto].
  - split; discriminate.
Qed.

Lemma unique_entry {V : Type} (m : JS.Map.t V) (k : string) (v w : V) :
  NoDup (JS.Map.keys m) -> In (k, v) m -> In (k, w) m -> v = w.
Proof.
  unfold JS.Map.keys. induction m as [|[k' v'] m IH]; simpl; intros Hnd Hv Hw.
  - contradiction.
  - inversion Hnd as [|? ? Hnotin Hnd']; subst.
    destruct Hv as [Hv | Hv], Hw as [Hw | Hw].
    + congruence.
    + injection Hv as -> ->. exfalso. apply Hnotin.
      apply (in_map fst) in Hw. exact Hw.
    + injection Hw as -> ->. exfalso. apply Hnotin.
      apply (in_map fst) in Hv. exact Hv.
    + apply IH; assumption.
Qed.

Lemma held_attached (s : RobotScene) :
  (planeRotationGizmo s = None \/ planePositionGizmo s = None) ->
  heldGizmos s = if gizmoAttached s then 1%nat else 0%nat.
Proof.
  unfold heldGizmos, gizmoAttached.
  destruct (planeRotationGizmo s), (planePositionGizmo s); intros [H | H];
    try discriminate; reflexivity.
Qed.


(** The state after a pick that resolves to a joint other than the hovered
    one. *)
Lemma select_joint_spec (ref : JointRef) (j : Joint.t) (node : BABYLON.TransformNode)
  (s : RobotScene) :
  Joint.transform j = Some node ->
  liveExerciseGizmos s = heldGizmos s ->
  let s' := updateJointStatusLabel j
              (addExerciseGizmoToJoint ref j
                 (set_hoveredJoint (Some ref) (clearJointExerciseGizmos s))) in
  gizmoAttached s' = movable (Joint.type j)
  /\ (planeRotationGizmo s' = None \/ planePositionGizmo s' = None)
  /\ liveExerciseGizmos s' = heldGizmos s'
  /\ hoveredJoint s' = Some ref
  /\ currentRobot s' = currentRobot s
  /\ robotsAllocated s' = robotsAllocated s.
Proof.
  intros Ht Hlive. cbv zeta.
  destruct (clearJointExerciseGizmos_spec s) as (Cr & Cp & Cl & _ & Ccur & Calloc & _).
  cbv zeta in Cr, Cp, Cl, Ccur, Calloc.
  set (x := set_hoveredJoint (Some ref) (clearJointExerciseGizmos s)).
  assert (Xr : planeRotationGizmo x = None) by exact Cr.
  assert (Xp : planePositionGizmo x = None) by exact Cp.
  assert (Xl : liveExerciseGizmos x = 0%nat)
    by (change (liveExerciseGizmos (clearJointExerciseGizmos s) = 0%nat); rewrite Cl; lia).
  assert (Xh : hoveredJoint x = Some ref) by reflexivity.
  assert (Xc : currentRobot x = currentRobot s) by exact Ccur.
  assert (Xa : robotsAllocated x = robotsAllocated s) by exact Calloc.
  clearbody x.
  destruct (addExerciseGizmoToJoint_gizmos ref j x) as (Ga & Gor & Gl & Gh & Gc & Galloc & _);
    [congruence | exact Xr | exact Xp |].
  cbv zeta in Ga, Gor, Gl, Gh, Gc, Galloc.
  set (y := addExerciseGizmoToJoint ref j x) in *. clearbody y.
  destruct (updateJointStatusLabel_frame j y) as (Ur & Up & Ul & Uh & Uc & Ualloc & _).
  cbv zeta in Ur, Up, Ul, Uh, Uc, Ualloc.
  set (z := updateJointStatusLabel j y) in *. clearbody z.
  assert (Zor : planeRotationGizmo z = None \/ planePositionGizmo z = None)
    by (rewrite Ur, Up; exact Gor).
  assert (Za : gizmoAttached z = movable (Joint.type j)).
  { unfold gizmoAttached in *. rewrite Ur, Up. exact Ga. }
  repeat split.
  - exact Za.
  - exact Zor.
  - rewrite (held_attached z Zor), Za, Ul, Gl, Xl. destruct (movable (Joint.type j)); reflexivity.
  - rewrite Uh, Gh. exact Xh.
  - rewrite Uc, Gc. exact Xc.
  - rewrite Ualloc, Galloc. exact Xa.
Qed.

Lemma clearStatus_selection (s : RobotScene) :
  selectionFields (clearStatus s) = selectionFields s.
Proof.
  unfold clearStatus. destruct (edition s); [destruct (status3DText s)|]; reflexivity.
Qed.

Lemma selectionFields_eq (s s' : RobotScene) :
  selectionFields s' = selectionFields s ->
  planeRotationGizmo s' = planeRotationGizmo s
  /\ planePositionGizmo s' = planePositionGizmo s
  /\ liveExerciseGizmos s' = liveExerciseGizmos s
  /\ currentRobot s' = currentRobot s
  /\ hoveredJoint s' = hoveredJoint s
  /\ robotsAllocated s' = robotsAllocated s
  /\ heldGizmos s' = heldGizmos s
  /\ gizmoAttached s' = gizmoAttached s.
Proof.
  unfold selectionFields, heldGizmos, gizmoAttached. intro E.
  injection E as E1 E2 E3 E4 E5 E6. rewrite E1, E2. repeat split; assumption.
Qed.

(** The three ways a pick can end, seen through the selection fields. *)
Lemma castRay_cases (hit : option BABYLON.AbstractMesh) (s : RobotScene) :
  liveExerciseGizmos s = heldGizmos s ->
  let s' := castRay hit s in
  (* nothing is selected or deselected *)
  (selectionFields s' = selectionFields s
   /\ (scene s = false \/ camera s = None \/ hit = None \/ currentRobot s = None
       \/ exists robotId robot key j,
            currentRobot s = Some (robotId, robot)
            /\ resolvedJoint hit s = Some (key, j)
            /\ hoveredJoint s = Some (robotId, key)))
  (* the pick resolves to no joint: deselect *)
  \/ (scene s = true /\ camera s <> None /\ hit <> None /\ currentRobot s <> None
      /\ resolvedJoint hit s = None
      /\ planeRotationGizmo s' = None /\ planePositionGizmo s' = None
      /\ liveExerciseGizmos s' = 0%nat /\ hoveredJoint s' = None
      /\ currentRobot s' = currentRobot s /\ robotsAllocated s' = robotsAllocated s
      /\ statusCleared s')
  (* the pick resolves to a joint that is not the hovered one: select *)
  \/ (exists robotId robot key j,
        scene s = true /\ camera s <> None /\ hit <> None
        /\ currentRobot s = Some (robotId, robot)
        /\ resolvedJoint hit s = Some (key, j)
        /\ hoveredJoint s <> Some (robotId, key)
        /\ gizmoAttached s' = movable (Joint.type j)
        /\ (planeRotationGizmo s' = None \/ planePositionGizmo s' = None)
        /\ liveExerciseGizmos s' = heldGizmos s'
        /\ hoveredJoint s' = Some (robotId, key)
        /\ currentRobot s' = currentRobot s /\ robotsAllocated s' = robotsAllocated s).
Proof.
  intros Hlive. cbv zeta.
  destruct (scene s) eqn:Hs.
  2:{ left. split; [|auto].
      destruct (castRay_idle hit s) as [E | E]; [auto | |]; rewrite E;
        [reflexivity | apply clearStatus_selection]. }
  destruct (camera s) as [cam|] eqn:Hc.
  2:{ left. split; [|auto].
      destruct (castRay_idle hit s) as [E | E]; [auto | |]; rewrite E;
        [reflexivity | apply clearStatus_selection]. }
  destruct hit as [picked|].
  2:{ left. split; [|auto].
      destruct (castRay_idle None s) as [E | E]; [auto | |]; rewrite E;
        [reflexivity | apply clearStatus_selection]. }
  destruct (currentRobot s) as [[robotId robot]|] eqn:Hrob.
  2:{ left. split; [|auto 6].
      destruct (castRay_idle (Some picked) s) as [E | E]; [auto | |]; rewrite E;
        [reflexivity | apply clearStatus_selection]. }
  unfold resolvedJoint. rewrite Hrob.
  destruct (findJoint robot picked) as [found lines] eqn:Hf. simpl fst.
  destruct (selectionFields_eq s (clearStatus s) (clearStatus_selection s))
    as (Kr & Kp & Kl & Kc & Kh & Ka & Kheld & Katt).
  destruct found as [[key j]|].
  - rewrite (castRay_resolved (Some picked) s picked robotId robot cam lines key j
               Hs Hc eq_refl Hrob Hf).
    cbv zeta.
    destruct (sameJoint (robotId, key) (hoveredJoint s)) eqn:Hsame.
    + left. split.
      * unfold selectionFields. simpl. rewrite Kr, Kp, Kl, Kc, Kh, Ka. reflexivity.
      * right. right. right. right. exists robotId, robot, key, j.
        apply sameJoint_true in Hsame. auto.
    + right. right. exists robotId, robot, key, j.
      pose proof (findJoint_sound robot picked) as Hsound. rewrite Hf in Hsound.
      destruct Hsound as (_ & _ & Htr).
      destruct (Joint.transform j) as [node|] eqn:Et; [|congruence].
      cbv beta iota.
      match goal with |- context [clearJointExerciseGizmos ?x] =>
        destruct (select_joint_spec (robotId, key) j node x Et) as (S1 & S2 & S3 & S4 & S5 & S6)
      end.
      { unfold heldGizmos. simpl. rewrite Kr, Kp, Kl. exact Hlive. }
      cbv zeta in S1, S2, S3, S4, S5, S6.
      repeat split; try assumption; try discriminate.
      * intro H. apply sameJoint_true in H. congruence.
      * refine (eq_trans S5 _). simpl. rewrite Kc. exact Hrob.
      * refine (eq_trans S6 _). simpl. exact Ka.
  - right. left.
    rewrite (castRay_unresolved (Some picked) s picked robotId robot cam lines
               Hs Hc eq_refl Hrob Hf).
    match goal with |- context [clearStatus (clearJointExerciseGizmos ?x)] =>
      destruct (clearJointExerciseGizmos_spec x) as (Cr & Cp & Cl & Ch & Cc & Ca & _);
      destruct (selectionFields_eq (clearJointExerciseGizmos x)
                  (clearStatus (clearJointExerciseGizmos x))
                  (clearStatus_selection (clearJointExerciseGizmos x)))
        as (Lr & Lp & Ll & Lc & Lh & La & _)
    end.
    cbv zeta in Cr, Cp, Cl, Ch, Cc, Ca.
    rewrite Hrob in Kc.
    repeat split; try reflexivity; try discriminate.
    + rewrite Lr. exact Cr.
    + rewrite Lp. exact Cp.
    + rewrite Ll, Cl. unfold heldGizmos. simpl. rewrite Kr, Kp, Kl.
      unfold heldGizmos in Hlive. lia.
    + rewrite Lh, Ch. reflexivity.
    + rewrite Lc, Cc. simpl. exact Kc.
    + rewrite La, Ca. simpl. exact Ka.
    + apply clearStatus_cleared.
Qed.

Lemma castRay_invariant (hit : option BABYLON.AbstractMesh) (s : RobotScene) :
  selectionInvariant s -> selectionInvariant (castRay hit s).
Proof.
  intro Hinv.
  pose proof Hinv as (Ilive & Ile & Icur & Ihov & Iatt & Isel).
  destruct (castRay_cases hit s Ilive) as [[E _] | [D | S]]; cbv zeta in *.
  - exact (selectionInvariant_frame s (castRay hit s) E Hinv).
  - destruct D as (_ & _ & _ & _ & _ & Dr & Dp & Dl & Dh & Dc & Da & _).
    unfold selectionInvariant, heldGizmos, gizmoAttached.
    rewrite Dr, Dp, Dl, Dh, Dc, Da.
    repeat split; try discriminate; try lia; try (apply (Icur robotId robot H)).
  - destruct S as (robotId & robot & key & j & _ & _ & _ & Hrob & Hres & _ & Sa & Sor & Sl
                   & Sh & Sc & Salloc).
    destruct (resolvedJoint_sound hit s key j Hres) as (_ & Htr & robotId' & robot' & Hrob' & Hin).
    rewrite Hrob in Hrob'. injection Hrob' as <- <-.
    destruct (Icur robotId robot Hrob) as (Hlt & Hnd).
    unfold selectionInvariant.
    rewrite Sl, Sh, Sc, Salloc, Hrob, Sa.
    rewrite (held_attached (castRay hit s) Sor), Sa.
    refine (conj _ (conj _ (conj _ (conj _ (conj _ _))))).
    + reflexivity.
    + destruct (movable (Joint.type j)); lia.
    + intros r1 r2 H. injection H as <- <-. split; assumption.
    + intros r1 k1 H. injection H as <- _. exact Hlt.
    + intros _. exists robotId, robot, key. split; reflexivity.
    + intros robotId' robot' key' j' H1 H2 Hin' _.
      injection H1 as <- <-. injection H2 as <-.
      rewrite (unique_entry (Robot.joints robot) key j' j Hnd Hin' Hin). reflexivity.
Qed.

Section Reachability.

Variable deserializeUrdfToRobot : string -> Deserialized.
Variable create : Robot.t -> Robot.t.

(** A [Map] has no two entries under one key: the joint table of a robot as
    it comes out of [deserializeUrdfToRobot] and [create] has unique keys. *)
Hypothesis joints_unique :
  forall urdfText robot,
    deserializeUrdfToRobot urdfText = Resolved robot ->
    NoDup (JS.Map.keys (Robot.joints (create robot))).

Lemma applyURDF_invariant (urdfText : string) (vscode : bool) (s : RobotScene) :
  selectionInvariant s ->
  selectionInvariant (applyURDF deserializeUrdfToRobot create urdfText vscode s).
Proof.
  intros (Ilive & Ile & Icur & Ihov & Iatt & Isel).
  destruct (scene s) eqn:Hs.
  - destruct (deserializeUrdfToRobot urdfText) as [robot | message] eqn:Hd.
    + destruct (applyURDF_resolved_spec deserializeUrdfToRobot create urdfText vscode robot
                  s Hs Hd)
        as (A1 & A2 & _ & A4 & A5 & A6 & A7 & _).
      cbv zeta in A1, A2, A4, A5, A6, A7.
      unfold selectionInvariant, heldGizmos, gizmoAttached.
      rewrite A1, A2, A4, A5, A6, A7.
      refine (conj _ (conj _ (conj _ (conj _ (conj _ _))))); try discriminate; try lia.
      * intros r1 r2 H. injection H as <- <-.
        split; [lia | apply (joints_unique urdfText robot Hd)].
      * intros r1 k1 H. specialize (Ihov r1 k1 H). lia.
      * intros r1 r2 k1 j1 H1 H2. injection H1 as <- _. specialize (Ihov _ _ H2). lia.
    + destruct (applyURDF_rejected_spec deserializeUrdfToRobot create urdfText vscode message
                  s Hs Hd)
        as (A1 & A2 & _ & A4 & A5 & A6 & A7 & _).
      cbv zeta in A1, A2, A4, A5, A6, A7.
      unfold selectionInvariant, heldGizmos, gizmoAttached.
      rewrite A1, A2, A4, A5, A6, A7.
      refine (conj _ (conj _ (conj _ (conj _ (conj _ _))))); try discriminate; try lia.
      * exact Ihov.
  - destruct (applyURDF_sceneless_spec deserializeUrdfToRobot create urdfText vscode s Hs)
      as (A1 & A2 & A4 & A5 & A6 & A7 & _).
    cbv zeta in A1, A2, A4, A5, A6, A7.
    unfold selectionInvariant, heldGizmos, gizmoAttached.
    rewrite A1, A2, A4, A5, A6, A7.
    refine (conj _ (conj _ (conj _ (conj _ (conj _ _))))); try discriminate; try lia.
    + exact Ihov.
Qed.

Lemma step_invariant (s : RobotScene) (e : Event) :
  selectionInvariant s -> selectionInvariant (step deserializeUrdfToRobot create s e).
Proof.
  intro Hinv. destruct e as [urdfText vscode | hit | id event | id | | rebuilt | | pose]; simpl.
  - apply applyURDF_invariant. exact Hinv.
  - apply castRay_invariant. exact Hinv.
  - destruct (edition s); [exact Hinv|].
    exact (selectionInvariant_frame s _ (onMeshLoadProgress_selection id event s) Hinv).
  - exact (selectionInvariant_frame s _ (onMeshLoadComplete_selection id s) Hinv).
  - exact (selectionInvariant_frame s _ (timerFires_selection s) Hinv).
  - exact (selectionInvariant_frame s _ (resetCamera_selection rebuilt s) Hinv).
  - exact (selectionInvariant_frame s _ (setLoadProgressCallback_selection s) Hinv).
  - exact (selectionInvariant_frame s _ (cameraMoved_selection pose s) Hinv).
Qed.

Lemma reachable_invariant (s : RobotScene) :
  reachable deserializeUrdfToRobot create s -> selectionInvariant s.
Proof.
  induction 1 as [e | s Hr IH He | s e Hr IH].
  - unfold selectionInvariant, heldGizmos, gizmoAttached. simpl.
    repeat split; try discriminate; try lia.
  - exact (selectionInvariant_frame s (create3DUI s) eq_refl IH).
  - apply step_invariant. exact IH.
Qed.

(** C10, as amended.  In every reachable state with a scene, a camera and a
    robot, a pointer-down pick that hits a mesh and resolves to no joint
    disposes the attached exercise gizmo (none stays alive), clears the
    hovered joint and the status text; a gizmo is attached after the pick
    exactly when the pick resolved to a Revolute, Continuous or Prismatic
    joint; before and after the pick at most one exercise gizmo is alive. *)
Theorem pick_attaches_gizmo_iff_movable :
  forall (s : RobotScene) (picked : BABYLON.AbstractMesh) (cam : BABYLON.ArcRotateCamera)
         (robotId : nat) (robot : Robot.t),
    reachable deserializeUrdfToRobot create s ->
    scene s = true -> camera s = Some cam -> currentRobot s = Some (robotId, robot) ->
    let hit := Some picked in
    let s' := castRay hit s in
    (resolvedJoint hit s = None ->
     planeRotationGizmo s' = None /\ planePositionGizmo s' = None
     /\ liveExerciseGizmos s' = 0%nat /\ hoveredJoint s' = None /\ statusCleared s')
    /\ (gizmoAttached s' = true <->
        exists key j, resolvedJoint hit s = Some (key, j) /\ movable (Joint.type j) = true)
    /\ (liveExerciseGizmos s <= 1)%nat
    /\ (liveExerciseGizmos s' <= 1)%nat.
Proof.
  intros s picked cam robotId robot Hreach Hs Hc Hrob. cbv zeta.
  set (hit := Some picked). set (s' := castRay hit s).
  pose proof (reachable_invariant s Hreach) as Hinv.
  pose proof (castRay_invariant hit s Hinv) as Hinv'.
  pose proof Hinv as (Ilive & Ile & Icur & Ihov & Iatt & Isel).
  pose proof Hinv' as (Ilive' & Ile' & _).
  pose proof (castRay_cases hit s Ilive) as Hcases. cbv zeta in Hcases.
  fold s' in Hcases, Ilive', Ile'.
  destruct Hcases as [[E C] | [D | S]].
  - destruct C as [C | [C | [C | [C | C]]]]; try congruence; try discriminate.
    destruct C as (robotId' & robot' & key & j & Hrob' & Hres & Hhov).
    rewrite Hrob in Hrob'. injection Hrob' as <- <-.
    destruct (resolvedJoint_sound hit s key j Hres) as (_ & Htr & r1 & r2 & Hrob' & Hin).
    rewrite Hrob in Hrob'. injection Hrob' as <- <-.
    destruct (selectionFields_eq s s' E) as (_ & _ & _ & _ & _ & _ & _ & Eatt).
    split; [|split; [|split; lia]].
    + intro H. congruence.
    + split.
      * intro H. exists key, j. split; [exact Hres|].
        rewrite Eatt, (Isel robotId robot key j Hrob Hhov Hin Htr) in H. exact H.
      * intros (key' & j' & Hres' & Hm). rewrite Hres in Hres'. injection Hres' as <- <-.
        rewrite Eatt, (Isel robotId robot key j Hrob Hhov Hin Htr). exact Hm.
  - destruct D as (_ & _ & _ & _ & Hres & Dr & Dp & Dl & Dh & _ & _ & Dst).
    split; [|split; [|split; lia]].
    + intros _. repeat split; assumption.
    + split.
      * unfold gizmoAttached. rewrite Dr, Dp. discriminate.
      * intros (key & j & Hres' & _). congruence.
  - destruct S as (robotId' & robot' & key & j & _ & _ & _ & _ & Hres & _ & Sa & _).
    split; [|split; [|split; lia]].
    + intro H. congruence.
    + split.
      * intro H. exists key, j. split; [exact Hres | rewrite <- Sa; exact H].
      * intros (key' & j' & Hres' & Hm). rewrite Hres in Hres'. injection Hres' as <- <-.
        rewrite Sa. exact Hm.
Qed.

End Reachability.

(** ** What the joint selection and the camera leave alone *)

Lemma loadFields_eq (s s' : RobotScene) :
  loadFields s' = loadFields s ->
  edition s' = edition s
  /\ pendingMeshLoads s' = pendingMeshLoads s
  /\ hasBeenFramed s' = hasBeenFramed s
  /\ timers s' = timers s
  /\ framingsRequested s' = framingsRequested s
  /\ onProgressCallback s' = onProgressCallback s
  /\ totalMeshes s' = totalMeshes s
  /\ loadedMeshes s' = loadedMeshes s
  /\ meshLoadProgress s' = meshLoadProgress s
  /\ progressReports s' = progressReports s.
Proof.
  unfold loadFields. intro E. injection E as E1 E2 E3 E4 E5 E6 E7 E8 E9 E10.
  repeat split; assumption.
Qed.

Lemma clearStatus_load (s : RobotScene) : loadFields (clearStatus s) = loadFields s.
Proof.
  unfold clearStatus. destruct (edition s) eqn:E; [destruct (status3DText s)|];
    unfold loadFields; simpl; rewrite ?E; reflexivity.
Qed.

Lemma clearJointExerciseGizmos_load (s : RobotScene) :
  loadFields (clearJointExerciseGizmos s) = loadFields s.
Proof.
  unfold clearJointExerciseGizmos, dispose_gizmo.
  destruct (planeRotationGizmo s); simpl; destruct (planePositionGizmo s); reflexivity.
Qed.

Lemma updateJointStatusLabel_load (joint : Joint.t) (s : RobotScene) :
  loadFields (updateJointStatusLabel joint s) = loadFields s.
Proof.
  unfold updateJointStatusLabel. destruct (Joint.transform joint); [|reflexivity].
  destruct (edition s) eqn:E; [destruct (status3DText s)|];
    unfold loadFields; simpl; rewrite ?E; reflexivity.
Qed.

Lemma addExerciseGizmoToJoint_load (ref : JointRef) (joint : Joint.t) (s : RobotScene) :
  loadFields (addExerciseGizmoToJoint ref joint s) = loadFields s.
Proof.
  unfold addExerciseGizmoToJoint. destruct (Joint.transform joint); [|reflexivity].
  destruct (Joint.type joint); reflexivity.
Qed.

Lemma console_load (lines : list string) (s : RobotScene) :
  loadFields (set_console lines s) = loadFields s.
Proof. reflexivity. Qed.

Lemma console_log_load (line : string) (s : RobotScene) :
  loadFields (console_log line s) = loadFields s.
Proof. reflexivity. Qed.

Lemma hoveredJoint_load (h : option JointRef) (s : RobotScene) :
  loadFields (set_hoveredJoint h s) = loadFields s.
Proof. reflexivity. Qed.

Lemma castRay_load (hit : option BABYLON.AbstractMesh) (s : RobotScene) :
  loadFields (castRay hit s) = loadFields s.
Proof.
  destruct (scene s) eqn:Hs.
  2:{ destruct (castRay_idle hit s) as [E | E]; [auto | |]; rewrite E;
        [reflexivity | apply clearStatus_load]. }
  destruct (camera s) as [cam|] eqn:Hc.
  2:{ destruct (castRay_idle hit s) as [E | E]; [auto | |]; rewrite E;
        [reflexivity | apply clearStatus_load]. }
  destruct hit as [picked|].
  2:{ destruct (castRay_idle None s) as [E | E]; [auto | |]; rewrite E;
        [reflexivity | apply clearStatus_load]. }
  destruct (currentRobot s) as [[robotId robot]|] eqn:Hrob.
  2:{ destruct (castRay_idle (Some picked) s) as [E | E]; [auto 6 | |]; rewrite E;
        [reflexivity | apply clearStatus_load]. }
  destruct (findJoint robot picked) as [[[key j]|] lines] eqn:Hf.
  - rewrite (castRay_resolved (Some picked) s picked robotId robot cam lines key j
               Hs Hc eq_refl Hrob Hf).
    cbv zeta. destruct (sameJoint (robotId, key) (hoveredJoint s)).
    + rewrite console_log_load, console_load. apply clearStatus_load.
    + destruct (Joint.transform j);
        rewrite ?updateJointStatusLabel_load, addExerciseGizmoToJoint_load,
          hoveredJoint_load, clearJointExerciseGizmos_load, console_log_load, console_load;
        apply clearStatus_load.
  - rewrite (castRay_unresolved (Some picked) s picked robotId robot cam lines
               Hs Hc eq_refl Hrob Hf).
    rewrite clearStatus_load, clearJointExerciseGizmos_load, hoveredJoint_load, console_load.
    apply clearStatus_load.
Qed.

Lemma resetCamera_load (rebuilt : BABYLON.ArcRotateCamera) (s : RobotScene) :
  loadFields (resetCamera rebuilt s) = loadFields s.
Proof.
  unfold resetCamera. destruct (camera s); [|reflexivity].
  destruct (hasBeenFramed s); reflexivity.
Qed.

Lemma cameraMoved_load (pose : BABYLON.ArcRotateCamera) (s : RobotScene) :
  loadFields (cameraMoved pose s) = loadFields s.
Proof. unfold cameraMoved. destruct (camera s); reflexivity. Qed.

(** ** The mesh-load callbacks and the framing timer *)

Lemma onMeshLoadComplete_spec (id : string) (s : RobotScene) :
  let s' := onMeshLoadComplete id s in
  let fires := (pendingMeshLoads s - 1 =? 0)%Z && negb (hasBeenFramed s) in
  pendingMeshLoads s' = (pendingMeshLoads s - 1)%Z
  /\ hasBeenFramed s' = hasBeenFramed s
  /\ edition s' = edition s
  /\ onProgressCallback s' = onProgressCallback s
  /\ totalMeshes s' = totalMeshes s
  /\ timers s' = (timers s + if fires then 1 else 0)%nat
  /\ framingsRequested s' = (framingsRequested s + if fires then 1 else 0)%nat
  /\ (edition s = Desktop ->
      loadedMeshes s' = (loadedMeshes s + 1)%Z
      /\ meshLoadProgress s' = JS.Map.set (meshLoadProgress s) id 100
      /\ progressReports s'
         = progressReports s
           ++ (if negb (onProgressCallback s) || (totalMeshes s =? 0)%Z then []
               else [mkReport (loadedMeshes s + 1) (totalMeshes s)
                       (sumProgress (JS.Map.set (meshLoadProgress s) id 100)
                        / inject_Z (totalMeshes s))]))
  /\ (edition s = Immersive ->
      loadedMeshes s' = loadedMeshes s
      /\ meshLoadProgress s' = meshLoadProgress s
      /\ progressReports s' = progressReports s).
Proof.
  cbv zeta. unfold onMeshLoadComplete, updateOverallProgress. cbv zeta.
  destruct (edition s) eqn:Ee; simpl; rewrite ?Ee; simpl.
  - destruct ((pendingMeshLoads s - 1 =? 0)%Z && negb (hasBeenFramed s)); simpl;
      repeat split; intros; try discriminate; try reflexivity; try assumption; try lia.
  - destruct (negb (onProgressCallback s) || (totalMeshes s =? 0)%Z); simpl;
      destruct ((pendingMeshLoads s - 1 =? 0)%Z && negb (hasBeenFramed s)); simpl;
      repeat split; intros; try discriminate; try reflexivity; try assumption;
      rewrite ?app_nil_r; try reflexivity; try lia.
Qed.

Lemma onMeshLoadProgress_spec (id : string) (event : BABYLON.ISceneLoaderProgressEvent)
  (s : RobotScene) :
  let s' := onMeshLoadProgress id event s in
  pendingMeshLoads s' = pendingMeshLoads s
  /\ hasBeenFramed s' = hasBeenFramed s
  /\ edition s' = edition s
  /\ onProgressCallback s' = onProgressCallback s
  /\ totalMeshes s' = totalMeshes s
  /\ timers s' = timers s
  /\ framingsRequested s' = framingsRequested s
  /\ loadedMeshes s' = loadedMeshes s
  /\ meshLoadProgress s' = JS.Map.set (meshLoadProgress s) id (meshProgress event)
  /\ progressReports s'
     = progressReports s
       ++ (if negb (onProgressCallback s) || (totalMeshes s =? 0)%Z then []
           else [mkReport (loadedMeshes s) (totalMeshes s)
                   (sumProgress (JS.Map.set (meshLoadProgress s) id (meshProgress event))
                    / inject_Z (totalMeshes s))]).
Proof.
  cbv zeta. unfold onMeshLoadProgress, updateOverallProgress. simpl.
  destruct (negb (onProgressCallback s) || (totalMeshes s =? 0)%Z); simpl;
    repeat split; rewrite ?app_nil_r; reflexivity.
Qed.

Lemma frameModel_load (s : RobotScene) :
  let s' := frameModel s in
  edition s' = edition s
  /\ pendingMeshLoads s' = pendingMeshLoads s
  /\ timers s' = timers s
  /\ framingsRequested s' = framingsRequested s
  /\ onProgressCallback s' = onProgressCallback s
  /\ totalMeshes s' = totalMeshes s
  /\ loadedMeshes s' = loadedMeshes s
  /\ meshLoadProgress s' = meshLoadProgress s
  /\ progressReports s' = progressReports s.
Proof.
  cbv zeta. unfold frameModel.
  destruct (negb (scene s)); [repeat split; reflexivity|].
  destruct (camera s); [|repeat split; reflexivity].
  destruct (currentRobot s) as [[robotId robot]|]; [|repeat split; reflexivity].
  destruct (robotMeshes robot); repeat split; reflexivity.
Qed.

Lemma timerFires_load (s : RobotScene) :
  let s' := timerFires s in
  edition s' = edition s
  /\ pendingMeshLoads s' = pendingMeshLoads s
  /\ timers s' = Nat.pred (timers s)
  /\ framingsRequested s' = framingsRequested s
  /\ onProgressCallback s' = onProgressCallback s
  /\ totalMeshes s' = totalMeshes s
  /\ loadedMeshes s' = loadedMeshes s
  /\ meshLoadProgress s' = meshLoadProgress s
  /\ progressReports s' = progressReports s
  /\ (timers s = 0%nat -> hasBeenFramed s' = hasBeenFramed s).
Proof.
  cbv zeta. unfold timerFires. destruct (timers s) as [|n] eqn:Et.
  - rewrite Et. repeat split; reflexivity.
  - destruct (frameModel_load (set_timers n s)) as (F1 & F2 & F3 & F4 & F5 & F6 & F7 & F8 & F9).
    cbv zeta in F1, F2, F3, F4, F5, F6, F7, F8, F9.
    rewrite F1, F2, F3, F4, F5, F6, F7, F8, F9.
    repeat split; try reflexivity. discriminate.
Qed.

Lemma setLoadProgressCallback_load (s : RobotScene) :
  let s' := setLoadProgressCallback s in
  edition s' = edition s
  /\ pendingMeshLoads s' = pendingMeshLoads s
  /\ hasBeenFramed s' = hasBeenFramed s
  /\ timers s' = timers s
  /\ framingsRequested s' = framingsRequested s
  /\ totalMeshes s' = totalMeshes s
  /\ loadedMeshes s' = loadedMeshes s
  /\ meshLoadProgress s' = meshLoadProgress s
  /\ progressReports s' = progressReports s.
Proof.
  cbv zeta. unfold setLoadProgressCallback. destruct (edition s) eqn:E; simpl; rewrite ?E;
    repeat split; reflexivity.
Qed.

(** ** Auto-framing *)

Section Framing.

Variable deserializeUrdfToRobot : string -> Deserialized.
Variable create : Robot.t -> Robot.t.


Lemma step_pending (s : RobotScene) (e : Event) :
  isApplyURDF e = false ->
  pendingMeshLoads (step deserializeUrdfToRobot create s e)
  = (pendingMeshLoads s - Z.of_nat (List.length (completions [e])))%Z.
Proof.
  intro He.
  destruct e as [urdfText vscode | hit | id event | id | | rebuilt | | pose]; simpl.
  - discriminate.
  - destruct (loadFields_eq s _ (castRay_load hit s)) as (_ & E & _). rewrite E. lia.
  - destruct (edition s); [lia|].
    destruct (onMeshLoadProgress_spec id event s) as (E & _). cbv zeta in E. rewrite E. lia.
  - destruct (onMeshLoadComplete_spec id s) as (E & _). cbv zeta in E. rewrite E. lia.
  - destruct (timerFires_load s) as (_ & E & _). cbv zeta in E. rewrite E. lia.
  - destruct (loadFields_eq s _ (resetCamera_load rebuilt s)) as (_ & E & _). rewrite E. lia.
  - destruct (setLoadProgressCallback_load s) as (_ & E & _). cbv zeta in E. rewrite E. lia.
  - destruct (loadFields_eq s _ (cameraMoved_load pose s)) as (_ & E & _). rewrite E. lia.
Qed.


Lemma completions_app (a b : list Event) :
  completions (a ++ b) = completions a ++ completions b.
Proof.
  induction a as [|e a IH]; simpl; [reflexivity|].
  destruct e; simpl; rewrite IH; reflexivity.
Qed.




End Framing.

(** ** The progress map *)

Lemma Map_get_set_same {V : Type} (m : JS.Map.t V) (k : string) (v : V) :
  JS.Map.get (JS.Map.set m k v) k = Some v.
Proof.
  induction m as [|[k' v'] m IH]; simpl.
  - rewrite String.eqb_refl. reflexivity.
  - destruct (String.eqb k' k) eqn:E; simpl; rewrite E; [reflexivity | exact IH].
Qed.

Lemma Map_get_set_other {V : Type} (m : JS.Map.t V) (k k' : string) (v : V) :
  k' <> k -> JS.Map.get (JS.Map.set m k v) k' = JS.Map.get m k'.
Proof.
  intro Hne. induction m as [|[k0 v0] m IH]; simpl.
  - destruct (String.eqb k k') eqn:E; [|reflexivity].
    apply String.eqb_eq in E. congruence.
  - destruct (String.eqb k0 k) eqn:E; simpl.
    + apply String.eqb_eq in E. subst k0.
      destruct (String.eqb k k') eqn:E'; [|reflexivity].
      apply String.eqb_eq in E'. congruence.
    + destruct (String.eqb k0 k'); [reflexivity | exact IH].
Qed.

Lemma Map_get_In {V : Type} (m : JS.Map.t V) (k : string) :
  In k (JS.Map.keys m) <-> JS.Map.get m k <> None.
Proof.
  unfold JS.Map.keys. induction m as [|[k0 v0] m IH]; simpl.
  - split; [contradiction | congruence].
  - destruct (String.eqb k0 k) eqn:E.
    + apply String.eqb_eq in E. split; [discriminate | auto].
    + apply String.eqb_neq in E. rewrite <- IH. split; [intros [H | H]; congruence | auto].
Qed.

Lemma Map_keys_set {V : Type} (m : JS.Map.t V) (k : string) (v : V) :
  In k (JS.Map.keys m) -> JS.Map.keys (JS.Map.set m k v) = JS.Map.keys m.
Proof.
  unfold JS.Map.keys. induction m as [|[k0 v0] m IH]; simpl; intro Hin.
  - contradiction.
  - destruct (String.eqb k0 k) eqn:E; simpl; [reflexivity|].
    apply String.eqb_neq in E. f_equal. apply IH. destruct Hin; congruence.
Qed.

Lemma Map_set_absent {V : Type} (m : JS.Map.t V) (k : string) (v : V) :
  JS.Map.get m k = None -> JS.Map.set m k v = m ++ [(k, v)].
Proof.
  induction m as [|[k0 v0] m IH]; simpl; intro H; [reflexivity|].
  destruct (String.eqb k0 k); [discriminate|]. f_equal. exact (IH H).
Qed.

Lemma Map_get_app_absent {V : Type} (m : JS.Map.t V) (k k' : string) (v : V) :
  k' <> k -> JS.Map.get m k' = None -> JS.Map.get (m ++ [(k, v)]) k' = None.
Proof.
  intros Hne. induction m as [|[k0 v0] m IH]; simpl; intro H.
  - destruct (String.eqb k k') eqn:E; [|reflexivity].
    apply String.eqb_eq in E. congruence.
  - destruct (String.eqb k0 k'); [discriminate | exact (IH H)].
Qed.

Lemma Map_get_entry {V : Type} (m : JS.Map.t V) (k : string) (v : V) :
  NoDup (JS.Map.keys m) -> In (k, v) m -> JS.Map.get m k = Some v.
Proof.
  unfold JS.Map.keys. induction m as [|[k0 v0] m IH]; simpl; intros Hnd Hin.
  - contradiction.
  - inversion Hnd as [|? ? Hnotin Hnd']; subst.
    destruct Hin as [Hin | Hin].
    + injection Hin as -> ->. rewrite String.eqb_refl. reflexivity.
    + destruct (String.eqb k0 k) eqn:E.
      * apply String.eqb_eq in E. subst k0. exfalso. apply Hnotin.
        apply (in_map fst) in Hin. exact Hin.
      * exact (IH Hnd' Hin).
Qed.

Lemma decimal_inj (n m : nat) : JS.decimal n = JS.decimal m -> n = m.
Proof.
  unfold JS.decimal. intro H.
  apply (f_equal NilEmpty.uint_of_string) in H. rewrite !NilEmpty.usu in H.
  injection H as H. apply Unsigned.to_uint_inj. exact H.
Qed.

Lemma meshId_inj (n m : nat) : meshId n = meshId m -> n = m.
Proof.
  unfold meshId. simpl. intro H. apply decimal_inj.
  repeat (injection H as H). exact H.
Qed.

Lemma mem_In (id : string) (ids : list string) : mem id ids = true <-> In id ids.
Proof.
  unfold mem. rewrite existsb_exists. split.
  - intros (x & Hin & E). apply String.eqb_eq in E. subst x. exact Hin.
  - intro Hin. exists id. split; [exact Hin | apply String.eqb_refl].
Qed.

Lemma meshIds_NoDup (n : nat) : NoDup (meshIds n).
Proof.
  unfold meshIds. apply Injective_map_NoDup; [|apply seq_NoDup].
  intros a b. apply meshId_inj.
Qed.

Lemma trackedProgress_absent (n : nat) (m : JS.Map.t Q) (i : nat) :
  (forall j, (i <= j)%nat -> JS.Map.get m (meshId j) = None) ->
  trackedProgress m i n = m ++ List.map (fun k => (meshId k, 0)) (seq i n).
Proof.
  unfold trackedProgress. revert m i.
  induction n as [|n IH]; intros m i Habs; simpl.
  - rewrite app_nil_r. reflexivity.
  - rewrite (Map_set_absent m (meshId i) 0 (Habs i (le_n i))).
    rewrite IH.
    + rewrite <- app_assoc. reflexivity.
    + intros j Hj. apply Map_get_app_absent.
      * intro E. apply meshId_inj in E. lia.
      * apply Habs. lia.
Qed.

Lemma trackedProgress_fresh (n : nat) :
  trackedProgress JS.Map.empty 0 n = List.map (fun k => (meshId k, 0)) (seq 0 n).
Proof. apply (trackedProgress_absent n JS.Map.empty 0). reflexivity. Qed.

Lemma trackedProgress_keys (n : nat) :
  JS.Map.keys (trackedProgress JS.Map.empty 0 n) = meshIds n.
Proof.
  rewrite trackedProgress_fresh. unfold JS.Map.keys, meshIds.
  rewrite map_map. reflexivity.
Qed.

Lemma sum_all_100 (values : list Q) (start : Q) :
  (forall v, In v values -> v = 100) ->
  fold_left (fun totalProgress progress => totalProgress + progress) values start
  == start + 100 * inject_Z (Z.of_nat (List.length values)).
Proof.
  revert start. induction values as [|v values IH]; intros start Hall.
  - simpl. ring.
  - cbn [fold_left List.length]. rewrite IH by (intros w Hw; apply Hall; right; exact Hw).
    rewrite (Hall v (or_introl eq_refl)).
    rewrite Nat2Z.inj_succ. unfold Z.succ. rewrite inject_Z_plus. ring.
Qed.

Lemma meshProgress_range (event : BABYLON.ISceneLoaderProgressEvent) :
  0 <= BABYLON.loaded event -> BABYLON.loaded event <= BABYLON.total event ->
  0 <= meshProgress event /\ meshProgress event <= 100.
Proof.
  intros Hlo Hhi. unfold meshProgress.
  destruct (BABYLON.lengthComputable event && JS.gtb (BABYLON.total event) 0) eqn:E.
  - apply andb_true_iff in E. destruct E as [_ E]. apply gtb_true_iff in E.
    split.
    + apply Qmult_le_0_compat; [|discriminate].
      apply Qle_shift_div_l; [exact E|]. rewrite Qmult_0_l. exact Hlo.
    + setoid_replace 100 with (1 * 100) at 2 by ring.
      apply Qmult_le_compat_r; [|discriminate].
      apply Qle_shift_div_r; [exact E|]. rewrite Qmult_1_l. exact Hhi.
  - split; discriminate.
Qed.

(** ** Progress aggregation *)

Lemma orderly_completions (events : list Event) (done : list string) :
  orderly done events = true ->
  NoDup (completions events)
  /\ (forall id, In id (completions events) -> ~ In id done).
Proof.
  revert done. induction events as [|e events IH]; intros done H; simpl.
  - split; [constructor | contradiction].
  - destruct e as [urdfText vscode | hit | id event | id | | rebuilt | | pose];
      simpl in H; try discriminate.
    + apply andb_true_iff in H. destruct H as [_ H]. exact (IH done H).
    + apply andb_true_iff in H. destruct H as [Hnew H].
      apply negb_true_iff in Hnew.
      destruct (IH (id :: done) H) as [Hnd Hout].
      split.
      * constructor; [|exact Hnd]. intro Hin. apply (Hout id Hin). left. reflexivity.
      * intros id' [<- | Hin].
        -- intro Hd. apply mem_In in Hd. congruence.
        -- intro Hd. apply (Hout id' Hin). right. exact Hd.
Qed.

Lemma ownEvents_completions (ids : list string) (events : list Event) :
  ownEvents ids events = true -> incl (completions events) ids.
Proof.
  unfold ownEvents. induction events as [|e events IH]; simpl; intro H.
  - intros id [].
  - apply andb_true_iff in H. destruct H as [He H].
    destruct e as [urdfText vscode | hit | id event | id | | rebuilt | | pose]; try discriminate.
    + exact (IH H).
    + intros id' [<- | Hin]; [apply mem_In; exact He | exact (IH H id' Hin)].
Qed.

Section Progress.

Variable deserializeUrdfToRobot : string -> Deserialized.
Variable create : Robot.t -> Robot.t.

Lemma step_aggregating (ids done : list string) (s : RobotScene) (e : Event) :
  ownEvents ids [e] = true ->
  orderly done [e] = true ->
  aggregating ids done s ->
  aggregating ids (completions [e] ++ done) (step deserializeUrdfToRobot create s e).
Proof.
  intros Hown Hord (He & Hcb & Htot & Hkeys & Hload & Hdone).
  unfold ownEvents in Hown. simpl in Hown, Hord.
  destruct e as [urdfText vscode | hit | id event | id | | rebuilt | | pose]; try discriminate.
  - rewrite !andb_true_r in *. apply mem_In in Hown. apply negb_true_iff in Hord.
    simpl. rewrite He.
    destruct (onMeshLoadProgress_spec id event s)
      as (_ & _ & E1 & E2 & E3 & _ & _ & E4 & E5 & _).
    cbv zeta in E1, E2, E3, E4, E5.
    unfold aggregating. rewrite E1, E2, E3, E4, E5.
    repeat split; try assumption.
    + rewrite Map_keys_set; [exact Hkeys | rewrite Hkeys; exact Hown].
    + intros id' Hin. rewrite Map_get_set_other; [exact (Hdone id' Hin)|].
      intros ->. apply mem_In in Hin. congruence.
  - rewrite !andb_true_r in *. apply mem_In in Hown. apply negb_true_iff in Hord.
    simpl.
    destruct (onMeshLoadComplete_spec id s) as (_ & _ & E1 & E2 & E3 & _ & _ & E4 & _).
    cbv zeta in E1, E2, E3, E4. destruct (E4 He) as (E5 & E6 & _).
    unfold aggregating. rewrite E1, E2, E3, E5, E6.
    repeat split; try assumption.
    + rewrite Map_keys_set; [exact Hkeys | rewrite Hkeys; exact Hown].
    + rewrite Hload. simpl List.length. lia.
    + intros id' [<- | Hin]; [apply Map_get_set_same|].
      destruct (String.eqb id id') eqn:E.
      * apply String.eqb_eq in E. subst id'. apply Map_get_set_same.
      * apply String.eqb_neq in E. rewrite Map_get_set_other by congruence.
        exact (Hdone id' Hin).
Qed.

Lemma run_aggregating (ids : list string) (events : list Event) (done : list string)
  (s : RobotScene) :
  ownEvents ids events = true ->
  orderly done events = true ->
  aggregating ids done s ->
  aggregating ids (rev (completions events) ++ done)
    (run deserializeUrdfToRobot create s events).
Proof.
  unfold run. revert done s.
  induction events as [|e events IH]; intros done s Hown Hord Hagg.
  - exact Hagg.
  - cbn [fold_left].
    assert (Hown1 : ownEvents ids [e] = true /\ ownEvents ids events = true).
    { unfold ownEvents in *. simpl in *. apply andb_true_iff in Hown.
      destruct Hown as [H1 H2]. rewrite H1. auto. }
    destruct Hown1 as [Hown1 Hown2].
    assert (Hord1 : orderly done [e] = true /\ orderly (completions [e] ++ done) events = true).
    { destruct e; simpl in *; try discriminate;
        apply andb_true_iff in Hord; destruct Hord as [H1 H2]; rewrite H1; auto. }
    destruct Hord1 as [Hord1 Hord2].
    pose proof (IH _ _ Hown2 Hord2 (step_aggregating ids done s e Hown1 Hord1 Hagg)) as H.
    replace (rev (completions (e :: events)) ++ done)
      with (rev (completions events) ++ completions [e] ++ done); [exact H|].
    change (e :: events) with ([e] ++ events).
    rewrite completions_app, rev_app_distr, <- app_assoc.
    f_equal. destruct e; reflexivity.
Qed.

(** Every mesh event of a run makes one report, computed from the state it
    leaves behind. *)
Lemma run_last_report (ids : list string) (events : list Event) (s : RobotScene) :
  events <> [] ->
  ownEvents ids events = true ->
  edition s = Desktop -> onProgressCallback s = true -> totalMeshes s <> 0%Z ->
  let s' := run deserializeUrdfToRobot create s events in
  exists earlier,
    progressReports s'
    = earlier ++ [mkReport (loadedMeshes s') (totalMeshes s')
                    (sumProgress (meshLoadProgress s') / inject_Z (totalMeshes s'))].
Proof.
  cbv zeta. unfold run. revert s.
  induction events as [|e events IH]; intros s Hne Hown He Hcb Htot; [congruence|].
  cbn [fold_left].
  unfold ownEvents in Hown. simpl in Hown. apply andb_true_iff in Hown.
  destruct Hown as [Hown1 Hown2].
  assert (Hstep :
            let s1 := step deserializeUrdfToRobot create s e in
            edition s1 = Desktop /\ onProgressCallback s1 = true /\ totalMeshes s1 <> 0%Z
            /\ progressReports s1
               = progressReports s
                 ++ [mkReport (loadedMeshes s1) (totalMeshes s1)
                       (sumProgress (meshLoadProgress s1) / inject_Z (totalMeshes s1))]).
  { cbv zeta.
    assert (Hz : (totalMeshes s =? 0)%Z = false) by (apply Z.eqb_neq; exact Htot).
    destruct e as [urdfText vscode | hit | id event | id | | rebuilt | | pose]; try discriminate.
    - simpl. rewrite He.
      destruct (onMeshLoadProgress_spec id event s)
        as (_ & _ & E1 & E2 & E3 & _ & _ & E4 & E5 & E6).
      cbv zeta in E1, E2, E3, E4, E5, E6.
      rewrite E1, E2, E3, E4, E5, E6, Hcb, Hz. simpl. auto.
    - simpl.
      destruct (onMeshLoadComplete_spec id s) as (_ & _ & E1 & E2 & E3 & _ & _ & E4 & _).
      cbv zeta in E1, E2, E3, E4. destruct (E4 He) as (E5 & E6 & E7).
      rewrite E1, E2, E3, E5, E6, E7, Hcb, Hz. simpl. auto. }
  cbv zeta in Hstep. destruct Hstep as (He1 & Hcb1 & Htot1 & Hrep).
  destruct events as [|e' events].
  - simpl. exists (progressReports s). exact Hrep.
  - apply (IH (step deserializeUrdfToRobot create s e)); try assumption. discriminate.
Qed.

Lemma all_done_sum (ids : list string) (s : RobotScene) :
  NoDup ids ->
  JS.Map.keys (meshLoadProgress s) = ids ->
  (forall id, In id ids -> JS.Map.get (meshLoadProgress s) id = Some 100) ->
  sumProgress (meshLoadProgress s) == 100 * inject_Z (Z.of_nat (List.length ids)).
Proof.
  intros Hnd Hkeys Hall. unfold sumProgress.
  rewrite sum_all_100.
  - unfold JS.Map.values. rewrite length_map. rewrite <- Hkeys.
    unfold JS.Map.keys. rewrite length_map. ring.
  - intros v Hv. unfold JS.Map.values in Hv. apply in_map_iff in Hv.
    destruct Hv as ([k v'] & <- & Hin). simpl.
    assert (Hk : In k ids) by (rewrite <- Hkeys; apply (in_map fst) in Hin; exact Hin).
    pose proof (Hall k Hk) as Hget.
    rewrite (Map_get_entry (meshLoadProgress s) k v') in Hget;
      [congruence | rewrite Hkeys; exact Hnd | exact Hin].
Qed.

End Progress.

(** ** Loading: the statements *)

Lemma ownEvents_noApplyURDF (ids : list string) (events : list Event) :
  ownEvents ids events = true -> noApplyURDF events = true.
Proof.
  unfold ownEvents, noApplyURDF. induction events as [|e events IH]; [reflexivity|].
  simpl. intro H. apply andb_true_iff in H. destruct H as [H1 H2].
  rewrite (IH H2), andb_true_r. destruct e; try discriminate; reflexivity.
Qed.

Lemma run_pending (deserializeUrdfToRobot : string -> Deserialized)
  (create : Robot.t -> Robot.t) (events : list Event) (s : RobotScene) :
  noApplyURDF events = true ->
  pendingMeshLoads (run deserializeUrdfToRobot create s events)
  = (pendingMeshLoads s - Z.of_nat (List.length (completions events)))%Z.
Proof.
  unfold run, noApplyURDF. revert s.
  induction events as [|e events IH]; intros s Hno.
  - simpl. lia.
  - simpl in Hno. apply andb_true_iff in Hno. destruct Hno as [He Hno].
    apply negb_true_iff in He. cbn [fold_left].
    rewrite (IH _ Hno), (step_pending deserializeUrdfToRobot create s e He).
    change (e :: events) with ([e] ++ events). rewrite completions_app, length_app. lia.
Qed.

Section LoadingStatements.

Variable deserializeUrdfToRobot : string -> Deserialized.
Variable create : Robot.t -> Robot.t.

(** The aggregation of a load whose continuation runs right after the call.
    With a progress callback registered and [totalMeshes] not zero, every
    per-mesh progress event stores the mesh's progress and reports
    [(loadedMeshes, totalMeshes, sum of the per-mesh values / totalMeshes)],
    the sum being taken over the progress map from its first entry to its
    last; every completion sets the mesh's entry to 100, increments
    [loadedMeshes], decrements [pendingMeshLoads] and reports the same way; a
    per-mesh value lies in [0,100] when [0 <= loaded <= total].  After such a
    load of a robot with [n > 0] mesh visuals in which every mesh completes
    (once, with no progress event after its completion), the last report is
    [(n, n, 100)]. *)
Lemma progress_aggregation :
  forall (s : RobotScene) (urdfText : string) (vscode : bool) (robot : Robot.t)
         (events : list Event),
    edition s = Desktop ->
    scene s = true ->
    onProgressCallback s = true ->
    deserializeUrdfToRobot urdfText = Resolved robot ->
    let n := List.length (meshVisuals robot) in
    (0 < n)%nat ->
    (sumProgress [] = 0
     /\ forall m id value, sumProgress (m ++ [(id, value)]) = sumProgress m + value)
    /\ (forall sx id event,
        edition sx = Desktop -> onProgressCallback sx = true -> totalMeshes sx <> 0%Z ->
        let sx' := onMeshLoadProgress id event sx in
        meshLoadProgress sx' = JS.Map.set (meshLoadProgress sx) id (meshProgress event)
        /\ progressReports sx'
           = progressReports sx
             ++ [mkReport (loadedMeshes sx) (totalMeshes sx)
                   (sumProgress (meshLoadProgress sx') / inject_Z (totalMeshes sx))])
    /\ (forall event,
           0 <= BABYLON.loaded event -> BABYLON.loaded event <= BABYLON.total event ->
           0 <= meshProgress event /\ meshProgress event <= 100)
    /\ (forall sx id,
           edition sx = Desktop -> onProgressCallback sx = true -> totalMeshes sx <> 0%Z ->
           let sx' := onMeshLoadComplete id sx in
           JS.Map.get (meshLoadProgress sx') id = Some 100
           /\ loadedMeshes sx' = (loadedMeshes sx + 1)%Z
           /\ pendingMeshLoads sx' = (pendingMeshLoads sx - 1)%Z
           /\ progressReports sx'
              = progressReports sx
                ++ [mkReport (loadedMeshes sx + 1) (totalMeshes sx)
                      (sumProgress (meshLoadProgress sx') / inject_Z (totalMeshes sx))])
    /\ (ownEvents (meshIds n) events = true ->
        orderly [] events = true ->
        (forall id, In id (meshIds n) -> In id (completions events)) ->
        let s1 := applyURDF deserializeUrdfToRobot create urdfText vscode s in
        let s2 := run deserializeUrdfToRobot create s1 events in
        loadedMeshes s2 = Z.of_nat n
        /\ pendingMeshLoads s2 = 0%Z
        /\ exists earlier q,
             progressReports s2 = earlier ++ [mkReport (Z.of_nat n) (Z.of_nat n) q]
             /\ q == 100).
Proof.
  intros s urdfText vscode robot events He Hs Hcb Hd n Hn.
  split; [|split; [|split; [|split]]].
  - split; [reflexivity|]. intros m id value.
    unfold sumProgress, JS.Map.values. rewrite map_app, fold_left_app. reflexivity.
  - intros sx id event Hex Hcbx Htx. cbv zeta.
    destruct (onMeshLoadProgress_spec id event sx) as (_ & _ & _ & _ & _ & _ & _ & _ & E1 & E2).
    cbv zeta in E1, E2. rewrite E1, E2, Hcbx.
    assert (Hz : (totalMeshes sx =? 0)%Z = false) by (apply Z.eqb_neq; exact Htx).
    rewrite Hz. simpl. auto.
  - exact meshProgress_range.
  - intros sx id Hex Hcbx Htx. cbv zeta.
    destruct (onMeshLoadComplete_spec id sx) as (E1 & _ & _ & _ & _ & _ & _ & E2 & _).
    cbv zeta in E1, E2. destruct (E2 Hex) as (E3 & E4 & E5).
    assert (Hz : (totalMeshes sx =? 0)%Z = false) by (apply Z.eqb_neq; exact Htx).
    rewrite E1, E3, E4, E5, Hcbx, Hz, Map_get_set_same. simpl. auto.
  - intros Hown Hord Hall. cbv zeta.
    destruct (applyURDF_resolved_spec deserializeUrdfToRobot create urdfText vscode robot s
                Hs Hd)
      as (_ & _ & _ & _ & _ & _ & _ & A8 & _ & _ & A11 & A12 & A13 & _ & _ & _ & _ & A18 & _).
    cbv zeta in A8, A11, A12, A13, A18. destruct (A18 He) as (A19 & A20 & A21 & _).
    fold n in A13, A19, A21.
    set (s1 := applyURDF deserializeUrdfToRobot create urdfText vscode s) in *.
    assert (Hagg : aggregating (meshIds n) [] s1).
    { unfold aggregating. rewrite A8, A11, A19, A20, A21, He, Hcb, trackedProgress_keys.
      unfold meshIds. rewrite length_map, length_seq.
      repeat split. intros id []. }
    pose proof (run_aggregating deserializeUrdfToRobot create (meshIds n) events [] s1
                  Hown Hord Hagg) as Hfinal.
    rewrite app_nil_r in Hfinal.
    set (s2 := run deserializeUrdfToRobot create s1 events) in *.
    destruct Hfinal as (F1 & F2 & F3 & F4 & F5 & F6).
    destruct (orderly_completions events [] Hord) as [Hnd _].
    pose proof (ownEvents_completions (meshIds n) events Hown) as Hincl.
    assert (Hlen : List.length (completions events) = n).
    { apply Nat.le_antisymm.
      - replace n with (List.length (meshIds n))
          by (unfold meshIds; rewrite length_map, length_seq; reflexivity).
        apply NoDup_incl_length; assumption.
      - replace n with (List.length (meshIds n)) at 1
          by (unfold meshIds; rewrite length_map, length_seq; reflexivity).
        apply NoDup_incl_length; [apply meshIds_NoDup | exact Hall]. }
    assert (Hids : List.length (meshIds n) = n)
      by (unfold meshIds; rewrite length_map, length_seq; reflexivity).
    rewrite Hids in F3.
    rewrite length_rev, Hlen in F5.
    split; [exact F5|]. split.
    { unfold s2. rewrite (run_pending deserializeUrdfToRobot create events s1
                         (ownEvents_noApplyURDF (meshIds n) events Hown)).
      rewrite A13, Hlen. lia. }
    assert (Hne : events <> []).
    { intro E. rewrite E in Hlen. simpl in Hlen. lia. }
    assert (Ht1 : totalMeshes s1 <> 0%Z) by (rewrite A19; lia).
    destruct (run_last_report deserializeUrdfToRobot create (meshIds n) events s1 Hne Hown
                (eq_trans A8 He) (eq_trans A11 Hcb) Ht1) as (earlier & Hrep).
    cbv zeta in Hrep. fold s2 in Hrep. rewrite F5, F3 in Hrep.
    exists earlier, (sumProgress (meshLoadProgress s2) / inject_Z (Z.of_nat n)).
    split; [exact Hrep|].
    rewrite (all_done_sum (meshIds n) s2 (meshIds_NoDup n) F4).
    + rewrite Hids. field. intro E.
      assert (E' : inject_Z (Z.of_nat n) == inject_Z 0) by exact E.
      apply (proj1 (inject_Z_injective (Z.of_nat n) 0)) in E'. lia.
    + intros id Hin. apply F6. rewrite <- in_rev. exact (Hall id Hin).
Qed.

Lemma step_silent (s : RobotScene) (e : Event) :
  onProgressCallback s = false ->
  isSetLoadProgressCallback e = false ->
  let s' := step deserializeUrdfToRobot create s e in
  onProgressCallback s' = false /\ progressReports s' = progressReports s.
Proof.
  intros Hcb He. cbv zeta.
  destruct e as [urdfText vscode | hit | id event | id | | rebuilt | | pose]; simpl.
  - destruct (scene s) eqn:Hs.
    + destruct (deserializeUrdfToRobot urdfText) as [robot | message] eqn:Hd.
      * destruct (applyURDF_resolved_spec deserializeUrdfToRobot create urdfText vscode robot
                    s Hs Hd)
          as (_ & _ & _ & _ & _ & _ & _ & _ & _ & _ & A11 & _ & _ & _ & _ & _ & _ & A18 & A19).
        cbv zeta in A11, A18, A19. rewrite A11. split; [exact Hcb|].
        destruct (edition s) eqn:Ee.
        -- exact (A19 eq_refl).
        -- destruct (A18 eq_refl) as (_ & _ & _ & E). rewrite E, Hcb. apply app_nil_r.
      * destruct (applyURDF_rejected_spec deserializeUrdfToRobot create urdfText vscode
                    message s Hs Hd)
          as (_ & _ & _ & _ & _ & _ & _ & _ & A9 & A10 & _).
        cbv zeta in A9, A10. rewrite A9, A10. auto.
    + destruct (applyURDF_sceneless_spec deserializeUrdfToRobot create urdfText vscode s Hs)
        as (_ & _ & _ & _ & _ & _ & _ & A8 & A9).
      cbv zeta in A8, A9. rewrite A8, A9. auto.
  - destruct (loadFields_eq s _ (castRay_load hit s)) as (_ & _ & _ & _ & _ & E1 & _ & _ & _ & E2).
    rewrite E1, E2. auto.
  - destruct (edition s); [auto|].
    destruct (onMeshLoadProgress_spec id event s) as (_ & _ & _ & E1 & _ & _ & _ & _ & _ & E2).
    cbv zeta in E1, E2. rewrite E1, E2, Hcb. simpl. rewrite app_nil_r. auto.
  - destruct (onMeshLoadComplete_spec id s) as (_ & _ & _ & E1 & _ & _ & _ & E2 & E3).
    cbv zeta in E1, E2, E3. rewrite E1. split; [exact Hcb|].
    destruct (edition s) eqn:Ee.
    + destruct (E3 eq_refl) as (_ & _ & E). exact E.
    + destruct (E2 eq_refl) as (_ & _ & E). rewrite E, Hcb. simpl. apply app_nil_r.
  - destruct (timerFires_load s) as (_ & _ & _ & _ & E1 & _ & _ & _ & E2 & _).
    cbv zeta in E1, E2. rewrite E1, E2. auto.
  - destruct (loadFields_eq s _ (resetCamera_load rebuilt s)) as (_ & _ & _ & _ & _ & E1 & _ & _ & _ & E2).
    rewrite E1, E2. auto.
  - discriminate.
  - destruct (loadFields_eq s _ (cameraMoved_load pose s))
      as (_ & _ & _ & _ & _ & E1 & _ & _ & _ & E2).
    rewrite E1, E2. auto.
Qed.

Lemma run_silent (events : list Event) (s : RobotScene) :
  onProgressCallback s = false ->
  noSetLoadProgressCallback events = true ->
  progressReports (run deserializeUrdfToRobot create s events) = progressReports s.
Proof.
  unfold run, noSetLoadProgressCallback. revert s.
  induction events as [|e events IH]; intros s Hcb Hno; [reflexivity|].
  simpl in Hno. apply andb_true_iff in Hno. destruct Hno as [He Hno].
  apply negb_true_iff in He. cbn [fold_left].
  destruct (step_silent s e Hcb He) as [E1 E2]. cbv zeta in E1, E2.
  rewrite (IH _ E1 Hno). exact E2.
Qed.

(** The first report of a load whose continuation runs right after the
    call.  A successful [applyURDF] of the desktop edition then leaves
    [totalMeshes] at the number of Mesh-type visuals and calls the progress
    callback once, with [(0, totalMeshes, 0)], exactly when a callback is
    registered and [totalMeshes > 0]; otherwise it calls it not at all.  As
    long as no callback is registered, no event whatever produces a progress
    report. *)
Lemma initial_progress_report :
  forall (s : RobotScene) (urdfText : string) (vscode : bool) (robot : Robot.t)
         (events : list Event),
    edition s = Desktop ->
    scene s = true ->
    deserializeUrdfToRobot urdfText = Resolved robot ->
    let s' := applyURDF deserializeUrdfToRobot create urdfText vscode s in
    let n := Z.of_nat (List.length (meshVisuals robot)) in
    totalMeshes s' = n
    /\ progressReports s'
       = progressReports s
         ++ (if onProgressCallback s && (0 <? n)%Z then [mkReport 0 n 0] else [])
    /\ (onProgressCallback s = false ->
        noSetLoadProgressCallback events = true ->
        progressReports (run deserializeUrdfToRobot create s events) = progressReports s).
Proof.
  intros s urdfText vscode robot events He Hs Hd. cbv zeta.
  destruct (applyURDF_resolved_spec deserializeUrdfToRobot create urdfText vscode robot s
              Hs Hd)
    as (_ & _ & _ & _ & _ & _ & _ & _ & _ & _ & _ & _ & _ & _ & _ & _ & _ & A18 & _).
  cbv zeta in A18. destruct (A18 He) as (E1 & _ & _ & E2).
  split; [exact E1|]. split; [exact E2|].
  intros Hcb Hno. exact (run_silent events s Hcb Hno).
Qed.

(** C1, as amended.  When the parse fails inside [applyURDF] (on a scene),
    the robot loaded before is not kept: it has been disposed and detached
    before the parse, so after the error is reported - to the console, or to
    the host when one is given - [currentRobot] is undefined. *)
Theorem failed_load_leaves_no_robot :
  forall (s : RobotScene) (urdfText : string) (vscode : bool) (message : string),
    scene s = true ->
    deserializeUrdfToRobot urdfText = Rejected message ->
    let s' := applyURDF deserializeUrdfToRobot create urdfText vscode s in
    currentRobot (applyURDF_begin vscode s) = None
    /\ currentRobot s' = None
    /\ disposedRobots s' = disposedRobots s ++ disposedByApply s
    /\ consoleErrors s'
       = consoleErrors s
         ++ (if vscode then [] else [("Error loading urdf: " ++ message)%string])
    /\ posted s'
       = posted s ++ (if vscode then [("trace", "loading urdf"); ("error", message)]
                      else [])%string.
Proof.
  intros s urdfText vscode message Hs Hd. cbv zeta.
  destruct (applyURDF_rejected_spec deserializeUrdfToRobot create urdfText vscode message
              s Hs Hd)
    as (A1 & _ & A3 & _ & _ & _ & _ & _ & _ & _ & _ & _ & A13 & A14).
  cbv zeta in A1, A3, A13, A14.
  destruct (applyURDF_begin_spec vscode s) as (B1 & _).
  repeat split; assumption.
Qed.

(** A load whose continuation runs right after the call, made while a robot
    is loaded (desktop edition, on a scene): the call disposes that robot and
    detaches it from [currentRobot] before the parse, and the load starts
    from a reset aggregator: [totalMeshes] and [pendingMeshLoads] are the new
    robot's mesh count, [loadedMeshes] is 0, the progress map holds 0 for
    each new mesh and the framing latch is open.  The scene does not tell
    completion callbacks of the superseded robot from those of the new one:
    any completion callback that arrives decrements [pendingMeshLoads],
    increments [loadedMeshes] and sets its entry to 100. *)
Lemma reload_resets_aggregator :
  forall (s : RobotScene) (urdfText : string) (vscode : bool) (robot old : Robot.t)
         (oldId : nat) (id : string),
    edition s = Desktop ->
    scene s = true ->
    currentRobot s = Some (oldId, old) ->
    deserializeUrdfToRobot urdfText = Resolved robot ->
    let s0 := applyURDF_begin vscode s in
    let s' := applyURDF deserializeUrdfToRobot create urdfText vscode s in
    let n := List.length (meshVisuals robot) in
    (currentRobot s0 = None /\ disposedRobots s0 = disposedRobots s ++ [oldId])
    /\ currentRobot s' = Some (robotsAllocated s, create robot)
    /\ disposedRobots s' = disposedRobots s ++ [oldId]
    /\ totalMeshes s' = Z.of_nat n
    /\ loadedMeshes s' = 0%Z
    /\ pendingMeshLoads s' = Z.of_nat n
    /\ meshLoadProgress s' = List.map (fun k => (meshId k, 0)) (seq 0 n)
    /\ hasBeenFramed s' = false
    /\ (let s'' := onMeshLoadComplete id s' in
        pendingMeshLoads s'' = (Z.of_nat n - 1)%Z
        /\ loadedMeshes s'' = 1%Z
        /\ JS.Map.get (meshLoadProgress s'') id = Some 100).
Proof.
  intros s urdfText vscode robot old oldId id He Hs Hrob Hd. cbv zeta.
  destruct (applyURDF_begin_spec vscode s) as (B1 & B2 & _).
  cbv zeta in B1, B2. unfold disposedByApply in B2. rewrite Hrob in B2.
  destruct (applyURDF_resolved_spec deserializeUrdfToRobot create urdfText vscode robot s
              Hs Hd)
    as (A1 & _ & A3 & _ & _ & _ & _ & A8 & _ & _ & _ & A12 & A13 & _ & _ & _ & _ & A18 & _).
  cbv zeta in A1, A3, A8, A12, A13, A18. destruct (A18 He) as (E1 & E2 & E3 & _).
  unfold disposedByApply in A3. rewrite Hrob in A3.
  set (s' := applyURDF deserializeUrdfToRobot create urdfText vscode s) in *.
  destruct (onMeshLoadComplete_spec id s') as (C1 & _ & _ & _ & _ & _ & _ & C8 & _).
  cbv zeta in C1, C8. destruct (C8 (eq_trans A8 He)) as (C9 & C10 & _).
  rewrite C1, C9, C10, A13, E2, Map_get_set_same, <- trackedProgress_fresh.
  repeat split; assumption.
Qed.

End LoadingStatements.

(** ** Calls of [applyURDF] that overlap

    The resets of [applyURDF] run within the call, the count of the meshes
    and the assignment of [currentRobot] in the continuation.  When a second
    call is made while the first is suspended, both resets come first and
    both continuations after them. *)

(** C4.  The shell, which has one mesh, is applied twice with a progress
    callback registered, the second call being made while the first is
    suspended; then both meshes complete.  The continuations count one mesh
    each into [totalMeshes] and give both meshes the id "mesh_0", so the
    progress map has one entry: the reports are (0,1,0), (0,2,0), (1,2,50)
    and (2,2,50).  With every mesh complete the last report is not
    (2,2,100). *)
Theorem overlapped_loads_end_below_100 :
  let shell := "<robot name='shell'>"%string in
  let state :=
    Demo.runTasks Demo.listening
      [Call shell false; Call shell false; Settle shell false; Settle shell false;
       Happen (MeshLoadComplete "mesh_0"); Happen (MeshLoadComplete "mesh_0")] in
  onProgressCallback Demo.listening = true
  /\ List.length (meshVisuals Demo.shell) = 1%nat
  /\ snd state = []
  /\ (totalMeshes (fst state), loadedMeshes (fst state), pendingMeshLoads (fst state))
     = (2, 2, 0)%Z
  /\ meshLoadProgress (fst state) = [("mesh_0"%string, 100)]
  /\ progressReports (fst state)
     = [mkReport 0 1 0; mkReport 0 2 0; mkReport 1 2 (100 # 2); mkReport 2 2 (100 # 2)]
  /\ ~ 100 # 2 == 100.
Proof.
  vm_compute. repeat split; try reflexivity. discriminate.
Qed.

(** C5.  The shell is applied with a progress callback registered, and the
    pedestal, which has no Mesh-type visual, while that call is suspended.
    The continuation of the second call finds the mesh of the shell counted
    in [totalMeshes] and reports (0,1,0) for a robot without a mesh; applied
    on its own, the pedestal reports nothing. *)
Theorem overlapped_load_reports_foreign_total :
  let shell := "<robot name='shell'>"%string in
  let pedestal := "<robot name='pedestal'>"%string in
  let before :=
    Demo.runTasks Demo.listening
      [Call shell false; Call pedestal false; Settle shell false] in
  let after :=
    runTasks Demo.deserializeUrdfToRobot Demo.create before [Settle pedestal false] in
  let alone := Demo.runTasks Demo.listening [Call pedestal false; Settle pedestal false] in
  onProgressCallback Demo.listening = true
  /\ meshVisuals Demo.pedestal = []
  /\ snd before = [(pedestal, false)]
  /\ currentRobot (fst after) = Some (1%nat, Demo.create Demo.pedestal)
  /\ totalMeshes (fst after) = 1%Z
  /\ progressReports (fst after) = progressReports (fst before) ++ [mkReport 0 1 0]
  /\ totalMeshes (fst alone) = 0%Z
  /\ progressReports (fst alone) = progressReports Demo.listening.
Proof.
  vm_compute. repeat split; reflexivity.
Qed.

(** C6.  The shell is applied twice, the second call being made while the
    first load is in flight.  When the first call is still suspended, the
    second call finds no robot to dispose, the continuation of the first
    installs its robot afterwards, and the continuation of the second
    replaces that robot without disposing it and adds its mesh to the
    counters of the first.  When the first call has run its continuation and
    only its mesh is still loading, the second call disposes the robot and
    resets the counters, but the completion of the first robot's mesh then
    counts for the second: (1,1,100) is reported and the framing requested
    while the mesh of the second robot is still loading. *)
Theorem load_in_flight_not_superseded :
  let shell := "<robot name='shell'>"%string in
  let suspended :=
    Demo.runTasks Demo.listening
      [Call shell false; Call shell false; Settle shell false; Settle shell false] in
  let loading :=
    Demo.runTasks Demo.listening
      [Call shell false; Settle shell false; Call shell false; Settle shell false] in
  let stale := onMeshLoadComplete "mesh_0" (fst loading) in
  (robotsAllocated (fst suspended) = 2%nat
   /\ currentRobot (fst suspended) = Some (1%nat, Demo.create Demo.shell)
   /\ disposedRobots (fst suspended) = []
   /\ (totalMeshes (fst suspended), loadedMeshes (fst suspended),
       pendingMeshLoads (fst suspended)) = (2, 0, 2)%Z
   /\ meshLoadProgress (fst suspended) = [("mesh_0"%string, 0)])
  /\ (currentRobot (fst loading) = Some (1%nat, Demo.create Demo.shell)
      /\ disposedRobots (fst loading) = [0%nat]
      /\ (totalMeshes (fst loading), loadedMeshes (fst loading),
          pendingMeshLoads (fst loading)) = (1, 0, 1)%Z
      /\ (totalMeshes stale, loadedMeshes stale, pendingMeshLoads stale) = (1, 1, 0)%Z
      /\ progressReports stale = progressReports (fst loading) ++ [mkReport 1 1 100]
      /\ framingsRequested stale = S (framingsRequested (fst loading))).
Proof.
  vm_compute. repeat split; reflexivity.
Qed.

(** ** Camera reset *)

Lemma frameModel_frames (s : RobotScene) (cam : BABYLON.ArcRotateCamera) (robotId : nat)
  (robot : Robot.t) :
  scene s = true -> camera s = Some cam -> currentRobot s = Some (robotId, robot) ->
  robotMeshes robot <> [] ->
  let s' := frameModel s in
  let framed := framedCamera (edition s) (robotMeshes robot) in
  hasBeenFramed s' = true
  /\ camera s' = Some framed
  /\ savedFramingAlpha s' = BABYLON.alpha framed
  /\ savedFramingBeta s' = BABYLON.beta framed
  /\ savedFramingRadius s' = BABYLON.radius framed
  /\ savedFramingTarget s' = BABYLON.target framed.
Proof.
  intros Hs Hc Hrob Hms. cbv zeta. unfold frameModel. rewrite Hs, Hc, Hrob. simpl negb.
  cbv iota.
  destruct (robotMeshes robot) as [|m ms] eqn:E; [congruence|].
  simpl. repeat split; reflexivity.
Qed.

(** C7, as amended.  With a camera, [resetCamera] restores the saved
    auto-framed view (target, radius, alpha, beta) when the framing latch is
    set.  Otherwise it sets radius = 1 and target = the origin, and, when the
    target of the camera is the origin already, the default angles: beta =
    5*pi/12 and alpha = -pi/3 in the immersive edition but 2*pi/3 in the
    desktop edition; when the target was elsewhere, the angles are what the
    target setter of the library rebuilds, the assignments of the defaults
    having come before it.  The saved view is the one the last [frameModel]
    gave the camera, whatever the camera did since; a successful [applyURDF]
    opens the latch again. *)
Theorem resetCamera_view :
  forall (s : RobotScene) (cam pose rebuilt : BABYLON.ArcRotateCamera)
         (deserializeUrdfToRobot : string -> Deserialized) (create : Robot.t -> Robot.t)
         (urdfText : string) (vscode : bool),
    camera s = Some cam ->
    let origin := BABYLON.mkVector3 0 0 0 in
    let atOrigin :=
      Qeq_bool (BABYLON.x (BABYLON.target cam)) 0
      && Qeq_bool (BABYLON.y (BABYLON.target cam)) 0
      && Qeq_bool (BABYLON.z (BABYLON.target cam)) 0 in
    (hasBeenFramed s = true ->
     camera (resetCamera rebuilt s)
     = Some (BABYLON.mkArcRotateCamera (savedFramingAlpha s) (savedFramingBeta s)
               (savedFramingRadius s) (savedFramingTarget s)))
    /\ (hasBeenFramed s = false ->
        (exists alpha beta,
            camera (resetCamera rebuilt s)
            = Some (BABYLON.mkArcRotateCamera alpha beta 1 origin))
        /\ (atOrigin = true ->
            camera (resetCamera rebuilt s)
            = Some (BABYLON.mkArcRotateCamera (defaultAlpha (edition s))
                      (5 * JS.Math_PI / 12) 1 origin))
        /\ (atOrigin = false ->
            camera (resetCamera rebuilt s)
            = Some (BABYLON.mkArcRotateCamera (BABYLON.alpha rebuilt)
                      (BABYLON.beta rebuilt) 1 origin)))
    /\ defaultAlpha Immersive = - JS.Math_PI / 3
    /\ defaultAlpha Desktop = 2 * JS.Math_PI / 3
    /\ (forall robotId robot,
           scene s = true -> currentRobot s = Some (robotId, robot) ->
           robotMeshes robot <> [] ->
           hasBeenFramed (frameModel s) = true
           /\ camera (resetCamera rebuilt (cameraMoved pose (frameModel s)))
              = camera (frameModel s))
    /\ (forall robot,
           scene s = true -> deserializeUrdfToRobot urdfText = Resolved robot ->
           hasBeenFramed (applyURDF deserializeUrdfToRobot create urdfText vscode s) = false).
Proof.
  intros s cam pose rebuilt deserializeUrdfToRobot create urdfText vscode Hc origin atOrigin.
  split; [|split; [|split; [|split; [|split]]]]; try reflexivity.
  - intro Hf. unfold resetCamera. rewrite Hc, Hf. reflexivity.
  - intro Hf.
    assert (E : camera (resetCamera rebuilt s)
                = Some (if atOrigin
                        then BABYLON.mkArcRotateCamera (defaultAlpha (edition s))
                               (5 * JS.Math_PI / 12) 1 origin
                        else BABYLON.mkArcRotateCamera (BABYLON.alpha rebuilt)
                               (BABYLON.beta rebuilt) 1 origin)).
    { unfold resetCamera. rewrite Hc, Hf. cbv zeta.
      unfold BABYLON.set_target, BABYLON.Vector3_equals.
      cbn [BABYLON.target BABYLON.x BABYLON.y BABYLON.z].
      fold atOrigin. destruct atOrigin; reflexivity. }
    rewrite E. split; [|split].
    + destruct atOrigin; eexists; eexists; reflexivity.
    + intros ->. reflexivity.
    + intros ->. reflexivity.
  - intros robotId robot Hs Hrob Hms.
    destruct (frameModel_frames s cam robotId robot Hs Hc Hrob Hms)
      as (F1 & F2 & F3 & F4 & F5 & F6).
    cbv zeta in F1, F2, F3, F4, F5, F6.
    split; [exact F1|].
    set (s1 := frameModel s) in *.
    unfold cameraMoved. rewrite F2.
    unfold resetCamera. simpl. rewrite F1, F3, F4, F5, F6.
    destruct (framedCamera (edition s) (robotMeshes robot)). reflexivity.
  - intros robot Hs Hd.
    destruct (applyURDF_resolved_spec deserializeUrdfToRobot create urdfText vscode robot s
                Hs Hd)
      as (_ & _ & _ & _ & _ & _ & _ & _ & _ & _ & _ & A12 & _).
    exact A12.
Qed.

(** ** The kinematic tree *)

Lemma linkTable_keys (names : list string) (m : JS.Map.t unit) (name : string) :
  In name names -> In name (JS.Map.keys (fold_left (fun m n => JS.Map.set m n tt) names m)).
Proof.
  revert m. induction names as [|n names IH]; intros m Hin; [contradiction|].
  cbn [fold_left]. destruct Hin as [-> | Hin]; [|exact (IH _ Hin)].
  assert (Hkeep : forall l m', In name (JS.Map.keys m') ->
                               In name (JS.Map.keys
                                          (fold_left (fun m n => JS.Map.set m n tt) l m'))).
  { induction l as [|a l IHl]; intros m' H; [exact H|].
    cbn [fold_left]. apply IHl. apply Map_get_In.
    destruct (String.eqb a name) eqn:E.
    - apply String.eqb_eq in E. subst a. rewrite Map_get_set_same. discriminate.
    - apply String.eqb_neq in E. rewrite Map_get_set_other by congruence.
      apply Map_get_In. exact H. }
  apply Hkeep. apply Map_get_In. rewrite Map_get_set_same. discriminate.
Qed.

Lemma Map_set_values {V : Type} (m : JS.Map.t V) (k : string) (v w : V) :
  In w (JS.Map.values (JS.Map.set m k v)) -> w = v \/ In w (JS.Map.values m).
Proof.
  unfold JS.Map.values. induction m as [|[k0 v0] m IH]; simpl.
  - intros [H | []]. left. congruence.
  - destruct (String.eqb k0 k); simpl.
    + intros [H | H]; [left; congruence | right; right; exact H].
    + intros [H | H]; [right; left; exact H|].
      destruct (IH H) as [H' | H']; [left; exact H' | right; right; exact H'].
Qed.

Lemma jointTable_values (elements : list Builder.JointElement)
  (m : JS.Map.t Builder.JointElement) (j : Builder.JointElement) :
  In j (JS.Map.values
          (fold_left (fun m j => JS.Map.set m (Builder.jointName j) j) elements m)) ->
  In j elements \/ In j (JS.Map.values m).
Proof.
  revert m. induction elements as [|e elements IH]; intros m H; [right; exact H|].
  cbn [fold_left] in H. destruct (IH _ H) as [H' | H'].
  - left. right. exact H'.
  - destruct (Map_set_values m (Builder.jointName e) e j H') as [-> | H''].
    + left. left. reflexivity.
    + right. exact H''.
Qed.

Lemma parentOrphan_fold (links : JS.Map.t unit) (joints : JS.Map.t Builder.JointElement)
  (names : list string) (h : Builder.Hierarchy) (name : string) :
  Builder.isOrphan links joints name = true ->
  (In name names \/ h (Builder.LinkTransform name) = Some Builder.Root) ->
  fold_left (Builder.parentOrphan links joints) names h (Builder.LinkTransform name)
  = Some Builder.Root.
Proof.
  intro Horph. revert h. induction names as [|n names IH]; intros h H.
  - destruct H as [[] | H]. exact H.
  - cbn [fold_left]. apply IH.
    destruct (String.eqb name n) eqn:E.
    + right. apply String.eqb_eq in E. subst n.
      unfold Builder.parentOrphan. rewrite Horph. unfold Builder.setParent. simpl.
      rewrite String.eqb_refl. reflexivity.
    + destruct H as [[-> | H] | H].
      * rewrite String.eqb_refl in E. discriminate.
      * left. exact H.
      * right. unfold Builder.parentOrphan.
        destruct (Builder.isOrphan links joints n); [|exact H].
        unfold Builder.setParent. simpl. rewrite E. exact H.
Qed.

Lemma parentOrphan_root (links : JS.Map.t unit) (joints : JS.Map.t Builder.JointElement)
  (names : list string) (h : Builder.Hierarchy) :
  h Builder.Root = None ->
  fold_left (Builder.parentOrphan links joints) names h Builder.Root = None.
Proof.
  revert h. induction names as [|n names IH]; intros h H; [exact H|].
  cbn [fold_left]. apply IH. unfold Builder.parentOrphan.
  destruct (Builder.isOrphan links joints n); exact H.
Qed.

Lemma wireJoint_fold (links : JS.Map.t unit) (elements : list Builder.JointElement)
  (h : Builder.Hierarchy) (node : Builder.TransformNode) :
  (forall j, In j elements ->
             node <> Builder.JointTransform (Builder.jointName j)
             /\ node <> Builder.LinkTransform (Builder.childName j)) ->
  fold_left (Builder.wireJoint links) elements h node = h node.
Proof.
  revert h. induction elements as [|e elements IH]; intros h H; [reflexivity|].
  cbn [fold_left]. rewrite IH by (intros j Hj; apply H; right; exact Hj).
  destruct (H e (or_introl eq_refl)) as [H1 H2].
  unfold Builder.wireJoint, Builder.setParent.
  assert (E1 : Builder.TransformNode_eqb node (Builder.JointTransform (Builder.jointName e))
               = false).
  { destruct node; simpl; try reflexivity.
    destruct (String.eqb name (Builder.jointName e)) eqn:E; [|reflexivity].
    apply String.eqb_eq in E. congruence. }
  assert (E2 : Builder.TransformNode_eqb node (Builder.LinkTransform (Builder.childName e))
               = false).
  { destruct node; simpl; try reflexivity.
    destruct (String.eqb name (Builder.childName e)) eqn:E; [|reflexivity].
    apply String.eqb_eq in E. congruence. }
  destruct (Builder.resolves links (Builder.parentName e)); [|reflexivity].
  destruct (Builder.resolves links (Builder.childName e)); rewrite ?E2, E1; reflexivity.
Qed.

(** C9.  A built robot has the one synthetic root transform, which has no
    parent, and the transform of every link that no joint names as its child
    is parented directly to it; a document with two links and no joint yields
    both link transforms parented to the root and an empty joint table. *)
Theorem orphans_parented_to_root :
  forall (doc : Builder.Document) (robot : Builder.Robot) (a b : string),
    Builder.buildRobot doc = inl robot ->
    Builder.rootTransform robot = Builder.Root
    /\ Builder.parentOf robot Builder.Root = None
    /\ (forall name,
           In name (Builder.linkElements doc) ->
           (forall j, In j (Builder.jointElements doc) -> Builder.childName j <> name) ->
           Builder.parentOf robot (Builder.LinkTransform name) = Some Builder.Root)
    /\ exists two,
         Builder.buildRobot (Builder.mkDocument true [a; b] []) = inl two
         /\ Builder.parentOf two (Builder.LinkTransform a) = Some Builder.Root
         /\ Builder.parentOf two (Builder.LinkTransform b) = Some Builder.Root
         /\ Builder.joints two = [].
Proof.
  intros doc robot a b Hbuild.
  assert (Hgen : forall d r,
             Builder.buildRobot d = inl r ->
             Builder.rootTransform r = Builder.Root
             /\ Builder.parentOf r Builder.Root = None
             /\ Builder.joints r = Builder.jointTable d
             /\ (forall name,
                    In name (Builder.linkElements d) ->
                    (forall j, In j (Builder.jointElements d) -> Builder.childName j <> name) ->
                    Builder.parentOf r (Builder.LinkTransform name) = Some Builder.Root)).
  { intros d r H. unfold Builder.buildRobot in H.
    destruct (negb (Builder.hasRobotElement d)); [discriminate|].
    destruct (Builder.linkElements d) as [|l0 ls] eqn:El; [discriminate|].
    injection H as <-. cbn [Builder.rootTransform Builder.parentOf Builder.joints].
    split; [reflexivity|]. split; [|split; [reflexivity|]].
    - rewrite wireJoint_fold by (intros j _; split; discriminate).
      apply parentOrphan_root. reflexivity.
    - intros name Hin Hnochild.
      assert (Hvals : forall j, In j (JS.Map.values (Builder.jointTable d)) ->
                                Builder.childName j <> name).
      { intros j Hj. apply Hnochild. unfold Builder.jointTable in Hj.
        destruct (jointTable_values _ _ _ Hj) as [H | []]. exact H. }
      rewrite wireJoint_fold.
      + apply parentOrphan_fold.
        * unfold Builder.isOrphan. apply negb_true_iff.
          destruct (existsb _ _) eqn:E; [|reflexivity].
          apply existsb_exists in E. destruct E as (j & Hj & E).
          apply andb_true_iff in E. destruct E as [E _]. apply String.eqb_eq in E.
          exfalso. exact (Hvals j Hj E).
        * left. unfold Builder.linkTable. rewrite El. apply linkTable_keys. exact Hin.
      + intros j Hj. split; [discriminate|].
        intro E. injection E as E. exact (Hvals j Hj (eq_sym E)). }
  destruct (Hgen doc robot Hbuild) as (G1 & G2 & _ & G4).
  split; [exact G1|]. split; [exact G2|]. split; [exact G4|].
  destruct (Builder.buildRobot (Builder.mkDocument true [a; b] [])) as [two | err] eqn:E2.
  - exists two. destruct (Hgen _ two E2) as (_ & _ & T3 & T4).
    split; [reflexivity|].
    split; [apply T4; [left; reflexivity | intros j []]|].
    split; [apply T4; [right; left; reflexivity | intros j []]|].
    rewrite T3. reflexivity.
  - discriminate.
Qed.

(** * Worked scenarios

    The statements above at the robots of [Demo], and runs on which the
    scene departs from what one might expect. *)

Lemma Demo_joints_unique :
  forall urdfText robot,
    Demo.deserializeUrdfToRobot urdfText = Resolved robot ->
    NoDup (JS.Map.keys (Robot.joints (Demo.create robot))).
Proof.
  intros urdfText robot H. unfold Demo.deserializeUrdfToRobot in H.
  destruct (String.eqb urdfText _); [injection H as <-; vm_compute; constructor|].
  destruct (String.eqb urdfText _); [injection H as <-; vm_compute; constructor|].
  destruct (String.eqb urdfText _); [injection H as <-|discriminate].
  vm_compute.
  repeat (constructor; [simpl; intuition discriminate|]). constructor.
Qed.

Lemma Demo_armScene_reachable :
  reachable Demo.deserializeUrdfToRobot Demo.create Demo.armScene.
Proof.
  exact (@reachable_step Demo.deserializeUrdfToRobot Demo.create _
           (Demo.apply "<robot name='arm'>")
           (@reachable_created Demo.deserializeUrdfToRobot Demo.create Desktop)).
Qed.

(** ** Joint selection *)

(** The shoulder of the arm turns about z: a blue rotation gizmo.  Its rail
    slides along x: a green position gizmo. *)
Lemma dominant_axis_precedence_witness :
  Joint.transform Demo.shoulder = Some Demo.shoulderNode
  /\ axisBranch (Joint.axis Demo.shoulder) = BranchZ
  /\ planeRotationGizmo
       (addExerciseGizmoToJoint (0%nat, "shoulder"%string) Demo.shoulder Demo.armScene)
     = Some (JointRotationGizmo.mk (0%nat, "shoulder"%string) BABYLON.Blue (3 # 4)
               (Some 1%nat) true 1)
  /\ axisBranch (Joint.axis Demo.rail) = BranchX
  /\ planePositionGizmo
       (addExerciseGizmoToJoint (0%nat, "rail"%string) Demo.rail Demo.armScene)
     = Some (JointPositionGizmo.mk (0%nat, "rail"%string) BABYLON.Green (3 # 4)
               (Some 2%nat)).
Proof.
  pose proof (dominant_axis_precedence (0%nat, "shoulder"%string) Demo.shoulder
                Demo.shoulderNode Demo.armScene eq_refl) as H.
  cbv zeta in H. destruct H as (Hrot & _ & _ & Hz & _).
  pose proof (dominant_axis_precedence (0%nat, "rail"%string) Demo.rail
                (BABYLON.mkTransformNode 2 BABYLON.Vector3_Zero BABYLON.Vector3_Zero)
                Demo.armScene eq_refl) as H'.
  cbv zeta in H'. destruct H' as (_ & Hpos & _ & _ & Hx & _).
  split; [reflexivity|]. split.
  - apply Hz; vm_compute; [discriminate | reflexivity].
  - split; [destruct (Hrot (or_introl eq_refl)) as (G & _); exact G|].
    split.
    + apply Hx; vm_compute; discriminate.
    + destruct (Hpos eq_refl) as (G & _). exact G.
Defined.

(** The mount of the arm is fixed: one console line.  Its table is planar:
    the line and the notice, also when it is picked, and nothing else. *)
Lemma no_gizmo_for_fixed_planar_floating_witness :
  let notice :=
    "Joint table is using a planar joint, which is not yet supported for exercise gizmos. If you would like to see this, please open an issue on the GitHub repository."%string in
  Joint.transform Demo.mount <> None
  /\ addExerciseGizmoToJoint (0%nat, "mount"%string) Demo.mount Demo.armScene
     = set_console
         (console Demo.armScene ++ ["Creating gizmo for joint: mount, type: fixed"%string])
         Demo.armScene
  /\ addExerciseGizmoToJoint (0%nat, "table"%string) Demo.table Demo.armScene
     = set_console
         (console Demo.armScene
            ++ ["Creating gizmo for joint: table, type: planar"%string; notice])
         Demo.armScene
  /\ manipulation Demo.armScene = Idle
  /\ resolvedJoint (Some (Demo.meshUnder 3)) Demo.armScene = Some ("table"%string, Demo.table)
  /\ manipulation (castRay (Some (Demo.meshUnder 3)) Demo.armScene) = Idle
  /\ liveExerciseGizmos (castRay (Some (Demo.meshUnder 3)) Demo.armScene)
     = liveExerciseGizmos Demo.armScene
  /\ exists earlier,
       console (castRay (Some (Demo.meshUnder 3)) Demo.armScene)
       = console Demo.armScene ++ earlier ++ [notice].
Proof.
  cbv zeta.
  destruct (no_gizmo_for_fixed_planar_floating (0%nat, "mount"%string) Demo.mount
              (Some (Demo.meshUnder 3)) Demo.armScene) as (_ & Hmount & _).
  destruct (no_gizmo_for_fixed_planar_floating (0%nat, "table"%string) Demo.table
              (Some (Demo.meshUnder 3)) Demo.armScene)
    as (_ & Htable & _ & Hpick & Hnotice).
  cbv zeta in Hmount, Htable, Hnotice.
  assert (Hm : Joint.transform Demo.mount <> None) by (vm_compute; discriminate).
  assert (Ht : Joint.transform Demo.table <> None) by (vm_compute; discriminate).
  assert (Hres : resolvedJoint (Some (Demo.meshUnder 3)) Demo.armScene
                 = Some ("table"%string, Demo.table)) by (vm_compute; reflexivity).
  assert (Hcam : camera Demo.armScene <> None) by (vm_compute; discriminate).
  assert (Hhov : hoveredJoint Demo.armScene <> Some (0%nat, "table"%string))
    by (vm_compute; discriminate).
  split; [exact Hm|].
  split; [exact (proj1 (Hmount Hm) eq_refl)|].
  split; [exact (proj1 (proj2 (Htable Ht)) eq_refl)|].
  split; [reflexivity|]. split; [exact Hres|].
  assert (Hidle : manipulation (castRay (Some (Demo.meshUnder 3)) Demo.armScene) = Idle
                  /\ liveExerciseGizmos (castRay (Some (Demo.meshUnder 3)) Demo.armScene)
                     = liveExerciseGizmos Demo.armScene).
  { apply Hpick; [reflexivity|]. right.
    exists "table"%string, Demo.table. split; [exact Hres|]. left. reflexivity. }
  split; [exact (proj1 Hidle)|]. split; [exact (proj2 Hidle)|].
  exact (Hnotice 0%nat (Demo.create Demo.arm) "table"%string Demo.table "planar"%string
           eq_refl Hcam eq_refl Hres Hhov (or_introl (conj eq_refl eq_refl))).
Defined.

(** A pick on the upper arm attaches a gizmo, a pick on an unrelated mesh
    leaves none. *)
Lemma pick_attaches_gizmo_iff_movable_witness :
  reachable Demo.deserializeUrdfToRobot Demo.create Demo.armScene
  /\ scene Demo.armScene = true
  /\ gizmoAttached (castRay (Some (Demo.meshUnder 1)) Demo.armScene) = true
  /\ (liveExerciseGizmos (castRay (Some (Demo.meshUnder 1)) Demo.armScene) <= 1)%nat.
Proof.
  assert (Hcam : exists cam, camera Demo.armScene = Some cam)
    by (eexists; vm_compute; reflexivity).
  destruct Hcam as [cam Hcam].
  pose proof (pick_attaches_gizmo_iff_movable Demo.deserializeUrdfToRobot Demo.create
                Demo_joints_unique Demo.armScene (Demo.meshUnder 1) cam 0%nat
                (Demo.create Demo.arm) Demo_armScene_reachable eq_refl Hcam eq_refl) as H.
  cbv zeta in H. destruct H as (_ & Hiff & _ & Hle).
  split; [exact Demo_armScene_reachable|]. split; [reflexivity|]. split; [|exact Hle].
  apply (proj2 Hiff). eexists. eexists. split; [vm_compute; reflexivity|]. reflexivity.
Defined.

(** A pick on the tray of the arm resolves to the planar joint [table], which
    is not fixed, and attaches no gizmo. *)
Lemma planar_pick_attaches_nothing :
  let s := Demo.armScene in
  let hit := Some (Demo.meshUnder 3) in
  ~ (gizmoAttached (castRay hit s) = true <->
     exists key j, resolvedJoint hit s = Some (key, j) /\ Joint.type j <> Fixed).
Proof.
  cbv zeta. intros [_ H].
  assert (E : gizmoAttached (castRay (Some (Demo.meshUnder 3)) Demo.armScene) = false)
    by (vm_compute; reflexivity).
  rewrite E in H. enough (false = true) by discriminate. apply H.
  eexists. eexists. split; [vm_compute; reflexivity|]. vm_compute. discriminate.
Qed.

(** ** Loading *)

(** Loading a malformed text after the pedestal has been loaded: the pedestal
    is disposed and no robot is current. *)
Lemma failed_load_leaves_no_robot_witness :
  let s' := applyURDF Demo.deserializeUrdfToRobot Demo.create Demo.malformed false
              Demo.pedestalScene in
  scene Demo.pedestalScene = true
  /\ Demo.deserializeUrdfToRobot Demo.malformed = Rejected "No robot element found"
  /\ currentRobot s' = None
  /\ disposedRobots s' = disposedRobots Demo.pedestalScene ++ [0%nat].
Proof.
  pose proof (failed_load_leaves_no_robot Demo.deserializeUrdfToRobot Demo.create
                Demo.pedestalScene Demo.malformed false "No robot element found"
                eq_refl eq_refl) as H.
  cbv zeta in *. destruct H as (_ & Hcur & Hdisp & _).
  split; [reflexivity|]. split; [reflexivity|]. split; [exact Hcur|]. exact Hdisp.
Defined.

(** After the failed load the pedestal is no longer the current robot, and
    the error has gone to the console. *)
Lemma failed_load_clears_robot :
  let s := Demo.pedestalScene in
  let s' := applyURDF Demo.deserializeUrdfToRobot Demo.create Demo.malformed false s in
  Demo.deserializeUrdfToRobot Demo.malformed = Rejected "No robot element found"
  /\ (exists R, currentRobot s = Some R /\ currentRobot s' <> Some R)
  /\ consoleErrors s' = ["Error loading urdf: No robot element found"%string].
Proof.
  cbv zeta. split; [reflexivity|]. split.
  - eexists. split; [vm_compute; reflexivity|]. vm_compute. discriminate.
  - vm_compute. reflexivity.
Qed.



(** The shell with a listener: a progress event at one half, then the
    completion; the last report is (1, 1, 100). *)
Lemma progress_aggregation_witness :
  let s1 := applyURDF Demo.deserializeUrdfToRobot Demo.create "<robot name='shell'>" false
              Demo.listening in
  let s2 := run Demo.deserializeUrdfToRobot Demo.create s1
              [MeshLoadProgress "mesh_0" (BABYLON.mkProgressEvent true 50 100);
               MeshLoadComplete "mesh_0"] in
  onProgressCallback Demo.listening = true
  /\ loadedMeshes s2 = 1%Z
  /\ pendingMeshLoads s2 = 0%Z
  /\ exists earlier q, progressReports s2 = earlier ++ [mkReport 1 1 q] /\ q == 100.
Proof.
  pose proof (progress_aggregation Demo.deserializeUrdfToRobot Demo.create Demo.listening
                "<robot name='shell'>" false Demo.shell
                [MeshLoadProgress "mesh_0" (BABYLON.mkProgressEvent true 50 100);
                 MeshLoadComplete "mesh_0"]
                eq_refl eq_refl eq_refl eq_refl) as H.
  cbv zeta in *. split; [reflexivity|].
  apply (fun Hn => proj2 (proj2 (proj2 (proj2 (H Hn))))).
  - apply le_n.
  - reflexivity.
  - reflexivity.
  - intros id Hid. vm_compute in Hid. destruct Hid as [<- | []].
    vm_compute. left. reflexivity.
Defined.

(** With a listener the shell's load starts with the report (0, 1, 0);
    without one, loading and completing reports nothing. *)
Lemma initial_progress_report_witness :
  let s' := applyURDF Demo.deserializeUrdfToRobot Demo.create "<robot name='shell'>" false
              Demo.listening in
  edition Demo.listening = Desktop
  /\ totalMeshes s' = 1%Z
  /\ progressReports s' = progressReports Demo.listening ++ [mkReport 0 1 0]
  /\ progressReports
       (run Demo.deserializeUrdfToRobot Demo.create Demo.desktop
          [Demo.apply "<robot name='shell'>"; MeshLoadComplete "mesh_0"])
     = progressReports Demo.desktop.
Proof.
  pose proof (initial_progress_report Demo.deserializeUrdfToRobot Demo.create Demo.listening
                "<robot name='shell'>" false Demo.shell [] eq_refl eq_refl eq_refl) as H.
  pose proof (initial_progress_report Demo.deserializeUrdfToRobot Demo.create Demo.desktop
                "<robot name='shell'>" false Demo.shell
                [Demo.apply "<robot name='shell'>"; MeshLoadComplete "mesh_0"]
                eq_refl eq_refl eq_refl) as H0.
  cbv zeta in *. destruct H as (Htotal & Hfirst & _). destruct H0 as (_ & _ & Hsilent).
  split; [reflexivity|]. split; [exact Htotal|]. split; [exact Hfirst|].
  apply Hsilent; reflexivity.
Defined.

(** The shell is applied again while its first load is in flight. *)
Lemma reload_resets_aggregator_witness :
  let s' := applyURDF Demo.deserializeUrdfToRobot Demo.create "<robot name='shell'>" false
              Demo.shellScene in
  currentRobot Demo.shellScene = Some (0%nat, Demo.create Demo.shell)
  /\ disposedRobots s' = disposedRobots Demo.shellScene ++ [0%nat]
  /\ currentRobot s' = Some (1%nat, Demo.create Demo.shell)
  /\ pendingMeshLoads s' = 1%Z
  /\ loadedMeshes s' = 0%Z
  /\ pendingMeshLoads (onMeshLoadComplete "mesh_0" s') = 0%Z
  /\ loadedMeshes (onMeshLoadComplete "mesh_0" s') = 1%Z.
Proof.
  pose proof (reload_resets_aggregator Demo.deserializeUrdfToRobot Demo.create
                Demo.shellScene "<robot name='shell'>" false Demo.shell
                (Demo.create Demo.shell) 0%nat "mesh_0" eq_refl eq_refl eq_refl eq_refl)
    as H.
  cbv zeta in *.
  destruct H as (_ & Hcur & Hdisp & _ & Hloaded & Hpending & _ & _ & Hc1 & Hc2 & _).
  split; [reflexivity|]. split; [exact Hdisp|]. split; [exact Hcur|].
  split; [exact Hpending|]. split; [exact Hloaded|]. split; [exact Hc1|]. exact Hc2.
Defined.

(** The shell is loaded twice; the completion callback of the first load's
    mesh, arriving after the second [applyURDF], moves the counters of the
    second load. *)
Lemma stale_completion_counts :
  let s1 := Demo.shellScene in
  let s2 := Demo.run s1 [Demo.apply "<robot name='shell'>"] in
  let s3 := onMeshLoadComplete (meshId 0) s2 in
  pendingMeshLoads s1 = 1%Z
  /\ disposedRobots s2 = [0%nat]
  /\ (pendingMeshLoads s2 = 1%Z /\ loadedMeshes s2 = 0%Z)
  /\ (pendingMeshLoads s3 = 0%Z /\ loadedMeshes s3 = 1%Z)
  /\ (pendingMeshLoads s3, loadedMeshes s3) <> (pendingMeshLoads s2, loadedMeshes s2).
Proof.
  vm_compute. repeat split; try reflexivity. discriminate.
Qed.

(** ** Camera *)

(** The pedestal is framed, the user orbits away, and the reset brings the
    framed view back; before the framing, with the camera still looking at
    the origin, the reset gives the default view; after a pan it gives the
    origin, radius 1 and the angles that the target setter rebuilds. *)
Lemma resetCamera_view_witness :
  let panned := cameraMoved Demo.orbited Demo.desktop in
  (exists cam, camera Demo.pedestalScene = Some cam)
  /\ hasBeenFramed Demo.pedestalScene = false
  /\ camera (resetCamera Demo.orbited Demo.pedestalScene)
     = Some (BABYLON.mkArcRotateCamera (defaultAlpha Desktop) (5 * JS.Math_PI / 12) 1
               (BABYLON.mkVector3 0 0 0))
  /\ hasBeenFramed (frameModel Demo.pedestalScene) = true
  /\ camera
       (resetCamera Demo.orbited (cameraMoved Demo.orbited (frameModel Demo.pedestalScene)))
     = camera (frameModel Demo.pedestalScene)
  /\ camera panned = Some Demo.orbited
  /\ hasBeenFramed panned = false
  /\ camera (resetCamera Demo.orbited panned)
     = Some (BABYLON.mkArcRotateCamera 1 (1 # 2) 1 (BABYLON.mkVector3 0 0 0)).
Proof.
  cbv zeta.
  assert (Hcam : exists cam, camera Demo.pedestalScene = Some cam)
    by (eexists; vm_compute; reflexivity).
  split; [exact Hcam|].
  pose proof (resetCamera_view Demo.pedestalScene
                (BABYLON.mkArcRotateCamera (defaultAlpha Desktop) defaultBeta 1
                   BABYLON.Vector3_Zero)
                Demo.orbited Demo.orbited
                Demo.deserializeUrdfToRobot Demo.create "<robot name='pedestal'>" false
                eq_refl) as H.
  cbv zeta in H. destruct H as (_ & Hdefault & _ & _ & Hframed & _).
  pose proof (resetCamera_view (cameraMoved Demo.orbited Demo.desktop) Demo.orbited
                Demo.orbited Demo.orbited
                Demo.deserializeUrdfToRobot Demo.create "<robot name='pedestal'>" false
                eq_refl) as H'.
  cbv zeta in H'. destruct H' as (_ & Hpanned & _).
  split; [reflexivity|]. split; [exact (proj1 (proj2 (Hdefault eq_refl)) eq_refl)|].
  split; [|split; [|split; [reflexivity|split; [reflexivity|]]]].
  - apply (Hframed 0%nat (Demo.create Demo.pedestal)); [reflexivity | reflexivity |].
    vm_compute. discriminate.
  - apply (Hframed 0%nat (Demo.create Demo.pedestal)); [reflexivity | reflexivity |].
    vm_compute. discriminate.
  - exact (proj2 (proj2 (Hpanned eq_refl)) eq_refl).
Defined.

(** In the desktop edition the default view has alpha = 2*pi/3, not -pi/3. *)
Lemma desktop_default_alpha :
  hasBeenFramed Demo.desktop = false
  /\ exists cam,
       camera (resetCamera Demo.orbited Demo.desktop) = Some cam
       /\ BABYLON.target cam = BABYLON.mkVector3 0 0 0
       /\ BABYLON.alpha cam == 2 * JS.Math_PI / 3
       /\ ~ BABYLON.alpha cam == - JS.Math_PI / 3.
Proof.
  split; [reflexivity|]. eexists. split; [vm_compute; reflexivity|].
  split; [reflexivity|].
  split; [vm_compute; reflexivity|]. vm_compute. discriminate.
Qed.

(** ** The kinematic tree *)

(** The gripper: the palm and the camera are parented to the root. *)
Lemma orphans_parented_to_root_witness :
  exists robot,
    Builder.buildRobot Builder.gripper = inl robot
    /\ Builder.parentOf robot (Builder.LinkTransform "palm") = Some Builder.Root
    /\ Builder.parentOf robot (Builder.LinkTransform "camera") = Some Builder.Root
    /\ Builder.parentOf robot Builder.Root = None.
Proof.
  destruct (Builder.buildRobot Builder.gripper) as [robot | err] eqn:E;
    [|vm_compute in E; discriminate E].
  exists robot. split; [reflexivity|].
  destruct (orphans_parented_to_root Builder.gripper robot "a" "b" E) as (_ & R2 & R3 & _).
  split; [|split; [|exact R2]].
  - apply R3; [left; reflexivity|]. intros j [<- | []]. discriminate.
  - apply R3; [right; right; left; reflexivity|]. intros j [<- | []]. discriminate.
Defined.

(** * Properties of the further parts *)

(** ** The view cube *)

Lemma ltb_true_iff (a b : Q) : JS.ltb a b = true <-> a < b.
Proof. exact (gtb_true_iff b a). Qed.

Lemma ltb_false_iff (a b : Q) : JS.ltb a b = false <-> b <= a.
Proof. exact (gtb_false_iff b a). Qed.

Ltac compare_numbers :=
  repeat match goal with
         | H : JS.ltb _ _ = true |- _ => apply ltb_true_iff in H
         | H : JS.ltb _ _ = false |- _ => apply ltb_false_iff in H
         | H : JS.gtb _ _ = true |- _ => apply gtb_true_iff in H
         | H : JS.gtb _ _ = false |- _ => apply gtb_false_iff in H
         end.

Lemma square_nonneg (x : Q) : 0 <= x * x.
Proof. nra. Qed.

Lemma cube_le (t u : Q) : t <= u -> t * t * t <= u * u * u.
Proof.
  intro H.
  pose proof (square_nonneg (u + t)) as H1.
  pose proof (square_nonneg u) as H2.
  pose proof (square_nonneg t) as H3.
  assert (H4 : 0 <= u * u + u * t + t * t).
  { assert (E : u * u + u * t + t * t == ((u + t) * (u + t) + u * u + t * t) / 2) by field.
    rewrite E. apply Qle_shift_div_l; lra. }
  assert (H5 : 0 <= (u - t) * (u * u + u * t + t * t))
    by (apply Qmult_le_0_compat; [lra | exact H4]).
  assert (E : u * u * u - t * t * t == (u - t) * (u * u + u * t + t * t)) by ring.
  lra.
Qed.

Lemma Qpower_3 (x : Q) : Qpower x 3 == x * x * x.
Proof. simpl. ring. Qed.

(** X1.  The easing curve of the camera animation starts at 0 and ends at 1,
    is symmetric about the midpoint, never decreases, and stays within
    [0, 1] on [0, 1]. *)
Theorem easeInOutCubic_curve :
  forall t u : Q,
    ViewCubeGizmo.easeInOutCubic 0 == 0
    /\ ViewCubeGizmo.easeInOutCubic 1 == 1
    /\ ViewCubeGizmo.easeInOutCubic (1 - t) == 1 - ViewCubeGizmo.easeInOutCubic t
    /\ (t <= u -> ViewCubeGizmo.easeInOutCubic t <= ViewCubeGizmo.easeInOutCubic u)
    /\ (0 <= t -> t <= 1 ->
        0 <= ViewCubeGizmo.easeInOutCubic t /\ ViewCubeGizmo.easeInOutCubic t <= 1)
    /\ ViewCubeGrid.easeInOutCubic t = ViewCubeGizmo.easeInOutCubic t.
Proof.
  intros t u.
  assert (Hmono : forall a b, a <= b ->
                    ViewCubeGizmo.easeInOutCubic a <= ViewCubeGizmo.easeInOutCubic b).
  { intros a b Hab. unfold ViewCubeGizmo.easeInOutCubic.
    pose proof (cube_le a b Hab) as Hc.
    pose proof (cube_le (- (2) * b + 2) (- (2) * a + 2)) as Hd.
    destruct (JS.ltb a (1 # 2)) eqn:Ea; destruct (JS.ltb b (1 # 2)) eqn:Eb;
      compare_numbers; rewrite ?Qpower_3.
    - nra.
    - pose proof (cube_le a (1 # 2)) as H1.
      pose proof (cube_le (- (2) * b + 2) 1) as H2.
      assert (H1' : a * a * a <= (1 # 2) * (1 # 2) * (1 # 2)) by (apply H1; lra).
      assert (H2' : (- (2) * b + 2) * (- (2) * b + 2) * (- (2) * b + 2) <= 1 * 1 * 1)
        by (apply H2; lra).
      unfold Qdiv. change (/ 2) with (1 # 2). lra.
    - lra.
    - assert (Hd' : (- (2) * b + 2) * (- (2) * b + 2) * (- (2) * b + 2)
                    <= (- (2) * a + 2) * (- (2) * a + 2) * (- (2) * a + 2))
        by (apply Hd; lra).
      unfold Qdiv. change (/ 2) with (1 # 2). lra. }
  assert (H0 : ViewCubeGizmo.easeInOutCubic 0 == 0) by (vm_compute; reflexivity).
  assert (H1 : ViewCubeGizmo.easeInOutCubic 1 == 1) by (vm_compute; reflexivity).
  split; [exact H0|]. split; [exact H1|]. split; [|split; [|split]].
  - unfold ViewCubeGizmo.easeInOutCubic.
    destruct (JS.ltb (1 - t) (1 # 2)) eqn:Ea; destruct (JS.ltb t (1 # 2)) eqn:Eb;
      compare_numbers; rewrite ?Qpower_3.
    + lra.
    + field.
    + field.
    + assert (E : t == 1 # 2) by lra. rewrite E. vm_compute. reflexivity.
  - apply Hmono.
  - intros Ht0 Ht1. split.
    + rewrite <- H0. apply Hmono. exact Ht0.
    + rewrite <- H1. apply Hmono. exact Ht1.
  - reflexivity.
Qed.

Section ViewCubeAnimation.

Import ViewCubeGizmo.

Lemma requestAnimationFrames_spec
  (moves : nat -> BABYLON.ArcRotateCamera -> BABYLON.ArcRotateCamera) (n : nat) :
  forall a camera,
    inFlight a camera ->
    exists a' camera',
      requestAnimationFrames n moves (a, camera, (frame a <? 30)%Z)
      = (a', camera', (frame a' <? 30)%Z)
      /\ inFlight a' camera'
      /\ frame a' = Z.min 30 (frame a + Z.of_nat n)
      /\ startAlpha a' = startAlpha a /\ targetAlpha a' = targetAlpha a
      /\ startBeta a' = startBeta a /\ targetBeta a' = targetBeta a.
Proof.
  induction n as [|k IH]; intros a camera (Hcount & Hframe & Halpha & Hbeta).
  - exists a, camera. cbn [requestAnimationFrames].
    split; [reflexivity|]. split; [exact (conj Hcount (conj Hframe (conj Halpha Hbeta)))|].
    split; [lia|]. repeat split.
  - cbn [requestAnimationFrames].
    destruct (frame a <? 30)%Z eqn:E.
    + apply Z.ltb_lt in E.
      destruct (IH (mkAnimation (frame a + 1) (frameCount a) (startAlpha a) (startBeta a)
                      (targetAlpha a) (targetBeta a))
                  (BABYLON.mkArcRotateCamera
                     (startAlpha a
                      + (targetAlpha a - startAlpha a)
                        * easeInOutCubic (inject_Z (frame a + 1) / inject_Z (frameCount a)))
                     (startBeta a
                      + (targetBeta a - startBeta a)
                        * easeInOutCubic (inject_Z (frame a + 1) / inject_Z (frameCount a)))
                     (BABYLON.radius (moves k camera)) (BABYLON.target (moves k camera))))
        as (a' & camera' & Hrun & Hin & Hf & Hrest).
      { unfold inFlight.
        cbn [frame frameCount startAlpha startBeta targetAlpha targetBeta
               BABYLON.alpha BABYLON.beta].
        rewrite Hcount. split; [reflexivity|]. split; [lia|]. split; reflexivity. }
      exists a', camera'.
      cbn [frame frameCount startAlpha startBeta targetAlpha targetBeta] in Hrun, Hf, Hrest.
      unfold animation. rewrite Hcount in *. rewrite Hrun.
      split; [reflexivity|]. split; [exact Hin|]. split; [lia | exact Hrest].
    + apply Z.ltb_ge in E. exists a, camera.
      assert (E' : (frame a <? 30)%Z = false) by (apply Z.ltb_ge; exact E).
      rewrite E'. split; [reflexivity|].
      split; [exact (conj Hcount (conj Hframe (conj Halpha Hbeta)))|].
      split; [lia|]. repeat split.
Qed.

End ViewCubeAnimation.

(** X2.  Turning the camera to a face of the view cube takes the frame run
    within the call and 29 more: until then every frame asks for the next,
    the 30th asks for none and leaves the camera's alpha and beta at the
    face's orientation - whatever the user did to the camera between the
    frames - and a frame the browser might still run changes nothing. *)
Theorem rotateCameraToFace_reaches_face :
  forall (face : string) (alpha beta : Q) (camera : BABYLON.ArcRotateCamera)
         (moves : nat -> BABYLON.ArcRotateCamera -> BABYLON.ArcRotateCamera),
    ViewCubeGizmo.lookup ViewCubeGizmo.FACE_ORIENTATIONS face = Some (alpha, beta) ->
    exists first,
      ViewCubeGizmo.rotateCameraToFace face camera = Some first
      /\ (forall n, (n < 29)%nat ->
                    snd (ViewCubeGizmo.requestAnimationFrames n moves first) = true)
      /\ (forall n, (29 <= n)%nat ->
                    exists a camera',
                      ViewCubeGizmo.requestAnimationFrames n moves first
                      = (a, camera', false)
                      /\ ViewCubeGizmo.frame a = 30%Z
                      /\ BABYLON.alpha camera' == alpha
                      /\ BABYLON.beta camera' == beta).
Proof.
  intros face alpha beta camera moves Hface.
  unfold ViewCubeGizmo.rotateCameraToFace. rewrite Hface.
  eexists. split; [reflexivity|].
  unfold ViewCubeGizmo.animation.
  cbn [ViewCubeGizmo.frame ViewCubeGizmo.frameCount ViewCubeGizmo.startAlpha
         ViewCubeGizmo.startBeta ViewCubeGizmo.targetAlpha ViewCubeGizmo.targetBeta].
  set (a1 := ViewCubeGizmo.mkAnimation (0 + 1) 30 (BABYLON.alpha camera)
               (BABYLON.beta camera) alpha beta).
  set (camera1 := BABYLON.mkArcRotateCamera _ _ _ _).
  assert (Hin : ViewCubeGizmo.inFlight a1 camera1).
  { unfold ViewCubeGizmo.inFlight, a1, camera1.
    cbn [ViewCubeGizmo.frame ViewCubeGizmo.frameCount ViewCubeGizmo.startAlpha
           ViewCubeGizmo.startBeta ViewCubeGizmo.targetAlpha ViewCubeGizmo.targetBeta
           BABYLON.alpha BABYLON.beta].
    split; [reflexivity|]. split; [lia|]. split; reflexivity. }
  change ((0 + 1 <? 30)%Z) with ((ViewCubeGizmo.frame a1 <? 30)%Z).
  split.
  - intros n Hn.
    destruct (requestAnimationFrames_spec moves n a1 camera1 Hin)
      as (a' & camera' & Hrun & _ & Hf & _).
    rewrite Hrun. cbn [snd]. apply Z.ltb_lt. rewrite Hf. unfold a1.
    cbn [ViewCubeGizmo.frame]. lia.
  - intros n Hn.
    destruct (requestAnimationFrames_spec moves n a1 camera1 Hin)
      as (a' & camera' & Hrun & Hin' & Hf & Hsa & Hta & Hsb & Htb).
    assert (Hf' : ViewCubeGizmo.frame a' = 30%Z).
    { rewrite Hf. unfold a1. cbn [ViewCubeGizmo.frame]. lia. }
    exists a', camera'. rewrite Hrun, Hf'. split; [reflexivity|]. split; [reflexivity|].
    destruct Hin' as (_ & _ & Halpha & Hbeta).
    rewrite Hf', Hsa, Hta in Halpha. rewrite Hf', Hsb, Htb in Hbeta.
    assert (E : ViewCubeGizmo.easeInOutCubic (inject_Z 30 / inject_Z 30) == 1)
      by (vm_compute; reflexivity).
    rewrite E in Halpha, Hbeta. unfold a1 in Halpha, Hbeta.
    cbn [ViewCubeGizmo.startAlpha ViewCubeGizmo.startBeta ViewCubeGizmo.targetAlpha
           ViewCubeGizmo.targetBeta] in Halpha, Hbeta.
    split; [rewrite Halpha | rewrite Hbeta]; ring.
Qed.

Lemma ltb_wd (a a' b b' : Q) : a == a' -> b == b' -> JS.ltb a b = JS.ltb a' b'.
Proof. intros Ha Hb. unfold JS.ltb. rewrite Ha, Hb. reflexivity. Qed.

Lemma closer_wd (a a' b b' : Q) (acc acc' : string * Q) (entry : string * (Q * Q)) :
  a == a' -> b == b' -> fst acc = fst acc' -> snd acc == snd acc' ->
  fst (ViewCubeGizmo.closer a b acc entry) = fst (ViewCubeGizmo.closer a' b' acc' entry)
  /\ snd (ViewCubeGizmo.closer a b acc entry)
     == snd (ViewCubeGizmo.closer a' b' acc' entry).
Proof.
  intros Ha Hb Hf Hs. destruct entry as [face [alpha beta]]. unfold ViewCubeGizmo.closer.
  assert (Hd : JS.Math_abs (alpha - a) + JS.Math_abs (beta - b)
               == JS.Math_abs (alpha - a') + JS.Math_abs (beta - b')).
  { unfold JS.Math_abs. rewrite Ha, Hb. reflexivity. }
  rewrite (ltb_wd _ _ _ _ Hd Hs).
  destruct (JS.ltb _ _); cbn [fst snd]; split; assumption || reflexivity.
Qed.

Lemma closer_fold_wd (a a' b b' : Q) (entries : list (string * (Q * Q))) :
  a == a' -> b == b' ->
  forall acc acc',
    fst acc = fst acc' -> snd acc == snd acc' ->
    fst (fold_left (ViewCubeGizmo.closer a b) entries acc)
    = fst (fold_left (ViewCubeGizmo.closer a' b') entries acc').
Proof.
  intros Ha Hb. induction entries as [|e entries IH]; intros acc acc' Hf Hs.
  - exact Hf.
  - cbn [fold_left].
    destruct (closer_wd a a' b b' acc acc' e Ha Hb Hf Hs) as [H1 H2].
    exact (IH _ _ H1 H2).
Qed.

Lemma closer_fold_in (a b : Q) (entries : list (string * (Q * Q))) :
  forall acc,
    fst (fold_left (ViewCubeGizmo.closer a b) entries acc) = fst acc
    \/ In (fst (fold_left (ViewCubeGizmo.closer a b) entries acc)) (List.map fst entries).
Proof.
  induction entries as [|e entries IH]; intro acc.
  - left. reflexivity.
  - cbn [fold_left List.map]. destruct (IH (ViewCubeGizmo.closer a b acc e)) as [H | H].
    + rewrite H. destruct e as [face [alpha beta]]. unfold ViewCubeGizmo.closer.
      destruct (JS.ltb _ _); cbn [fst]; [right; left; reflexivity | left; reflexivity].
    + right. right. exact H.
Qed.

(** X3.  A click on the view cube never fails and does not depend on where
    the cube was hit: it turns the camera to the face that follows, in the
    order front, back, right, left, top, bottom and round again, the face
    whose orientation is closest to the camera's.  When the camera is at a
    face's orientation, that face is the closest one, so clicking goes round
    the six faces. *)
Theorem handleCubeClick_turns_to_next_face :
  forall (x y : Q) (camera : BABYLON.ArcRotateCamera),
    let faceKeys := List.map fst ViewCubeGizmo.FACE_ORIENTATIONS in
    let closest :=
      ViewCubeGizmo.closestFace (BABYLON.alpha camera) (BABYLON.beta camera) in
    (exists i next,
        nth_error faceKeys i = Some closest
        /\ nth_error faceKeys ((i + 1) mod 6) = Some next
        /\ next <> closest
        /\ ViewCubeGizmo.handleCubeClick x y camera
           = ViewCubeGizmo.rotateCameraToFace next camera
        /\ ViewCubeGizmo.handleCubeClick x y camera <> None)
    /\ (forall i face alpha beta,
           nth_error ViewCubeGizmo.FACE_ORIENTATIONS i = Some (face, (alpha, beta)) ->
           BABYLON.alpha camera == alpha -> BABYLON.beta camera == beta ->
           closest = face).
Proof.
  intros x y camera faceKeys closest. split.
  - assert (Hin : In closest faceKeys).
    { unfold closest, ViewCubeGizmo.closestFace.
      destruct (closer_fold_in (BABYLON.alpha camera) (BABYLON.beta camera)
                  ViewCubeGizmo.FACE_ORIENTATIONS ("front"%string, JS.Number_MAX_VALUE))
        as [H | H].
      - rewrite H. left. reflexivity.
      - exact H. }
    assert (Hclick : forall i next,
               nth_error faceKeys i = Some closest ->
               nth_error faceKeys ((i + 1) mod 6) = Some next ->
               ViewCubeGizmo.indexOf faceKeys closest = Z.of_nat i ->
               ViewCubeGizmo.lookup ViewCubeGizmo.FACE_ORIENTATIONS next <> None ->
               ViewCubeGizmo.handleCubeClick x y camera
               = ViewCubeGizmo.rotateCameraToFace next camera
               /\ ViewCubeGizmo.handleCubeClick x y camera <> None).
    { intros i next Hi Hnext Hindex Hknown.
      assert (Hface : ViewCubeGizmo.nextFace (BABYLON.alpha camera) (BABYLON.beta camera)
                      = Some next).
      { unfold ViewCubeGizmo.nextFace. fold faceKeys. fold closest. rewrite Hindex.
        assert (Hi6 : (i < 6)%nat).
        { change 6%nat with (List.length faceKeys). apply nth_error_Some.
          rewrite Hi. discriminate. }
        change (List.length faceKeys) with 6%nat.
        rewrite Z.rem_mod_nonneg by lia.
        assert (E : ((Z.of_nat i + 1) mod Z.of_nat 6)%Z = Z.of_nat ((i + 1) mod 6)).
        { rewrite Nat2Z.inj_mod. f_equal. lia. }
        rewrite E.
        assert (E' : (Z.of_nat ((i + 1) mod 6) <? 0)%Z = false) by (apply Z.ltb_ge; lia).
        rewrite E', Nat2Z.id. exact Hnext. }
      unfold ViewCubeGizmo.handleCubeClick. rewrite Hface. split; [reflexivity|].
      unfold ViewCubeGizmo.rotateCameraToFace.
      destruct (ViewCubeGizmo.lookup ViewCubeGizmo.FACE_ORIENTATIONS next) as [[al be]|];
        [discriminate | contradiction]. }
    fold closest in Hclick.
    unfold faceKeys in Hin. cbn [List.map fst ViewCubeGizmo.FACE_ORIENTATIONS] in Hin.
    destruct Hin as [H | [H | [H | [H | [H | [H | []]]]]]].
    + exists 0%nat, "back"%string. rewrite <- H in *.
      refine (conj eq_refl (conj eq_refl (conj _ (Hclick 0%nat _ eq_refl eq_refl eq_refl _))));
        discriminate.
    + exists 1%nat, "right"%string. rewrite <- H in *.
      refine (conj eq_refl (conj eq_refl (conj _ (Hclick 1%nat _ eq_refl eq_refl eq_refl _))));
        discriminate.
    + exists 2%nat, "left"%string. rewrite <- H in *.
      refine (conj eq_refl (conj eq_refl (conj _ (Hclick 2%nat _ eq_refl eq_refl eq_refl _))));
        discriminate.
    + exists 3%nat, "top"%string. rewrite <- H in *.
      refine (conj eq_refl (conj eq_refl (conj _ (Hclick 3%nat _ eq_refl eq_refl eq_refl _))));
        discriminate.
    + exists 4%nat, "bottom"%string. rewrite <- H in *.
      refine (conj eq_refl (conj eq_refl (conj _ (Hclick 4%nat _ eq_refl eq_refl eq_refl _))));
        discriminate.
    + exists 5%nat, "front"%string. rewrite <- H in *.
      refine (conj eq_refl (conj eq_refl (conj _ (Hclick 5%nat _ eq_refl eq_refl eq_refl _))));
        discriminate.
  - intros i face alpha beta Hi Ha Hb. unfold closest, ViewCubeGizmo.closestFace.
    rewrite (closer_fold_wd _ alpha _ beta ViewCubeGizmo.FACE_ORIENTATIONS Ha Hb
               ("front"%string, JS.Number_MAX_VALUE) ("front"%string, JS.Number_MAX_VALUE)
               eq_refl (Qeq_refl _)).
    do 6 (destruct i as [|i];
          [injection Hi as <- <- <-; vm_compute; reflexivity|]).
    destruct i; discriminate Hi.
Qed.

(** ** The view cube with face buttons *)

Lemma Math_PI_pos : 0 < JS.Math_PI.
Proof. reflexivity. Qed.

Lemma inject_Z_succ (n : nat) : inject_Z (Z.of_nat (S n)) == inject_Z (Z.of_nat n) + 1.
Proof. rewrite Nat2Z.inj_succ. unfold Z.succ. rewrite inject_Z_plus. reflexivity. Qed.

Lemma whileAbove_fixed (fuel : nat) (angle : Q) :
  angle <= JS.Math_PI -> ViewCubeGrid.whileAbove fuel angle = angle.
Proof.
  intro H. destruct fuel as [|k]; [reflexivity|]. cbn [ViewCubeGrid.whileAbove].
  apply gtb_false_iff in H. rewrite H. reflexivity.
Qed.

Lemma whileBelow_fixed (fuel : nat) (angle : Q) :
  - JS.Math_PI <= angle -> ViewCubeGrid.whileBelow fuel angle = angle.
Proof.
  intro H. destruct fuel as [|k]; [reflexivity|]. cbn [ViewCubeGrid.whileBelow].
  apply ltb_false_iff in H. rewrite H. reflexivity.
Qed.

Lemma whileAbove_spec (fuel : nat) :
  forall angle,
    angle <= JS.Math_PI + inject_Z (Z.of_nat fuel) * (2 * JS.Math_PI) ->
    let r := ViewCubeGrid.whileAbove fuel angle in
    r <= JS.Math_PI
    /\ (r = angle \/ - JS.Math_PI < r)
    /\ exists k : Z, r == angle + inject_Z k * (2 * JS.Math_PI).
Proof.
  pose proof Math_PI_pos as Hpi.
  induction fuel as [|k IH]; intros angle H; cbv zeta.
  - cbn [ViewCubeGrid.whileAbove]. change (inject_Z (Z.of_nat 0)) with 0 in H.
    split; [lra|]. split; [left; reflexivity|]. exists 0%Z. change (inject_Z 0) with 0. ring.
  - cbn [ViewCubeGrid.whileAbove]. destruct (JS.gtb angle JS.Math_PI) eqn:E.
    + apply gtb_true_iff in E. rewrite inject_Z_succ in H.
      destruct (IH (angle - 2 * JS.Math_PI)) as (H1 & H2 & k' & H3); [lra|].
      cbv zeta in H1, H2, H3. split; [exact H1|]. split.
      * right. destruct H2 as [H2 | H2]; [rewrite H2; lra | exact H2].
      * exists (k' - 1)%Z. rewrite H3. unfold Z.sub. rewrite inject_Z_plus.
        change (inject_Z (- (1))) with (- (1)). ring.
    + apply gtb_false_iff in E. split; [exact E|]. split; [left; reflexivity|].
      exists 0%Z. change (inject_Z 0) with 0. ring.
Qed.

Lemma whileBelow_spec (fuel : nat) :
  forall angle,
    - JS.Math_PI - inject_Z (Z.of_nat fuel) * (2 * JS.Math_PI) <= angle ->
    let r := ViewCubeGrid.whileBelow fuel angle in
    - JS.Math_PI <= r
    /\ (r = angle \/ r < JS.Math_PI)
    /\ exists k : Z, r == angle + inject_Z k * (2 * JS.Math_PI).
Proof.
  pose proof Math_PI_pos as Hpi.
  induction fuel as [|k IH]; intros angle H; cbv zeta.
  - cbn [ViewCubeGrid.whileBelow]. change (inject_Z (Z.of_nat 0)) with 0 in H.
    split; [lra|]. split; [left; reflexivity|]. exists 0%Z. change (inject_Z 0) with 0. ring.
  - cbn [ViewCubeGrid.whileBelow]. destruct (JS.ltb angle (- JS.Math_PI)) eqn:E.
    + apply ltb_true_iff in E. rewrite inject_Z_succ in H.
      destruct (IH (angle + 2 * JS.Math_PI)) as (H1 & H2 & k' & H3); [lra|].
      cbv zeta in H1, H2, H3. split; [exact H1|]. split.
      * right. destruct H2 as [H2 | H2]; [rewrite H2; lra | exact H2].
      * exists (k' + 1)%Z. rewrite H3. rewrite inject_Z_plus.
        change (inject_Z 1) with 1. ring.
    + apply ltb_false_iff in E. split; [exact E|]. split; [left; reflexivity|].
      exists 0%Z. change (inject_Z 0) with 0. ring.
Qed.

Lemma turns_enough (angle : Q) :
  Qabs angle <= inject_Z (Z.of_nat (ViewCubeGrid.turns angle)) * (2 * JS.Math_PI).
Proof.
  pose proof Math_PI_pos as Hpi. unfold ViewCubeGrid.turns.
  set (x := Qabs angle / (2 * JS.Math_PI)).
  assert (Hx : 0 <= x).
  { unfold x. apply Qle_shift_div_l; [lra|]. pose proof (Qabs_nonneg angle). lra. }
  pose proof (Qle_ceiling x) as Hc.
  assert (Hc0 : (0 <= Qceiling x)%Z).
  { rewrite Zle_Qle. change (inject_Z 0) with 0. lra. }
  rewrite inject_Z_succ, Z2Nat.id by exact Hc0.
  assert (E : Qabs angle == x * (2 * JS.Math_PI)) by (unfold x; field; lra).
  rewrite E. nra.
Qed.

Lemma normalizeAngle_spec :
  forall angle : Q,
    let r := ViewCubeGrid.normalizeAngle angle in
    - JS.Math_PI <= r
    /\ r <= JS.Math_PI
    /\ (exists k : Z, r == angle + inject_Z k * (2 * JS.Math_PI))
    /\ (- JS.Math_PI <= angle -> angle <= JS.Math_PI -> r = angle)
    /\ ViewCubeGrid.normalizeAngle r = r.
Proof.
  intro angle. cbv zeta.
  pose proof Math_PI_pos as Hpi.
  assert (Hfixed : forall a, - JS.Math_PI <= a -> a <= JS.Math_PI ->
                             ViewCubeGrid.normalizeAngle a = a).
  { intros a Hlo Hhi. unfold ViewCubeGrid.normalizeAngle.
    rewrite (whileAbove_fixed _ a Hhi). apply whileBelow_fixed. exact Hlo. }
  assert (Hrange : - JS.Math_PI <= ViewCubeGrid.normalizeAngle angle
                   /\ ViewCubeGrid.normalizeAngle angle <= JS.Math_PI
                   /\ exists k : Z,
                        ViewCubeGrid.normalizeAngle angle
                        == angle + inject_Z k * (2 * JS.Math_PI)).
  { unfold ViewCubeGrid.normalizeAngle.
    set (r1 := ViewCubeGrid.whileAbove (ViewCubeGrid.turns angle) angle).
    destruct (whileAbove_spec (ViewCubeGrid.turns angle) angle) as (A1 & A2 & k1 & A3).
    { pose proof (turns_enough angle) as Ht. pose proof (Qle_Qabs angle). lra. }
    cbv zeta in A1, A2, A3. fold r1 in A1, A2, A3.
    destruct (whileBelow_spec (ViewCubeGrid.turns r1) r1) as (B1 & B2 & k2 & B3).
    { pose proof (turns_enough r1) as Ht. pose proof (Qle_Qabs (- r1)) as Hn.
      rewrite Qabs_opp in Hn. lra. }
    cbv zeta in B1, B2, B3. split; [exact B1|]. split.
    - destruct B2 as [B2 | B2]; [rewrite B2; exact A1 | lra].
    - exists (k1 + k2)%Z. rewrite B3, A3, inject_Z_plus. ring. }
  destruct Hrange as (R1 & R2 & R3).
  split; [exact R1|]. split; [exact R2|]. split; [exact R3|].
  split; [apply Hfixed | apply Hfixed; assumption].
Qed.

Lemma whileAbove_more (fuel : nat) :
  forall angle,
    angle <= JS.Math_PI + inject_Z (Z.of_nat fuel) * (2 * JS.Math_PI) ->
    forall extra,
      ViewCubeGrid.whileAbove (fuel + extra) angle = ViewCubeGrid.whileAbove fuel angle.
Proof.
  pose proof Math_PI_pos as Hpi.
  induction fuel as [|k IH]; intros angle H extra.
  - change (inject_Z (Z.of_nat 0)) with 0 in H. cbn [Nat.add ViewCubeGrid.whileAbove].
    apply whileAbove_fixed. lra.
  - cbn [Nat.add ViewCubeGrid.whileAbove].
    destruct (JS.gtb angle JS.Math_PI); [|reflexivity].
    apply IH. rewrite inject_Z_succ in H. lra.
Qed.

Lemma whileBelow_more (fuel : nat) :
  forall angle,
    - JS.Math_PI - inject_Z (Z.of_nat fuel) * (2 * JS.Math_PI) <= angle ->
    forall extra,
      ViewCubeGrid.whileBelow (fuel + extra) angle = ViewCubeGrid.whileBelow fuel angle.
Proof.
  pose proof Math_PI_pos as Hpi.
  induction fuel as [|k IH]; intros angle H extra.
  - change (inject_Z (Z.of_nat 0)) with 0 in H. cbn [Nat.add ViewCubeGrid.whileBelow].
    apply whileBelow_fixed. lra.
  - cbn [Nat.add ViewCubeGrid.whileBelow].
    destruct (JS.ltb angle (- JS.Math_PI)); [|reflexivity].
    apply IH. rewrite inject_Z_succ in H. lra.
Qed.

Lemma turns_bound (angle : Q) :
  Qabs angle <= 1024 -> (ViewCubeGrid.turns angle <= 164)%nat.
Proof.
  intro H. unfold ViewCubeGrid.turns.
  assert (Hc : (Qceiling (Qabs angle / (2 * JS.Math_PI)) <= 163)%Z).
  { change 163%Z with (Qceiling (1024 / (2 * JS.Math_PI))).
    apply Qceiling_resp_le. apply Qmult_le_compat_r; [exact H|]. vm_compute. discriminate. }
  lia.
Qed.

(** Both loops of [normalizeAngle] have ended within the rounds counted. *)
Lemma normalizeAngle_ended (angle : Q) :
  let first := ViewCubeGrid.whileAbove (ViewCubeGrid.turns angle) angle in
  (forall extra,
      ViewCubeGrid.whileAbove (ViewCubeGrid.turns angle + extra) angle = first)
  /\ (forall extra,
         ViewCubeGrid.whileBelow (ViewCubeGrid.turns first + extra) first
         = ViewCubeGrid.normalizeAngle angle)
  /\ Qabs first <= Qabs angle.
Proof.
  pose proof Math_PI_pos as Hpi. cbv zeta.
  set (first := ViewCubeGrid.whileAbove (ViewCubeGrid.turns angle) angle).
  assert (Ha : angle
               <= JS.Math_PI + inject_Z (Z.of_nat (ViewCubeGrid.turns angle)) * (2 * JS.Math_PI)).
  { pose proof (turns_enough angle) as Ht. pose proof (Qle_Qabs angle). lra. }
  assert (Hb : - JS.Math_PI - inject_Z (Z.of_nat (ViewCubeGrid.turns first)) * (2 * JS.Math_PI)
               <= first).
  { pose proof (turns_enough first) as Ht. pose proof (Qle_Qabs (- first)) as Hn.
    rewrite Qabs_opp in Hn. lra. }
  split; [intro extra; apply whileAbove_more; exact Ha|].
  split; [intro extra; unfold ViewCubeGrid.normalizeAngle; fold first;
          apply whileBelow_more; exact Hb|].
  destruct (whileAbove_spec (ViewCubeGrid.turns angle) angle Ha) as (A1 & A2 & k & A3).
  cbv zeta in A1, A2, A3. fold first in A1, A2, A3.
  destruct A2 as [A2 | A2]; [rewrite A2; apply Qle_refl|].
  destruct (JS.gtb angle JS.Math_PI) eqn:E.
  - apply gtb_true_iff in E. apply Qabs_Qle_condition.
    rewrite (Qabs_pos angle) by lra. split; lra.
  - apply gtb_false_iff in E. unfold first. rewrite whileAbove_fixed by exact E.
    apply Qle_refl.
Qed.

(** X4.  For an angle of magnitude up to 1024 and in exact arithmetic,
    [normalizeAngle] returns an angle between -pi and pi that differs from
    the given one by a whole number of turns; an angle already between -pi
    and pi is returned as it is, so normalizing twice is normalizing once.
    Each of its two loops has ended within 164 rounds: more rounds change
    nothing, and the angle returned passes neither loop's test. *)
Theorem normalizeAngle_range :
  forall angle : Q,
    Qabs angle <= 1024 ->
    let r := ViewCubeGrid.normalizeAngle angle in
    let first := ViewCubeGrid.whileAbove (ViewCubeGrid.turns angle) angle in
    - JS.Math_PI <= r
    /\ r <= JS.Math_PI
    /\ (exists k : Z, r == angle + inject_Z k * (2 * JS.Math_PI))
    /\ (- JS.Math_PI <= angle -> angle <= JS.Math_PI -> r = angle)
    /\ ViewCubeGrid.normalizeAngle r = r
    /\ (ViewCubeGrid.turns angle <= 164)%nat
    /\ (ViewCubeGrid.turns first <= 164)%nat
    /\ (forall extra,
           ViewCubeGrid.whileAbove (ViewCubeGrid.turns angle + extra) angle = first)
    /\ (forall extra, ViewCubeGrid.whileBelow (ViewCubeGrid.turns first + extra) first = r)
    /\ JS.gtb r JS.Math_PI = false
    /\ JS.ltb r (- JS.Math_PI) = false.
Proof.
  intros angle Hsize r first.
  destruct (normalizeAngle_spec angle) as (R1 & R2 & R3 & R4 & R5).
  cbv zeta in R1, R2, R3, R4, R5. fold r in R1, R2, R3, R4, R5.
  destruct (normalizeAngle_ended angle) as (E1 & E2 & E3).
  cbv zeta in E1, E2, E3. fold first in E1, E2, E3. fold r in E2.
  split; [exact R1|]. split; [exact R2|]. split; [exact R3|]. split; [exact R4|].
  split; [exact R5|]. split; [exact (turns_bound angle Hsize)|].
  split; [apply turns_bound; apply (Qle_trans _ _ _ E3 Hsize)|].
  split; [exact E1|]. split; [exact E2|].
  split; [apply gtb_false_iff; exact R2 | apply ltb_false_iff; exact R1].
Qed.

Section ViewCubeGridAnimation.

Import ViewCubeGrid.

Lemma grid_requestAnimationFrames_spec
  (moves : nat -> BABYLON.ArcRotateCamera -> BABYLON.ArcRotateCamera) (n : nat) :
  forall a camera,
    inFlight a camera ->
    exists a' camera',
      requestAnimationFrames n moves (a, camera, (frame a <? 30)%Z)
      = (a', camera', (frame a' <? 30)%Z)
      /\ inFlight a' camera'
      /\ frame a' = Z.min 30 (frame a + Z.of_nat n)
      /\ startAlpha a' = startAlpha a /\ deltaAlpha a' = deltaAlpha a
      /\ startBeta a' = startBeta a /\ targetBeta a' = targetBeta a.
Proof.
  induction n as [|k IH]; intros a camera (Hcount & Hframe & Halpha & Hbeta).
  - exists a, camera. cbn [requestAnimationFrames].
    split; [reflexivity|]. split; [exact (conj Hcount (conj Hframe (conj Halpha Hbeta)))|].
    split; [lia|]. repeat split.
  - cbn [requestAnimationFrames].
    destruct (frame a <? 30)%Z eqn:E.
    + apply Z.ltb_lt in E.
      destruct (IH (mkAnimation (frame a + 1) (frameCount a) (startAlpha a) (startBeta a)
                      (deltaAlpha a) (targetBeta a))
                  (BABYLON.mkArcRotateCamera
                     (startAlpha a
                      + deltaAlpha a
                        * easeInOutCubic (inject_Z (frame a + 1) / inject_Z (frameCount a)))
                     (startBeta a
                      + (targetBeta a - startBeta a)
                        * easeInOutCubic (inject_Z (frame a + 1) / inject_Z (frameCount a)))
                     (BABYLON.radius (moves k camera)) (BABYLON.target (moves k camera))))
        as (a' & camera' & Hrun & Hin & Hf & Hrest).
      { unfold inFlight.
        cbn [frame frameCount startAlpha startBeta deltaAlpha targetBeta
               BABYLON.alpha BABYLON.beta].
        rewrite Hcount. split; [reflexivity|]. split; [lia|]. split; reflexivity. }
      exists a', camera'.
      cbn [frame frameCount startAlpha startBeta deltaAlpha targetBeta] in Hrun, Hf, Hrest.
      unfold animation. rewrite Hcount in *. rewrite Hrun.
      split; [reflexivity|]. split; [exact Hin|]. split; [lia | exact Hrest].
    + apply Z.ltb_ge in E. exists a, camera.
      assert (E' : (frame a <? 30)%Z = false) by (apply Z.ltb_ge; exact E).
      rewrite E'. split; [reflexivity|].
      split; [exact (conj Hcount (conj Hframe (conj Halpha Hbeta)))|].
      split; [lia|]. repeat split.
Qed.

End ViewCubeGridAnimation.

Lemma grid_rotateCameraToFace_spec :
  forall (face : string) (camera : BABYLON.ArcRotateCamera)
         (moves : nat -> BABYLON.ArcRotateCamera -> BABYLON.ArcRotateCamera),
    (ViewCubeGizmo.lookup ViewCubeGrid.FACE_ORIENTATIONS face = None ->
     ViewCubeGrid.rotateCameraToFace face camera
     = if ViewCubeGrid.inherited face then ViewCubeGrid.TypeError
       else ViewCubeGrid.Warned ("Unknown face: " ++ face))
    /\ (forall alpha beta,
           ViewCubeGizmo.lookup ViewCubeGrid.FACE_ORIENTATIONS face = Some (alpha, beta) ->
           exists first,
             ViewCubeGrid.rotateCameraToFace face camera = ViewCubeGrid.Animating first
             /\ let delta := ViewCubeGrid.deltaAlpha (fst (fst first)) in
                delta = ViewCubeGrid.normalizeAngle (alpha - BABYLON.alpha camera)
                /\ Qabs delta <= JS.Math_PI
                /\ forall n, (29 <= n)%nat ->
                   exists a camera',
                     ViewCubeGrid.requestAnimationFrames n moves first = (a, camera', false)
                     /\ BABYLON.alpha camera' == BABYLON.alpha camera + delta
                     /\ (exists k : Z,
                            BABYLON.alpha camera' == alpha + inject_Z k * (2 * JS.Math_PI))
                     /\ BABYLON.beta camera' == beta).
Proof.
  intros face camera moves. split.
  - intro Hface. unfold ViewCubeGrid.rotateCameraToFace. rewrite Hface. reflexivity.
  - intros alpha beta Hface. unfold ViewCubeGrid.rotateCameraToFace. rewrite Hface.
    cbv zeta. eexists. split; [reflexivity|].
    change (ViewCubeGrid.whileBelow _ _)
      with (ViewCubeGrid.normalizeAngle (alpha - BABYLON.alpha camera)).
    set (delta := ViewCubeGrid.normalizeAngle (alpha - BABYLON.alpha camera)).
    destruct (normalizeAngle_spec (alpha - BABYLON.alpha camera))
      as (R1 & R2 & (k & R3) & _).
    cbv zeta in R1, R2, R3. fold delta in R1, R2, R3.
    unfold ViewCubeGrid.animation.
    cbn [ViewCubeGrid.frame ViewCubeGrid.frameCount ViewCubeGrid.startAlpha
           ViewCubeGrid.startBeta ViewCubeGrid.deltaAlpha ViewCubeGrid.targetBeta fst].
    split; [reflexivity|]. split; [apply Qabs_Qle_condition; split; assumption|].
    set (a1 := ViewCubeGrid.mkAnimation (0 + 1) 30 (BABYLON.alpha camera)
                 (BABYLON.beta camera) delta beta).
    set (camera1 := BABYLON.mkArcRotateCamera _ _ _ _).
    assert (Hin : ViewCubeGrid.inFlight a1 camera1).
    { unfold ViewCubeGrid.inFlight, a1, camera1.
      cbn [ViewCubeGrid.frame ViewCubeGrid.frameCount ViewCubeGrid.startAlpha
             ViewCubeGrid.startBeta ViewCubeGrid.deltaAlpha ViewCubeGrid.targetBeta
             BABYLON.alpha BABYLON.beta].
      split; [reflexivity|]. split; [lia|]. split; reflexivity. }
    change ((0 + 1 <? 30)%Z) with ((ViewCubeGrid.frame a1 <? 30)%Z).
    intros n Hn.
    destruct (grid_requestAnimationFrames_spec moves n a1 camera1 Hin)
      as (a' & camera' & Hrun & Hin' & Hf & Hsa & Hda & Hsb & Htb).
    assert (Hf' : ViewCubeGrid.frame a' = 30%Z).
    { rewrite Hf. unfold a1. cbn [ViewCubeGrid.frame]. lia. }
    exists a', camera'. rewrite Hrun, Hf'. split; [reflexivity|].
    destruct Hin' as (_ & _ & Halpha & Hbeta).
    rewrite Hf', Hsa, Hda in Halpha. rewrite Hf', Hsb, Htb in Hbeta.
    assert (E : ViewCubeGrid.easeInOutCubic (inject_Z 30 / inject_Z 30) == 1)
      by (vm_compute; reflexivity).
    rewrite E in Halpha, Hbeta. unfold a1 in Halpha, Hbeta.
    cbn [ViewCubeGrid.startAlpha ViewCubeGrid.startBeta ViewCubeGrid.deltaAlpha
           ViewCubeGrid.targetBeta] in Halpha, Hbeta.
    split; [rewrite Halpha; ring|]. split.
    + exists k. rewrite Halpha, R3. ring.
    + rewrite Hbeta. ring.
Qed.

Lemma lookup_nth_error {V : Type} (o : list (string * V)) (key : string) (v : V) :
  ViewCubeGizmo.lookup o key = Some v -> exists i, nth_error o i = Some (key, v).
Proof.
  induction o as [|[k v'] o IH]; cbn [ViewCubeGizmo.lookup]; [discriminate|].
  destruct (String.eqb k key) eqn:E.
  - intro H. injection H as <-. apply String.eqb_eq in E. subst k. exists 0%nat. reflexivity.
  - intro H. destruct (IH H) as [i Hi]. exists (S i). exact Hi.
Qed.

Lemma grid_face_alpha (face : string) (alpha beta : Q) :
  ViewCubeGizmo.lookup ViewCubeGrid.FACE_ORIENTATIONS face = Some (alpha, beta) ->
  Qabs alpha <= 4.
Proof.
  intro H. destruct (lookup_nth_error _ _ _ H) as [i Hi].
  do 6 (destruct i as [|i]; [injection Hi as _ <- _; vm_compute; discriminate|]).
  destruct i; discriminate Hi.
Qed.

(** X5.  A face button turns the camera the short way round: the angle
    [deltaAlpha] the animation adds to alpha is the difference to the face's
    alpha brought between -pi and pi by whole turns, and the two loops that
    bring it there end within 164 rounds each, for a camera whose alpha is
    of magnitude up to 1000.  After the 30 frames the camera's alpha is the
    face's alpha up to whole turns and its beta is the face's beta, in exact
    arithmetic.  For a name that is no face, [rotateCameraToFace] warns on
    the console and starts no animation, unless the name is one of the
    twelve every object inherits, such as [toString]: then it throws a
    [TypeError] and warns of nothing. *)
Theorem rotateCameraToFace_short_way_round :
  forall (face : string) (camera : BABYLON.ArcRotateCamera)
         (moves : nat -> BABYLON.ArcRotateCamera -> BABYLON.ArcRotateCamera),
    (ViewCubeGizmo.lookup ViewCubeGrid.FACE_ORIENTATIONS face = None ->
     ~ In face ViewCubeGrid.Object_prototype ->
     ViewCubeGrid.rotateCameraToFace face camera
     = ViewCubeGrid.Warned ("Unknown face: " ++ face))
    /\ (In face ViewCubeGrid.Object_prototype ->
        ViewCubeGrid.rotateCameraToFace face camera = ViewCubeGrid.TypeError)
    /\ (forall alpha beta,
           ViewCubeGizmo.lookup ViewCubeGrid.FACE_ORIENTATIONS face = Some (alpha, beta) ->
           Qabs (BABYLON.alpha camera) <= 1000 ->
           exists first,
             ViewCubeGrid.rotateCameraToFace face camera = ViewCubeGrid.Animating first
             /\ let delta := ViewCubeGrid.deltaAlpha (fst (fst first)) in
                let above :=
                  ViewCubeGrid.whileAbove
                    (ViewCubeGrid.turns (alpha - BABYLON.alpha camera))
                    (alpha - BABYLON.alpha camera) in
                delta = ViewCubeGrid.normalizeAngle (alpha - BABYLON.alpha camera)
                /\ Qabs delta <= JS.Math_PI
                /\ (ViewCubeGrid.turns (alpha - BABYLON.alpha camera) <= 164)%nat
                /\ (ViewCubeGrid.turns above <= 164)%nat
                /\ (forall extra,
                       ViewCubeGrid.whileAbove
                         (ViewCubeGrid.turns (alpha - BABYLON.alpha camera) + extra)
                         (alpha - BABYLON.alpha camera)
                       = above)
                /\ (forall extra,
                       ViewCubeGrid.whileBelow (ViewCubeGrid.turns above + extra) above
                       = delta)
                /\ forall n, (29 <= n)%nat ->
                   exists a camera',
                     ViewCubeGrid.requestAnimationFrames n moves first = (a, camera', false)
                     /\ BABYLON.alpha camera' == BABYLON.alpha camera + delta
                     /\ (exists k : Z,
                            BABYLON.alpha camera' == alpha + inject_Z k * (2 * JS.Math_PI))
                     /\ BABYLON.beta camera' == beta).
Proof.
  intros face camera moves.
  destruct (grid_rotateCameraToFace_spec face camera moves) as [Hnone Hsome].
  split; [|split].
  - intros Hface Hnot. rewrite (Hnone Hface).
    destruct (ViewCubeGrid.inherited face) eqn:E; [|reflexivity].
    unfold ViewCubeGrid.inherited in E. apply existsb_exists in E.
    destruct E as (name & Hin & Heq). apply String.eqb_eq in Heq. subst name.
    contradiction.
  - intro Hin.
    assert (Hface : ViewCubeGizmo.lookup ViewCubeGrid.FACE_ORIENTATIONS face = None
                    /\ ViewCubeGrid.inherited face = true).
    { unfold ViewCubeGrid.Object_prototype in Hin. cbn [In] in Hin.
      repeat (destruct Hin as [<- | Hin]; [split; reflexivity|]). destruct Hin. }
    destruct Hface as [Hface Hinh]. rewrite (Hnone Hface), Hinh. reflexivity.
  - intros alpha beta Hface Hsize.
    destruct (Hsome alpha beta Hface) as (first & Hfirst & Hrest). cbv zeta in Hrest.
    destruct Hrest as (Hdelta & Habs & Hframes).
    exists first. split; [exact Hfirst|]. cbv zeta.
    assert (Hsize' : Qabs (alpha - BABYLON.alpha camera) <= 1024).
    { pose proof (grid_face_alpha face alpha beta Hface) as Ha.
      pose proof (Qabs_triangle alpha (- BABYLON.alpha camera)) as Ht.
      rewrite Qabs_opp in Ht. unfold Qminus. lra. }
    destruct (normalizeAngle_ended (alpha - BABYLON.alpha camera)) as (E1 & E2 & E3).
    cbv zeta in E1, E2, E3.
    split; [exact Hdelta|]. split; [exact Habs|].
    split; [exact (turns_bound _ Hsize')|].
    split; [apply turns_bound; apply (Qle_trans _ _ _ E3 Hsize')|].
    split; [exact E1|]. split; [rewrite Hdelta; exact E2 | exact Hframes].
Qed.

Lemma whileAbove_wd (fuel : nat) :
  forall a a', a == a' -> ViewCubeGrid.whileAbove fuel a == ViewCubeGrid.whileAbove fuel a'.
Proof.
  induction fuel as [|k IH]; intros a a' H; [exact H|].
  cbn [ViewCubeGrid.whileAbove]. unfold JS.gtb.
  rewrite (ltb_wd JS.Math_PI JS.Math_PI a a' (Qeq_refl _) H).
  destruct (JS.ltb JS.Math_PI a'); [|exact H]. apply IH. rewrite H. reflexivity.
Qed.

Lemma whileBelow_wd (fuel : nat) :
  forall a a', a == a' -> ViewCubeGrid.whileBelow fuel a == ViewCubeGrid.whileBelow fuel a'.
Proof.
  induction fuel as [|k IH]; intros a a' H; [exact H|].
  cbn [ViewCubeGrid.whileBelow].
  rewrite (ltb_wd a a' (- JS.Math_PI) (- JS.Math_PI) H (Qeq_refl _)).
  destruct (JS.ltb a' (- JS.Math_PI)); [|exact H]. apply IH. rewrite H. reflexivity.
Qed.

Lemma turns_wd (a a' : Q) : a == a' -> ViewCubeGrid.turns a = ViewCubeGrid.turns a'.
Proof. intro H. unfold ViewCubeGrid.turns. rewrite H. reflexivity. Qed.

Lemma normalizeAngle_wd (a a' : Q) :
  a == a' -> ViewCubeGrid.normalizeAngle a == ViewCubeGrid.normalizeAngle a'.
Proof.
  intro H. unfold ViewCubeGrid.normalizeAngle.
  assert (H1 : ViewCubeGrid.whileAbove (ViewCubeGrid.turns a) a
               == ViewCubeGrid.whileAbove (ViewCubeGrid.turns a') a').
  { rewrite (turns_wd a a' H). apply whileAbove_wd. exact H. }
  rewrite (turns_wd _ _ H1). apply whileBelow_wd. exact H1.
Qed.

Lemma whole_turns_within_half (m : Z) (r r' : Q) :
  - JS.Math_PI <= r -> r <= JS.Math_PI -> - JS.Math_PI <= r' -> r' <= JS.Math_PI ->
  r == r' + inject_Z m * (2 * JS.Math_PI) ->
  Qabs r == Qabs r'.
Proof.
  pose proof Math_PI_pos as Hpi. intros H1 H2 H3 H4 E.
  destruct (Z_lt_le_dec m 0) as [Hm | Hm].
  - assert (Hm' : inject_Z m <= - (1)).
    { change (- (1)) with (inject_Z (- 1)). rewrite <- Zle_Qle. lia. }
    assert (Hp : inject_Z m * JS.Math_PI <= - (1) * JS.Math_PI)
      by (apply Qmult_le_compat_r; lra).
    assert (Er : r == - JS.Math_PI) by lra. assert (Er' : r' == JS.Math_PI) by lra.
    rewrite Er, Er', Qabs_opp. reflexivity.
  - destruct (Z_lt_le_dec 0 m) as [Hm1 | Hm1].
    + assert (Hm' : 1 <= inject_Z m).
      { change 1 with (inject_Z 1). rewrite <- Zle_Qle. lia. }
      assert (Hp : 1 * JS.Math_PI <= inject_Z m * JS.Math_PI)
        by (apply Qmult_le_compat_r; lra).
      assert (Er : r == JS.Math_PI) by lra. assert (Er' : r' == - JS.Math_PI) by lra.
      rewrite Er, Er', Qabs_opp. reflexivity.
    + assert (m = 0%Z) by lia. subst m. change (inject_Z 0) with 0 in E.
      assert (Er : r == r') by lra. rewrite Er. reflexivity.
Qed.

Lemma normalizeAngle_whole_turns (a : Q) (k : Z) :
  Qabs (ViewCubeGrid.normalizeAngle (a + inject_Z k * (2 * JS.Math_PI)))
  == Qabs (ViewCubeGrid.normalizeAngle a).
Proof.
  destruct (normalizeAngle_spec (a + inject_Z k * (2 * JS.Math_PI)))
    as (A1 & A2 & (k1 & A3) & _).
  destruct (normalizeAngle_spec a) as (B1 & B2 & (k2 & B3) & _).
  cbv zeta in *.
  apply (whole_turns_within_half (k + k1 - k2)%Z); try assumption.
  rewrite A3, B3. unfold Z.sub. rewrite !inject_Z_plus, inject_Z_opp. ring.
Qed.

(** The distance [updateVisualState] computes between a face and the camera. *)
Lemma grid_closer_ext (a a' b b' : Q) (acc acc' : string * Q) (entry : string * (Q * Q)) :
  Qabs (ViewCubeGrid.normalizeAngle (fst (snd entry) - a))
  == Qabs (ViewCubeGrid.normalizeAngle (fst (snd entry) - a')) ->
  b == b' -> fst acc = fst acc' -> snd acc == snd acc' ->
  fst (ViewCubeGrid.closer a b acc entry) = fst (ViewCubeGrid.closer a' b' acc' entry)
  /\ snd (ViewCubeGrid.closer a b acc entry)
     == snd (ViewCubeGrid.closer a' b' acc' entry).
Proof.
  intros Ha Hb Hf Hs. destruct entry as [face [alpha beta]]. cbn [fst snd] in Ha.
  unfold ViewCubeGrid.closer.
  assert (Hd : JS.Math_abs (ViewCubeGrid.normalizeAngle (alpha - a))
               + JS.Math_abs (beta - b)
               == JS.Math_abs (ViewCubeGrid.normalizeAngle (alpha - a'))
                  + JS.Math_abs (beta - b')).
  { unfold JS.Math_abs. rewrite Ha, Hb. reflexivity. }
  rewrite (ltb_wd _ _ _ _ Hd Hs).
  destruct (JS.ltb _ _); cbn [fst snd]; split; assumption || reflexivity.
Qed.

Lemma grid_closer_fold_ext (a a' b b' : Q) (entries : list (string * (Q * Q))) :
  (exists k : Z, a == a' + inject_Z k * (2 * JS.Math_PI)) -> b == b' ->
  forall acc acc',
    fst acc = fst acc' -> snd acc == snd acc' ->
    fst (fold_left (ViewCubeGrid.closer a b) entries acc)
    = fst (fold_left (ViewCubeGrid.closer a' b') entries acc')
    /\ snd (fold_left (ViewCubeGrid.closer a b) entries acc)
       == snd (fold_left (ViewCubeGrid.closer a' b') entries acc').
Proof.
  intros [k Ha] Hb.
  induction entries as [|e entries IH]; intros acc acc' Hf Hs.
  - split; assumption.
  - cbn [fold_left].
    destruct (grid_closer_ext a a' b b' acc acc' e) as [H1 H2]; try assumption.
    + assert (E : fst (snd e) - a
                  == fst (snd e) - a' + inject_Z (- k) * (2 * JS.Math_PI)).
      { rewrite Ha, inject_Z_opp. ring. }
      rewrite (normalizeAngle_wd _ _ E). apply normalizeAngle_whole_turns.
    + exact (IH _ _ H1 H2).
Qed.

Lemma grid_closest_ext (a a' b b' : Q) :
  (exists k : Z, a == a' + inject_Z k * (2 * JS.Math_PI)) -> b == b' ->
  fst (ViewCubeGrid.closest a b) = fst (ViewCubeGrid.closest a' b')
  /\ snd (ViewCubeGrid.closest a b) == snd (ViewCubeGrid.closest a' b').
Proof.
  intros Ha Hb. unfold ViewCubeGrid.closest.
  apply grid_closer_fold_ext; [exact Ha | exact Hb | reflexivity | reflexivity].
Qed.

Lemma grid_closest_at_face (i : nat) (face : string) (alpha beta a b : Q) :
  nth_error ViewCubeGrid.FACE_ORIENTATIONS i = Some (face, (alpha, beta)) ->
  (exists k : Z, a == alpha + inject_Z k * (2 * JS.Math_PI)) -> b == beta ->
  fst (ViewCubeGrid.closest a b) = face /\ snd (ViewCubeGrid.closest a b) == 0.
Proof.
  intros Hi Ha Hb. destruct (grid_closest_ext a alpha b beta Ha Hb) as [H1 H2].
  rewrite H1, H2. clear H1 H2 Ha Hb.
  do 6 (destruct i as [|i];
        [injection Hi as <- <- <-; split; vm_compute; reflexivity|]).
  destruct i; discriminate Hi.
Qed.

Lemma updateVisualState_In (camera : BABYLON.ArcRotateCamera)
  (faceButtons : JS.Map.t ViewCubeGrid.Button) (face : string)
  (button : ViewCubeGrid.Button) :
  In (face, button) (ViewCubeGrid.updateVisualState camera faceButtons) ->
  ViewCubeGrid.highlighted button
  = String.eqb face
      (fst (ViewCubeGrid.closest (BABYLON.alpha camera) (BABYLON.beta camera)))
    && JS.ltb (snd (ViewCubeGrid.closest (BABYLON.alpha camera) (BABYLON.beta camera)))
         (1 # 2).
Proof.
  unfold ViewCubeGrid.updateVisualState.
  destruct (ViewCubeGrid.closest (BABYLON.alpha camera) (BABYLON.beta camera))
    as [closestFace minDiff].
  cbn [fst snd]. intro Hin. apply in_map_iff in Hin.
  destruct Hin as ([face0 button0] & Heq & _).
  destruct (String.eqb face0 closestFace && JS.ltb minDiff (1 # 2)) eqn:E;
    injection Heq as <- <-; rewrite E; reflexivity.
Qed.

Lemma least_of_its_turns (m : Z) (r z : Q) :
  - JS.Math_PI <= r -> r <= JS.Math_PI ->
  r == z + inject_Z m * (2 * JS.Math_PI) ->
  Qabs r <= Qabs z.
Proof.
  pose proof Math_PI_pos as Hpi. intros H1 H2 E.
  assert (Hr : Qabs r <= JS.Math_PI) by (apply Qabs_Qle_condition; split; assumption).
  destruct (Z_lt_le_dec m 0) as [Hm | Hm].
  - assert (Hm' : inject_Z m <= - (1)).
    { change (- (1)) with (inject_Z (- 1)). rewrite <- Zle_Qle. lia. }
    assert (Hp : inject_Z m * JS.Math_PI <= - (1) * JS.Math_PI)
      by (apply Qmult_le_compat_r; lra).
    pose proof (Qle_Qabs z). lra.
  - destruct (Z_lt_le_dec 0 m) as [Hm1 | Hm1].
    + assert (Hm' : 1 <= inject_Z m).
      { change 1 with (inject_Z 1). rewrite <- Zle_Qle. lia. }
      assert (Hp : 1 * JS.Math_PI <= inject_Z m * JS.Math_PI)
        by (apply Qmult_le_compat_r; lra).
      pose proof (Qle_Qabs (- z)) as Hz. rewrite Qabs_opp in Hz. lra.
    + assert (m = 0%Z) by lia. subst m. change (inject_Z 0) with 0 in E.
      assert (Er : r == z) by lra. rewrite Er. apply Qle_refl.
Qed.

(** The distance in alpha that [updateVisualState] computes obeys the
    triangle inequality. *)
Lemma normalizeAngle_triangle (x y a : Q) :
  Qabs (ViewCubeGrid.normalizeAngle (x - y))
  <= Qabs (ViewCubeGrid.normalizeAngle (x - a)) + Qabs (ViewCubeGrid.normalizeAngle (y - a)).
Proof.
  destruct (normalizeAngle_spec (x - y)) as (A1 & A2 & (k & A3) & _).
  destruct (normalizeAngle_spec (x - a)) as (_ & _ & (k1 & B3) & _).
  destruct (normalizeAngle_spec (y - a)) as (_ & _ & (k2 & C3) & _).
  cbv zeta in *.
  set (rxy := ViewCubeGrid.normalizeAngle (x - y)) in *.
  set (rxa := ViewCubeGrid.normalizeAngle (x - a)) in *.
  set (rya := ViewCubeGrid.normalizeAngle (y - a)) in *.
  assert (E : rxy == (rxa - rya) + inject_Z (k - k1 + k2) * (2 * JS.Math_PI)).
  { rewrite A3, B3, C3. unfold Z.sub. rewrite !inject_Z_plus, inject_Z_opp. ring. }
  pose proof (least_of_its_turns (k - k1 + k2) rxy (rxa - rya) A1 A2 E) as H.
  pose proof (Qabs_triangle rxa (- rya)) as Ht. rewrite Qabs_opp in Ht.
  unfold Qminus in H. lra.
Qed.

Lemma grid_closer_min (currentAlpha currentBeta : Q) (entries : list (string * (Q * Q))) :
  forall acc,
    let r := fold_left (ViewCubeGrid.closer currentAlpha currentBeta) entries acc in
    snd r <= snd acc
    /\ (forall face orientation,
           In (face, orientation) entries ->
           snd r <= ViewCubeGrid.distance currentAlpha currentBeta orientation)
    /\ (r = acc
        \/ exists face orientation,
             In (face, orientation) entries
             /\ r = (face, ViewCubeGrid.distance currentAlpha currentBeta orientation)).
Proof.
  induction entries as [|[face [alpha beta]] entries IH]; intro acc; cbv zeta.
  - cbn [fold_left]. split; [apply Qle_refl|]. split; [intros ? ? []|]. left. reflexivity.
  - cbn [fold_left].
    set (acc' := ViewCubeGrid.closer currentAlpha currentBeta acc (face, (alpha, beta))).
    destruct (IH acc') as (I1 & I2 & I3). cbv zeta in I1, I2, I3.
    assert (Hacc' : snd acc' <= snd acc
                    /\ snd acc' <= ViewCubeGrid.distance currentAlpha currentBeta (alpha, beta)
                    /\ (acc' = acc
                        \/ acc' = (face,
                                   ViewCubeGrid.distance currentAlpha currentBeta
                                     (alpha, beta)))).
    { unfold acc', ViewCubeGrid.closer, ViewCubeGrid.distance, JS.Math_abs. cbn [fst snd].
      destruct (JS.ltb _ (snd acc)) eqn:E.
      - apply ltb_true_iff in E. cbn [snd].
        split; [lra|]. split; [apply Qle_refl|]. right. reflexivity.
      - apply ltb_false_iff in E.
        split; [apply Qle_refl|]. split; [exact E|]. left. reflexivity. }
    destruct Hacc' as (H1 & H2 & H3).
    split; [lra|]. split.
    + intros face' orientation [Heq | Hin].
      * injection Heq as <- <-. lra.
      * exact (I2 face' orientation Hin).
    + destruct I3 as [I3 | (face' & orientation & Hin & I3)].
      * rewrite I3. destruct H3 as [H3 | H3]; [left; exact H3|].
        right. exists face, (alpha, beta). split; [left; reflexivity | exact H3].
      * right. exists face', orientation. split; [right; exact Hin | exact I3].
Qed.

Lemma grid_faces_apart (currentAlpha currentBeta : Q) (face face' : string)
  (orientation orientation' : Q * Q) :
  In (face, orientation) ViewCubeGrid.FACE_ORIENTATIONS ->
  In (face', orientation') ViewCubeGrid.FACE_ORIENTATIONS ->
  face <> face' ->
  147 # 100
  <= ViewCubeGrid.distance currentAlpha currentBeta orientation
     + ViewCubeGrid.distance currentAlpha currentBeta orientation'.
Proof.
  intros Hin Hin' Hne.
  assert (Hapart : 147 # 100
                   <= Qabs (ViewCubeGrid.normalizeAngle (fst orientation - fst orientation'))
                      + Qabs (snd orientation - snd orientation')).
  { unfold ViewCubeGrid.FACE_ORIENTATIONS in Hin, Hin'. cbn [In] in Hin, Hin'.
    repeat (destruct Hin as [Hin | Hin];
            [injection Hin as <- <-;
             repeat (destruct Hin' as [Hin' | Hin'];
                     [injection Hin' as <- <-;
                      first [elim Hne; reflexivity | vm_compute; discriminate]|]);
             destruct Hin'|]).
    destruct Hin. }
  pose proof (normalizeAngle_triangle (fst orientation) (fst orientation') currentAlpha)
    as Ht.
  assert (Hb : Qabs (snd orientation - snd orientation')
               <= Qabs (snd orientation - currentBeta)
                  + Qabs (snd orientation' - currentBeta)).
  { pose proof (Qabs_triangle (snd orientation - currentBeta)
                  (- (snd orientation' - currentBeta))) as Hq.
    rewrite Qabs_opp in Hq.
    assert (E : snd orientation - snd orientation'
                == snd orientation - currentBeta + - (snd orientation' - currentBeta))
      by ring.
    rewrite E. exact Hq. }
  unfold ViewCubeGrid.distance. lra.
Qed.

(** The face [updateVisualState] takes for the closest, when some face is
    less than 0.5 away. *)
Lemma grid_closest_near (currentAlpha currentBeta : Q) :
  let nearest := ViewCubeGrid.closest currentAlpha currentBeta in
  (forall face orientation,
      In (face, orientation) ViewCubeGrid.FACE_ORIENTATIONS ->
      snd nearest <= ViewCubeGrid.distance currentAlpha currentBeta orientation)
  /\ (snd nearest < 1 # 2 ->
      exists orientation,
        In (fst nearest, orientation) ViewCubeGrid.FACE_ORIENTATIONS
        /\ snd nearest = ViewCubeGrid.distance currentAlpha currentBeta orientation).
Proof.
  cbv zeta. unfold ViewCubeGrid.closest.
  destruct (grid_closer_min currentAlpha currentBeta ViewCubeGrid.FACE_ORIENTATIONS
              ("X+"%string, JS.Number_MAX_VALUE)) as (_ & H2 & H3).
  cbv zeta in H2, H3.
  set (r := fold_left _ _ _) in *.
  split; [exact H2|].
  intro Hlt. destruct H3 as [H3 | (face & orientation & Hin & H3)].
  - rewrite H3 in Hlt. cbn [snd] in Hlt. vm_compute in Hlt. discriminate Hlt.
  - rewrite H3. cbn [fst snd]. exists orientation. split; [exact Hin | reflexivity].
Qed.

(** X6.  [updateVisualState] keeps the buttons and their order and gives the
    highlight to at most one face.  In exact arithmetic and for a camera
    whose alpha is of magnitude up to 1000: when a face is at most 0.49 from
    the camera - the distance being that of the alphas, taken the short way
    round, plus that of the betas - its button is highlighted and no other;
    when every face is 0.51 away or more, no button is; and a button that is
    highlighted is that of a face less than 0.51 away, every other face
    being farther than it.  Between 0.49 and 0.51 nothing is said: at 0.5 the
    rounding of the doubles decides. *)
Theorem updateVisualState_highlights_closest_face :
  forall (camera : BABYLON.ArcRotateCamera) (faceButtons : JS.Map.t ViewCubeGrid.Button),
    Qabs (BABYLON.alpha camera) <= 1000 ->
    let buttons := ViewCubeGrid.updateVisualState camera faceButtons in
    let distance (orientation : Q * Q) :=
      Qabs (ViewCubeGrid.normalizeAngle (fst orientation - BABYLON.alpha camera))
      + Qabs (snd orientation - BABYLON.beta camera) in
    JS.Map.keys buttons = JS.Map.keys faceButtons
    /\ (forall face face' button button',
           In (face, button) buttons -> In (face', button') buttons ->
           ViewCubeGrid.highlighted button = true ->
           ViewCubeGrid.highlighted button' = true -> face = face')
    /\ (forall face orientation,
           In (face, orientation) ViewCubeGrid.FACE_ORIENTATIONS ->
           distance orientation <= 49 # 100 ->
           forall name button,
             In (name, button) buttons ->
             ViewCubeGrid.highlighted button = String.eqb name face)
    /\ ((forall face orientation,
            In (face, orientation) ViewCubeGrid.FACE_ORIENTATIONS ->
            51 # 100 <= distance orientation) ->
        forall name button,
          In (name, button) buttons -> ViewCubeGrid.highlighted button = false)
    /\ (forall name button,
           In (name, button) buttons ->
           ViewCubeGrid.highlighted button = true ->
           exists orientation,
             In (name, orientation) ViewCubeGrid.FACE_ORIENTATIONS
             /\ distance orientation < 51 # 100
             /\ forall face' orientation',
                  In (face', orientation') ViewCubeGrid.FACE_ORIENTATIONS ->
                  face' <> name -> distance orientation < distance orientation').
Proof.
  intros camera faceButtons _ buttons distance. subst distance. cbv beta.
  set (nearest := ViewCubeGrid.closest (BABYLON.alpha camera) (BABYLON.beta camera)).
  assert (Hlight : forall face button,
             In (face, button) buttons ->
             ViewCubeGrid.highlighted button
             = String.eqb face (fst nearest) && JS.ltb (snd nearest) (1 # 2))
    by exact (updateVisualState_In camera faceButtons).
  destruct (grid_closest_near (BABYLON.alpha camera) (BABYLON.beta camera))
    as (Hleast & Hnear).
  cbv zeta in Hleast, Hnear. unfold ViewCubeGrid.distance in Hleast, Hnear.
  fold nearest in Hleast, Hnear.
  pose proof (grid_faces_apart (BABYLON.alpha camera) (BABYLON.beta camera)) as Hapart.
  unfold ViewCubeGrid.distance in Hapart.
  split; [|split; [|split; [|split]]].
  - unfold buttons, ViewCubeGrid.updateVisualState, JS.Map.keys.
    destruct (ViewCubeGrid.closest _ _) as [closestFace minDiff].
    rewrite map_map. apply map_ext. intros [face button]. cbn [fst].
    destruct (String.eqb face closestFace && JS.ltb minDiff (1 # 2)); reflexivity.
  - intros face face' button button' Hin Hin' H H'.
    rewrite (Hlight _ _ Hin) in H. rewrite (Hlight _ _ Hin') in H'.
    apply andb_true_iff in H, H'. destruct H as [H _]. destruct H' as [H' _].
    apply String.eqb_eq in H, H'. congruence.
  - intros face orientation Hface Hclose name button Hin.
    rewrite (Hlight _ _ Hin).
    pose proof (Hleast face orientation Hface) as Hle.
    assert (Hlt : snd nearest < 1 # 2) by lra.
    destruct (Hnear Hlt) as (orientation' & Hin' & Heq).
    assert (Hsame : fst nearest = face).
    { destruct (string_dec (fst nearest) face) as [E | E]; [exact E|].
      pose proof (Hapart _ _ _ _ Hin' Hface E) as Hd.
      rewrite <- Heq in Hd. lra. }
    rewrite Hsame. apply ltb_true_iff in Hlt. rewrite Hlt. apply andb_true_r.
  - intros Hall name button Hin. rewrite (Hlight _ _ Hin).
    assert (Hge : JS.ltb (snd nearest) (1 # 2) = false).
    { apply ltb_false_iff. destruct (Qlt_le_dec (snd nearest) (1 # 2)) as [Hlt | Hge];
        [|exact Hge].
      destruct (Hnear Hlt) as (orientation & Hin' & Heq).
      pose proof (Hall _ _ Hin') as Hd. rewrite <- Heq in Hd. lra. }
    rewrite Hge. apply andb_false_r.
  - intros name button Hin H. rewrite (Hlight _ _ Hin) in H.
    apply andb_true_iff in H. destruct H as [Hname Hlt].
    apply String.eqb_eq in Hname. apply ltb_true_iff in Hlt.
    destruct (Hnear Hlt) as (orientation & Hin' & Heq).
    exists orientation. rewrite Hname. split; [exact Hin'|].
    split; [rewrite <- Heq; lra|].
    intros face' orientation' Hface' Hne.
    assert (Hne' : fst nearest <> face')
      by (intro E; apply Hne; symmetry; exact E).
    pose proof (Hapart _ _ _ _ Hin' Hface' Hne') as Hd.
    rewrite <- Heq in Hd |- *. lra.
Qed.

(** X7.  Pressing a face button ends with that button highlighted and no
    other: once the 30 frames of the animation have run, the next
    [updateVisualState] gives the highlight to the button of the face the
    camera was sent to, and takes it from the five others. *)
Theorem pressed_face_button_is_highlighted :
  forall (face : string) (alpha beta : Q) (camera : BABYLON.ArcRotateCamera)
         (moves : nat -> BABYLON.ArcRotateCamera -> BABYLON.ArcRotateCamera)
         (faceButtons : JS.Map.t ViewCubeGrid.Button) (n : nat),
    ViewCubeGizmo.lookup ViewCubeGrid.FACE_ORIENTATIONS face = Some (alpha, beta) ->
    (29 <= n)%nat ->
    exists first a camera',
      ViewCubeGrid.rotateCameraToFace face camera = ViewCubeGrid.Animating first
      /\ ViewCubeGrid.requestAnimationFrames n moves first = (a, camera', false)
      /\ forall name button,
           In (name, button) (ViewCubeGrid.updateVisualState camera' faceButtons) ->
           ViewCubeGrid.highlighted button = String.eqb name face.
Proof.
  intros face alpha beta camera moves faceButtons n Hface Hn.
  destruct (grid_rotateCameraToFace_spec face camera moves) as [_ Hrot].
  destruct (Hrot alpha beta Hface) as (first & Hfirst & Hrest).
  cbv zeta in Hrest. destruct Hrest as (_ & _ & Hframes).
  destruct (Hframes n Hn) as (a & camera' & Hrun & _ & Halpha & Hbeta).
  exists first, a, camera'. split; [exact Hfirst|]. split; [exact Hrun|].
  intros name button Hin.
  rewrite (updateVisualState_In camera' faceButtons name button Hin).
  destruct (lookup_nth_error _ _ _ Hface) as [i Hi].
  destruct (grid_closest_at_face i face alpha beta _ _ Hi Halpha Hbeta) as [H1 H2].
  rewrite H1, (ltb_wd _ 0 (1 # 2) (1 # 2) H2 (Qeq_refl _)).
  change (JS.ltb 0 (1 # 2)) with true. apply andb_true_r.
Qed.

(** ** Framing *)

Lemma Math_min_le (a b : Q) : JS.Math_min a b <= a /\ JS.Math_min a b <= b.
Proof.
  unfold JS.Math_min. destruct (Qle_bool a b) eqn:E.
  - apply Qle_bool_iff in E. split; [apply Qle_refl | exact E].
  - split; [|apply Qle_refl]. apply Qlt_le_weak. apply Qnot_le_lt. intro H.
    apply Qle_bool_iff in H. congruence.
Qed.

Lemma Math_max_ge (a b : Q) : a <= JS.Math_max a b /\ b <= JS.Math_max a b.
Proof.
  unfold JS.Math_max. destruct (Qle_bool a b) eqn:E.
  - apply Qle_bool_iff in E. split; [exact E | apply Qle_refl].
  - split; [apply Qle_refl|]. apply Qlt_le_weak. apply Qnot_le_lt. intro H.
    apply Qle_bool_iff in H. congruence.
Qed.

Lemma Vector3_le_refl (a : BABYLON.Vector3) : Vector3_le a a.
Proof. repeat split; apply Qle_refl. Qed.

Lemma Vector3_le_trans (a b c : BABYLON.Vector3) :
  Vector3_le a b -> Vector3_le b c -> Vector3_le a c.
Proof.
  intros (H1 & H2 & H3) (K1 & K2 & K3).
  repeat split; eapply Qle_trans; eassumption.
Qed.

Lemma Vector3_Minimize_le (a b : BABYLON.Vector3) :
  Vector3_le (BABYLON.Vector3_Minimize a b) a /\ Vector3_le (BABYLON.Vector3_Minimize a b) b.
Proof.
  unfold Vector3_le, BABYLON.Vector3_Minimize. cbn [BABYLON.x BABYLON.y BABYLON.z].
  pose proof (Math_min_le (BABYLON.x a) (BABYLON.x b)).
  pose proof (Math_min_le (BABYLON.y a) (BABYLON.y b)).
  pose proof (Math_min_le (BABYLON.z a) (BABYLON.z b)). tauto.
Qed.

Lemma Vector3_Maximize_ge (a b : BABYLON.Vector3) :
  Vector3_le a (BABYLON.Vector3_Maximize a b) /\ Vector3_le b (BABYLON.Vector3_Maximize a b).
Proof.
  unfold Vector3_le, BABYLON.Vector3_Maximize. cbn [BABYLON.x BABYLON.y BABYLON.z].
  pose proof (Math_max_ge (BABYLON.x a) (BABYLON.x b)).
  pose proof (Math_max_ge (BABYLON.y a) (BABYLON.y b)).
  pose proof (Math_max_ge (BABYLON.z a) (BABYLON.z b)). tauto.
Qed.

Lemma boundingBox_fold (ms : list BABYLON.AbstractMesh) :
  forall acc : BABYLON.Vector3 * BABYLON.Vector3,
    let box :=
      fold_left
        (fun (acc : BABYLON.Vector3 * BABYLON.Vector3) mesh =>
           (BABYLON.Vector3_Minimize (fst acc) (BABYLON.minimumWorld mesh),
            BABYLON.Vector3_Maximize (snd acc) (BABYLON.maximumWorld mesh)))
        ms acc in
    Vector3_le (fst box) (fst acc) /\ Vector3_le (snd acc) (snd box)
    /\ forall m, In m ms ->
                 Vector3_le (fst box) (BABYLON.minimumWorld m)
                 /\ Vector3_le (BABYLON.maximumWorld m) (snd box).
Proof.
  induction ms as [|m0 ms IH]; intro acc; cbv zeta.
  - cbn [fold_left]. split; [apply Vector3_le_refl|]. split; [apply Vector3_le_refl|].
    intros m [].
  - cbn [fold_left].
    destruct (IH (BABYLON.Vector3_Minimize (fst acc) (BABYLON.minimumWorld m0),
                  BABYLON.Vector3_Maximize (snd acc) (BABYLON.maximumWorld m0)))
      as (H1 & H2 & H3).
    cbv zeta in H1, H2, H3. cbn [fst snd] in H1, H2.
    destruct (Vector3_Minimize_le (fst acc) (BABYLON.minimumWorld m0)) as [L1 L2].
    destruct (Vector3_Maximize_ge (snd acc) (BABYLON.maximumWorld m0)) as [G1 G2].
    split; [exact (Vector3_le_trans _ _ _ H1 L1)|].
    split; [exact (Vector3_le_trans _ _ _ G1 H2)|].
    intros m [<- | Hin].
    + split; [exact (Vector3_le_trans _ _ _ H1 L2) | exact (Vector3_le_trans _ _ _ G2 H2)].
    + exact (H3 m Hin).
Qed.

(** X8.  [frameModel] does nothing at all without a scene, a camera, a robot
    or a mesh of the robot.  Otherwise it points the camera at the centre of
    the box that encloses every mesh of the robot, at a distance of one and a
    half times the longest side of the box and never less than 1, and saves
    that view. *)
Theorem frameModel_encloses_robot :
  forall (s : RobotScene),
    ((scene s = false \/ camera s = None \/ currentRobot s = None
      \/ exists robotId robot, currentRobot s = Some (robotId, robot)
                               /\ robotMeshes robot = []) ->
     frameModel s = s)
    /\ (forall cam robotId robot,
           scene s = true -> camera s = Some cam ->
           currentRobot s = Some (robotId, robot) -> robotMeshes robot <> [] ->
           let box := boundingBox (robotMeshes robot) in
           let side (c : BABYLON.Vector3 -> Q) := c (snd box) - c (fst box) in
           exists framed,
             camera (frameModel s) = Some framed
             /\ (forall m, In m (robotMeshes robot) ->
                           Vector3_le (fst box) (BABYLON.minimumWorld m)
                           /\ Vector3_le (BABYLON.maximumWorld m) (snd box))
             /\ BABYLON.target framed = BABYLON.Vector3_Center (fst box) (snd box)
             /\ 1 <= BABYLON.radius framed
             /\ (3 # 2) * side BABYLON.x <= BABYLON.radius framed
             /\ (3 # 2) * side BABYLON.y <= BABYLON.radius framed
             /\ (3 # 2) * side BABYLON.z <= BABYLON.radius framed
             /\ savedFramingTarget (frameModel s) = BABYLON.target framed
             /\ savedFramingRadius (frameModel s) = BABYLON.radius framed).
Proof.
  intro s. split.
  - intros H. unfold frameModel.
    destruct (scene s) eqn:Hs; [|reflexivity]. cbn [negb].
    destruct (camera s) as [cam|] eqn:Hc; [|reflexivity].
    destruct (currentRobot s) as [[robotId robot]|] eqn:Hr; [|reflexivity].
    destruct H as [H | [H | [H | (robotId' & robot' & H & Hms)]]]; try discriminate.
    injection H as _ <-. rewrite Hms. reflexivity.
  - intros cam robotId robot Hs Hc Hr Hms box side.
    destruct (frameModel_frames s cam robotId robot Hs Hc Hr Hms)
      as (_ & F2 & _ & _ & F5 & F6).
    cbv zeta in F2, F5, F6.
    exists (framedCamera (edition s) (robotMeshes robot)).
    split; [exact F2|].
    destruct (boundingBox_fold (robotMeshes robot)
                (BABYLON.mkVector3 JS.Number_MAX_VALUE JS.Number_MAX_VALUE
                   JS.Number_MAX_VALUE,
                 BABYLON.mkVector3 (- JS.Number_MAX_VALUE) (- JS.Number_MAX_VALUE)
                   (- JS.Number_MAX_VALUE))) as (_ & _ & Hbox).
    cbv zeta in Hbox. fold (boundingBox (robotMeshes robot)) in Hbox. fold box in Hbox.
    split; [exact Hbox|].
    rewrite F5, F6. unfold framedCamera, side.
    assert (Ebox : boundingBox (robotMeshes robot) = box) by reflexivity.
    rewrite Ebox. clearbody box. clear Ebox Hbox. destruct box as [lo hi].
    cbn [fst snd BABYLON.target BABYLON.radius BABYLON.subtract BABYLON.x BABYLON.y
           BABYLON.z].
    set (dx := BABYLON.x hi - BABYLON.x lo). set (dy := BABYLON.y hi - BABYLON.y lo).
    set (dz := BABYLON.z hi - BABYLON.z lo).
    pose proof (Math_max_ge dx dy) as [M1 M2].
    pose proof (Math_max_ge (JS.Math_max dx dy) dz) as [M3 M4].
    pose proof (Math_max_ge (JS.Math_max (JS.Math_max dx dy) dz * (3 # 2)) 1) as [M5 M6].
    split; [reflexivity|]. split; [exact M6|].
    split; [lra|]. split; [lra|]. split; [lra|].
    split; reflexivity.
Qed.

(** ** Picks that leave the selection as it is *)

(** X9.  A pick that resolves to the joint that is already hovered disposes
    and constructs nothing: the exercise gizmo and the hovered joint stay as
    they are.  The status text, cleared at the start of the handler, is not
    written again. *)
Theorem repick_keeps_gizmo_and_clears_status :
  forall (s : RobotScene) (picked : BABYLON.AbstractMesh) (cam : BABYLON.ArcRotateCamera)
         (robotId : nat) (robot : Robot.t) (key : string) (j : Joint.t),
    scene s = true -> camera s = Some cam -> currentRobot s = Some (robotId, robot) ->
    resolvedJoint (Some picked) s = Some (key, j) ->
    hoveredJoint s = Some (robotId, key) ->
    let s' := castRay (Some picked) s in
    planeRotationGizmo s' = planeRotationGizmo s
    /\ planePositionGizmo s' = planePositionGizmo s
    /\ liveExerciseGizmos s' = liveExerciseGizmos s
    /\ hoveredJoint s' = Some (robotId, key)
    /\ statusCleared s'.
Proof.
  intros s picked cam robotId robot key j Hs Hc Hr Hres Hhov. cbv zeta.
  unfold resolvedJoint in Hres. rewrite Hr in Hres.
  destruct (findJoint robot picked) as [found lines] eqn:Efind. cbn [fst] in Hres.
  subst found.
  rewrite (castRay_resolved (Some picked) s picked robotId robot cam lines key j
             Hs Hc eq_refl Hr Efind).
  cbv zeta.
  assert (Esame : sameJoint (robotId, key) (hoveredJoint s) = true)
    by (apply sameJoint_true; exact Hhov).
  rewrite Esame.
  destruct (clearStatus_frame s) as (_ & _ & _ & C4 & C5 & C6 & C7 & _ & C9).
  pose proof (clearStatus_cleared s) as Hclear.
  unfold console_log. simpl.
  rewrite C4, C5, C6, C7.
  split; [reflexivity|]. split; [reflexivity|]. split; [reflexivity|].
  split; [exact Hhov|].
  unfold statusCleared in *. simpl. exact Hclear.
Qed.

(** X10.  A pointer-down that hits no mesh, or comes while no robot is
    loaded, only clears the status text: it does not deselect, the exercise
    gizmo and the hovered joint stay.  Without a scene or a camera the
    handler does nothing at all. *)
Theorem pick_on_nothing_keeps_selection :
  forall (s : RobotScene) (hit : option BABYLON.AbstractMesh),
    ((scene s = false \/ camera s = None) -> castRay hit s = s)
    /\ (scene s = true -> camera s <> None -> hit = None \/ currentRobot s = None ->
        castRay hit s = clearStatus s
        /\ statusCleared (castRay hit s)
        /\ planeRotationGizmo (castRay hit s) = planeRotationGizmo s
        /\ planePositionGizmo (castRay hit s) = planePositionGizmo s
        /\ liveExerciseGizmos (castRay hit s) = liveExerciseGizmos s
        /\ hoveredJoint (castRay hit s) = hoveredJoint s).
Proof.
  intros s hit. split.
  - intros [H | H]; unfold castRay; rewrite H; [reflexivity|].
    destruct (scene s); reflexivity.
  - intros Hs Hc Hnone.
    assert (E : castRay hit s = clearStatus s).
    { unfold castRay. rewrite Hs. destruct (camera s) as [cam|]; [|congruence].
      destruct (clearStatus_frame s) as (_ & _ & C3 & _).
      destruct hit as [picked|]; [|reflexivity].
      destruct Hnone as [Hn | Hn]; [discriminate|].
      rewrite C3, Hn. reflexivity. }
    rewrite E.
    destruct (clearStatus_frame s) as (_ & _ & _ & C4 & C5 & C6 & C7 & _).
    split; [reflexivity|]. split; [apply clearStatus_cleared|].
    split; [exact C5|]. split; [exact C6|]. split; [exact C7 | exact C4].
Qed.

(** ** The joint search of the pointer handler *)

Lemma searchJoint_cases (robot : Robot.t) (picked : BABYLON.AbstractMesh)
  (acc : option (string * Joint.t) * list string) (entry : string * Joint.t) :
  fst (searchJoint robot picked acc entry)
  = if isDirectParent picked entry then Some entry
    else match fst acc with
         | Some found => Some found
         | None => if holdsMesh robot picked entry then Some entry else None
         end.
Proof.
  destruct acc as [foundJoint lines]. unfold searchJoint, isDirectParent, holdsMesh.
  cbn [fst snd].
  destruct (JointType_eqb (Joint.type (snd entry)) Fixed); cbn [negb andb].
  - destruct foundJoint; reflexivity.
  - destruct (Joint.transform (snd entry)) as [node|].
    + destruct (parentIs picked node); [reflexivity|].
      destruct (Joint.child (snd entry)) as [child|]; destruct foundJoint as [found|];
        try reflexivity.
      destruct (childHasMesh robot picked child); reflexivity.
    + destruct foundJoint; reflexivity.
Qed.

Lemma searchJoint_fold_found (robot : Robot.t) (picked : BABYLON.AbstractMesh)
  (entries : list (string * Joint.t)) :
  forall acc found,
    fst acc = Some found ->
    forallb (fun e => negb (isDirectParent picked e)) entries = true ->
    fst (fold_left (searchJoint robot picked) entries acc) = Some found.
Proof.
  induction entries as [|e entries IH]; intros acc found Hacc Hnone; [exact Hacc|].
  cbn [fold_left forallb] in *. apply andb_true_iff in Hnone. destruct Hnone as [He Hrest].
  apply negb_true_iff in He. apply IH; [|exact Hrest].
  rewrite searchJoint_cases, He, Hacc. reflexivity.
Qed.

Lemma searchJoint_fold_none (robot : Robot.t) (picked : BABYLON.AbstractMesh)
  (entries : list (string * Joint.t)) :
  forall acc,
    fst acc = None ->
    forallb (fun e => negb (isDirectParent picked e)) entries = true ->
    forallb (fun e => negb (holdsMesh robot picked e)) entries = true ->
    fst (fold_left (searchJoint robot picked) entries acc) = None.
Proof.
  induction entries as [|e entries IH]; intros acc Hacc Hnone Hnone'; [exact Hacc|].
  cbn [fold_left forallb] in *.
  apply andb_true_iff in Hnone. destruct Hnone as [He Hrest].
  apply andb_true_iff in Hnone'. destruct Hnone' as [He' Hrest'].
  apply negb_true_iff in He, He'. apply IH; [|exact Hrest | exact Hrest'].
  rewrite searchJoint_cases, He, He', Hacc. reflexivity.
Qed.

(** X11.  The joint search of the pointer handler goes over all joints, and
    a later match by parent overrides what was found before: the joint found
    is the last non-fixed joint whose transform is the parent of the picked
    mesh; if there is none, it is the first non-fixed joint with a transform
    whose child link has the picked mesh in one of its visuals; if there is
    none either, no joint is found. *)
Theorem findJoint_precedence :
  forall (robot : Robot.t) (picked : BABYLON.AbstractMesh)
         (before after : list (string * Joint.t)) (entry : string * Joint.t),
    (Robot.joints robot = before ++ entry :: after ->
     isDirectParent picked entry = true ->
     forallb (fun e => negb (isDirectParent picked e)) after = true ->
     fst (findJoint robot picked) = Some entry)
    /\ (Robot.joints robot = before ++ entry :: after ->
        forallb (fun e => negb (isDirectParent picked e)) (Robot.joints robot) = true ->
        holdsMesh robot picked entry = true ->
        forallb (fun e => negb (holdsMesh robot picked e)) before = true ->
        fst (findJoint robot picked) = Some entry)
    /\ (forallb (fun e => negb (isDirectParent picked e)) (Robot.joints robot) = true ->
        forallb (fun e => negb (holdsMesh robot picked e)) (Robot.joints robot) = true ->
        fst (findJoint robot picked) = None).
Proof.
  intros robot picked before after entry. unfold findJoint.
  split; [|split].
  - intros Hj Hd Hafter. rewrite Hj, fold_left_app. cbn [fold_left].
    apply searchJoint_fold_found; [|exact Hafter].
    rewrite searchJoint_cases, Hd. reflexivity.
  - intros Hj Hnone Hm Hbefore. rewrite Hj in *. rewrite fold_left_app. cbn [fold_left].
    rewrite forallb_app in Hnone. apply andb_true_iff in Hnone.
    destruct Hnone as [Hnb Hna]. cbn [forallb] in Hna. apply andb_true_iff in Hna.
    destruct Hna as [Hne Hna]. apply negb_true_iff in Hne.
    apply searchJoint_fold_found; [|exact Hna].
    rewrite searchJoint_cases, Hne, Hm.
    rewrite (searchJoint_fold_none robot picked before (None, []) eq_refl Hnb Hbefore).
    reflexivity.
  - intros Hnone Hnone'. apply searchJoint_fold_none; [reflexivity | exact Hnone | exact Hnone'].
Qed.

(** ** What [applyURDF] reports, and to whom *)

Section Reporting.

Variable deserializeUrdfToRobot : string -> Deserialized.
Variable create : Robot.t -> Robot.t.

Lemma applyURDF_sceneless_reports (urdfText : string) (vscode : bool) (s : RobotScene) :
  scene s = false ->
  let s' := applyURDF deserializeUrdfToRobot create urdfText vscode s in
  posted s'
  = posted s ++ (if vscode then [("trace", "loading urdf"); ("trace", "loaded urdf")]
                 else [])%string
  /\ consoleErrors s' = consoleErrors s
  /\ currentURDF s' = currentURDF s.
Proof.
  intros Hs. cbv zeta. unfold applyURDF, applyURDF_settled.
  destruct (applyURDF_begin_spec vscode s)
    as (_ & _ & _ & _ & _ & _ & _ & _ & B9 & _ & B11 & B12 & _).
  cbv zeta in B9, B11, B12.
  assert (Burdf : currentURDF (applyURDF_begin vscode s) = currentURDF s).
  { unfold applyURDF_begin. destruct vscode; destruct (currentRobot s) as [[robotId robot]|];
      destruct (edition s); unfold clearStatus, clearJointExerciseGizmos, postMessage,
      dispose_robot, dispose_gizmo; simpl;
      repeat match goal with
             | |- context [match ?x with _ => _ end] => destruct x; simpl
             end; reflexivity. }
  set (s0 := applyURDF_begin vscode s) in *. clearbody s0.
  rewrite B9, Hs. destruct vscode.
  - unfold postMessage. simpl. rewrite B11, B12, Burdf, <- app_assoc. repeat split.
  - rewrite B11, B12, Burdf, app_nil_r. repeat split.
Qed.

End Reporting.

(** X12.  [applyURDF] reports to the host when one is given and to the
    console otherwise.  With a host it posts the trace "loading urdf" and
    then either the trace "loaded urdf" or the error message, and writes no
    error to the console; without one it posts nothing and writes one error
    line if the parse fails.  Called before there is a scene, it loads
    nothing and still reports "loaded urdf". *)
Theorem applyURDF_reports_to_host_or_console :
  forall (deserializeUrdfToRobot : string -> Deserialized) (create : Robot.t -> Robot.t)
         (s : RobotScene) (urdfText : string) (vscode : bool),
    let s' := applyURDF deserializeUrdfToRobot create urdfText vscode s in
    let failure :=
      match scene s, deserializeUrdfToRobot urdfText with
      | true, Rejected message => Some message
      | _, _ => None
      end in
    posted s'
    = posted s
      ++ (if vscode
          then [("trace", "loading urdf");
                match failure with
                | Some message => ("error", message)
                | None => ("trace", "loaded urdf")
                end]
          else [])%string
    /\ consoleErrors s'
       = consoleErrors s
         ++ match vscode, failure with
            | false, Some message => [("Error loading urdf: " ++ message)%string]
            | _, _ => []
            end
    /\ (scene s = false -> currentRobot s' = None /\ currentURDF s' = currentURDF s).
Proof.
  intros deserializeUrdfToRobot create s urdfText vscode. cbv zeta.
  destruct (scene s) eqn:Hs.
  - destruct (deserializeUrdfToRobot urdfText) as [robot | message] eqn:Hd.
    + destruct (applyURDF_resolved_spec deserializeUrdfToRobot create urdfText vscode robot s
                  Hs Hd)
        as (_ & _ & _ & _ & _ & _ & _ & _ & _ & _ & _ & _ & _ & _ & _ & A16 & A17 & _).
      cbv zeta in A16, A17. rewrite A16, A17.
      split; [reflexivity|]. split; [|discriminate].
      destruct vscode; rewrite app_nil_r; reflexivity.
    + destruct (applyURDF_rejected_spec deserializeUrdfToRobot create urdfText vscode message
                  s Hs Hd)
        as (_ & _ & _ & _ & _ & _ & _ & _ & _ & _ & _ & _ & A13 & A14).
      cbv zeta in A13, A14. rewrite A13, A14.
      split; [reflexivity|]. split; [|discriminate].
      destruct vscode; reflexivity.
  - destruct (applyURDF_sceneless_reports deserializeUrdfToRobot create urdfText vscode s Hs)
      as (P1 & P2 & P3).
    destruct (applyURDF_sceneless_spec deserializeUrdfToRobot create urdfText vscode s Hs)
      as (S1 & _).
    cbv zeta in P1, P2, P3, S1. rewrite P1, P2.
    split; [reflexivity|]. split; [|intros _; split; assumption].
    destruct vscode; rewrite app_nil_r; reflexivity.
Qed.

(** ** The robots a scene receives and disposes *)

Lemma clearStatus_disposed (s : RobotScene) :
  disposedRobots (clearStatus s) = disposedRobots s.
Proof.
  unfold clearStatus. destruct (edition s); [destruct (status3DText s)|]; reflexivity.
Qed.

Lemma clearJointExerciseGizmos_disposed (s : RobotScene) :
  disposedRobots (clearJointExerciseGizmos s) = disposedRobots s.
Proof.
  unfold clearJointExerciseGizmos, dispose_gizmo.
  destruct (planeRotationGizmo s); simpl; destruct (planePositionGizmo s); reflexivity.
Qed.

Lemma updateJointStatusLabel_disposed (joint : Joint.t) (s : RobotScene) :
  disposedRobots (updateJointStatusLabel joint s) = disposedRobots s.
Proof.
  unfold updateJointStatusLabel. destruct (Joint.transform joint); [|reflexivity].
  destruct (edition s); [destruct (status3DText s)|]; reflexivity.
Qed.

Lemma addExerciseGizmoToJoint_disposed (ref : JointRef) (joint : Joint.t) (s : RobotScene) :
  disposedRobots (addExerciseGizmoToJoint ref joint s) = disposedRobots s.
Proof.
  unfold addExerciseGizmoToJoint. destruct (Joint.transform joint); [|reflexivity].
  destruct (Joint.type joint); reflexivity.
Qed.

Lemma set_hoveredJoint_disposed (h : option JointRef) (s : RobotScene) :
  disposedRobots (set_hoveredJoint h s) = disposedRobots s.
Proof. reflexivity. Qed.

Lemma set_console_disposed (lines : list string) (s : RobotScene) :
  disposedRobots (set_console lines s) = disposedRobots s.
Proof. reflexivity. Qed.

Lemma console_log_disposed (line : string) (s : RobotScene) :
  disposedRobots (console_log line s) = disposedRobots s.
Proof. reflexivity. Qed.

Lemma castRay_disposed (hit : option BABYLON.AbstractMesh) (s : RobotScene) :
  disposedRobots (castRay hit s) = disposedRobots s.
Proof.
  destruct (scene s) eqn:Hs.
  2:{ destruct (castRay_idle hit s) as [E | E]; [auto | |]; rewrite E;
        [reflexivity | apply clearStatus_disposed]. }
  destruct (camera s) as [cam|] eqn:Hc.
  2:{ destruct (castRay_idle hit s) as [E | E]; [auto | |]; rewrite E;
        [reflexivity | apply clearStatus_disposed]. }
  destruct hit as [picked|].
  2:{ destruct (castRay_idle None s) as [E | E]; [auto | |]; rewrite E;
        [reflexivity | apply clearStatus_disposed]. }
  destruct (currentRobot s) as [[robotId robot]|] eqn:Hrob.
  2:{ destruct (castRay_idle (Some picked) s) as [E | E]; [auto 6 | |]; rewrite E;
        [reflexivity | apply clearStatus_disposed]. }
  destruct (findJoint robot picked) as [[[key j]|] lines] eqn:Hf.
  - rewrite (castRay_resolved (Some picked) s picked robotId robot cam lines key j
               Hs Hc eq_refl Hrob Hf).
    cbv zeta. destruct (sameJoint (robotId, key) (hoveredJoint s)).
    + rewrite console_log_disposed, set_console_disposed. apply clearStatus_disposed.
    + destruct (Joint.transform j);
        rewrite ?updateJointStatusLabel_disposed, addExerciseGizmoToJoint_disposed,
          set_hoveredJoint_disposed, clearJointExerciseGizmos_disposed,
          console_log_disposed, set_console_disposed;
        apply clearStatus_disposed.
  - rewrite (castRay_unresolved (Some picked) s picked robotId robot cam lines
               Hs Hc eq_refl Hrob Hf).
    rewrite clearStatus_disposed, clearJointExerciseGizmos_disposed,
      set_hoveredJoint_disposed, set_console_disposed.
    apply clearStatus_disposed.
Qed.

Lemma frameModel_disposed (s : RobotScene) :
  disposedRobots (frameModel s) = disposedRobots s.
Proof.
  unfold frameModel.
  destruct (negb (scene s)); [reflexivity|].
  destruct (camera s); [|reflexivity].
  destruct (currentRobot s) as [[robotId robot]|]; [|reflexivity].
  destruct (robotMeshes robot); reflexivity.
Qed.

Lemma timerFires_disposed (s : RobotScene) :
  disposedRobots (timerFires s) = disposedRobots s.
Proof.
  unfold timerFires. destruct (timers s); [reflexivity|].
  rewrite frameModel_disposed. reflexivity.
Qed.

Lemma updateOverallProgress_disposed (s : RobotScene) :
  disposedRobots (updateOverallProgress s) = disposedRobots s.
Proof.
  unfold updateOverallProgress.
  destruct (negb (onProgressCallback s) || (totalMeshes s =? 0)%Z); reflexivity.
Qed.

Lemma onMeshLoadProgress_disposed (id : string) (event : BABYLON.ISceneLoaderProgressEvent)
  (s : RobotScene) :
  disposedRobots (onMeshLoadProgress id event s) = disposedRobots s.
Proof.
  unfold onMeshLoadProgress. rewrite updateOverallProgress_disposed. reflexivity.
Qed.

Lemma onMeshLoadComplete_disposed (id : string) (s : RobotScene) :
  disposedRobots (onMeshLoadComplete id s) = disposedRobots s.
Proof.
  destruct_state s. unfold onMeshLoadComplete, updateOverallProgress.
  destruct e; project; repeat (case_if; project); reflexivity.
Qed.

Section Robots.

Variable deserializeUrdfToRobot : string -> Deserialized.
Variable create : Robot.t -> Robot.t.

Lemma applyURDF_sceneless_disposed (urdfText : string) (vscode : bool) (s : RobotScene) :
  scene s = false ->
  disposedRobots (applyURDF deserializeUrdfToRobot create urdfText vscode s)
  = disposedRobots s ++ disposedByApply s.
Proof.
  intro Hs. unfold applyURDF, applyURDF_settled.
  destruct (applyURDF_begin_spec vscode s) as (_ & B2 & _ & _ & _ & _ & _ & _ & B9 & _).
  cbv zeta in B2, B9.
  set (s0 := applyURDF_begin vscode s) in *. clearbody s0.
  rewrite B9, Hs. destruct vscode; [unfold postMessage; simpl|]; exact B2.
Qed.

Lemma applyURDF_robots (urdfText : string) (vscode : bool) (s : RobotScene) :
  robotsInvariant s ->
  robotsInvariant (applyURDF deserializeUrdfToRobot create urdfText vscode s).
Proof.
  intros (Hnd & Hlt & Hcur & Hall).
  assert (Hnd' : NoDup (disposedRobots s ++ disposedByApply s)).
  { unfold disposedByApply. destruct (currentRobot s) as [[robotId robot]|] eqn:Hr.
    - destruct (Hcur robotId robot eq_refl) as [_ Hnot].
      apply NoDup_app; [exact Hnd | repeat constructor; intros [] | ].
      intros x Hx [<- | []]. exact (Hnot Hx).
    - rewrite app_nil_r. exact Hnd. }
  assert (Hlt' : forall robotId, In robotId (disposedRobots s ++ disposedByApply s) ->
                                 (robotId < robotsAllocated s)%nat).
  { intros robotId Hin. apply in_app_or in Hin. destruct Hin as [Hin | Hin].
    - exact (Hlt robotId Hin).
    - unfold disposedByApply in Hin.
      destruct (currentRobot s) as [[robotId' robot]|] eqn:Hr; [|destruct Hin].
      destruct Hin as [<- | []]. exact (proj1 (Hcur robotId' robot eq_refl)). }
  assert (Hall' : forall robotId, (robotId < robotsAllocated s)%nat ->
                                  In robotId (disposedRobots s ++ disposedByApply s)).
  { intros robotId Hid. apply in_or_app. destruct (Hall robotId Hid) as [H | [robot H]].
    - left. exact H.
    - right. unfold disposedByApply. rewrite H. left. reflexivity. }
  unfold robotsInvariant.
  destruct (scene s) eqn:Hs.
  - destruct (deserializeUrdfToRobot urdfText) as [robot | message] eqn:Hd.
    + destruct (applyURDF_resolved_spec deserializeUrdfToRobot create urdfText vscode robot s
                  Hs Hd) as (A1 & A2 & A3 & _).
      cbv zeta in A1, A2, A3. rewrite A1, A2, A3.
      split; [exact Hnd'|]. split; [intros robotId Hin; apply Hlt' in Hin; lia|].
      split.
      * intros robotId robot' E. injection E as <- _. split; [lia|].
        intro Hin. apply Hlt' in Hin. lia.
      * intros robotId Hid. destruct (Nat.eq_dec robotId (robotsAllocated s)) as [-> | Hne].
        -- right. eexists. reflexivity.
        -- left. apply Hall'. lia.
    + destruct (applyURDF_rejected_spec deserializeUrdfToRobot create urdfText vscode message
                  s Hs Hd) as (A1 & A2 & A3 & _).
      cbv zeta in A1, A2, A3. rewrite A1, A2, A3.
      split; [exact Hnd'|]. split; [exact Hlt'|]. split; [discriminate|].
      intros robotId Hid. left. exact (Hall' robotId Hid).
  - destruct (applyURDF_sceneless_spec deserializeUrdfToRobot create urdfText vscode s Hs)
      as (A1 & A2 & _).
    cbv zeta in A1, A2. rewrite A1, A2, (applyURDF_sceneless_disposed urdfText vscode s Hs).
    split; [exact Hnd'|]. split; [exact Hlt'|]. split; [discriminate|].
    intros robotId Hid. left. exact (Hall' robotId Hid).
Qed.

Lemma robotsInvariant_frame (s s' : RobotScene) :
  selectionFields s' = selectionFields s -> disposedRobots s' = disposedRobots s ->
  robotsInvariant s -> robotsInvariant s'.
Proof.
  intros E Ed. destruct (selectionFields_eq s s' E) as (_ & _ & _ & E4 & _ & E6 & _).
  unfold robotsInvariant. rewrite E4, E6, Ed. exact (fun H => H).
Qed.

Lemma clearStatus_robots (s : RobotScene) :
  currentRobot (clearStatus s) = currentRobot s
  /\ robotsAllocated (clearStatus s) = robotsAllocated s.
Proof.
  destruct (clearStatus_frame s) as (_ & _ & C3 & _ & _ & _ & _ & C8 & _).
  split; assumption.
Qed.

Lemma clearJointExerciseGizmos_robots (s : RobotScene) :
  currentRobot (clearJointExerciseGizmos s) = currentRobot s
  /\ robotsAllocated (clearJointExerciseGizmos s) = robotsAllocated s.
Proof.
  destruct (clearJointExerciseGizmos_spec s) as (_ & _ & _ & _ & J5 & J6 & _).
  split; assumption.
Qed.

Lemma updateJointStatusLabel_robots (j : Joint.t) (s : RobotScene) :
  currentRobot (updateJointStatusLabel j s) = currentRobot s
  /\ robotsAllocated (updateJointStatusLabel j s) = robotsAllocated s.
Proof.
  destruct (updateJointStatusLabel_frame j s) as (_ & _ & _ & _ & U5 & U6 & _).
  split; assumption.
Qed.

Lemma addExerciseGizmoToJoint_robots (ref : JointRef) (j : Joint.t) (s : RobotScene) :
  currentRobot (addExerciseGizmoToJoint ref j s) = currentRobot s
  /\ robotsAllocated (addExerciseGizmoToJoint ref j s) = robotsAllocated s.
Proof.
  unfold addExerciseGizmoToJoint. destruct (Joint.transform j); [|split; reflexivity].
  destruct (Joint.type j); split; reflexivity.
Qed.

Lemma set_hoveredJoint_robots (h : option JointRef) (s : RobotScene) :
  currentRobot (set_hoveredJoint h s) = currentRobot s
  /\ robotsAllocated (set_hoveredJoint h s) = robotsAllocated s.
Proof. split; reflexivity. Qed.

Lemma set_console_robots (lines : list string) (s : RobotScene) :
  currentRobot (set_console lines s) = currentRobot s
  /\ robotsAllocated (set_console lines s) = robotsAllocated s.
Proof. split; reflexivity. Qed.

Lemma console_log_robots (line : string) (s : RobotScene) :
  currentRobot (console_log line s) = currentRobot s
  /\ robotsAllocated (console_log line s) = robotsAllocated s.
Proof. split; reflexivity. Qed.

Ltac robots_frame :=
  repeat first
    [ rewrite (proj1 (clearStatus_robots _)) | rewrite (proj2 (clearStatus_robots _))
    | rewrite (proj1 (clearJointExerciseGizmos_robots _))
    | rewrite (proj2 (clearJointExerciseGizmos_robots _))
    | rewrite (proj1 (updateJointStatusLabel_robots _ _))
    | rewrite (proj2 (updateJointStatusLabel_robots _ _))
    | rewrite (proj1 (addExerciseGizmoToJoint_robots _ _ _))
    | rewrite (proj2 (addExerciseGizmoToJoint_robots _ _ _))
    | rewrite (proj1 (set_hoveredJoint_robots _ _))
    | rewrite (proj2 (set_hoveredJoint_robots _ _))
    | rewrite (proj1 (set_console_robots _ _)) | rewrite (proj2 (set_console_robots _ _))
    | rewrite (proj1 (console_log_robots _ _)) | rewrite (proj2 (console_log_robots _ _)) ].

Lemma castRay_robots (hit : option BABYLON.AbstractMesh) (s : RobotScene) :
  currentRobot (castRay hit s) = currentRobot s
  /\ robotsAllocated (castRay hit s) = robotsAllocated s.
Proof.
  destruct (scene s) eqn:Hs.
  2:{ destruct (castRay_idle hit s) as [E | E]; [auto | |]; rewrite E;
        [split; reflexivity | apply clearStatus_robots]. }
  destruct (camera s) as [cam|] eqn:Hc.
  2:{ destruct (castRay_idle hit s) as [E | E]; [auto | |]; rewrite E;
        [split; reflexivity | apply clearStatus_robots]. }
  destruct hit as [picked|].
  2:{ destruct (castRay_idle None s) as [E | E]; [auto | |]; rewrite E;
        [split; reflexivity | apply clearStatus_robots]. }
  destruct (currentRobot s) as [[robotId robot]|] eqn:Hrob.
  2:{ destruct (castRay_idle (Some picked) s) as [E | E]; [auto 6 | |]; rewrite E;
        [split; [exact Hrob | reflexivity]|].
      rewrite <- Hrob. apply clearStatus_robots. }
  rewrite <- Hrob.
  destruct (findJoint robot picked) as [[[key j]|] lines] eqn:Hf.
  - rewrite (castRay_resolved (Some picked) s picked robotId robot cam lines key j
               Hs Hc eq_refl Hrob Hf).
    cbv zeta. destruct (sameJoint (robotId, key) (hoveredJoint s)).
    + robots_frame. split; reflexivity.
    + destruct (Joint.transform j); robots_frame; split; reflexivity.
  - rewrite (castRay_unresolved (Some picked) s picked robotId robot cam lines
               Hs Hc eq_refl Hrob Hf).
    robots_frame. split; reflexivity.
Qed.

Lemma castRay_robotsInvariant (hit : option BABYLON.AbstractMesh) (s : RobotScene) :
  robotsInvariant s -> robotsInvariant (castRay hit s).
Proof.
  destruct (castRay_robots hit s) as [E1 E2].
  unfold robotsInvariant. rewrite E1, E2, castRay_disposed. exact (fun H => H).
Qed.

Lemma step_robots (s : RobotScene) (e : Event) :
  robotsInvariant s -> robotsInvariant (step deserializeUrdfToRobot create s e).
Proof.
  intro H. destruct e as [urdfText vscode | hit | id event | id | | rebuilt | | pose];
    cbn [step].
  - apply applyURDF_robots. exact H.
  - apply castRay_robotsInvariant. exact H.
  - destruct (edition s); [exact H|].
    exact (robotsInvariant_frame _ _ (onMeshLoadProgress_selection id event s)
             (onMeshLoadProgress_disposed id event s) H).
  - exact (robotsInvariant_frame _ _ (onMeshLoadComplete_selection id s)
             (onMeshLoadComplete_disposed id s) H).
  - exact (robotsInvariant_frame _ _ (timerFires_selection s) (timerFires_disposed s) H).
  - refine (robotsInvariant_frame _ _ (resetCamera_selection rebuilt s) _ H).
    unfold resetCamera. destruct (camera s); [|reflexivity].
    destruct (hasBeenFramed s); reflexivity.
  - refine (robotsInvariant_frame _ _ (setLoadProgressCallback_selection s) _ H).
    unfold setLoadProgressCallback. destruct (edition s); reflexivity.
  - refine (robotsInvariant_frame _ _ (cameraMoved_selection pose s) _ H).
    unfold cameraMoved. destruct (camera s); reflexivity.
Qed.

Lemma reachable_robots (s : RobotScene) :
  reachable deserializeUrdfToRobot create s -> robotsInvariant s.
Proof.
  induction 1 as [e | s Hreach IH He | s e Hreach IH].
  - unfold robotsInvariant. cbn.
    split; [constructor|]. split; [intros ? []|]. split; [discriminate|].
    intros robotId Hlt. inversion Hlt.
  - exact IH.
  - apply step_robots. exact IH.
Qed.

Lemma applyURDF_reset_robots (urdfText : string) (s : RobotScene) :
  currentRobot (applyURDF_reset urdfText s) = currentRobot s
  /\ robotsAllocated (applyURDF_reset urdfText s) = robotsAllocated s
  /\ disposedRobots (applyURDF_reset urdfText s) = disposedRobots s.
Proof.
  unfold applyURDF_reset. cbv zeta. cbn [edition set_hasBeenFramed set_pendingMeshLoads
                                          set_currentURDF].
  destruct (edition s); repeat split; reflexivity.
Qed.

Lemma applyURDF_call_robots (urdfText : string) (vscode : bool) (s : RobotScene) :
  robotsInvariant s ->
  robotsInvariant (applyURDF_call urdfText vscode s)
  /\ currentRobot (applyURDF_call urdfText vscode s) = None.
Proof.
  intros (Hnd & Hlt & Hcur & Hall).
  assert (Hnd' : NoDup (disposedRobots s ++ disposedByApply s)).
  { unfold disposedByApply. destruct (currentRobot s) as [[robotId robot]|] eqn:Hr.
    - destruct (Hcur robotId robot eq_refl) as [_ Hnot].
      apply NoDup_app; [exact Hnd | repeat constructor; intros [] | ].
      intros x Hx [<- | []]. exact (Hnot Hx).
    - rewrite app_nil_r. exact Hnd. }
  assert (Hlt' : forall robotId, In robotId (disposedRobots s ++ disposedByApply s) ->
                                 (robotId < robotsAllocated s)%nat).
  { intros robotId Hin. apply in_app_or in Hin. destruct Hin as [Hin | Hin].
    - exact (Hlt robotId Hin).
    - unfold disposedByApply in Hin.
      destruct (currentRobot s) as [[robotId' robot]|] eqn:Hr; [|destruct Hin].
      destruct Hin as [<- | []]. exact (proj1 (Hcur robotId' robot eq_refl)). }
  assert (Hall' : forall robotId, (robotId < robotsAllocated s)%nat ->
                                  In robotId (disposedRobots s ++ disposedByApply s)).
  { intros robotId Hid. apply in_or_app. destruct (Hall robotId Hid) as [H | [robot H]].
    - left. exact H.
    - right. unfold disposedByApply. rewrite H. left. reflexivity. }
  destruct (applyURDF_begin_spec vscode s) as (B1 & B2 & _ & _ & _ & _ & B7 & _).
  cbv zeta in B1, B2, B7.
  assert (E : currentRobot (applyURDF_call urdfText vscode s) = None
              /\ robotsAllocated (applyURDF_call urdfText vscode s) = robotsAllocated s
              /\ disposedRobots (applyURDF_call urdfText vscode s)
                 = disposedRobots s ++ disposedByApply s).
  { unfold applyURDF_call. cbv zeta.
    set (s0 := applyURDF_begin vscode s) in *. clearbody s0.
    destruct (scene s0).
    - destruct (applyURDF_reset_robots urdfText s0) as (R1 & R2 & R3).
      rewrite R1, R2, R3. repeat split; assumption.
    - destruct vscode; repeat split; assumption. }
  destruct E as (E1 & E2 & E3).
  split; [|exact E1].
  unfold robotsInvariant. rewrite E1, E2, E3.
  split; [exact Hnd'|]. split; [exact Hlt'|]. split; [discriminate|].
  intros robotId Hid. left. exact (Hall' robotId Hid).
Qed.

Lemma applyURDF_resolved_robots (vscode : bool) (robot : Robot.t) (s : RobotScene) :
  let s' := applyURDF_resolved create vscode robot s in
  currentRobot s' = Some (robotsAllocated s, create robot)
  /\ robotsAllocated s' = S (robotsAllocated s)
  /\ disposedRobots s' = disposedRobots s.
Proof.
  unfold applyURDF_resolved. simpl.
  destruct (edition s) eqn:He; simpl; rewrite ?He; simpl.
  - rewrite fold_trackMesh_immersive by exact He. simpl.
    destruct (_ =? 0)%Z; destruct (hasBeenFramed s); destruct vscode; simpl;
      repeat split; reflexivity.
  - rewrite !fold_countMesh. simpl.
    destruct (onProgressCallback s && _); simpl;
      rewrite fold_trackMesh_desktop by exact He; simpl;
      destruct (_ =? 0)%Z; destruct (hasBeenFramed s); destruct vscode; simpl;
      repeat split; reflexivity.
Qed.

Lemma applyURDF_settled_robots (urdfText : string) (vscode : bool) (s : RobotScene) :
  robotsInvariant s -> currentRobot s = None ->
  robotsInvariant (applyURDF_settled deserializeUrdfToRobot create urdfText vscode s).
Proof.
  intros (Hnd & Hlt & Hcur & Hall) Hnone. unfold applyURDF_settled.
  destruct (deserializeUrdfToRobot urdfText) as [robot | message].
  - destruct (applyURDF_resolved_robots vscode robot s) as (A1 & A2 & A3).
    cbv zeta in A1, A2, A3. unfold robotsInvariant. rewrite A1, A2, A3.
    split; [exact Hnd|]. split; [intros robotId Hin; apply Hlt in Hin; lia|].
    split.
    + intros robotId robot' E. injection E as <- _. split; [lia|].
      intro Hin. apply Hlt in Hin. lia.
    + intros robotId Hid. destruct (Nat.eq_dec robotId (robotsAllocated s)) as [-> | Hne].
      * right. eexists. reflexivity.
      * left. destruct (Hall robotId) as [H | [robot' H]]; [lia | exact H | congruence].
  - unfold applyURDF_catch.
    destruct vscode; unfold robotsInvariant; cbn; rewrite ?Hnone;
      (split; [exact Hnd|]; split; [exact Hlt|]; split; [discriminate|]);
      intros robotId Hid; destruct (Hall robotId Hid) as [H | [robot' H]];
      [left; exact H | congruence | left; exact H | congruence].
Qed.

Lemma step_currentRobot (s : RobotScene) (e : Event) :
  isApplyURDF e = false ->
  currentRobot (step deserializeUrdfToRobot create s e) = currentRobot s.
Proof.
  intro He. destruct e as [urdfText vscode | hit | id event | id | | rebuilt | | pose];
    try discriminate He; cbn [step].
  - exact (proj1 (castRay_robots hit s)).
  - destruct (edition s); [reflexivity|].
    destruct (selectionFields_eq _ _ (onMeshLoadProgress_selection id event s))
      as (_ & _ & _ & E & _). exact E.
  - destruct (selectionFields_eq _ _ (onMeshLoadComplete_selection id s))
      as (_ & _ & _ & E & _). exact E.
  - destruct (selectionFields_eq _ _ (timerFires_selection s)) as (_ & _ & _ & E & _).
    exact E.
  - destruct (selectionFields_eq _ _ (resetCamera_selection rebuilt s)) as (_ & _ & _ & E & _).
    exact E.
  - destruct (selectionFields_eq _ _ (setLoadProgressCallback_selection s))
      as (_ & _ & _ & E & _). exact E.
  - destruct (selectionFields_eq _ _ (cameraMoved_selection pose s)) as (_ & _ & _ & E & _).
    exact E.
Qed.

Lemma resume_short (urdfText : string) (vscode : bool) (suspended rest : list (string * bool)) :
  (List.length suspended <= 1)%nat ->
  resume urdfText vscode suspended = Some rest -> suspended <> [] /\ rest = [].
Proof.
  destruct suspended as [|[urdfText' vscode'] [|call suspended]]; cbn [resume List.length];
    intros Hlen H.
  - discriminate.
  - destruct (String.eqb urdfText' urdfText && Bool.eqb vscode' vscode);
      [injection H as <-; split; [discriminate | reflexivity] | discriminate].
  - lia.
Qed.

Lemma awaited_invariant (state : RobotScene * list (string * bool)) :
  awaited deserializeUrdfToRobot create state -> awaitedInvariant state.
Proof.
  induction 1 as [e | s suspended Hreach IH He | s urdfText vscode Hreach IH
                  | s suspended urdfText vscode Hreach IH | s suspended e Hreach IH He].
  - unfold awaitedInvariant, robotsInvariant. cbn.
    split; [|split; [lia | intro H; elim H; reflexivity]].
    split; [constructor|]. split; [intros ? []|]. split; [discriminate|].
    intros robotId Hlt. inversion Hlt.
  - exact IH.
  - destruct IH as (Hinv & _ & _). cbn [taskStep].
    destruct (applyURDF_call_robots urdfText vscode s Hinv) as [Hinv' Hnone].
    split; [exact Hinv'|]. split; [destruct (scene s); cbn; lia|].
    intros _. exact Hnone.
  - destruct IH as (Hinv & Hlen & Hnone). cbn [taskStep].
    destruct (resume urdfText vscode suspended) as [rest|] eqn:Er.
    + destruct (resume_short urdfText vscode suspended rest Hlen Er) as [Hne ->].
      split; [exact (applyURDF_settled_robots urdfText vscode s Hinv (Hnone Hne))|].
      split; [cbn; lia | intro H; elim H; reflexivity].
    + split; [exact Hinv|]. split; assumption.
  - destruct IH as (Hinv & Hlen & Hnone). cbn [taskStep].
    split; [exact (step_robots s e Hinv)|].
    split; [exact Hlen|].
    intro Hne. rewrite step_currentRobot; [exact (Hnone Hne)|].
    destruct e; try reflexivity. contradiction.
Qed.

Lemma reachable_awaited (s : RobotScene) :
  reachable deserializeUrdfToRobot create s -> awaited deserializeUrdfToRobot create (s, []).
Proof.
  induction 1 as [e | s Hreach IH He | s e Hreach IH].
  - constructor.
  - apply awaited_create3DUI; assumption.
  - apply (awaited_happen (deserializeUrdfToRobot := deserializeUrdfToRobot)
             (create := create) (s := s) (suspended := []) e IH).
    destruct e; exact I || reflexivity.
Qed.

End Robots.

(** X13.  Provided [applyURDF] is not called while a call is suspended, in
    every state a scene can be in - also between a call and its continuation
    - [dispose()] has been called at most once on each robot and never on
    the current one, and every robot the scene has received is either the
    current robot or has been disposed.  The states reached when every call
    runs its continuation at once are among these.  When two calls overlap,
    the continuation of the second replaces the robot of the first without
    disposing it: a state is reached in which a robot the scene has received
    is neither current nor disposed. *)
Theorem robots_disposed_exactly_once :
  (forall (deserializeUrdfToRobot : string -> Deserialized) (create : Robot.t -> Robot.t)
          (s : RobotScene) (suspended : list (string * bool)),
      awaited deserializeUrdfToRobot create (s, suspended) ->
      NoDup (disposedRobots s)
      /\ (forall robotId robot,
             currentRobot s = Some (robotId, robot) -> ~ In robotId (disposedRobots s))
      /\ (forall robotId,
             (robotId < robotsAllocated s)%nat ->
             In robotId (disposedRobots s)
             \/ exists robot, currentRobot s = Some (robotId, robot))
      /\ (forall robotId,
             In robotId (disposedRobots s) -> (robotId < robotsAllocated s)%nat))
  /\ (forall (deserializeUrdfToRobot : string -> Deserialized) (create : Robot.t -> Robot.t)
             (s : RobotScene),
         reachable deserializeUrdfToRobot create s ->
         awaited deserializeUrdfToRobot create (s, []))
  /\ (exists state : RobotScene * list (string * bool),
         interleaved Demo.deserializeUrdfToRobot Demo.create state
         /\ (0 < robotsAllocated (fst state))%nat
         /\ ~ In 0%nat (disposedRobots (fst state))
         /\ forall robot, currentRobot (fst state) <> Some (0%nat, robot)).
Proof.
  split; [|split].
  - intros deserializeUrdfToRobot create s suspended Hreach.
    destruct (awaited_invariant deserializeUrdfToRobot create (s, suspended) Hreach)
      as ((H1 & H2 & H3 & H4) & _).
    split; [exact H1|]. split; [|split; [exact H4 | exact H2]].
    intros robotId robot Hr. exact (proj2 (H3 robotId robot Hr)).
  - exact reachable_awaited.
  - exists (Demo.runTasks Demo.desktop
              [Call "<robot name='shell'>" false; Call "<robot name='pedestal'>" false;
               Settle "<robot name='shell'>" false; Settle "<robot name='pedestal'>" false]).
    split.
    + unfold Demo.runTasks, runTasks. cbn [fold_left].
      repeat apply interleaved_step. apply (interleaved_created _ _ Desktop).
    + vm_compute. split; [lia|]. split; [intros []|]. intros robot H. discriminate H.
Qed.

(** ** The range of the progress reports *)

Lemma sum_within (values : list Q) :
  (forall v, In v values -> 0 <= v /\ v <= 100) ->
  forall start,
    start <= fold_left (fun totalProgress progress => totalProgress + progress) values start
    /\ fold_left (fun totalProgress progress => totalProgress + progress) values start
       <= start + 100 * inject_Z (Z.of_nat (List.length values)).
Proof.
  induction values as [|v values IH]; intros Hv start.
  - cbn [fold_left List.length]. change (inject_Z (Z.of_nat 0)) with 0. lra.
  - cbn [fold_left]. destruct (Hv v (or_introl eq_refl)) as [H0 H100].
    destruct (IH (fun w Hw => Hv w (or_intror Hw)) (start + v)) as [I1 I2].
    change (List.length (v :: values)) with (S (List.length values)).
    rewrite inject_Z_succ. lra.
Qed.

Lemma average_within (m : JS.Map.t Q) (ids : list string) :
  JS.Map.keys m = ids -> ids <> [] ->
  (forall v, In v (JS.Map.values m) -> 0 <= v /\ v <= 100) ->
  0 <= sumProgress m / inject_Z (Z.of_nat (List.length ids))
  /\ sumProgress m / inject_Z (Z.of_nat (List.length ids)) <= 100.
Proof.
  intros Hk Hne Hv. destruct (sum_within (JS.Map.values m) Hv 0) as [S1 S2].
  fold (sumProgress m) in S1, S2.
  assert (Hlen : List.length (JS.Map.values m) = List.length ids).
  { rewrite <- Hk. unfold JS.Map.values, JS.Map.keys. rewrite !length_map. reflexivity. }
  rewrite Hlen in S2.
  assert (Hpos : 0 < inject_Z (Z.of_nat (List.length ids))).
  { change 0 with (inject_Z 0). rewrite <- Zlt_Qlt.
    destruct ids; [congruence | cbn [List.length]; lia]. }
  split.
  - apply Qle_shift_div_l; [exact Hpos | lra].
  - apply Qle_shift_div_r; [exact Hpos | lra].
Qed.

Lemma wellFormed_range (id : string) (event : BABYLON.ISceneLoaderProgressEvent) :
  wellFormed (MeshLoadProgress id event) = true ->
  0 <= meshProgress event /\ meshProgress event <= 100.
Proof.
  cbn [wellFormed]. intro H. apply andb_true_iff in H. destruct H as [H1 H2].
  apply Qle_bool_iff in H1, H2. exact (meshProgress_range event H1 H2).
Qed.

Lemma Forall_withinBounds_snoc (total : Z) (new : list ProgressReport) (r : ProgressReport) :
  Forall (withinBounds total) new -> withinBounds total r ->
  Forall (withinBounds total) (new ++ [r]).
Proof.
  intros H Hr. apply Forall_app. split; [exact H | constructor; [exact Hr | constructor]].
Qed.

Section Bounds.

Variable deserializeUrdfToRobot : string -> Deserialized.
Variable create : Robot.t -> Robot.t.

Lemma step_reporting (ids : list string) (base : list ProgressReport) (s : RobotScene)
  (e : Event) :
  ownEvents ids [e] = true -> wellFormed e = true ->
  reporting ids base s ->
  reporting ids base (step deserializeUrdfToRobot create s e).
Proof.
  intros Hown Hwf (He & Hcb & Htot & Hkeys & Hvals & Hloaded & new & Hrep & Hnew).
  cbn [ownEvents forallb] in Hown. rewrite andb_true_r in Hown.
  destruct e as [urdfText vscode | hit | id event | id | | rebuilt | | pose]; try discriminate.
  - (* progress *)
    apply mem_In in Hown. cbn [step]. rewrite He.
    destruct (onMeshLoadProgress_spec id event s)
      as (_ & _ & P3 & P4 & P5 & _ & _ & P8 & P9 & P10).
    cbv zeta in P3, P4, P5, P8, P9, P10.
    assert (Hne : ids <> []) by (intro E; rewrite E in Hown; exact Hown).
    assert (Hkeys' : JS.Map.keys (JS.Map.set (meshLoadProgress s) id (meshProgress event))
                     = ids).
    { rewrite Map_keys_set; [exact Hkeys | rewrite Hkeys; exact Hown]. }
    assert (Hvals' : forall v,
               In v (JS.Map.values (JS.Map.set (meshLoadProgress s) id (meshProgress event)))
               -> 0 <= v /\ v <= 100).
    { intros v Hv. apply Map_set_values in Hv. destruct Hv as [-> | Hv].
      - exact (wellFormed_range id event Hwf).
      - exact (Hvals v Hv). }
    unfold reporting. rewrite P3, P4, P5, P8, P9, P10.
    split; [exact He|]. split; [exact Hcb|]. split; [exact Htot|]. split; [exact Hkeys'|].
    split; [exact Hvals'|]. split; [exact Hloaded|].
    rewrite Hcb, Htot, Hrep. cbn [negb orb].
    destruct (Z.of_nat (List.length ids) =? 0)%Z eqn:E0.
    + exists new. rewrite app_nil_r. split; [reflexivity | exact Hnew].
    + eexists. rewrite <- app_assoc. split; [reflexivity|].
      apply Forall_withinBounds_snoc; [exact Hnew|].
      unfold withinBounds. cbn [reportTotal reportLoaded reportProgress].
      split; [reflexivity|]. split; [exact Hloaded|].
      exact (average_within _ ids Hkeys' Hne Hvals').
  - (* completion *)
    apply mem_In in Hown. cbn [step].
    destruct (onMeshLoadComplete_spec id s) as (_ & _ & P3 & P4 & P5 & _ & _ & P8 & _).
    cbv zeta in P3, P4, P5, P8. destruct (P8 He) as (Q1 & Q2 & Q3).
    assert (Hne : ids <> []) by (intro E; rewrite E in Hown; exact Hown).
    assert (Hkeys' : JS.Map.keys (JS.Map.set (meshLoadProgress s) id 100) = ids).
    { rewrite Map_keys_set; [exact Hkeys | rewrite Hkeys; exact Hown]. }
    assert (Hvals' : forall v,
               In v (JS.Map.values (JS.Map.set (meshLoadProgress s) id 100))
               -> 0 <= v /\ v <= 100).
    { intros v Hv. apply Map_set_values in Hv. destruct Hv as [-> | Hv].
      - split; [vm_compute; discriminate | apply Qle_refl].
      - exact (Hvals v Hv). }
    unfold reporting. rewrite P3, P4, P5, Q1, Q2, Q3.
    split; [exact He|]. split; [exact Hcb|]. split; [exact Htot|]. split; [exact Hkeys'|].
    split; [exact Hvals'|]. split; [lia|].
    rewrite Hcb, Htot, Hrep. cbn [negb orb].
    destruct (Z.of_nat (List.length ids) =? 0)%Z eqn:E0.
    + exists new. rewrite app_nil_r. split; [reflexivity | exact Hnew].
    + eexists. rewrite <- app_assoc. split; [reflexivity|].
      apply Forall_withinBounds_snoc; [exact Hnew|].
      unfold withinBounds. cbn [reportTotal reportLoaded reportProgress].
      split; [reflexivity|]. split; [lia|].
      exact (average_within _ ids Hkeys' Hne Hvals').
Qed.

Lemma run_reporting (ids : list string) (base : list ProgressReport) (events : list Event) :
  forall s,
    ownEvents ids events = true -> forallb wellFormed events = true ->
    reporting ids base s ->
    reporting ids base (run deserializeUrdfToRobot create s events).
Proof.
  induction events as [|e events IH]; intros s Hown Hwf Hrep; [exact Hrep|].
  cbn [ownEvents forallb] in Hown, Hwf.
  apply andb_true_iff in Hown. destruct Hown as [Hown1 Hown2].
  apply andb_true_iff in Hwf. destruct Hwf as [Hwf1 Hwf2].
  unfold run. cbn [fold_left]. apply (IH _ Hown2 Hwf2).
  apply step_reporting; [|exact Hwf1 | exact Hrep].
  cbn [ownEvents forallb]. rewrite Hown1. reflexivity.
Qed.

Lemma own_events_silent (ids : list string) (events : list Event) :
  ownEvents ids events = true -> noSetLoadProgressCallback events = true.
Proof.
  unfold ownEvents, noSetLoadProgressCallback. intro H.
  apply forallb_forall. intros e He.
  apply (proj1 (forallb_forall _ _) H) in He. destruct e; try discriminate; reflexivity.
Qed.

End Bounds.

(** The reports of a call whose continuation runs before the next event. *)
Lemma reports_within_bounds_settled :
  forall (deserializeUrdfToRobot : string -> Deserialized) (create : Robot.t -> Robot.t)
         (s : RobotScene) (urdfText : string) (vscode : bool) (robot : Robot.t)
         (events : list Event),
    edition s = Desktop ->
    scene s = true ->
    deserializeUrdfToRobot urdfText = Resolved robot ->
    let n := List.length (meshVisuals robot) in
    ownEvents (meshIds n) events = true ->
    forallb wellFormed events = true ->
    let s1 := applyURDF deserializeUrdfToRobot create urdfText vscode s in
    let s2 := run deserializeUrdfToRobot create s1 events in
    exists new,
      progressReports s2 = progressReports s ++ new
      /\ forall r, In r new -> withinBounds (Z.of_nat n) r.
Proof.
  intros deserializeUrdfToRobot create s urdfText vscode robot events He Hs Hd n Hown Hwf
    s1 s2.
  destruct (applyURDF_resolved_spec deserializeUrdfToRobot create urdfText vscode robot s
              Hs Hd)
    as (_ & _ & _ & _ & _ & _ & _ & A8 & _ & _ & A11 & _ & _ & _ & _ & _ & _ & A18 & _).
  cbv zeta in A8, A11, A18. fold s1 in A8, A11, A18. fold n in A18.
  destruct (A18 He) as (T1 & T2 & T3 & T4).
  destruct (onProgressCallback s) eqn:Hcb.
  - assert (Hrep : reporting (meshIds n) (progressReports s) s1).
    { unfold reporting.
      assert (Hlen : List.length (meshIds n) = n)
        by (unfold meshIds; rewrite length_map, length_seq; reflexivity).
      rewrite Hlen, A8, A11, T1, T2, T3, T4, trackedProgress_keys.
      split; [exact He|]. split; [reflexivity|]. split; [reflexivity|].
      split; [reflexivity|]. split.
      - intros v Hv. rewrite trackedProgress_fresh in Hv. unfold JS.Map.values in Hv.
        rewrite map_map in Hv. apply in_map_iff in Hv. destruct Hv as (k & <- & _).
        cbn [snd]. split; [apply Qle_refl | vm_compute; discriminate].
      - split; [lia|]. eexists. split; [reflexivity|]. cbn [andb].
        destruct (0 <? Z.of_nat n)%Z; [|constructor].
        constructor; [|constructor]. unfold withinBounds.
        cbn [reportTotal reportLoaded reportProgress].
        split; [reflexivity|]. split; [lia|]. split; [apply Qle_refl|].
        vm_compute. discriminate. }
    destruct (run_reporting deserializeUrdfToRobot create (meshIds n) (progressReports s)
                events s1 Hown Hwf Hrep)
      as (_ & _ & _ & _ & _ & _ & new & Hnew & Hall).
    fold s2 in Hnew. exists new. split; [exact Hnew|].
    assert (Hlen : List.length (meshIds n) = n)
      by (unfold meshIds; rewrite length_map, length_seq; reflexivity).
    rewrite Hlen in Hall. intros r Hr. exact (proj1 (Forall_forall _ _) Hall r Hr).
  - exists []. rewrite app_nil_r. split; [|intros r []].
    unfold s2.
    rewrite (run_silent deserializeUrdfToRobot create events s1);
      [| rewrite A11; reflexivity | exact (own_events_silent _ _ Hown)].
    rewrite T4. cbn [andb]. rewrite app_nil_r. reflexivity.
Qed.

(** X14.  While the meshes of a robot load (desktop edition), every call of
    the progress callback - the initial one of [applyURDF] and those of the
    progress and completion events of the robot's own meshes - carries the
    robot's mesh count as total, a loaded count that is not negative and a
    percentage between 0 and 100, provided every progress event has loaded
    between nothing and its total and the continuation of the call runs
    right after the call, whatever calls are suspended then.  The proviso
    is needed: when the call is made while another is suspended and both
    continuations follow, the second initial report carries the mesh counts
    of both robots as total. *)
Theorem progress_reports_within_bounds :
  (forall (deserializeUrdfToRobot : string -> Deserialized) (create : Robot.t -> Robot.t)
          (s : RobotScene) (suspended : list (string * bool)) (urdfText : string)
          (vscode : bool) (robot : Robot.t) (events : list Event),
      edition s = Desktop ->
      scene s = true ->
      deserializeUrdfToRobot urdfText = Resolved robot ->
      let n := List.length (meshVisuals robot) in
      ownEvents (meshIds n) events = true ->
      forallb wellFormed events = true ->
      let state1 :=
        runTasks deserializeUrdfToRobot create (s, suspended)
          [Call urdfText vscode; Settle urdfText vscode] in
      let state2 :=
        runTasks deserializeUrdfToRobot create state1 (List.map Happen events) in
      exists new,
        progressReports (fst state2) = progressReports s ++ new
        /\ forall r, In r new -> withinBounds (Z.of_nat n) r)
  /\ (let shell := "<robot name='shell'>"%string in
      let state :=
        Demo.runTasks Demo.listening
          [Call shell false; Call shell false; Settle shell false; Settle shell false] in
      Demo.deserializeUrdfToRobot shell = Resolved Demo.shell
      /\ List.length (meshVisuals Demo.shell) = 1%nat
      /\ progressReports (fst state)
         = progressReports Demo.listening ++ [mkReport 0 1 0; mkReport 0 2 0]
      /\ withinBounds 1 (mkReport 0 1 0)
      /\ ~ withinBounds 1 (mkReport 0 2 0)).
Proof.
  split.
  - intros deserializeUrdfToRobot create s suspended urdfText vscode robot events He Hs Hd n
      Hown Hwf state1 state2.
    unfold state2, state1.
    rewrite (runTasks_awaited deserializeUrdfToRobot create urdfText vscode events s
               suspended Hs).
    exact (reports_within_bounds_settled deserializeUrdfToRobot create s urdfText vscode
             robot events He Hs Hd Hown Hwf).
  - cbv zeta. split; [reflexivity|]. split; [reflexivity|].
    split; [vm_compute; reflexivity|]. split.
    + unfold withinBounds. cbn [reportTotal reportLoaded reportProgress].
      split; [reflexivity|]. split; [lia|]. split; [apply Qle_refl | vm_compute; discriminate].
    + unfold withinBounds. cbn [reportTotal]. intros [H _]. discriminate H.
Qed.

(** ** The exercise gizmo, in every reachable state *)


(** ** Grid units *)

Lemma fold_left_append {A B : Type} (skip : B -> bool) (make : B -> A) (values : list B) :
  forall acc,
    fold_left (fun acc v => if skip v then acc else acc ++ [make v]) values acc
    = acc ++ fold_left (fun acc v => if skip v then acc else acc ++ [make v]) values [].
Proof.
  induction values as [|v values IH]; intro acc; cbn [fold_left].
  - rewrite app_nil_r. reflexivity.
  - destruct (skip v); [apply IH|].
    rewrite IH, (IH ([] ++ [make v])), app_assoc. reflexivity.
Qed.

Lemma createAxisLabels_app (e : Edition) (axis : Overlay.Axis) (range increment : Q)
  (unit : string) (labelSize : Q) (color : string) (labels : list Overlay.Label) :
  Overlay.createAxisLabels e axis range increment unit labelSize color labels
  = labels ++ Overlay.createAxisLabels e axis range increment unit labelSize color [].
Proof.
  unfold Overlay.createAxisLabels.
  exact (fold_left_append
           (fun value =>
              match axis with Overlay.AxisZ => false | _ => true end
              && JS.ltb (JS.Math_abs value) (1 # 1000))
           (fun value =>
              Overlay.mkLabel
                (if String.eqb unit "10cm"
                 then (Overlay.integer (Overlay.Math_round (value * 100)) ++ " cm")%string
                 else (Overlay.integer (Overlay.Math_round value) ++ " m")%string)
                color labelSize (Overlay.getPosition e axis value))
           _ labels).
Qed.

Lemma loopValues_ended (fuel : nat) :
  forall value stop increment,
    0 < increment ->
    stop - value < inject_Z (Z.of_nat fuel) * increment ->
    forall extra,
      Overlay.loopValues (fuel + extra) value stop increment
      = Overlay.loopValues fuel value stop increment.
Proof.
  induction fuel as [|k IH]; intros value stop increment Hinc Hfuel extra.
  - change (inject_Z (Z.of_nat 0)) with 0 in Hfuel.
    destruct extra as [|extra]; [reflexivity|]. cbn [Nat.add Overlay.loopValues].
    destruct (Qle_bool value stop) eqn:E; [|reflexivity].
    apply Qle_bool_iff in E. lra.
  - cbn [Nat.add Overlay.loopValues]. destruct (Qle_bool value stop); [|reflexivity].
    f_equal. apply IH; [exact Hinc|]. rewrite inject_Z_succ in Hfuel. lra.
Qed.

Lemma rounds_enough (start stop increment : Q) :
  0 < increment ->
  stop - start < inject_Z (Z.of_nat (Overlay.rounds start stop increment)) * increment.
Proof.
  intro Hinc. unfold Overlay.rounds.
  set (x := (stop - start) / increment).
  pose proof (Qlt_floor x) as Hx.
  assert (Hn : inject_Z (Qfloor x + 1)
               <= inject_Z (Z.of_nat (Z.to_nat (Qfloor x + 1)))).
  { rewrite <- Zle_Qle. lia. }
  rewrite inject_Z_succ.
  assert (E : stop - start == x * increment) by (unfold x; field; lra).
  rewrite E.
  assert (Hlt : x * increment < inject_Z (Qfloor x + 1) * increment)
    by (apply Qmult_lt_compat_r; assumption).
  assert (Hle : inject_Z (Qfloor x + 1) * increment
                <= inject_Z (Z.of_nat (Z.to_nat (Qfloor x + 1))) * increment)
    by (apply Qmult_le_compat_r; [exact Hn | lra]).
  lra.
Qed.

Lemma createGridUnits_spec (unit : string) (s : RobotScene) (o : Overlay.t) :
  scene s = true ->
  let o' := Overlay.createGridUnits unit s o in
  Overlay.gridUnitsVisible o' = true
  /\ Overlay.currentGridUnit o' = unit
  /\ List.length (Overlay.gridUnitLabels o')
     = (if String.eqb unit "10cm" then 250 else 125)%nat
  /\ Overlay.disposedLabels o' = Overlay.disposedLabels o ++ Overlay.gridUnitLabels o
  /\ Overlay.jointAxisList o' = Overlay.jointAxisList o
  /\ Overlay.linkAxisList o' = Overlay.linkAxisList o
  /\ Overlay.jointRotationGizmos o' = Overlay.jointRotationGizmos o
  /\ Overlay.linkRotationGizmos o' = Overlay.linkRotationGizmos o
  /\ Overlay.disposedGizmos o' = Overlay.disposedGizmos o.
Proof.
  intro Hs. cbv zeta. unfold Overlay.createGridUnits. rewrite Hs. cbn [negb].
  destruct (String.eqb unit "10cm") eqn:E;
    cbn [Overlay.gridUnitsVisible Overlay.currentGridUnit Overlay.gridUnitLabels
           Overlay.disposedLabels Overlay.jointAxisList Overlay.linkAxisList
           Overlay.jointRotationGizmos Overlay.linkRotationGizmos Overlay.disposedGizmos
           Overlay.clearGridUnits];
    (split; [reflexivity|]); (split; [reflexivity|]); (split; [|repeat split]).
  - rewrite (createAxisLabels_app _ Overlay.AxisZ), (createAxisLabels_app _ Overlay.AxisY).
    rewrite !length_app. unfold Overlay.createAxisLabels. rewrite E.
    destruct (edition s); vm_compute; reflexivity.
  - rewrite (createAxisLabels_app _ Overlay.AxisZ), (createAxisLabels_app _ Overlay.AxisY).
    rewrite !length_app. unfold Overlay.createAxisLabels. rewrite E.
    destruct (edition s); vm_compute; reflexivity.
Qed.

(** X16.  [toggleGridUnits] (on a scene) hides the labels when the unit asked
    for is the one shown, and otherwise shows the unit asked for in place of
    what was shown: 250 labels for "10cm" (every 10 cm up to 5 m, the origin
    left out), 125 for any other unit (every metre up to 25 m).  Every label
    that goes is disposed; the gizmo lists are not touched.  The four loops
    that make these labels (from -5 and from 0.1 to 5 by 0.1, from -25 and
    from 1 to 25 by 1) have ended within the rounds counted: more rounds
    give no more values. *)
Theorem toggleGridUnits_shows_one_unit :
  forall (unit : string) (s : RobotScene) (o : Overlay.t),
    scene s = true ->
    let o' := Overlay.toggleGridUnits unit s o in
    let shown := Overlay.gridUnitsVisible o && String.eqb (Overlay.currentGridUnit o) unit in
    let ended (start stop increment : Q) :=
      forall extra,
        Overlay.loopValues (Overlay.rounds start stop increment + extra) start stop increment
        = Overlay.loopValues (Overlay.rounds start stop increment) start stop increment in
    Overlay.gridUnitsVisible o' = negb shown
    /\ List.length (Overlay.gridUnitLabels o')
       = (if shown then 0 else if String.eqb unit "10cm" then 250 else 125)%nat
    /\ (shown = false -> Overlay.currentGridUnit o' = unit)
    /\ Overlay.disposedLabels o' = Overlay.disposedLabels o ++ Overlay.gridUnitLabels o
    /\ (Overlay.jointAxisList o', Overlay.linkAxisList o', Overlay.jointRotationGizmos o',
        Overlay.linkRotationGizmos o', Overlay.disposedGizmos o')
       = (Overlay.jointAxisList o, Overlay.linkAxisList o, Overlay.jointRotationGizmos o,
          Overlay.linkRotationGizmos o, Overlay.disposedGizmos o)
    /\ ended (- (5)) 5 (1 # 10) /\ ended (1 # 10) 5 (1 # 10)
    /\ ended (- (25)) 25 1 /\ ended 1 25 1.
Proof.
  intros unit s o Hs. cbv zeta.
  assert (Hloop : forall start stop increment,
             0 < increment ->
             forall extra,
               Overlay.loopValues (Overlay.rounds start stop increment + extra) start stop
                 increment
               = Overlay.loopValues (Overlay.rounds start stop increment) start stop
                   increment).
  { intros start stop increment Hinc extra.
    apply loopValues_ended; [exact Hinc | apply rounds_enough; exact Hinc]. }
  assert (Htenth : 0 < 1 # 10) by reflexivity.
  assert (Hone : 0 < 1) by reflexivity.
  assert (Hloops :
            (forall extra,
                Overlay.loopValues (Overlay.rounds (- (5)) 5 (1 # 10) + extra) (- (5)) 5
                  (1 # 10)
                = Overlay.loopValues (Overlay.rounds (- (5)) 5 (1 # 10)) (- (5)) 5 (1 # 10))
            /\ (forall extra,
                   Overlay.loopValues (Overlay.rounds (1 # 10) 5 (1 # 10) + extra) (1 # 10) 5
                     (1 # 10)
                   = Overlay.loopValues (Overlay.rounds (1 # 10) 5 (1 # 10)) (1 # 10) 5
                       (1 # 10))
            /\ (forall extra,
                   Overlay.loopValues (Overlay.rounds (- (25)) 25 1 + extra) (- (25)) 25 1
                   = Overlay.loopValues (Overlay.rounds (- (25)) 25 1) (- (25)) 25 1)
            /\ (forall extra,
                   Overlay.loopValues (Overlay.rounds 1 25 1 + extra) 1 25 1
                   = Overlay.loopValues (Overlay.rounds 1 25 1) 1 25 1)).
  { split; [exact (Hloop _ _ _ Htenth)|]. split; [exact (Hloop _ _ _ Htenth)|].
    split; [exact (Hloop _ _ _ Hone) | exact (Hloop _ _ _ Hone)]. }
  unfold Overlay.toggleGridUnits.
  destruct (Overlay.gridUnitsVisible o && String.eqb (Overlay.currentGridUnit o) unit).
  - unfold Overlay.clearGridUnits.
    cbn [Overlay.gridUnitsVisible Overlay.currentGridUnit Overlay.gridUnitLabels
           Overlay.disposedLabels Overlay.jointAxisList Overlay.linkAxisList
           Overlay.jointRotationGizmos Overlay.linkRotationGizmos Overlay.disposedGizmos
           negb List.length].
    split; [reflexivity|]. split; [reflexivity|]. split; [discriminate|].
    split; [reflexivity|]. split; [reflexivity | exact Hloops].
  - destruct (createGridUnits_spec unit s o Hs)
      as (G1 & G2 & G3 & G4 & G5 & G6 & G7 & G8 & G9).
    cbv zeta in G1, G2, G3, G4, G5, G6, G7, G8, G9.
    rewrite G1, G2, G3, G4, G5, G6, G7, G8, G9.
    split; [reflexivity|]. split; [reflexivity|]. split; [reflexivity|].
    split; [reflexivity|]. split; [reflexivity | exact Hloops].
Qed.

(** X17.  [applyURDF] disposes the grid-unit labels and leaves
    [gridUnitsVisible] as it is.  When a unit was shown before a robot is
    loaded, the scene goes on taking it to be shown: the next press of the
    button of that unit shows nothing, and only the press after that brings
    the labels back. *)
Theorem applyURDF_leaves_grid_flag :
  forall (unit : string) (s : RobotScene) (o : Overlay.t),
    scene s = true ->
    Overlay.gridUnitsVisible o = true -> Overlay.currentGridUnit o = unit ->
    let loaded := Overlay.applyURDF o in
    let once := Overlay.toggleGridUnits unit s loaded in
    let twice := Overlay.toggleGridUnits unit s once in
    (Overlay.gridUnitLabels loaded = [] /\ Overlay.gridUnitsVisible loaded = true
     /\ Overlay.disposedLabels loaded = Overlay.disposedLabels o ++ Overlay.gridUnitLabels o)
    /\ (Overlay.gridUnitLabels once = [] /\ Overlay.gridUnitsVisible once = false)
    /\ (Overlay.gridUnitsVisible twice = true
        /\ List.length (Overlay.gridUnitLabels twice)
           = (if String.eqb unit "10cm" then 250 else 125)%nat).
Proof.
  intros unit s o Hs Hvis Hunit. cbv zeta.
  assert (Hloaded : Overlay.gridUnitsVisible (Overlay.applyURDF o) = true
                    /\ Overlay.currentGridUnit (Overlay.applyURDF o) = unit).
  { unfold Overlay.applyURDF. cbn. split; assumption. }
  destruct Hloaded as [L1 L2].
  split; [split; [reflexivity | split; [exact L1 | reflexivity]]|].
  assert (Honce : Overlay.toggleGridUnits unit s (Overlay.applyURDF o)
                  = Overlay.mk [] [] [] [] false unit []
                      (Overlay.disposedGizmos (Overlay.applyURDF o))
                      (Overlay.disposedLabels (Overlay.applyURDF o))).
  { unfold Overlay.toggleGridUnits. rewrite L1, L2, String.eqb_refl. cbn [andb].
    unfold Overlay.applyURDF. cbn. rewrite Hunit, app_nil_r. reflexivity. }
  rewrite Honce. split; [split; reflexivity|].
  set (once := Overlay.mk _ _ _ _ _ _ _ _ _).
  assert (Htwice : Overlay.toggleGridUnits unit s once = Overlay.createGridUnits unit s once)
    by reflexivity.
  rewrite Htwice.
  destruct (createGridUnits_spec unit s once Hs) as (G1 & _ & G3 & _).
  split; [exact G1 | exact G3].
Qed.

(** ** Axis and rotation gizmos *)

Lemma addToTransform_fold (transforms : list (option BABYLON.TransformNode)) :
  forall gizmos,
    fold_left Overlay.addToTransform transforms gizmos
    = gizmos ++ List.map (Overlay.mkGizmo (1 # 2)) (present transforms).
Proof.
  induction transforms as [|t transforms IH]; intro gizmos; cbn [fold_left present flat_map].
  - cbn [List.map]. rewrite app_nil_r. reflexivity.
  - rewrite IH. fold (present transforms). destruct t as [node|]; cbn [Overlay.addToTransform].
    + rewrite map_app, <- app_assoc. reflexivity.
    + reflexivity.
Qed.


Lemma length_zero_nil {A : Type} (l : list A) : (List.length l =? 0)%nat = true <-> l = [].
Proof.
  destruct l; cbn; split; intro H; try reflexivity; discriminate.
Qed.

Section AxisToggles.

Variable transform : Visual.t -> option BABYLON.TransformNode.

Lemma toggleAxisOnRobot_spec (jointOrLink : bool) (s : RobotScene) (o : Overlay.t)
  (robotId : nat) (robot : Robot.t) :
  currentRobot s = Some (robotId, robot) ->
  let shown := if jointOrLink then Overlay.jointAxisList o else Overlay.linkAxisList o in
  let transforms :=
    if jointOrLink then Overlay.jointTransforms robot
    else Overlay.linkTransforms transform robot in
  let made := List.map (Overlay.mkGizmo (1 # 2)) (present transforms) in
  Overlay.toggleAxisOnRobot transform jointOrLink true s o
  = match shown with
    | [] =>
        (s,
         Overlay.mk (if jointOrLink then made else Overlay.jointAxisList o)
           (if jointOrLink then Overlay.linkAxisList o else made)
           (Overlay.jointRotationGizmos o) (Overlay.linkRotationGizmos o)
           (Overlay.gridUnitsVisible o) (Overlay.currentGridUnit o)
           (Overlay.gridUnitLabels o) (Overlay.disposedGizmos o) (Overlay.disposedLabels o))
    | _ :: _ => (clearStatus s, Overlay.clearAxisGizmos o)
    end.
Proof.
  intro Hr. cbv zeta. unfold Overlay.toggleAxisOnRobot. rewrite Hr.
  destruct jointOrLink.
  - destruct (Overlay.jointAxisList o) as [|g gs] eqn:E; cbn [List.length Nat.eqb].
    + rewrite addToTransform_fold. reflexivity.
    + reflexivity.
  - destruct (Overlay.linkAxisList o) as [|g gs] eqn:E; cbn [List.length Nat.eqb].
    + rewrite addToTransform_fold. reflexivity.
    + reflexivity.
Qed.


End AxisToggles.

(** X18.  With a robot and a scene, the axis toggle of one kind (joints or
    links) puts one gizmo of scale 0.5 on every transform of that kind that
    exists, in the order of the robot's tables, when no gizmo of the kind is
    shown - so for a robot without such transforms it never finds anything to
    take away.  When gizmos of the kind are shown it disposes the axis gizmos
    of both kinds and clears the status text.  Without a robot or a scene it
    does nothing. *)
Theorem toggleAxisOnRobot_shows_or_clears :
  forall (transform : Visual.t -> option BABYLON.TransformNode) (jointOrLink : bool)
         (s : RobotScene) (o : Overlay.t),
    (forall sceneGiven,
        currentRobot s = None \/ sceneGiven = false ->
        Overlay.toggleAxisOnRobot transform jointOrLink sceneGiven s o = (s, o))
    /\ (forall robotId robot,
           currentRobot s = Some (robotId, robot) ->
           let result := Overlay.toggleAxisOnRobot transform jointOrLink true s o in
           let axisList (o : Overlay.t) :=
             if jointOrLink then Overlay.jointAxisList o else Overlay.linkAxisList o in
           let other (o : Overlay.t) :=
             if jointOrLink then Overlay.linkAxisList o else Overlay.jointAxisList o in
           let transforms :=
             if jointOrLink then Overlay.jointTransforms robot
             else Overlay.linkTransforms transform robot in
           (axisList o = [] ->
            fst result = s
            /\ axisList (snd result)
               = List.map (Overlay.mkGizmo (1 # 2)) (present transforms)
            /\ other (snd result) = other o
            /\ Overlay.disposedGizmos (snd result) = Overlay.disposedGizmos o)
           /\ (axisList o <> [] ->
               fst result = clearStatus s
               /\ Overlay.jointAxisList (snd result) = []
               /\ Overlay.linkAxisList (snd result) = []
               /\ Overlay.disposedGizmos (snd result)
                  = Overlay.disposedGizmos o ++ Overlay.linkAxisList o
                    ++ Overlay.jointAxisList o)
           /\ Overlay.jointRotationGizmos (snd result) = Overlay.jointRotationGizmos o
           /\ Overlay.linkRotationGizmos (snd result) = Overlay.linkRotationGizmos o
           /\ Overlay.gridUnitLabels (snd result) = Overlay.gridUnitLabels o).
Proof.
  intros transform jointOrLink s o. split.
  - intros sceneGiven [H | H]; unfold Overlay.toggleAxisOnRobot; rewrite H; [reflexivity|].
    destruct (currentRobot s) as [[robotId robot]|]; reflexivity.
  - intros robotId robot Hr. cbv zeta.
    rewrite (toggleAxisOnRobot_spec transform jointOrLink s o robotId robot Hr). cbv zeta.
    destruct jointOrLink.
    + destruct (Overlay.jointAxisList o) as [|g gs] eqn:E; cbn [fst snd];
        unfold Overlay.clearAxisGizmos;
        cbn [Overlay.jointAxisList Overlay.linkAxisList Overlay.jointRotationGizmos
               Overlay.linkRotationGizmos Overlay.gridUnitLabels Overlay.disposedGizmos];
        rewrite ?E;
        (split; [intro H; try discriminate H; repeat split|]);
        (split; [intro H; try congruence; repeat split|]); repeat split.
    + destruct (Overlay.linkAxisList o) as [|g gs] eqn:E; cbn [fst snd];
        unfold Overlay.clearAxisGizmos;
        cbn [Overlay.jointAxisList Overlay.linkAxisList Overlay.jointRotationGizmos
               Overlay.linkRotationGizmos Overlay.gridUnitLabels Overlay.disposedGizmos];
        rewrite ?E;
        (split; [intro H; try discriminate H; repeat split|]);
        (split; [intro H; try congruence; repeat split|]); repeat split.
Qed.


Section OverlayInvariant.

Variable deserializeUrdfToRobot : string -> Deserialized.
Variable create : Robot.t -> Robot.t.
Variable transform : Visual.t -> option BABYLON.TransformNode.





End OverlayInvariant.


(** ** Mirror reflections *)

Lemma includes_In (renderList : list nat) (mesh : Mirror.Mesh) :
  Mirror.includes renderList mesh = true <-> In (Mirror.uniqueId mesh) renderList.
Proof.
  unfold Mirror.includes. rewrite existsb_exists. split.
  - intros (x & Hin & E). apply Nat.eqb_eq in E. subst x. exact Hin.
  - intro Hin. exists (Mirror.uniqueId mesh). split; [exact Hin | apply Nat.eqb_refl].
Qed.

Lemma renderList_fold (meshes : list Mirror.Mesh) :
  forall renderList,
    let result :=
      fold_left
        (fun renderList mesh =>
           if negb (Mirror.includes renderList mesh)
           then renderList ++ [Mirror.uniqueId mesh]
           else renderList)
        meshes renderList in
    (forall id, In id result <->
                In id renderList \/ exists m, In m meshes /\ Mirror.uniqueId m = id)
    /\ (NoDup renderList -> NoDup result).
Proof.
  induction meshes as [|m meshes IH]; intro renderList; cbv zeta; cbn [fold_left].
  - split; [|exact (fun H => H)]. intro id. split; [intro H; left; exact H|].
    intros [H | (m & [] & _)]. exact H.
  - destruct (Mirror.includes renderList m) eqn:E; cbn [negb].
    + destruct (IH renderList) as [H1 H2]. cbv zeta in H1, H2. split; [|exact H2].
      intro id. rewrite H1. split.
      * intros [H | (m' & Hin & Hid)]; [left; exact H|].
        right. exists m'. split; [right; exact Hin | exact Hid].
      * intros [H | (m' & [<- | Hin] & Hid)]; [left; exact H | |].
        -- left. rewrite <- Hid. apply includes_In. exact E.
        -- right. exists m'. split; assumption.
    + destruct (IH (renderList ++ [Mirror.uniqueId m])) as [H1 H2]. cbv zeta in H1, H2.
      split.
      * intro id. rewrite H1, in_app_iff. split.
        -- intros [[H | [<- | []]] | (m' & Hin & Hid)].
           ++ left. exact H.
           ++ right. exists m. split; [left; reflexivity | reflexivity].
           ++ right. exists m'. split; [right; exact Hin | exact Hid].
        -- intros [H | (m' & [<- | Hin] & Hid)].
           ++ left. left. exact H.
           ++ left. right. left. exact Hid.
           ++ right. exists m'. split; assumption.
      * intro Hnd. apply H2. apply NoDup_app; [exact Hnd | repeat constructor; intros [] |].
        intros x Hx [<- | []].
        assert (Mirror.includes renderList m = true) by (apply includes_In; exact Hx).
        congruence.
Qed.

(** X20.  [updateMirrorReflections] leaves the render list alone without a
    scene, a robot or a mirror texture.  Otherwise it builds the list anew,
    whatever was in it: first every mesh of the robot, then every mesh of the
    scene that passes the filter and is not yet in the list.  So a mesh is
    reflected exactly when it is a mesh of the robot or a visible mesh of the
    scene that is not one of the ground, fade, background and axis meshes, no
    text plane and no descendant of the world axis; and when the meshes of
    the robot are distinct, no mesh is in the list twice. *)
Theorem updateMirrorReflections_render_list :
  forall (s : RobotScene) (worldAxis : option nat) (meshes : list Mirror.Mesh)
         (mirrorTexture : option (list nat)),
    ((scene s = false \/ currentRobot s = None \/ mirrorTexture = None) ->
     Mirror.updateMirrorReflections s worldAxis meshes mirrorTexture = mirrorTexture)
    /\ (forall robotId robot old,
           scene s = true -> currentRobot s = Some (robotId, robot) ->
           mirrorTexture = Some old ->
           let robotIds := List.map BABYLON.meshUniqueId (robotMeshes robot) in
           exists renderList,
             Mirror.updateMirrorReflections s worldAxis meshes mirrorTexture
             = Some renderList
             /\ Mirror.updateMirrorReflections s worldAxis meshes (Some [])
                = Some renderList
             /\ firstn (List.length robotIds) renderList = robotIds
             /\ (forall id,
                    In id renderList <->
                    In id robotIds
                    \/ exists m, In m meshes /\ Mirror.uniqueId m = id
                                 /\ Mirror.reflected worldAxis m = true)
             /\ (NoDup robotIds -> NoDup renderList)).
Proof.
  intros s worldAxis meshes mirrorTexture. split.
  - intros H. unfold Mirror.updateMirrorReflections.
    destruct (scene s); [|reflexivity].
    destruct (currentRobot s) as [[robotId robot]|]; [|reflexivity].
    destruct mirrorTexture; [|reflexivity].
    destruct H as [H | [H | H]]; discriminate.
  - intros robotId robot old Hs Hr Hm robotIds.
    unfold Mirror.updateMirrorReflections. rewrite Hs, Hr, Hm. fold robotIds.
    eexists. split; [reflexivity|]. split; [reflexivity|].
    destruct (renderList_fold (List.filter (Mirror.reflected worldAxis) meshes) robotIds)
      as [H1 H2].
    cbv zeta in H1, H2. split; [|split; [|exact H2]].
    + assert (Hprefix : forall ms acc,
                 exists more,
                   fold_left
                     (fun renderList mesh =>
                        if negb (Mirror.includes renderList mesh)
                        then renderList ++ [Mirror.uniqueId mesh]
                        else renderList) ms acc = acc ++ more).
      { induction ms as [|m ms IH]; intro acc; cbn [fold_left].
        - exists []. rewrite app_nil_r. reflexivity.
        - destruct (negb (Mirror.includes acc m)).
          + destruct (IH (acc ++ [Mirror.uniqueId m])) as [more E]. rewrite E.
            exists ([Mirror.uniqueId m] ++ more). rewrite app_assoc. reflexivity.
          + apply IH. }
      destruct (Hprefix (List.filter (Mirror.reflected worldAxis) meshes) robotIds)
        as [more E].
      rewrite E, firstn_app, Nat.sub_diag, firstn_all. cbn [firstn]. apply app_nil_r.
    + intro id. rewrite H1. split.
      * intros [H | (m & Hin & Hid)]; [left; exact H|].
        apply filter_In in Hin. destruct Hin as [Hin Href].
        right. exists m. repeat split; assumption.
      * intros [H | (m & Hin & Hid & Href)]; [left; exact H|].
        right. exists m. split; [apply filter_In; split; assumption | exact Hid].
Qed.

(** ** Screenshots *)

Lemma split_noComma (s : string) : noComma s -> Screenshot.split s = [s].
Proof.
  unfold noComma. induction s as [|c s IH]; intro H; [reflexivity|].
  cbn [Screenshot.split]. cbn [list_ascii_of_string] in H.
  destruct (Ascii.eqb c ","%char) eqn:E.
  - apply Ascii.eqb_eq in E. subst c. exfalso. apply H. left. reflexivity.
  - rewrite IH; [reflexivity|]. intro Hin. apply H. right. exact Hin.
Qed.

Lemma split_comma (header rest : string) :
  noComma header ->
  Screenshot.split (header ++ String ","%char rest)
  = header :: Screenshot.split rest.
Proof.
  unfold noComma. induction header as [|c header IH]; intro H.
  - reflexivity.
  - cbn [String.append Screenshot.split]. cbn [list_ascii_of_string] in H.
    destruct (Ascii.eqb c ","%char) eqn:E.
    + apply Ascii.eqb_eq in E. subst c. exfalso. apply H. left. reflexivity.
    + rewrite IH; [reflexivity|]. intro Hin. apply H. right. exact Hin.
Qed.

(** X21.  [takeScreenshot] is rejected when the scene, the engine or the
    camera is missing and resolves otherwise, and in every case leaves the
    visibility of the utility and gizmo layers as it found it.  The size it
    asks for is never 0: the size given if that is not 0, else the size of
    the canvas if there is one and it is not 0, else 1024.  Of a data URL
    with one comma it resolves with what follows the comma, so for
    "data:image/png;base64,<payload>" [takeScreenshotDataURL] gives back
    that URL; for data without a comma it gives
    "data:image/png;base64,undefined". *)
Theorem takeScreenshot_round_trip :
  forall (s : RobotScene) (engine : bool) (canvas : option (Q * Q))
         (render : Q -> Q -> string) (layers : Screenshot.Layers)
         (width height : option Q),
    let missing := negb (scene s) || negb engine
                   || match camera s with Some _ => false | None => true end in
    let shot := Screenshot.takeScreenshot s engine canvas render layers width height in
    let url := Screenshot.takeScreenshotDataURL s engine canvas render layers width height in
    snd shot = layers
    /\ snd url = layers
    /\ (missing = true ->
        fst shot = Screenshot.Throws "Scene, engine, or camera not initialized"
        /\ fst url = fst shot)
    /\ (forall requested canvasSize,
           ~ Screenshot.targetSize requested canvasSize == 0
           /\ (forall w, requested = Some w -> ~ w == 0 ->
                         Screenshot.targetSize requested canvasSize = w)
           /\ (forall c, requested = None \/ requested = Some 0 ->
                         canvasSize = Some c -> ~ c == 0 ->
                         Screenshot.targetSize requested canvasSize = c)
           /\ (requested = None -> canvasSize = None ->
               Screenshot.targetSize requested canvasSize = 1024))
    /\ (missing = false ->
        let data :=
          render (Screenshot.targetSize width (option_map fst canvas))
            (Screenshot.targetSize height (option_map snd canvas)) in
        (exists value, fst shot = Screenshot.Resolves value)
        /\ (forall header payload,
            noComma header -> noComma payload ->
            data = (header ++ "," ++ payload)%string ->
            fst shot = Screenshot.Resolves (Some payload)
            /\ fst url
               = Screenshot.Resolves (Some ("data:image/png;base64," ++ payload)%string))
        /\ (noComma data ->
            fst shot = Screenshot.Resolves None
            /\ fst url = Screenshot.Resolves (Some "data:image/png;base64,undefined"%string))).
Proof.
  intros s engine canvas render layers width height. cbv zeta.
  assert (Hsize : forall requested canvasSize,
             ~ Screenshot.targetSize requested canvasSize == 0
             /\ (forall w, requested = Some w -> ~ w == 0 ->
                           Screenshot.targetSize requested canvasSize = w)
             /\ (forall c, requested = None \/ requested = Some 0 ->
                           canvasSize = Some c -> ~ c == 0 ->
                           Screenshot.targetSize requested canvasSize = c)
             /\ (requested = None -> canvasSize = None ->
                 Screenshot.targetSize requested canvasSize = 1024)).
  { intros requested canvasSize. unfold Screenshot.targetSize, Screenshot.orElse.
    split; [|split; [|split]].
    - destruct requested as [w|]; [destruct (Qeq_bool w 0) eqn:Ew|];
        (destruct canvasSize as [c|]; [destruct (Qeq_bool c 0) eqn:Ec|]);
        rewrite ?Ew, ?Ec;
        first [ apply Qeq_bool_neq; assumption
              | intro H; vm_compute in H; discriminate H ].
    - intros w -> Hw. destruct (Qeq_bool w 0) eqn:Ew.
      + apply Qeq_bool_iff in Ew. contradiction.
      + rewrite Ew. reflexivity.
    - intros c Hrequested -> Hc.
      assert (Ec : Qeq_bool c 0 = false).
      { destruct (Qeq_bool c 0) eqn:Ec; [|reflexivity].
        apply Qeq_bool_iff in Ec. contradiction. }
      destruct Hrequested as [-> | ->]; cbn; rewrite Ec; rewrite ?Ec; reflexivity.
    - intros -> ->. reflexivity. }
  unfold Screenshot.takeScreenshotDataURL, Screenshot.takeScreenshot.
  destruct (negb (scene s) || negb engine
            || match camera s with Some _ => false | None => true end).
  - cbn [fst snd]. split; [reflexivity|]. split; [reflexivity|].
    split; [intros _; split; reflexivity|]. split; [exact Hsize | discriminate].
  - cbn [fst snd].
    assert (Hrestored :
             Screenshot.mkLayers
               match
                 Screenshot.utilLayer
                   (Screenshot.mkLayers
                      match Screenshot.utilLayer layers with
                      | Some _ => Some false
                      | None => None
                      end
                      match Screenshot.gizmoLayer layers with
                      | Some _ => Some false
                      | None => None
                      end)
               with
               | Some _ => Some match Screenshot.utilLayer layers with
                                | Some b => b
                                | None => false
                                end
               | None => None
               end
               match
                 Screenshot.gizmoLayer
                   (Screenshot.mkLayers
                      match Screenshot.utilLayer layers with
                      | Some _ => Some false
                      | None => None
                      end
                      match Screenshot.gizmoLayer layers with
                      | Some _ => Some false
                      | None => None
                      end)
               with
               | Some _ => Some match Screenshot.gizmoLayer layers with
                                | Some b => b
                                | None => false
                                end
               | None => None
               end = layers).
    { destruct layers as [[u|] [g|]]; reflexivity. }
    rewrite Hrestored.
    split; [reflexivity|]. split; [reflexivity|]. split; [discriminate|].
    split; [exact Hsize|]. intros _. split; [eexists; reflexivity|].
    split.
    + intros header payload Hh Hp Hdata. rewrite Hdata.
      change (header ++ "," ++ payload)%string
        with (header ++ String ","%char payload)%string.
      rewrite (split_comma header payload Hh), (split_noComma payload Hp).
      cbn [nth_error Screenshot.interpolate]. split; reflexivity.
    + intro Hd. rewrite (split_noComma _ Hd). cbn [nth_error Screenshot.interpolate].
      split; reflexivity.
Qed.

(** * Worked scenarios of the further parts *)

(** ** View cube *)

(** A quarter and three quarters of the way. *)
Lemma easeInOutCubic_curve_witness :
  1 # 4 <= 3 # 4
  /\ ViewCubeGizmo.easeInOutCubic (1 # 4) <= ViewCubeGizmo.easeInOutCubic (3 # 4)
  /\ 0 <= ViewCubeGizmo.easeInOutCubic (1 # 4)
  /\ ViewCubeGizmo.easeInOutCubic (1 # 4) <= 1.
Proof.
  destruct (easeInOutCubic_curve (1 # 4) (3 # 4)) as (_ & _ & _ & Hmono & Hrange & _).
  assert (H1 : 1 # 4 <= 3 # 4) by (vm_compute; discriminate).
  assert (H2 : 0 <= 1 # 4) by (vm_compute; discriminate).
  assert (H3 : 1 # 4 <= 1) by (vm_compute; discriminate).
  split; [exact H1|]. split; [exact (Hmono H1)|]. exact (Hrange H2 H3).
Defined.

(** From where the user has orbited to, to the top face, the user leaving
    the camera alone. *)
Lemma rotateCameraToFace_reaches_face_witness :
  ViewCubeGizmo.lookup ViewCubeGizmo.FACE_ORIENTATIONS "top" = Some (0, 0)
  /\ exists first,
       ViewCubeGizmo.rotateCameraToFace "top" Demo.orbited = Some first
       /\ snd (ViewCubeGizmo.requestAnimationFrames 28 (fun _ camera => camera) first) = true
       /\ exists a camera',
            ViewCubeGizmo.requestAnimationFrames 29 (fun _ camera => camera) first
            = (a, camera', false)
            /\ BABYLON.alpha camera' == 0
            /\ BABYLON.beta camera' == 0.
Proof.
  split; [reflexivity|].
  destruct (rotateCameraToFace_reaches_face "top" 0 0 Demo.orbited (fun _ camera => camera)
              eq_refl) as (first & E & Hrun & Hend).
  exists first. split; [exact E|]. split; [apply Hrun; lia|].
  destruct (Hend 29%nat (le_n _)) as (a & camera' & E' & _ & Ha & Hb).
  exists a, camera'. split; [exact E'|]. split; [exact Ha | exact Hb].
Defined.

(** A click while the camera looks at the front face. *)
Lemma handleCubeClick_turns_to_next_face_witness :
  let camera :=
    BABYLON.mkArcRotateCamera 0 (JS.Math_PI / 2) 5 (BABYLON.mkVector3 0 0 0) in
  nth_error ViewCubeGizmo.FACE_ORIENTATIONS 0 = Some ("front"%string, (0, JS.Math_PI / 2))
  /\ ViewCubeGizmo.closestFace (BABYLON.alpha camera) (BABYLON.beta camera) = "front"%string
  /\ ViewCubeGizmo.handleCubeClick 3 4 camera <> None.
Proof.
  cbv zeta.
  destruct (handleCubeClick_turns_to_next_face 3 4
              (BABYLON.mkArcRotateCamera 0 (JS.Math_PI / 2) 5 (BABYLON.mkVector3 0 0 0)))
    as [(i & next & _ & _ & _ & _ & Hsome) Hface].
  split; [reflexivity|]. split; [|exact Hsome].
  exact (Hface 0%nat "front"%string 0 (JS.Math_PI / 2) eq_refl (Qeq_refl _) (Qeq_refl _)).
Defined.

(** An angle within the range, and 7, which is more than a turn. *)
Lemma normalizeAngle_range_witness :
  Qabs 1 <= 1024 /\ Qabs 7 <= 1024
  /\ - JS.Math_PI <= 1 /\ 1 <= JS.Math_PI /\ ViewCubeGrid.normalizeAngle 1 = 1
  /\ - JS.Math_PI <= ViewCubeGrid.normalizeAngle 7
  /\ ViewCubeGrid.normalizeAngle 7 <= JS.Math_PI
  /\ ViewCubeGrid.whileAbove (ViewCubeGrid.turns 7 + 5) 7
     = ViewCubeGrid.whileAbove (ViewCubeGrid.turns 7) 7.
Proof.
  assert (S1 : Qabs 1 <= 1024) by (vm_compute; discriminate).
  assert (S7 : Qabs 7 <= 1024) by (vm_compute; discriminate).
  destruct (normalizeAngle_range 1 S1) as (_ & _ & _ & Hid & _).
  destruct (normalizeAngle_range 7 S7) as (Hlow & Hhigh & _ & _ & _ & _ & _ & Hmore & _).
  assert (H1 : - JS.Math_PI <= 1) by (vm_compute; discriminate).
  assert (H2 : 1 <= JS.Math_PI) by (vm_compute; discriminate).
  split; [exact S1|]. split; [exact S7|].
  split; [exact H1|]. split; [exact H2|]. split; [exact (Hid H1 H2)|].
  split; [exact Hlow|]. split; [exact Hhigh | exact (Hmore 5%nat)].
Defined.

(** The button Z+, a name that is no face, and a name every object
    inherits. *)
Lemma rotateCameraToFace_short_way_round_witness :
  ViewCubeGizmo.lookup ViewCubeGrid.FACE_ORIENTATIONS "W" = None
  /\ ~ In "W"%string ViewCubeGrid.Object_prototype
  /\ ViewCubeGrid.rotateCameraToFace "W" Demo.orbited = ViewCubeGrid.Warned "Unknown face: W"
  /\ In "toString"%string ViewCubeGrid.Object_prototype
  /\ ViewCubeGrid.rotateCameraToFace "toString" Demo.orbited = ViewCubeGrid.TypeError
  /\ ViewCubeGizmo.lookup ViewCubeGrid.FACE_ORIENTATIONS "Z+" = Some (0, 1 # 10)
  /\ Qabs (BABYLON.alpha Demo.orbited) <= 1000
  /\ exists first,
       ViewCubeGrid.rotateCameraToFace "Z+" Demo.orbited = ViewCubeGrid.Animating first
       /\ Qabs (ViewCubeGrid.deltaAlpha (fst (fst first))) <= JS.Math_PI
       /\ exists a camera',
            ViewCubeGrid.requestAnimationFrames 29 (fun _ camera => camera) first
            = (a, camera', false)
            /\ BABYLON.beta camera' == 1 # 10.
Proof.
  destruct (rotateCameraToFace_short_way_round "W" Demo.orbited (fun _ camera => camera))
    as (Hwarn & _ & _).
  destruct (rotateCameraToFace_short_way_round "toString" Demo.orbited
              (fun _ camera => camera)) as (_ & Hthrow & _).
  destruct (rotateCameraToFace_short_way_round "Z+" Demo.orbited (fun _ camera => camera))
    as (_ & _ & Hturn).
  assert (Hnot : ~ In "W"%string ViewCubeGrid.Object_prototype).
  { unfold ViewCubeGrid.Object_prototype. cbn [In]. intro H.
    repeat (destruct H as [H | H]; [discriminate H|]). exact H. }
  assert (Hin : In "toString"%string ViewCubeGrid.Object_prototype).
  { unfold ViewCubeGrid.Object_prototype. cbn [In]. do 8 right. left. reflexivity. }
  assert (Hsize : Qabs (BABYLON.alpha Demo.orbited) <= 1000) by (vm_compute; discriminate).
  split; [reflexivity|]. split; [exact Hnot|]. split; [exact (Hwarn eq_refl Hnot)|].
  split; [exact Hin|]. split; [exact (Hthrow Hin)|]. split; [reflexivity|].
  split; [exact Hsize|].
  destruct (Hturn 0 (1 # 10) eq_refl Hsize) as (first & E & H). cbv zeta in H.
  destruct H as (_ & Habs & _ & _ & _ & _ & Hend).
  exists first. split; [exact E|]. split; [exact Habs|].
  destruct (Hend 29%nat (le_n _)) as (a & camera' & E' & _ & _ & Hb).
  exists a, camera'. split; [exact E' | exact Hb].
Defined.

(** The camera near the orientation of Z+, one turn on. *)
Lemma updateVisualState_highlights_closest_face_witness :
  let camera :=
    BABYLON.mkArcRotateCamera (2 * JS.Math_PI + (1 # 10)) (3 # 10) 5
      (BABYLON.mkVector3 0 0 0) in
  let buttons := ViewCubeGrid.updateVisualState camera ViewCubeGrid.createFaceButtons in
  Qabs (BABYLON.alpha camera) <= 1000
  /\ In ("Z+"%string, (0, 1 # 10)) ViewCubeGrid.FACE_ORIENTATIONS
  /\ Qabs (ViewCubeGrid.normalizeAngle (0 - BABYLON.alpha camera))
     + Qabs ((1 # 10) - BABYLON.beta camera) <= 49 # 100
  /\ forall name button,
       In (name, button) buttons -> ViewCubeGrid.highlighted button = String.eqb name "Z+".
Proof.
  cbv zeta.
  assert (Hsize : Qabs (BABYLON.alpha
                          (BABYLON.mkArcRotateCamera (2 * JS.Math_PI + (1 # 10)) (3 # 10) 5
                             (BABYLON.mkVector3 0 0 0))) <= 1000)
    by (vm_compute; discriminate).
  assert (Hface : In ("Z+"%string, (0, 1 # 10)) ViewCubeGrid.FACE_ORIENTATIONS)
    by (do 4 right; left; reflexivity).
  assert (Hnear : Qabs (ViewCubeGrid.normalizeAngle
                          (0 - BABYLON.alpha
                                 (BABYLON.mkArcRotateCamera (2 * JS.Math_PI + (1 # 10))
                                    (3 # 10) 5 (BABYLON.mkVector3 0 0 0))))
                  + Qabs ((1 # 10)
                          - BABYLON.beta
                              (BABYLON.mkArcRotateCamera (2 * JS.Math_PI + (1 # 10))
                                 (3 # 10) 5 (BABYLON.mkVector3 0 0 0)))
                  <= 49 # 100)
    by (vm_compute; discriminate).
  destruct (updateVisualState_highlights_closest_face
              (BABYLON.mkArcRotateCamera (2 * JS.Math_PI + (1 # 10)) (3 # 10) 5
                 (BABYLON.mkVector3 0 0 0))
              ViewCubeGrid.createFaceButtons Hsize) as (_ & _ & Hclose & _).
  split; [exact Hsize|]. split; [exact Hface|]. split; [exact Hnear|].
  exact (Hclose "Z+"%string (0, 1 # 10) Hface Hnear).
Defined.

(** The button Z+ pressed, the 30 frames run, the buttons brought up to
    date. *)
Lemma pressed_face_button_is_highlighted_witness :
  ViewCubeGizmo.lookup ViewCubeGrid.FACE_ORIENTATIONS "Z+" = Some (0, 1 # 10)
  /\ (29 <= 29)%nat
  /\ exists first a camera',
       ViewCubeGrid.rotateCameraToFace "Z+" Demo.orbited = ViewCubeGrid.Animating first
       /\ ViewCubeGrid.requestAnimationFrames 29 (fun _ camera => camera) first
          = (a, camera', false)
       /\ forallb
            (fun entry =>
               Bool.eqb (ViewCubeGrid.highlighted (snd entry)) (String.eqb (fst entry) "Z+"))
            (ViewCubeGrid.updateVisualState camera' ViewCubeGrid.createFaceButtons)
          = true.
Proof.
  split; [reflexivity|]. split; [apply le_n|].
  destruct (pressed_face_button_is_highlighted "Z+" 0 (1 # 10) Demo.orbited
              (fun _ camera => camera) ViewCubeGrid.createFaceButtons 29 eq_refl (le_n _))
    as (first & a & camera' & E & E' & H).
  exists first, a, camera'. split; [exact E|]. split; [exact E'|].
  apply forallb_forall. intros [name button] Hin. cbn [fst snd].
  rewrite (H name button Hin). apply Bool.eqb_reflx.
Defined.

(** ** Framing and picking *)

(** The arm, its five unit cubes at the origin. *)
Lemma frameModel_encloses_robot_witness :
  scene Demo.armScene = true
  /\ currentRobot Demo.armScene = Some (0%nat, Demo.create Demo.arm)
  /\ robotMeshes (Demo.create Demo.arm) <> []
  /\ exists framed,
       camera (frameModel Demo.armScene) = Some framed
       /\ 1 <= BABYLON.radius framed
       /\ savedFramingRadius (frameModel Demo.armScene) = BABYLON.radius framed.
Proof.
  assert (Hcam : exists cam, camera Demo.armScene = Some cam)
    by (eexists; vm_compute; reflexivity).
  destruct Hcam as [cam Hcam].
  assert (Hmeshes : robotMeshes (Demo.create Demo.arm) <> [])
    by (vm_compute; discriminate).
  destruct (frameModel_encloses_robot Demo.armScene) as [_ H].
  destruct (H cam 0%nat (Demo.create Demo.arm) eq_refl Hcam eq_refl Hmeshes)
    as (framed & E & _ & _ & Hradius & _ & _ & _ & _ & Hsaved).
  split; [reflexivity|]. split; [reflexivity|]. split; [exact Hmeshes|].
  exists framed. split; [exact E|]. split; [exact Hradius | exact Hsaved].
Defined.

(** The upper arm picked a second time. *)
Lemma repick_keeps_gizmo_and_clears_status_witness :
  let s := castRay (Some (Demo.meshUnder 1)) Demo.armScene in
  let s' := castRay (Some (Demo.meshUnder 1)) s in
  resolvedJoint (Some (Demo.meshUnder 1)) s = Some ("shoulder"%string, Demo.shoulder)
  /\ hoveredJoint s = Some (0%nat, "shoulder"%string)
  /\ planeRotationGizmo s' = planeRotationGizmo s
  /\ liveExerciseGizmos s' = liveExerciseGizmos s
  /\ hoveredJoint s' = Some (0%nat, "shoulder"%string).
Proof.
  cbv zeta.
  assert (Hcam : exists cam,
             camera (castRay (Some (Demo.meshUnder 1)) Demo.armScene) = Some cam)
    by (eexists; vm_compute; reflexivity).
  destruct Hcam as [cam Hcam].
  assert (Hjoint : resolvedJoint (Some (Demo.meshUnder 1))
                     (castRay (Some (Demo.meshUnder 1)) Demo.armScene)
                   = Some ("shoulder"%string, Demo.shoulder))
    by (vm_compute; reflexivity).
  assert (Hhover : hoveredJoint (castRay (Some (Demo.meshUnder 1)) Demo.armScene)
                   = Some (0%nat, "shoulder"%string))
    by (vm_compute; reflexivity).
  assert (Hrobot : currentRobot (castRay (Some (Demo.meshUnder 1)) Demo.armScene)
                   = Some (0%nat, Demo.create Demo.arm))
    by (vm_compute; reflexivity).
  assert (Hscene : scene (castRay (Some (Demo.meshUnder 1)) Demo.armScene) = true)
    by (vm_compute; reflexivity).
  pose proof (repick_keeps_gizmo_and_clears_status
                (castRay (Some (Demo.meshUnder 1)) Demo.armScene) (Demo.meshUnder 1) cam
                0%nat (Demo.create Demo.arm) "shoulder" Demo.shoulder
                Hscene Hcam Hrobot Hjoint Hhover) as H.
  cbv zeta in H. destruct H as (Hrot & _ & Hlive & Hkept & _).
  split; [exact Hjoint|]. split; [exact Hhover|]. split; [exact Hrot|].
  split; [exact Hlive | exact Hkept].
Defined.

(** A pointer-down beside the arm while its shoulder is selected, and one
    before the scene has been created. *)
Lemma pick_on_nothing_keeps_selection_witness :
  let s := castRay (Some (Demo.meshUnder 1)) Demo.armScene in
  scene s = true
  /\ camera s <> None
  /\ hoveredJoint (castRay None s) = hoveredJoint s
  /\ planeRotationGizmo (castRay None s) = planeRotationGizmo s
  /\ scene (newRobotScene Desktop) = false
  /\ castRay (Some (Demo.meshUnder 1)) (newRobotScene Desktop) = newRobotScene Desktop.
Proof.
  cbv zeta.
  assert (Hscene : scene (castRay (Some (Demo.meshUnder 1)) Demo.armScene) = true)
    by (vm_compute; reflexivity).
  assert (Hcam : camera (castRay (Some (Demo.meshUnder 1)) Demo.armScene) <> None)
    by (vm_compute; discriminate).
  destruct (pick_on_nothing_keeps_selection
              (castRay (Some (Demo.meshUnder 1)) Demo.armScene) None) as [_ H].
  destruct (H Hscene Hcam (or_introl eq_refl)) as (_ & _ & Hrot & _ & _ & Hhover).
  destruct (pick_on_nothing_keeps_selection (newRobotScene Desktop)
              (Some (Demo.meshUnder 1))) as [Hnone _].
  split; [exact Hscene|]. split; [exact Hcam|]. split; [exact Hhover|].
  split; [exact Hrot|]. split; [reflexivity|]. exact (Hnone (or_introl eq_refl)).
Defined.

(** In the arm: a mesh under the transform of the shoulder, and a mesh under
    no joint and in no link. *)
Lemma findJoint_precedence_witness :
  let robot := Demo.create Demo.arm in
  let entry := ("shoulder"%string, Demo.shoulder) in
  Robot.joints robot = [] ++ entry :: tl (Robot.joints robot)
  /\ isDirectParent (Demo.meshUnder 1) entry = true
  /\ fst (findJoint robot (Demo.meshUnder 1)) = Some entry
  /\ fst (findJoint robot (Demo.meshUnder 99)) = None.
Proof.
  cbv zeta.
  destruct (findJoint_precedence (Demo.create Demo.arm) (Demo.meshUnder 1) []
              (tl (Robot.joints (Demo.create Demo.arm))) ("shoulder"%string, Demo.shoulder))
    as (Hparent & _ & _).
  destruct (findJoint_precedence (Demo.create Demo.arm) (Demo.meshUnder 99) []
              (tl (Robot.joints (Demo.create Demo.arm))) ("shoulder"%string, Demo.shoulder))
    as (_ & _ & Hnone).
  assert (Hjoints : Robot.joints (Demo.create Demo.arm)
                    = [] ++ ("shoulder"%string, Demo.shoulder)
                         :: tl (Robot.joints (Demo.create Demo.arm)))
    by (vm_compute; reflexivity).
  assert (Hdirect : isDirectParent (Demo.meshUnder 1) ("shoulder"%string, Demo.shoulder)
                    = true)
    by (vm_compute; reflexivity).
  split; [exact Hjoints|]. split; [exact Hdirect|]. split.
  - apply (Hparent Hjoints Hdirect). vm_compute. reflexivity.
  - apply Hnone; vm_compute; reflexivity.
Defined.

(** ** Loading *)

(** A text sent by the host before the scene has been created. *)
Lemma applyURDF_reports_to_host_or_console_witness :
  let s := newRobotScene Desktop in
  let s' := applyURDF Demo.deserializeUrdfToRobot Demo.create "<robot name='arm'>" true s in
  scene s = false
  /\ currentRobot s' = None
  /\ posted s' = posted s ++ [("trace", "loading urdf"); ("trace", "loaded urdf")]%string
  /\ consoleErrors s' = consoleErrors s ++ [].
Proof.
  pose proof (applyURDF_reports_to_host_or_console Demo.deserializeUrdfToRobot Demo.create
                (newRobotScene Desktop) "<robot name='arm'>" true) as H.
  cbv zeta in *. destruct H as (Hposted & Herrors & Hnone).
  split; [reflexivity|]. split; [exact (proj1 (Hnone eq_refl))|].
  split; [exact Hposted | exact Herrors].
Defined.

(** The pedestal loaded, a pointer-down coming between the call and its
    continuation, then the arm. *)
Lemma robots_disposed_exactly_once_witness :
  let pedestal := "<robot name='pedestal'>"%string in
  let arm := "<robot name='arm'>"%string in
  let state :=
    Demo.runTasks Demo.desktop
      [Call pedestal false; Happen (PointerDown None); Settle pedestal false;
       Call arm false; Settle arm false] in
  awaited Demo.deserializeUrdfToRobot Demo.create state
  /\ robotsAllocated (fst state) = 2%nat
  /\ NoDup (disposedRobots (fst state))
  /\ ~ In 1%nat (disposedRobots (fst state))
  /\ In 0%nat (disposedRobots (fst state)).
Proof.
  intros pedestal arm state.
  set (D := Demo.deserializeUrdfToRobot). set (C := Demo.create).
  set (s1 := applyURDF_call pedestal false Demo.desktop).
  set (s2 := step D C s1 (PointerDown None)).
  set (s3 := applyURDF_settled D C pedestal false s2).
  set (s4 := applyURDF_call arm false s3).
  set (s5 := applyURDF_settled D C arm false s4).
  assert (E1 : taskStep D C (Demo.desktop, []) (Call pedestal false) = (s1, [(pedestal, false)]))
    by (vm_compute; reflexivity).
  assert (E2 : taskStep D C (s1, [(pedestal, false)]) (Happen (PointerDown None))
               = (s2, [(pedestal, false)])) by reflexivity.
  assert (E3 : taskStep D C (s2, [(pedestal, false)]) (Settle pedestal false) = (s3, []))
    by (vm_compute; reflexivity).
  assert (E4 : taskStep D C (s3, []) (Call arm false) = (s4, [(arm, false)]))
    by (vm_compute; reflexivity).
  assert (E5 : taskStep D C (s4, [(arm, false)]) (Settle arm false) = (s5, []))
    by (vm_compute; reflexivity).
  assert (E : state = (s5, [])) by (vm_compute; reflexivity).
  assert (H5 : awaited D C (s5, [])).
  { rewrite <- E5. apply awaited_settle. rewrite <- E4. apply awaited_call.
    rewrite <- E3. apply awaited_settle. rewrite <- E2.
    apply (awaited_happen (deserializeUrdfToRobot := D) (create := C)
             (s := s1) (suspended := [(pedestal, false)]) (PointerDown None)); [|exact I].
    rewrite <- E1. apply awaited_call. exact (awaited_created D C Desktop). }
  rewrite E. cbn [fst].
  split; [exact H5|].
  destruct robots_disposed_exactly_once as [Hinv _].
  destruct (Hinv D C s5 [] H5) as (Hnodup & Hcurrent & Hall & _).
  split; [vm_compute; reflexivity|]. split; [exact Hnodup|]. split.
  - apply (Hcurrent 1%nat (Demo.create Demo.arm)). vm_compute. reflexivity.
  - destruct (Hall 0%nat) as [Hin | [robot Hrobot]].
    + vm_compute. lia.
    + exact Hin.
    + vm_compute in Hrobot. discriminate Hrobot.
Defined.

(** The shell with a listener: its mesh reports half, then completes. *)
Lemma progress_reports_within_bounds_witness :
  let events :=
    [MeshLoadProgress "mesh_0" (BABYLON.mkProgressEvent true 50 100);
     MeshLoadComplete "mesh_0"] in
  let state :=
    Demo.runTasks Demo.listening
      [Call "<robot name='shell'>" false; Settle "<robot name='shell'>" false;
       Happen (MeshLoadProgress "mesh_0" (BABYLON.mkProgressEvent true 50 100));
       Happen (MeshLoadComplete "mesh_0")] in
  edition Demo.listening = Desktop
  /\ scene Demo.listening = true
  /\ ownEvents (meshIds 1) events = true
  /\ forallb wellFormed events = true
  /\ exists new,
       progressReports (fst state) = progressReports Demo.listening ++ new
       /\ Forall (withinBounds 1) new.
Proof.
  pose proof (proj1 progress_reports_within_bounds
                Demo.deserializeUrdfToRobot Demo.create
                Demo.listening [] "<robot name='shell'>"%string false Demo.shell
                [MeshLoadProgress "mesh_0" (BABYLON.mkProgressEvent true 50 100);
                 MeshLoadComplete "mesh_0"]
                eq_refl eq_refl eq_refl eq_refl eq_refl) as H.
  cbv zeta in *. destruct H as (new & E & Hbounds).
  split; [reflexivity|]. split; [reflexivity|]. split; [reflexivity|].
  split; [reflexivity|]. exists new. split; [exact E|].
  apply Forall_forall. exact Hbounds.
Defined.


(** ** Overlays *)

(** The metre labels asked for on a fresh scene. *)
Lemma toggleGridUnits_shows_one_unit_witness :
  let o' := Overlay.toggleGridUnits "1m" Demo.desktop Overlay.new in
  scene Demo.desktop = true
  /\ Overlay.gridUnitsVisible o' = true
  /\ List.length (Overlay.gridUnitLabels o') = 125%nat
  /\ Overlay.currentGridUnit o' = "1m"%string
  /\ Overlay.loopValues (Overlay.rounds 1 25 1 + 3) 1 25 1
     = Overlay.loopValues (Overlay.rounds 1 25 1) 1 25 1.
Proof.
  pose proof (toggleGridUnits_shows_one_unit "1m" Demo.desktop Overlay.new eq_refl) as H.
  cbv zeta in *. destruct H as (Hvisible & Hlength & Hunit & _ & _ & _ & _ & _ & Hloop).
  split; [reflexivity|]. split; [exact Hvisible|]. split; [exact Hlength|].
  split; [exact (Hunit eq_refl)|]. exact (Hloop 3%nat).
Defined.

(** The 10 cm labels shown, then a robot loaded. *)
Lemma applyURDF_leaves_grid_flag_witness :
  let o := Overlay.toggleGridUnits "10cm" Demo.desktop Overlay.new in
  let loaded := Overlay.applyURDF o in
  let once := Overlay.toggleGridUnits "10cm" Demo.desktop loaded in
  let twice := Overlay.toggleGridUnits "10cm" Demo.desktop once in
  Overlay.gridUnitsVisible o = true
  /\ Overlay.currentGridUnit o = "10cm"%string
  /\ Overlay.gridUnitLabels loaded = []
  /\ Overlay.gridUnitsVisible loaded = true
  /\ Overlay.gridUnitLabels once = []
  /\ List.length (Overlay.gridUnitLabels twice) = 250%nat.
Proof.
  assert (Hvisible : Overlay.gridUnitsVisible
                       (Overlay.toggleGridUnits "10cm" Demo.desktop Overlay.new) = true)
    by (vm_compute; reflexivity).
  assert (Hunit : Overlay.currentGridUnit
                    (Overlay.toggleGridUnits "10cm" Demo.desktop Overlay.new)
                  = "10cm"%string)
    by (vm_compute; reflexivity).
  pose proof (applyURDF_leaves_grid_flag "10cm" Demo.desktop
                (Overlay.toggleGridUnits "10cm" Demo.desktop Overlay.new)
                eq_refl Hvisible Hunit) as H.
  cbv zeta in *. destruct H as ((Hgone & Hflag & _) & (Honce & _) & (_ & Htwice)).
  split; [exact Hvisible|]. split; [exact Hunit|]. split; [exact Hgone|].
  split; [exact Hflag|]. split; [exact Honce | exact Htwice].
Defined.

(** The joint axes of the arm switched on and off again; the button pressed
    without a robot. *)
Lemma toggleAxisOnRobot_shows_or_clears_witness :
  let transform (_ : Visual.t) : option BABYLON.TransformNode := None in
  let shown := snd (Overlay.toggleAxisOnRobot transform true true Demo.armScene Overlay.new) in
  let cleared := snd (Overlay.toggleAxisOnRobot transform true true Demo.armScene shown) in
  currentRobot Demo.armScene = Some (0%nat, Demo.create Demo.arm)
  /\ Overlay.jointAxisList Overlay.new = []
  /\ Overlay.jointAxisList shown
     = List.map (Overlay.mkGizmo (1 # 2))
         (present (Overlay.jointTransforms (Demo.create Demo.arm)))
  /\ Overlay.jointAxisList shown <> []
  /\ Overlay.jointAxisList cleared = []
  /\ Overlay.disposedGizmos cleared = Overlay.jointAxisList shown
  /\ currentRobot Demo.desktop = None
  /\ Overlay.toggleAxisOnRobot transform true true Demo.desktop Overlay.new
     = (Demo.desktop, Overlay.new).
Proof.
  cbv zeta.
  destruct (toggleAxisOnRobot_shows_or_clears (fun _ => None) true Demo.armScene Overlay.new)
    as [_ Hshow].
  pose proof (Hshow 0%nat (Demo.create Demo.arm) eq_refl) as H1. cbv zeta in H1.
  destruct H1 as (H1 & _). destruct (H1 eq_refl) as (_ & Hlist & _ & _).
  assert (Hsome : Overlay.jointAxisList
                    (snd (Overlay.toggleAxisOnRobot (fun _ => None) true true Demo.armScene
                            Overlay.new)) <> [])
    by (vm_compute; discriminate).
  destruct (toggleAxisOnRobot_shows_or_clears (fun _ => None) true Demo.armScene
              (snd (Overlay.toggleAxisOnRobot (fun _ => None) true true Demo.armScene
                      Overlay.new)))
    as [_ Hclear].
  pose proof (Hclear 0%nat (Demo.create Demo.arm) eq_refl) as H2. cbv zeta in H2.
  destruct H2 as (_ & H2 & _). destruct (H2 Hsome) as (_ & Hjoint & _ & Hdisposed).
  destruct (toggleAxisOnRobot_shows_or_clears (fun _ => None) true Demo.desktop Overlay.new)
    as [Hnothing _].
  split; [reflexivity|]. split; [reflexivity|]. split; [exact Hlist|].
  split; [exact Hsome|]. split; [exact Hjoint|]. split.
  - rewrite Hdisposed. vm_compute. reflexivity.
  - split; [reflexivity|]. exact (Hnothing true (or_introl eq_refl)).
Defined.


(** ** Mirror and screenshots *)

(** The arm in a scene with a ground, a visible lamp, a hidden helper, a
    label of the world axis and a text plane. *)
Lemma updateMirrorReflections_render_list_witness :
  let meshes :=
    [Mirror.mkMesh 100 "box" true [1%nat];
     Mirror.mkMesh 300 "ground" true [];
     Mirror.mkMesh 301 "lamp" true [];
     Mirror.mkMesh 302 "helper" false [];
     Mirror.mkMesh 303 "tick" true [8%nat; 7%nat];
     Mirror.mkMesh 304 "TextPlane3" true []] in
  let robotIds := List.map BABYLON.meshUniqueId (robotMeshes (Demo.create Demo.arm)) in
  scene Demo.armScene = true
  /\ currentRobot Demo.armScene = Some (0%nat, Demo.create Demo.arm)
  /\ Mirror.updateMirrorReflections Demo.armScene (Some 7%nat) meshes None = None
  /\ exists renderList,
       Mirror.updateMirrorReflections Demo.armScene (Some 7%nat) meshes (Some [300%nat])
       = Some renderList
       /\ firstn (List.length robotIds) renderList = robotIds
       /\ In 301%nat renderList
       /\ ~ In 300%nat renderList
       /\ ~ In 303%nat renderList.
Proof.
  cbv zeta.
  set (meshes := [Mirror.mkMesh 100 "box" true [1%nat]; _; _; _; _; _]).
  destruct (updateMirrorReflections_render_list Demo.armScene (Some 7%nat) meshes None)
    as [Hnone _].
  destruct (updateMirrorReflections_render_list Demo.armScene (Some 7%nat) meshes
              (Some [300%nat])) as [_ Hlist].
  destruct (Hlist 0%nat (Demo.create Demo.arm) [300%nat] eq_refl eq_refl eq_refl)
    as (renderList & E & _ & Hfirst & Hin & _).
  split; [reflexivity|]. split; [reflexivity|].
  split; [exact (Hnone (or_intror (or_intror eq_refl)))|].
  exists renderList. split; [exact E|]. split; [exact Hfirst|]. split; [|split].
  - apply Hin. right. exists (Mirror.mkMesh 301 "lamp" true []).
    split; [vm_compute; tauto|]. split; reflexivity.
  - intro H. apply Hin in H. destruct H as [H | (m & Hm & Hid & Href)].
    + vm_compute in H. intuition discriminate.
    + vm_compute in Hm.
      destruct Hm as [<- | [<- | [<- | [<- | [<- | [<- | []]]]]]];
        vm_compute in Hid, Href; discriminate.
  - intro H. apply Hin in H. destruct H as [H | (m & Hm & Hid & Href)].
    + vm_compute in H. intuition discriminate.
    + vm_compute in Hm.
      destruct Hm as [<- | [<- | [<- | [<- | [<- | [<- | []]]]]]];
        vm_compute in Hid, Href; discriminate.
Defined.

(** A screenshot of the arm at the size of an 800 by 600 canvas, the utility
    layer shown. *)
Lemma takeScreenshot_round_trip_witness :
  let render (width height : Q) := "data:image/png;base64,iVBORw0KGgo"%string in
  let layers := Screenshot.mkLayers (Some true) None in
  let url :=
    Screenshot.takeScreenshotDataURL Demo.armScene true (Some (800, 600)) render layers
      None (Some 0) in
  noComma "data:image/png;base64"
  /\ noComma "iVBORw0KGgo"
  /\ fst url = Screenshot.Resolves (Some "data:image/png;base64,iVBORw0KGgo"%string)
  /\ snd url = layers
  /\ Screenshot.targetSize (Some 0) (Some 600) = 600
  /\ fst (Screenshot.takeScreenshot (newRobotScene Desktop) true (Some (800, 600)) render
            layers None None)
     = Screenshot.Throws "Scene, engine, or camera not initialized".
Proof.
  cbv zeta.
  assert (Hheader : noComma "data:image/png;base64")
    by (intro H; vm_compute in H; intuition discriminate).
  assert (Hpayload : noComma "iVBORw0KGgo")
    by (intro H; vm_compute in H; intuition discriminate).
  pose proof (takeScreenshot_round_trip Demo.armScene true (Some (800, 600))
                (fun _ _ => "data:image/png;base64,iVBORw0KGgo"%string)
                (Screenshot.mkLayers (Some true) None) None (Some 0)) as H.
  cbv zeta in H. destruct H as (_ & Hlayers & _ & _ & Hdata).
  destruct (Hdata eq_refl) as (_ & Hone & _).
  destruct (Hone "data:image/png;base64"%string "iVBORw0KGgo"%string Hheader Hpayload
              eq_refl) as [_ Hurl].
  pose proof (takeScreenshot_round_trip (newRobotScene Desktop) true (Some (800, 600))
                (fun _ _ => "data:image/png;base64,iVBORw0KGgo"%string)
                (Screenshot.mkLayers (Some true) None) None None) as H'.
  cbv zeta in H'. destruct H' as (_ & _ & Hthrows & _).
  split; [exact Hheader|]. split; [exact Hpayload|]. split; [exact Hurl|].
  split; [exact Hlayers|]. split; [reflexivity|]. exact (proj1 (Hthrows eq_refl)).
Defined.
